(* ===== verification/_CoqProject ===== *)
-Q . S2P
Prelude.v
Text.v
Json.v
Digest.v
Canonical.v
Contracts.v
Effects.v
Permits.v
Policy.v
ActionStore.v
Broker.v
BrokerSafety.v
BrokerAuthority.v
Walkthrough.v
PolicyTheorems.v
BrokerTheorems.v
Reasoning.v
Budget.v
BudgetSafety.v
BudgetTheorems.v
ReasoningTheorems.v
Investigation.v
InvestigationSafety.v
InvestigationTheorems.v
Incidents.v
IncidentsTheorems.v
Identity.v
IdentityTheorems.v
Baseline.v
BaselineTheorems.v
Deployment.v
DeploymentTheorems.v
Traffic.v
TrafficTheorems.v
Host.v
Api.v
HostSafety.v
HostTheorems.v
SurfaceTheorems.v
Diagnostics.v
SandboxModels.v
Sandbox.v
Recipes.v
Scenario.v
DiagnosticsTheorems.v
Artifacts.v
Context.v
Registry.v
Runtime.v
Wire.v
Adapters.v
Records.v
Loop.v
LoopSafety.v
LoopOutcome.v
LoopStory.v
LoopTheorems.v
AdaptersTheorems.v
SandboxTheorems.v
RunnerSafety.v
RunnerTheorems.v
Numbers.v
Normalize.v
Windows.v
Spans.v
Retrieval.v
KubeReads.v
Reads.v
Collect.v
Traces.v
EvidenceStory.v
EvidenceCodec.v
Archive.v
Evaluation.v
EvidenceTheorems.v
RetrievalTheorems.v
ReadsTheorems.v
WindowTheorems.v
SpanTheorems.v
TraceTheorems.v
