(* ===== verification/Prelude.v ===== *)
(** * PayOps verification library

    PayOps investigates incidents of a synthetic payment system with a bounded agent, and
    changes a cluster only through an approved, audited action.  This library models its
    Python sources (under [src/src/payops/]) and proves what makes them correct.

    ** How the program is modelled

    Code that only computes is a Coq function, with [result], an exception or a value, where
    it can raise.  Code that talks to a database, files, a clock, a thread pool, HTTP, kubectl
    or a caller's callback is a program of [Effects]: a finite tree of requests, each atomic,
    whose answers, exceptions included, come from outside.  Between two requests is ordinary
    computation.  A system is any number of such programs over a shared state, started and
    lost at any moment and interleaved at every request ([pool_step], [reachable]); theorems
    about several workers quantify over the reachable states.  Theorems about one worker
    quantify over everything that may be answered ([runs]).

    Protocols are proved once and instantiated by the parts: [Permits] (an effect behind a claim
    that one worker can win happens at most once; what a worker has read and nobody can undo;
    who holds a lock is alone with what it protects), and the program logics of [Effects]
    ([hoare] over histories, [wp] for assume and guarantee, [costs] for the number of requests
    of a kind).

    ** The parts, and how they interact

    Foundations: [Prelude] (results, exceptions, order of comparisons, notations, hints),
    [Text] (str methods), [Json] (decoded JSON, binary64 floats, Python's equality), [Digest]
    (SHA-256 and canonical JSON), [Canonical] (canonical text determines the value),
    [Contracts] ([contracts/__init__.py]).

    Actions.  [Policy] (policy/contracts.py, engine.py) turns a proposal into a review;
    [ActionStore] (remediation/contracts.py, store.py) keeps actions in SQL rows that change
    by compare-and-set; [Broker] (remediation/broker.py) proposes, approves, executes and
    audits over the store, the clock and a backend.  [Deployment] (deployment.py,
    local_executor.py) and [Traffic] (traffic_control.py, managed_traffic.py) are the two
    executors, [Identity] (auth/) authenticates, [Incidents] (memory/store.py) keeps incidents
    and reports.  [Host] (backend.py) answers the broker's requests out of all these by [link],
    and [Api] (protected_api.py, remediation/api.py, slack_notifications.py,
    graphql_api.py, pubsub_worker.py) has the handlers over it.

    Investigation.  [Investigation] (orchestrator/state.py, nodes.py, graph.py) is the durable
    lifecycle; [Baseline] (baseline.py) the deterministic ranker; [Reasoning] and [Budget]
    (reasoning.py, budget.py) what a model may say and spend.  [Artifacts] and [Context]
    (evidence/artifacts.py, log_context.py, verification.py, context.py) retain evidence and
    choose what a model sees, [Diagnostics] (evidence/diagnostic*.py) says which causes it
    supports, [Registry] (tools/registry.py) reads, [Runtime] (model_runtime.py) calls the model
    through the adapters of [Adapters] and [Wire] (openai_adapter.py, local_llama.py,
    local_schema.py, openai_wire.py).  [Records] and [Loop] (loop_records.py, loop.py) put these
    together: a session is linked with the ledger, the artifacts, the runtime and the registry.

    Evidence.  [Normalize] (evidence/redact.py, normalize.py) sanitizes what was observed and
    retains it; [Numbers] has the floats and times it is made of.  [Windows] (payment_window.py)
    and [Spans] (trace_span.py) derive evidence whose verification computes it again from what
    is stored, and [Retrieval] (memory/data_clients.py) cites it.  [KubeReads], [Reads] and
    [Collect] (tools/kubernetes.py; payment.py, operational_reads.py; prometheus.py, collect.py,
    window_collect.py) are the clients that observe: [Reads] gives the read registry its
    authorization, its reads and its verification, and [derived_evidence] of [Retrieval] the
    checks [Artifacts] and [Context] ask for as [SourceChecks].  [Traces] (tools/traces.py)
    collects span logs under its own budget, [Archive] (evidence/gcs.py) copies evidence to a
    bucket and back, and [Evaluation] (evaluation/) scores replays of recorded outputs.

    Experiments.  [SandboxModels] and [Sandbox] (sandbox/) are the synthetic services;
    [Recipes] and [Scenario] (scenarios/contracts.py, recipes.py, runner.py, memory.py,
    memory_provenance.py) inject faults into them and restore.

    ** What the theorems show

    - [BrokerTheorems], [PolicyTheorems]: a dispatched action was authorized, approved by
      somebody else, claimed once, and its outcome is recorded; the review is exactly the
      conjunction of the guards; action texts parse back.
    - [HostTheorems], [DeploymentTheorems], [TrafficTheorems], [SurfaceTheorems],
      [IdentityTheorems], [IncidentsTheorems]: the same through all layers down to the patch;
      the patch is conditional on what was read and touches one field; polling ends; a pause is
      final; what is published or acknowledged was authorized, then stored, in that order.
    - [InvestigationTheorems], [BudgetTheorems], [ReasoningTheorems], [BaselineTheorems]:
      bounded attempts and charges under crashes and resumption, investigations that end, with
      every failure accounted for, one grant per operation, grounded decisions and rankings.
    - [LoopTheorems], [AdaptersTheorems], [DiagnosticsTheorems]: one provider call and one
      read per reservation, no generation without consent for the exact count, and published
      causes that their evidence supports.
    - [EvidenceTheorems], [WindowTheorems], [SpanTheorems]: what is persisted holds no value
      under a sensitive key and no credential in a text, and is read back; a verified window is the arithmetic of two
      stored snapshots; every object and stray line of a log is counted once.
    - [TraceTheorems]: a span graph is summarized exactly when it is one, and a cycle is
      reported; every log kept comes from a container of the deployment, the same before and after; the commands stay reserved.
    - [Archive], [Evaluation]: what was archived can be restored and nothing is overwritten;
      pointers round-trip, recall keeps every case, an audit counts only citations whose
      source bytes were read again.
    - [RetrievalTheorems], [ReadsTheorems]: verified retrieval is a bounded chain of citations
      that ends in an original artifact of its scope, and so is what the cache returns; reads
      return fresh evidence of their own incident, within the reads their plan declares, and
      only ever run reading commands.
    - [SandboxTheorems], [RunnerTheorems]: a sample is executed once, work is bounded, one
      scenario at a time, and its latch is removed only after restoration.

    The files [*Safety], [BrokerAuthority] and [LoopOutcome] hold the lemmas these rest on;
    [Walkthrough], [HostSafety], [LoopStory] and [EvidenceStory] (with the codec of
    [EvidenceCodec]) concrete instances, on which every theorem with hypotheses is applied.

    ** Parameters

    Code that is not in the repository is an argument, usually a class: text of values
    ([PyText], [PydanticText], [RunnerText], [WireText], [JsonLoads], [IntText], [ObjectText],
    [StampText]), parsers ([ModelText], [UrlText], [DecisionText], [Instants], [LaxFloat],
    [ActionCodec], [IncidentCodec], [BudgetCodec], [LoopCodec]), pydantic's generated schemas
    ([Schemas]), families and names of driver exceptions ([ExceptionNames], [DriverErrors],
    [ErrorNames]), the Admin SDK ([IdentitySource]) and the GraphQL engine. [ArtifactOps],
    [SourceChecks] and [Blob] are interfaces between parts.  Laws of codecs (a text written is
    read back) are hypotheses of the theorems that need them, and hold for the instances of the
    concrete stories.

    ** Bounds

    Fuel appears where a loop of the source ends by a clock or by what it is sent: polling of a
    rollout, the waits of a scenario, and
    recursion LangGraph limits ([recursion_limit] 16, which five nodes never reach).  Where
    fuel runs out a program raises, so no theorem gains from it.  [polling_ends] shows how much is
    enough for a rollout where the clock advances: one test for each second from the first
    reading to the deadline, and one more; further fuel then changes nothing.  A host
    is given the number, [poll_fuel].  [read_body] has one round per byte it may accept, which is enough
    because a chunk has at least one byte, and so have [read_parts], [snapshot_chunks] and
    [vector_chunks].  The traversal of citations has nine rounds, of which the source's own
    limit leaves the last unused (proved), and the walk to the ancestors of a span one round per
    span, which is enough (proved).  [inline] counts the interpreter's frames.

    ** Conventions and limits

    Labels in requests ([for_key], [for_op], the run of an [SReplace]) name the caller for the
    theorems and change nothing.  A method that runs in a worker thread is a program of its
    own; futures and slots are answers of the pool.  Strings are ASCII, so that lengths in
    characters and in bytes agree.  Tracing spans and metrics that nothing reads are left out.

    ** Not modelled

    The specialised fault harnesses and their gateways (scenarios/), the readers of cloud
    services (tools/gke_mcp.py, cloud_observability.py), the bounded subprocess of
    tools/traces.py, the SQL pool and the Redis and HTTP transports (memory/data_clients.py),
    the process entry points and wiring (operator_host.py, operator_config.py, cli.py), the
    runs of the evaluation and the scripts: clients of third-party services, or drivers of the
    modelled parts. *)

From stdpp Require Export base tactics list list_numbers gmap strings sets sorting.
From Stdlib Require Export ZArith Lia.

#[export] Set Default Goal Selector "!".

(** ** Exceptions

    Python exceptions raised by the modelled code, one constructor per class the
    code raises or catches by name.  [OtherError] stands for every other
    [Exception] subclass an external collaborator may raise. *)
Inductive exn : Type :=
  | ValueError (msg : string)
  | EvidenceIntegrityError (msg : string)
  | IdempotencyConflict (msg : string)
  | PermissionError (msg : string)
  | AuthenticationDenied (msg : string)
  | OSError (msg : string)
  | TimeoutError (msg : string)
  | KeyError (key : string)
  | TransitionConflict (msg : string)
  | BudgetConflict (msg : string)
  | RuntimeError (msg : string)
  | AssertionError
  | IntegrityError
  | HTTPException (status : Z) (detail : string)
  | OtherError (msg : string).

#[export] Instance exn_eq_dec : EqDecision exn.
Proof. solve_decision. Defined.

(** [isinstance(e, ValueError)]: [EvidenceIntegrityError] and
    [IdempotencyConflict] are declared as subclasses. *)
Definition is_ValueError (e : exn) : bool :=
  match e with
  | ValueError _ | EvidenceIntegrityError _ | IdempotencyConflict _ => true
  | _ => false
  end.

Definition is_EvidenceIntegrityError (e : exn) : bool :=
  match e with EvidenceIntegrityError _ => true | _ => false end.

(** [isinstance(e, OSError)]: the builtins [PermissionError] and [TimeoutError] are subclasses. *)
Definition is_OSError (e : exn) : bool :=
  match e with
  | OSError _ | TimeoutError _ | PermissionError _ | AuthenticationDenied _ => true
  | _ => false
  end.

Definition is_TimeoutError (e : exn) : bool := match e with TimeoutError _ => true | _ => false end.

(** [AuthenticationDenied] is declared as a subclass. *)
Definition is_PermissionError (e : exn) : bool :=
  match e with PermissionError _ | AuthenticationDenied _ => true | _ => false end.

Definition is_KeyError (e : exn) : bool :=
  match e with KeyError _ => true | _ => false end.

(** ** Results of code that may raise *)
Abbreviation result A := (sum exn A).
Abbreviation Err e := (inl e) (only parsing).
Abbreviation Ok a := (inr a) (only parsing).

Definition rbind {A B} (m : result A) (f : A -> result B) : result B :=
  match m with inl e => inl e | inr a => f a end.

Arguments rbind {A B} !m f /.

(** [try: m except <p>: h] *)
Definition rcatch {A} (m : result A) (p : exn -> bool) (h : exn -> result A) : result A :=
  match m with
  | inl e => if p e then h e else inl e
  | inr a => inr a
  end.

Declare Scope result_scope.
Delimit Scope result_scope with result.
Notation "'let!' x := m 'in' k" := (rbind m (fun x => k))
  (at level 10, x pattern, m at level 100, k at level 200) : result_scope.
Notation "'check!' b 'else' e 'in' k" := (if b then k else inl e)
  (at level 10, b at level 100, e at level 100, k at level 200) : result_scope.

(** Sequential evaluation of a body over a list, stopping at the first exception. *)
Fixpoint rforeach {A} (f : A -> result unit) (l : list A) : result unit :=
  match l with
  | [] => inr tt
  | x :: l' => rbind (f x) (fun _ => rforeach f l')
  end.

Fixpoint rmap {A B} (f : A -> result B) (l : list A) : result (list B) :=
  match l with
  | [] => inr []
  | x :: l' => rbind (f x) (fun y => rbind (rmap f l') (fun ys => inr (y :: ys)))
  end.

Lemma rbind_inr {A B} (m : result A) (f : A -> result B) b :
  rbind m f = inr b <-> exists a, m = inr a /\ f a = inr b.
Proof. destruct m; cbn; naive_solver. Qed.

Lemma rforeach_inr {A} (f : A -> result unit) l :
  rforeach f l = inr tt <-> forall x, x ∈ l -> f x = inr tt.
Proof.
  induction l as [|x l IH]; cbn.
  - split; [intros _ y Hy; by apply elem_of_nil in Hy | done].
  - rewrite rbind_inr. split.
    + intros ([] & Hx & Hl) y [->|Hy]%elem_of_cons; [done|]. by apply IH.
    + intros H. exists tt. split; [apply H, list_elem_of_here|].
      apply IH. intros y Hy. by apply H, list_elem_of_further.
Qed.

(** A loop whose body raises only exceptions in [P] raises only those. *)
Lemma rforeach_inl {A} (f : A -> result unit) l e :
  rforeach f l = inl e -> exists x, x ∈ l /\ f x = inl e.
Proof.
  induction l as [|x l IH]; cbn; [done|].
  destruct (f x) as [e'|[]] eqn:Hx; cbn.
  - intros [= ->]. exists x. split; [apply list_elem_of_here|done].
  - intros (y & Hy & Hf)%IH. exists y. split; [by apply list_elem_of_further|done].
Qed.

(** ** Time

    A timezone-aware [datetime] is its number of microseconds since the epoch;
    [datetime] resolution is one microsecond, so no instant is lost.
    [(a - b).total_seconds()] compared with an integral bound is the comparison of
    the exact microsecond difference with the bound in microseconds: the division
    by 10^6 that [total_seconds] performs is correctly rounded and monotone. *)
Abbreviation datetime := Z (only parsing).
Definition seconds (n : Z) : Z := (n * 1000000)%Z.

(** [0 <= (now - t).total_seconds() <= n] *)
Definition age_within (now t : datetime) (n : Z) : bool :=
  ((0 <=? now - t) && (now - t <=? seconds n))%Z.

Lemma age_within_spec now t n :
  age_within now t n = true <-> (t <= now <= t + seconds n)%Z.
Proof. unfold age_within. rewrite andb_true_iff, !Z.leb_le. lia. Qed.

(** ** Strings

    A Python [str] is modelled on its ASCII range: one [ascii] per code point. *)
Definition str_len (s : string) : Z := Z.of_nat (String.length s).

Definition ascii_between (lo hi : nat) (c : Ascii.ascii) : bool :=
  let n := Ascii.nat_of_ascii c in (lo <=? n)%nat && (n <=? hi)%nat.

Definition is_lower_hex (c : Ascii.ascii) : bool :=
  ascii_between 97 102 c || ascii_between 48 57 c.

Definition is_digit (c : Ascii.ascii) : bool := ascii_between 48 57 c.

(** [\w] on ASCII *)
Definition is_word (c : Ascii.ascii) : bool :=
  ascii_between 97 122 c || ascii_between 65 90 c || is_digit c || ascii_between 95 95 c.

Fixpoint str_all (p : Ascii.ascii -> bool) (s : string) : bool :=
  match s with
  | EmptyString => true
  | String c s' => p c && str_all p s'
  end.

(** [sub in s] *)
Fixpoint str_contains (sub s : string) : bool :=
  String.prefix sub s ||
  match s with
  | EmptyString => false
  | String _ s' => str_contains sub s'
  end.

(** ** Bounds and lengths *)

(** [Field(ge=lo, le=hi)] *)
Definition between (lo hi z : Z) : bool := (lo <=? z)%Z && (z <=? hi)%Z.
Definition len {A} (l : list A) : Z := Z.of_nat (length l).
Definition is_nonempty {A} (l : list A) : bool := match l with [] => false | _ => true end.
(** [sum(f(x) for x in l)] *)
Definition sum_of {A} (f : A -> Z) (l : list A) : Z := foldr (fun x s => f x + s)%Z 0%Z l.

Lemma between_spec lo hi z : between lo hi z = true <-> (lo <= z <= hi)%Z.
Proof. unfold between. rewrite andb_true_iff, !Z.leb_le. lia. Qed.

(** ** Booleans and equality *)
Definition eqb_of {A} `{EqDecision A} (x y : A) : bool := bool_decide (x = y).
Declare Scope py_scope.
Delimit Scope py_scope with py.
Notation "x == y" := (eqb_of x y) (at level 70, no associativity) : py_scope.
Notation "x != y" := (negb (eqb_of x y)) (at level 70, no associativity) : py_scope.
Notation "x ∈? l" := (bool_decide (x ∈ l)) (at level 70, no associativity) : py_scope.

Lemma eqb_of_true {A} `{EqDecision A} (x y : A) : eqb_of x y = true <-> x = y.
Proof. unfold eqb_of. apply bool_decide_eq_true. Qed.
Lemma eqb_of_false {A} `{EqDecision A} (x y : A) : eqb_of x y = false <-> x <> y.
Proof. unfold eqb_of. apply bool_decide_eq_false. Qed.
Lemma eqb_of_refl {A} `{EqDecision A} (x : A) : eqb_of x x = true.
Proof. by apply eqb_of_true. Qed.

(** [len(set(l)) == len(l)] *)
Definition distinct {A} `{EqDecision A} (l : list A) : bool := bool_decide (NoDup l).

Lemma eqb_of_true_1 {A} `{EqDecision A} (x y : A) : eqb_of x y = true -> x = y.
Proof. apply eqb_of_true. Qed.
Lemma eqb_of_false_1 {A} `{EqDecision A} (x y : A) : eqb_of x y = false -> x <> y.
Proof. apply eqb_of_false. Qed.

(** [if not b: return e] in a chain of guards that ends in [r]. *)
Lemma guard_none {E} (b : bool) (e : E) (r : option E) :
  (if negb b then Some e else r) = None <-> b = true /\ r = None.
Proof. destruct b; cbn; naive_solver. Qed.

Lemma guard_ok_none {E} (b : bool) (e : E) (r : result (option E)) :
  (if negb b then inr (Some e) else r) = inr None <-> b = true /\ r = inr None.
Proof. destruct b; cbn; naive_solver. Qed.

Lemma rcatch_none {E} (m : result (option E)) p (e : E) :
  rcatch m p (fun _ => inr (Some e)) = inr None <-> m = inr None.
Proof. destruct m as [x|]; cbn; [destruct (p x)|]; naive_solver. Qed.

(** ** Automation *)

Create HintDb payops discriminated.
Create Rewrite HintDb pybool.
#[export] Hint Rewrite @eqb_of_true @eqb_of_false andb_true_iff andb_false_iff
  orb_true_iff orb_false_iff negb_true_iff negb_false_iff
  Z.leb_le Z.ltb_lt Z.leb_gt Z.ltb_ge Z.eqb_eq Z.eqb_neq @bool_decide_eq_true
  @bool_decide_eq_false age_within_spec : pybool.

(** Turn boolean guards of the code into propositions, everywhere. *)
Ltac pybool := repeat (progress autorewrite with pybool in *).

(** Split on the innermost condition the code tests in a hypothesis or goal. *)
Ltac destruct_guard :=
  match goal with
  | H : context [if ?b then _ else _] |- _ => destruct b eqn:?
  | |- context [if ?b then _ else _] => destruct b eqn:?
  end.

(** Evaluate the closed equality and membership tests of a goal, such as
    [eqb_of LOG TRACE]. *)
Ltac decide_closed :=
  repeat match goal with
         | |- context [@eqb_of ?A ?D ?x ?y] =>
             let b := eval vm_compute in (@eqb_of A D x y) in
             match b with true => idtac | false => idtac end;
             change (@eqb_of A D x y) with b
         | |- context [@bool_decide ?P ?D] =>
             let b := eval vm_compute in (@bool_decide P D) in
             match b with true => idtac | false => idtac end;
             change (@bool_decide P D) with b
         end.

(** Case analysis on an equality test of the code. *)
Ltac destruct_eqb x y :=
  let H := fresh "Heq" in
  destruct (eqb_of x y) eqn:H; [apply eqb_of_true_1 in H|apply eqb_of_false_1 in H].
