(* ===== verification/Text.v ===== *)
(** * Python's text functions on ASCII

    The [str] methods and the few regular expressions the evidence parsers use, as
    structural recursions over [string]. *)

From S2P Require Import Prelude.

Open Scope string_scope.
Open Scope Z_scope.

(** [c.isspace()], which is also [\s] *)
Definition is_space (c : Ascii.ascii) : bool := ascii_between 9 13 c || ascii_between 28 32 c.

(** A line boundary of [str.splitlines] *)
Definition is_break (c : Ascii.ascii) : bool := ascii_between 10 13 c || ascii_between 28 30 c.

Definition cr : Ascii.ascii := Ascii.ascii_of_nat 13.
Definition lf : Ascii.ascii := Ascii.ascii_of_nat 10.

Definition str_snoc (s : string) (c : Ascii.ascii) : string := s +:+ String c EmptyString.

(** ** Concatenation *)

Lemma app_String a (s t : string) : String a s +:+ t = String a (s +:+ t).
Proof. done. Qed.
Lemma app_Empty (t : string) : EmptyString +:+ t = t.
Proof. done. Qed.

Lemma str_app_assoc (a b c : string) : (a +:+ b) +:+ c = a +:+ b +:+ c.
Proof. induction a as [|x a IH]; [done|]. rewrite ?app_String. cbn. by rewrite IH. Qed.

Lemma str_snoc_app p c s : str_snoc p c +:+ s = p +:+ String c s.
Proof. unfold str_snoc. induction p as [|a p IH]; [done|]. exact (f_equal (String a) IH). Qed.

(** [s.splitlines()]; [line] is the current line, [CR LF] is one boundary. *)
Fixpoint splitlines_loop (line : string) (s : string) : list string :=
  match s with
  | EmptyString => if decide (line = EmptyString) then [] else [line]
  | String c s' =>
      if is_break c then
        line :: match s' with
                | String d s'' =>
                    if bool_decide (c = cr) && bool_decide (d = lf)
                    then splitlines_loop EmptyString s'' else splitlines_loop EmptyString s'
                | EmptyString => []
                end
      else splitlines_loop (str_snoc line c) s'
  end.
Definition splitlines (s : string) : list string := splitlines_loop EmptyString s.

(** [s.partition(c)] when [c] occurs in [s] *)
Fixpoint partition (c : Ascii.ascii) (s : string) : option (string * string) :=
  match s with
  | EmptyString => None
  | String d s' =>
      if decide (d = c) then Some (EmptyString, s')
      else '(a, b) ← partition c s'; Some (String d a, b)
  end.

(** [s.rpartition(c)] when [c] occurs in [s] *)
Fixpoint rpartition (c : Ascii.ascii) (s : string) : option (string * string) :=
  match s with
  | EmptyString => None
  | String d s' =>
      match rpartition c s' with
      | Some (a, b) => Some (String d a, b)
      | None => if decide (d = c) then Some (EmptyString, s') else None
      end
  end.

(** [s.lstrip()] *)
Fixpoint lstrip (s : string) : string :=
  match s with
  | String c s' => if is_space c then lstrip s' else s
  | EmptyString => EmptyString
  end.

(** The longest prefix without white space, and the rest *)
Fixpoint word (s : string) : string * string :=
  match s with
  | EmptyString => (EmptyString, EmptyString)
  | String c s' =>
      if is_space c then (EmptyString, s) else let '(a, b) := word s' in (String c a, b)
  end.

(** [s.split()]; [w] is the current word. *)
Fixpoint split_loop (w : string) (s : string) : list string :=
  match s with
  | EmptyString => if decide (w = EmptyString) then [] else [w]
  | String c s' =>
      if is_space c then
        (if decide (w = EmptyString) then [] else [w]) ++ split_loop EmptyString s'
      else split_loop (str_snoc w c) s'
  end.
Definition split_words (s : string) : list string := split_loop EmptyString s.

(** [s.startswith(p)] *)
Definition starts_with (p s : string) : bool := String.prefix p s.

(** The rest of [s] after the prefix [p] *)
Fixpoint after_prefix (p s : string) : option string :=
  match p, s with
  | EmptyString, _ => Some s
  | String a p', String b s' => if decide (a = b) then after_prefix p' s' else None
  | String _ _, EmptyString => None
  end.

(** [s.isdigit()], [int(s)] of digits *)
Definition is_digits (s : string) : bool := negb (eqb_of s EmptyString) && str_all is_digit s.
Definition digit_value (c : Ascii.ascii) : Z := Z.of_nat (Ascii.nat_of_ascii c) - 48.
Fixpoint digits_value_loop (acc : Z) (s : string) : Z :=
  match s with
  | EmptyString => acc
  | String c s' => digits_value_loop (10 * acc + digit_value c) s'
  end.
Definition digits_value (s : string) : Z := digits_value_loop 0 s.

(** [s.lower()] *)
Definition lower_char (c : Ascii.ascii) : Ascii.ascii :=
  if ascii_between 65 90 c then Ascii.ascii_of_nat (Ascii.nat_of_ascii c + 32) else c.
Fixpoint lower (s : string) : string :=
  match s with EmptyString => EmptyString | String c s' => String (lower_char c) (lower s') end.

(** [tuple(dict.fromkeys(l))]: the first occurrence of each *)
Fixpoint from_keys_loop (seen : list string) (l : list string) : list string :=
  match l with
  | [] => []
  | x :: l => if decide (x ∈ seen) then from_keys_loop seen l else x :: from_keys_loop (x :: seen) l
  end.
Definition from_keys (l : list string) : list string := from_keys_loop [] l.

(** ** Facts *)

Lemma from_keys_loop_elem seen l x : x ∈ from_keys_loop seen l <-> x ∈ l /\ x ∉ seen.
Proof.
  revert seen. induction l as [|y l IH]; intros seen; cbn.
  - split; [by intros ?%elem_of_nil|by intros [?%elem_of_nil _]].
  - case_decide as Hy.
    + rewrite IH, elem_of_cons. split; [naive_solver|]. by intros [[->|?] ?].
    + rewrite !elem_of_cons, IH, elem_of_cons. split.
      * intros [->|[? ?]]; naive_solver.
      * intros [[->|?] ?]; [by left|]. destruct (decide (x = y)); naive_solver.
Qed.

Lemma from_keys_elem l x : x ∈ from_keys l <-> x ∈ l.
Proof. unfold from_keys. rewrite from_keys_loop_elem. split; [naive_solver|]. intros ?. split; [done|]. by intros ?%elem_of_nil. Qed.

Lemma from_keys_nodup l : NoDup (from_keys l).
Proof.
  unfold from_keys. generalize (@nil string) as seen. induction l as [|y l IH]; intros seen; cbn; [constructor|].
  case_decide; [done|]. constructor; [|done]. rewrite from_keys_loop_elem, elem_of_cons. naive_solver.
Qed.

Lemma from_keys_nil l : from_keys l = [] <-> l = [].
Proof.
  split; [|by intros ->]. destruct l as [|x l]; [done|]. intros Hn. exfalso.
  assert (x ∈ from_keys (x :: l)) as Hx by (apply from_keys_elem; left).
  rewrite Hn in Hx. by apply elem_of_nil in Hx.
Qed.

Lemma partition_join c s a b : partition c s = Some (a, b) -> s = a +:+ String c b.
Proof.
  revert a b. induction s as [|d s IH]; intros a b; cbn; [done|]. case_decide; [naive_solver|].
  destruct (partition c s) as [[a' b']|]; cbn; [|done]. intros [= <- <-].
  change (String d s = String d (a' +:+ String c b')). f_equal. by apply IH.
Qed.
