(* ===== verification/Json.v ===== *)
(** * JSON values as Python sees them after decoding

    [JsonValue] of the sources: [None], [bool], [int], [float], [str], [list] and
    [dict].  A dict is its list of items in insertion order; [dict_ok] says that
    no key occurs twice.  A float is an IEEE 754 binary64 number as the Standard
    Library's [spec_float], so arithmetic on it computes inside the logic. *)

From S2P Require Import Prelude.
From Stdlib Require Export SpecFloat.

#[export] Set Warnings "-register-all".

Open Scope Z_scope.

Inductive json : Type :=
  | JNull
  | JBool (b : bool)
  | JInt (z : Z)
  | JFloat (f : spec_float)
  | JStr (s : string)
  | JList (l : list json)
  | JObj (o : list (string * json)).

Abbreviation jobject := (list (string * json)) (only parsing).

(** ** Floats

    Python floats are binary64: precision 53, maximal exponent 1024. *)
Definition float_zero : spec_float := S754_zero false.

Definition float_of_Z (z : Z) : spec_float :=
  match z with
  | Z0 => float_zero
  | Zpos p => binary_normalize 53 1024 (Zpos p) 0 false
  | Zneg p => binary_normalize 53 1024 (Zneg p) 0 false
  end.

Definition float_add : spec_float -> spec_float -> spec_float := SFadd 53 1024.
Definition float_sub : spec_float -> spec_float -> spec_float := SFsub 53 1024.
Definition float_mul : spec_float -> spec_float -> spec_float := SFmul 53 1024.
Definition float_div : spec_float -> spec_float -> spec_float := SFdiv 53 1024.

(** The binary64 value of the decimal literal [n / d], correctly rounded when [n]
    and [d] are exactly representable. *)
Definition float_lit (n d : Z) : spec_float := float_div (float_of_Z n) (float_of_Z d).

Definition is_finite (f : spec_float) : bool :=
  match f with S754_zero _ | S754_finite _ _ _ => true | _ => false end.

(** [Field(ge=0, allow_inf_nan=False)] *)
Definition nonneg_finite (f : spec_float) : bool := is_finite f && SFleb float_zero f.

(** The builtin [sum] of floats: CPython's compensated (Neumaier) summation. *)
Fixpoint float_sum_loop (acc c : spec_float) (l : list spec_float) : spec_float :=
  match l with
  | [] =>
      match c with
      | S754_finite _ _ _ => float_add acc c
      | _ => acc
      end
  | x :: l =>
      let t := float_add acc x in
      let c' := if SFleb (SFabs x) (SFabs acc)
                then float_add c (float_add (float_sub acc t) x)
                else float_add c (float_add (float_sub x t) acc) in
      float_sum_loop t c' l
  end.
Definition float_sum (l : list spec_float) : spec_float := float_sum_loop float_zero float_zero l.

(** ** Induction and decidable equality *)
Section json_induction.
Context (P : json -> Prop).
Hypothesis Hnull : P JNull.
Hypothesis Hbool : forall b, P (JBool b).
Hypothesis Hint : forall z, P (JInt z).
Hypothesis Hfloat : forall f, P (JFloat f).
Hypothesis Hstr : forall s, P (JStr s).
Hypothesis Hlist : forall l, Forall P l -> P (JList l).
Hypothesis Hobj : forall o, Forall (fun kv => P kv.2) o -> P (JObj o).

Fixpoint json_ind' (j : json) : P j :=
  match j with
  | JNull => Hnull
  | JBool b => Hbool b
  | JInt z => Hint z
  | JFloat f => Hfloat f
  | JStr s => Hstr s
  | JList l =>
      Hlist l ((fix go (l : list json) : Forall P l :=
                  match l with
                  | [] => List.Forall_nil _
                  | x :: l' => @List.Forall_cons _ P x l' (json_ind' x) (go l')
                  end) l)
  | JObj o =>
      Hobj o ((fix go (o : jobject) : Forall (fun kv => P kv.2) o :=
                 match o with
                 | [] => List.Forall_nil _
                 | x :: o' => @List.Forall_cons _ (fun kv => P kv.2) x o' (json_ind' x.2) (go o')
                 end) o)
  end.
End json_induction.

#[export] Instance spec_float_eq_dec : EqDecision spec_float.
Proof. solve_decision. Defined.

Fixpoint json_eqb (x y : json) {struct x} : bool :=
  match x, y with
  | JNull, JNull => true
  | JBool a, JBool b => bool_decide (a = b)
  | JInt a, JInt b => bool_decide (a = b)
  | JFloat a, JFloat b => bool_decide (a = b)
  | JStr a, JStr b => bool_decide (a = b)
  | JList l, JList l' =>
      (fix go (l l' : list json) : bool :=
         match l, l' with
         | [], [] => true
         | a :: l, b :: l' => json_eqb a b && go l l'
         | _, _ => false
         end) l l'
  | JObj o, JObj o' =>
      (fix go (o o' : jobject) : bool :=
         match o, o' with
         | [], [] => true
         | (k, a) :: o, (k', b) :: o' => bool_decide (k = k') && json_eqb a b && go o o'
         | _, _ => false
         end) o o'
  | _, _ => false
  end.

Lemma json_eqb_spec x y : json_eqb x y = true <-> x = y.
Proof.
  revert y. induction x as [|b|z|f|s|l IH|o IH] using json_ind'; intros y; destruct y as [| | | | |l'|o'];
    cbn; rewrite ?bool_decide_eq_true; try (split; congruence).
  - transitivity (l = l'); [|split; congruence].
    revert l'. induction IH as [|x l Hx _ IHl]; intros [|y l']; try done.
    rewrite andb_true_iff, Hx, IHl. naive_solver.
  - transitivity (o = o'); [|split; congruence].
    revert o'. induction IH as [|[k x] o Hx _ IHo]; intros [|[k' y] o']; try done.
    cbn in Hx. rewrite !andb_true_iff, bool_decide_eq_true, Hx, IHo. naive_solver.
Qed.

#[export] Instance json_eq_dec : EqDecision json.
Proof.
  refine (fun x y => match json_eqb x y as b return json_eqb x y = b -> _ with
                     | true => fun H => left (proj1 (json_eqb_spec x y) H)
                     | false => fun H => right (fun E => _)
                     end eq_refl).
  apply json_eqb_spec in E. congruence.
Defined.

(** ** Dictionaries *)

(** [d.get(k)] as an option *)
Fixpoint dict_find (d : jobject) (k : string) : option json :=
  match d with
  | [] => None
  | (k', v) :: d' => if decide (k' = k) then Some v else dict_find d' k
  end.

(** [d.get(k)]: [None] when absent *)
Definition dget (d : jobject) (k : string) : json := default JNull (dict_find d k).

(** [d.get(k, v)] *)
Definition dget_or (d : jobject) (k : string) (v : json) : json := default v (dict_find d k).

(** [d[k]] *)
Definition ditem (d : jobject) (k : string) : result json :=
  match dict_find d k with Some v => Ok v | None => Err (KeyError k) end.

(** [k in d] *)
Definition dhas (d : jobject) (k : string) : bool := bool_decide (is_Some (dict_find d k)).

(** [d[k] = v], which is also the effect of [{**d, k: v}] *)
Fixpoint dset (d : jobject) (k : string) (v : json) : jobject :=
  match d with
  | [] => [(k, v)]
  | (k', v') :: d' => if decide (k' = k) then (k', v) :: d' else (k', v') :: dset d' k v
  end.

Definition dict_ok (d : jobject) : Prop := NoDup d.*1.

Lemma dict_find_dset_eq d k v : dict_find (dset d k v) k = Some v.
Proof. induction d as [|[k' v'] d IH]; cbn; repeat (case_decide; cbn); congruence. Qed.

Lemma dict_find_dset_ne d k k' v : k <> k' -> dict_find (dset d k v) k' = dict_find d k'.
Proof.
  intros Hne. induction d as [|[k0 v0] d IH]; cbn; repeat (case_decide; cbn); congruence.
Qed.

Lemma dset_dset d k v w : dset (dset d k v) k w = dset d k w.
Proof. induction d as [|[k' v'] d IH]; cbn; repeat (case_decide; cbn); congruence. Qed.

Lemma dset_keys d k v : (dset d k v).*1 = if decide (k ∈ d.*1) then d.*1 else d.*1 ++ [k].
Proof.
  induction d as [|[k' v'] d IH]; cbn [dset fmap list_fmap fst]; [done|].
  destruct (decide (k' = k)) as [->|Hne]; cbn.
  - rewrite decide_True; [done|]. apply list_elem_of_here.
  - rewrite IH. destruct (decide (k ∈ d.*1)) as [Hin|Hin].
    + rewrite decide_True; [done|]. by apply list_elem_of_further.
    + rewrite decide_False; [done|]. intros [?|?]%elem_of_cons; congruence.
Qed.

Lemma dset_ok d k v : dict_ok d -> dict_ok (dset d k v).
Proof.
  unfold dict_ok. intros H. rewrite dset_keys. case_decide; [done|].
  apply NoDup_app. split_and!; [done| |apply NoDup_singleton].
  intros x Hx ->%list_elem_of_singleton. done.
Qed.

Lemma dset_same d k v : dict_find d k = Some v -> dset d k v = d.
Proof.
  induction d as [|[k' v'] d IH]; cbn; [done|]. case_decide; [naive_solver|].
  intros. by rewrite IH.
Qed.

#[export] Hint Resolve dset_ok : payops.

(** [isinstance(value, dict)] with an empty default, and the raising variant. *)
Definition as_dict (j : json) : option jobject :=
  match j with JObj o => Some o | _ => None end.
Definition as_list (j : json) : option (list json) :=
  match j with JList l => Some l | _ => None end.
Definition as_str (j : json) : option string :=
  match j with JStr s => Some s | _ => None end.

(** [type(v) is int]: a bool is not an [int] here *)
Definition as_int (j : json) : option Z :=
  match j with JInt z => Some z | _ => None end.

(** ** Python's [==] on decoded JSON

    [True == 1 == 1.0], lists compare in order, dicts compare as maps. *)
Definition float_is_int (f : spec_float) (z : Z) : bool :=
  match f with
  | S754_zero _ => z =? 0
  | S754_infinity _ | S754_nan => false
  | S754_finite s m e =>
      let v := if s then Z.neg m else Z.pos m in
      if 0 <=? e then v * 2 ^ e =? z else v =? z * 2 ^ (- e)
  end.

Definition Z_of_bool (b : bool) : Z := if b then 1 else 0.

Fixpoint py_eq (x y : json) {struct x} : bool :=
  match x, y with
  | JNull, JNull => true
  | JBool a, JBool b => Bool.eqb a b
  | JBool a, JInt b | JInt b, JBool a => Z_of_bool a =? b
  | JInt a, JInt b => a =? b
  | JFloat f, JInt a | JInt a, JFloat f => float_is_int f a
  | JFloat f, JBool b | JBool b, JFloat f => float_is_int f (Z_of_bool b)
  | JFloat f, JFloat g => SFeqb f g
  | JStr a, JStr b => bool_decide (a = b)
  | JList l, JList l' =>
      (fix go (l l' : list json) : bool :=
         match l, l' with
         | [], [] => true
         | a :: l, b :: l' => py_eq a b && go l l'
         | _, _ => false
         end) l l'
  | JObj o, JObj o' =>
      (length o =? length o')%nat &&
      (fix go (o : jobject) : bool :=
         match o with
         | [] => true
         | (k, a) :: o =>
             match dict_find o' k with Some b => py_eq a b | None => false end && go o
         end) o
  | _, _ => false
  end.

(** ** Closed schemas *)

Definition as_object (j : json) : option jobject := match j with JObj o => Some o | _ => None end.

Definition field_str (d : list (string * json)) (k : string) : option string := dict_find d k ≫= as_str.

Fixpoint strings_of (l : list json) : option (list string) :=
  match l with
  | [] => Some []
  | JStr s :: l => ss ← strings_of l; Some (s :: ss)
  | _ :: _ => None
  end.

Definition field_strings (d : list (string * json)) (k : string) : option (list string) :=
  match dict_find d k with Some (JList l) => strings_of l | _ => None end.

(** [extra="forbid"] *)
Definition closed (d : list (string * json)) (allowed : list string) : bool :=
  forallb (fun kv => bool_decide (kv.1 ∈ allowed)) d.

(** A [tuple[T, ...]] field *)
Definition field_items {A} (item : json -> option A) (d : jobject) (k : string) : option (list A) :=
  match dict_find d k with Some (JList l) => mapM item l | _ => None end.

(** [value == "literal"] *)
Definition is_str (j : json) (s : string) : bool := py_eq j (JStr s).
Definition is_true (j : json) : bool := match j with JBool true => true | _ => false end.
Definition is_false (j : json) : bool := match j with JBool false => true | _ => false end.
Definition is_none (j : json) : bool := match j with JNull => true | _ => false end.

Lemma is_str_true j s : is_str j s = true <-> j = JStr s.
Proof.
  unfold is_str. destruct j; cbn; try (split; [done|congruence]).
  rewrite bool_decide_eq_true. naive_solver.
Qed.

(** No float in a value: its text has no [float.__repr__] in it. *)
Fixpoint float_free (j : json) : bool :=
  match j with
  | JFloat _ => false
  | JList l => (fix go (l : list json) := match l with [] => true | x :: l => float_free x && go l end) l
  | JObj o => (fix go (o : jobject) := match o with [] => true | (_, x) :: o => float_free x && go o end) o
  | _ => true
  end.

Lemma strings_of_map l : strings_of (map JStr l) = Some l.
Proof. induction l as [|s l IH]; cbn; [done|]. by rewrite IH. Qed.

(** What is read from the fields of an object *)
Lemma field_str_inv d k s : field_str d k = Some s -> dict_find d k = Some (JStr s).
Proof. unfold field_str. intros (j & -> & Hj)%bind_Some. destruct j; naive_solver. Qed.

Lemma strings_of_inv l ss : strings_of l = Some ss -> l = map JStr ss.
Proof.
  revert ss. induction l as [|[] l IH]; cbn; intros ss; try done; [by intros [= <-]|].
  intros (ss' & Hss & [= <-])%bind_Some. cbn. by rewrite (IH _ Hss).
Qed.

Lemma field_strings_inv d k ss :
  field_strings d k = Some ss -> dict_find d k = Some (JList (map JStr ss)).
Proof.
  unfold field_strings. destruct (dict_find d k) as [[]|]; try done. by intros ->%strings_of_inv.
Qed.
