(* ===== verification/Digest.v ===== *)
(** * Content digests: SHA-256 and canonical JSON text

    [hashlib.sha256(...).hexdigest()] and
    [json.dumps(value, sort_keys=True, separators=(",", ":"))] as the sources use
    them to name actions and artifacts.  Both are executable; [sha256_abc] checks
    the published test vector. *)

From S2P Require Import Prelude Json.
From stdpp Require Import pretty.

Open Scope Z_scope.

(** ** SHA-256 on 32-bit words held in [Z] *)

Definition w32 (x : Z) : Z := Z.land x 0xffffffff.
Definition rotr (n x : Z) : Z := Z.lor (Z.shiftr x n) (w32 (Z.shiftl x (32 - n))).

(** The constants of the standard are the first 32 fractional bits of the cube roots of
    the first 64 primes and of the square roots of the first 8. *)
Definition is_prime (n : Z) : bool :=
  forallb (fun d => negb (n mod d =? 0)) (seqZ 2 (n - 2)).
Definition first_primes : list Z := List.filter is_prime (seqZ 2 310).

(** The integer cube root, from the given bit downwards. *)
Fixpoint cube_root (bits : nat) (acc x : Z) : Z :=
  match bits with
  | O => acc
  | S k => let y := acc + Z.shiftl 1 (Z.of_nat k) in
           cube_root k (if y * y * y <=? x then y else acc) x
  end.

Definition sha_k : list Z :=
  Eval vm_compute in map (fun p => w32 (cube_root 40 0 (Z.shiftl p 96))) first_primes.

Definition sha_h0 : list Z :=
  Eval vm_compute in map (fun p => w32 (Z.sqrt (Z.shiftl p 64))) (take 8 first_primes).

Example sha_constants :
  length sha_k = 64%nat /\ nth 0 sha_k 0 = 0x428a2f98 /\ nth 63 sha_k 0 = 0xc67178f2 /\
  nth 0 sha_h0 0 = 0x6a09e667.
Proof. vm_compute. auto. Qed.

Definition sha_ch (x y z : Z) : Z := Z.lxor (Z.land x y) (Z.land (w32 (Z.lnot x)) z).
Definition sha_maj (x y z : Z) : Z := Z.lxor (Z.lxor (Z.land x y) (Z.land x z)) (Z.land y z).
Definition sha_S0 (x : Z) : Z := Z.lxor (Z.lxor (rotr 2 x) (rotr 13 x)) (rotr 22 x).
Definition sha_S1 (x : Z) : Z := Z.lxor (Z.lxor (rotr 6 x) (rotr 11 x)) (rotr 25 x).
Definition sha_s0 (x : Z) : Z := Z.lxor (Z.lxor (rotr 7 x) (rotr 18 x)) (Z.shiftr x 3).
Definition sha_s1 (x : Z) : Z := Z.lxor (Z.lxor (rotr 17 x) (rotr 19 x)) (Z.shiftr x 10).

(** The message schedule, latest word first. *)
Fixpoint sha_schedule (n : nat) (w : list Z) : list Z :=
  match n with
  | O => w
  | S n =>
      let at_ i := nth i w 0 in
      sha_schedule n (w32 (sha_s1 (at_ 1%nat) + at_ 6%nat + sha_s0 (at_ 14%nat) + at_ 15%nat) :: w)
  end.

Definition sha_round (h : list Z) (kw : Z * Z) : list Z :=
  match h with
  | [a; b; c; d; e; f; g; hh] =>
      let t1 := w32 (hh + sha_S1 e + sha_ch e f g + kw.1 + kw.2) in
      let t2 := w32 (sha_S0 a + sha_maj a b c) in
      [w32 (t1 + t2); a; b; c; w32 (d + t1); e; f; g]
  | _ => h
  end.

Definition sha_block (h : list Z) (block : list Z) : list Z :=
  let w := rev (sha_schedule 48 (rev block)) in
  zip_with (fun x y => w32 (x + y)) h (foldl sha_round h (zip sha_k w)).

(** Big-endian words of a byte list. *)
Fixpoint be_words (l : list Z) : list Z :=
  match l with
  | a :: b :: c :: d :: l => (((a * 256 + b) * 256 + c) * 256 + d) :: be_words l
  | _ => []
  end.

Fixpoint blocks (fuel : nat) (l : list Z) : list (list Z) :=
  match fuel, l with
  | O, _ | _, [] => []
  | S fuel, _ => take 16 l :: blocks fuel (drop 16 l)
  end.

Definition be_bytes (n : nat) (x : Z) : list Z :=
  map (fun i => Z.land (Z.shiftr x (8 * Z.of_nat i)) 255) (rev (seq 0 n)).

(** Append 0x80, zeros up to 56 mod 64, and the bit length on eight bytes. *)
Definition sha_pad (l : list Z) : list Z :=
  let n := Z.of_nat (length l) in
  l ++ [128] ++ repeat 0 (Z.to_nat ((55 - n) mod 64)) ++ be_bytes 8 (8 * n).

Definition sha256 (l : list Z) : list Z :=
  let w := be_words (sha_pad l) in
  foldl sha_block sha_h0 (blocks (length w) w).

Definition hex_digit (x : Z) : Ascii.ascii :=
  Ascii.ascii_of_nat (Z.to_nat (if x <? 10 then 48 + x else 87 + x)).

(** [n] hexadecimal digits of [x] *)
Definition hex (n : nat) (x : Z) : string :=
  fold_right (fun i s => String (hex_digit (Z.land (Z.shiftr x (4 * Z.of_nat i)) 15)) s) EmptyString
    (rev (seq 0 n)).

Fixpoint string_bytes (s : string) : list Z :=
  match s with
  | EmptyString => []
  | String c s => Z.of_nat (Ascii.nat_of_ascii c) :: string_bytes s
  end.

(** [sha256(s.encode()).hexdigest()] *)
Definition sha256_hex (s : string) : string :=
  fold_right (fun w t => String.append (hex 8 w) t) EmptyString (sha256 (string_bytes s)).

Example sha256_abc :
  sha256_hex "abc" = "ba7816bf8f01cfea414140de5dae2223b00361a396177a9cb410ff61f20015ad"%string.
Proof. vm_compute. reflexivity. Qed.

(** A message of 56 bytes pads to two blocks. *)
Example sha256_two_blocks :
  sha256_hex "abcdbcdecdefdefgefghfghighijhijkijkljklmklmnlmnomnopnopq"
  = "248d6a61d20638b8e5c026930c3e6039a33ce45964ff2167f6ecedd419db06c1"%string.
Proof. vm_compute. reflexivity. Qed.

(** ** Canonical JSON text *)

Definition chr (n : nat) : string := String (Ascii.ascii_of_nat n) EmptyString.

(** [json.encoder]'s escape tables: quote, backslash and control characters are
    always escaped, and with [ensure_ascii] everything outside [' '..'~']. *)
Definition escape_char (ensure_ascii : bool) (c : Ascii.ascii) : string :=
  let n := Ascii.nat_of_ascii c in
  let esc := fun m => String (Ascii.ascii_of_nat 92) (chr m) in
  if (n =? 34)%nat then esc 34%nat
  else if (n =? 92)%nat then esc 92%nat
  else if (n =? 10)%nat then esc 110%nat
  else if (n =? 13)%nat then esc 114%nat
  else if (n =? 9)%nat then esc 116%nat
  else if (n =? 12)%nat then esc 102%nat
  else if (n =? 8)%nat then esc 98%nat
  else if (n <? 32)%nat || (ensure_ascii && (126 <? n)%nat)
       then String.append (esc 117%nat) (hex 4 (Z.of_nat n))
  else String c EmptyString.

Fixpoint escape (ensure_ascii : bool) (s : string) : string :=
  match s with
  | EmptyString => EmptyString
  | String c s => String.append (escape_char ensure_ascii c) (escape ensure_ascii s)
  end.

Definition print_str (ensure_ascii : bool) (s : string) : string :=
  String.append (chr 34) (String.append (escape ensure_ascii s) (chr 34)).

(** [sorted(d.items())]: keys are distinct, so values are never compared. *)
Fixpoint insert_key (kv : string * json) (d : jobject) : jobject :=
  match d with
  | [] => [kv]
  | kv' :: d' => if String.leb kv.1 kv'.1 then kv :: d else kv' :: insert_key kv d'
  end.
Definition sort_keys (d : jobject) : jobject := foldr insert_key [] d.

Fixpoint sort_json (j : json) : json :=
  match j with
  | JList l => JList (map sort_json l)
  | JObj o => JObj (sort_keys (map (fun kv => (kv.1, sort_json kv.2)) o))
  | _ => j
  end.

Fixpoint join (sep : string) (l : list string) : string :=
  match l with
  | [] => EmptyString
  | [s] => s
  | s :: l => String.append s (String.append sep (join sep l))
  end.

(** The text of a float-free value with [separators=(",", ":")]; [None] when the
    value holds a float, whose [repr] is not modelled. *)
Fixpoint print_json (ensure_ascii : bool) (j : json) : option string :=
  match j with
  | JNull => Some "null"%string
  | JBool true => Some "true"%string
  | JBool false => Some "false"%string
  | JInt z => Some (pretty z)
  | JFloat _ => None
  | JStr s => Some (print_str ensure_ascii s)
  | JList l =>
      items ← (fix go (l : list json) : option (list string) :=
         match l with
         | [] => Some []
         | x :: l => s ← print_json ensure_ascii x; ss ← go l; Some (s :: ss)
         end) l;
      Some (String.append "[" (String.append (join "," items) "]"))
  | JObj o =>
      items ← (fix go (o : jobject) : option (list string) :=
         match o with
         | [] => Some []
         | (k, x) :: o =>
             s ← print_json ensure_ascii x; ss ← go o;
             Some (String.append (print_str ensure_ascii k) (String.append ":" s) :: ss)
         end) o;
      Some (String.append "{" (String.append (join "," items) "}"))
  end.

(** [json.dumps(j, sort_keys=True, separators=(",", ":"), ensure_ascii=...)] *)
Definition json_dumps (ensure_ascii : bool) (j : json) : option string :=
  print_json ensure_ascii (sort_json j).

Example dumps_sorts_and_escapes :
  json_dumps true (JObj [("b", JList [JInt (-12); JBool true; JNull]); ("a", JStr (chr 10))])
  = Some (String.append "{" (String.append (print_str true "a") (String.append ":"
     (String.append (chr 34) (String.append (chr 92) (String.append "n" (String.append (chr 34)
       (String.append "," (String.append (print_str true "b") ":[-12,true,null]}")))))))))%string.
Proof. vm_compute. reflexivity. Qed.
