(* ===== verification/Canonical.v ===== *)
(** * The canonical text of a value determines the value

    Printing is undone by reading from the left: every printed item is followed by
    what comes after it, and equal texts have equal first items and equal rests. *)

From stdpp Require Import pretty.
From S2P Require Import Prelude Json Digest.

Open Scope Z_scope.

#[local] Arguments String.append !_ _ / : simpl nomatch.

(** ** Characters and strings *)

Definition unhex (c : Ascii.ascii) : nat :=
  let n := Ascii.nat_of_ascii c in if (n <? 58)%nat then (n - 48)%nat else (n - 87)%nat.

(** The inverse of [escape_char]. *)
Definition unescape_char (s : string) : option (Ascii.ascii * string) :=
  match s with
  | String c s =>
      if (Ascii.nat_of_ascii c =? 92)%nat then
        match s with
        | String d s =>
            match Ascii.nat_of_ascii d with
            | 110%nat => Some (Ascii.ascii_of_nat 10, s)
            | 114%nat => Some (Ascii.ascii_of_nat 13, s)
            | 116%nat => Some (Ascii.ascii_of_nat 9, s)
            | 102%nat => Some (Ascii.ascii_of_nat 12, s)
            | 98%nat => Some (Ascii.ascii_of_nat 8, s)
            | 117%nat =>
                match s with
                | String _ (String _ (String h (String l s))) =>
                    Some (Ascii.ascii_of_nat (16 * unhex h + unhex l), s)
                | _ => None
                end
            | _ => Some (d, s)
            end
        | EmptyString => None
        end
      else Some (c, s)
  | EmptyString => None
  end.

Lemma unescape_escape_char e c t :
  unescape_char (String.append (escape_char e c) t) = Some (c, t).
Proof.
  destruct e, c as [[] [] [] [] [] [] [] []]; reflexivity.
Qed.

(** An escaped character never starts with the closing quote. *)
Lemma escape_char_not_quote e c t u : String.append (escape_char e c) t <> String.append (chr 34) u.
Proof.
  intros Heq. pose proof (unescape_escape_char e c t) as Hc. rewrite Heq in Hc. cbn in Hc.
  injection Hc as Hc _. subst c. by destruct e.
Qed.

Lemma append_assoc s t u :
  String.append (String.append s t) u = String.append s (String.append t u).
Proof. induction s as [|c s IH]; cbn; [done|]. by rewrite IH. Qed.

Lemma append_nil s : String.append s EmptyString = s.
Proof. induction s as [|c s IH]; cbn; [done|]. by rewrite IH. Qed.

Lemma escape_inj e s s' t t' :
  String.append (escape e s) (String.append (chr 34) t)
    = String.append (escape e s') (String.append (chr 34) t') -> s = s' /\ t = t'.
Proof.
  revert s'. induction s as [|c s IH]; intros [|c' s'].
  - by intros [= ->].
  - cbn [escape String.append]. rewrite append_assoc. intros Heq.
    by apply eq_sym, escape_char_not_quote in Heq.
  - cbn [escape String.append]. rewrite append_assoc. intros Heq.
    by apply escape_char_not_quote in Heq.
  - cbn [escape]. rewrite !append_assoc. intros Heq.
    apply (f_equal unescape_char) in Heq. rewrite !unescape_escape_char in Heq.
    injection Heq as -> Heq. by destruct (IH _ Heq) as [-> ->].
Qed.

Lemma print_str_inj e s s' t t' :
  String.append (print_str e s) t = String.append (print_str e s') t' -> s = s' /\ t = t'.
Proof.
  unfold print_str. cbn. intros [= Heq]. rewrite !append_assoc in Heq.
  by apply escape_inj in Heq.
Qed.

(** ** Numbers *)

Definition num_char (c : Ascii.ascii) : bool := is_digit c || ascii_between 45 45 c.

(** What may follow a number without being read as part of it. *)
Definition clean (t : string) : bool :=
  match t with EmptyString => true | String c _ => negb (num_char c) end.

Lemma str_all_append p s t : str_all p (String.append s t) = str_all p s && str_all p t.
Proof. induction s as [|c s IH]; cbn; [done|]. by rewrite IH, andb_assoc. Qed.

Lemma pretty_N_char_num x : num_char (pretty_N_char x) = true.
Proof. unfold pretty_N_char. by repeat case_match. Qed.

Lemma pretty_N_go_num x s : str_all num_char s = true -> str_all num_char (pretty_N_go x s) = true.
Proof.
  revert s. induction (N.lt_wf_0 x) as [x _ IH]; intros s Hs.
  assert (x = 0 \/ 0 < x)%N as [->|?] by lia; [by rewrite pretty_N_go_0|].
  rewrite pretty_N_go_step by done. apply IH; [by apply N.div_lt|].
  cbn [str_all]. by rewrite pretty_N_char_num.
Qed.

Lemma pretty_N_num (x : N) : str_all num_char (pretty x) = true.
Proof. unfold pretty, pretty_N. case_decide; [done|]. by apply pretty_N_go_num. Qed.

Lemma pretty_Z_num (z : Z) : str_all num_char (pretty z) = true.
Proof. destruct z as [|x|x]; cbn; [done|apply pretty_N_num|]. apply (pretty_N_num (N.pos x)). Qed.

Lemma pretty_Z_cons (z : Z) : exists c s, pretty z = String c s /\ num_char c = true.
Proof.
  pose proof (pretty_Z_num z) as Hn. destruct (pretty z) as [|c s] eqn:Hz.
  - exfalso. destruct z as [|x|x]; try done. revert Hz. unfold pretty, pretty_Z, pretty, pretty_positive.
    unfold pretty, pretty_N. rewrite decide_False by done.
    intros Hz. pose proof (pretty_N_go_ne_0 (N.pos x) EmptyString ltac:(done)).
    assert (forall x s, (String.length s <= String.length (pretty_N_go x s))%nat) as Hlen.
    { clear. intros x. induction (N.lt_wf_0 x) as [x _ IH]. intros s.
      assert (x = 0 \/ 0 < x)%N as [->|?] by lia; [by rewrite pretty_N_go_0|].
      rewrite pretty_N_go_step by done.
      etrans; [|apply IH; by apply N.div_lt]. cbn. lia. }
    rewrite pretty_N_go_step in Hz by lia.
    specialize (Hlen (N.pos x `div` 10)%N (String (pretty_N_char (N.pos x `mod` 10)) EmptyString)).
    rewrite Hz in Hlen. cbn in Hlen. lia.
  - exists c, s. split; [done|]. cbn in Hn. by apply andb_true_iff in Hn as [? _].
Qed.

Lemma numeral_split p s s' t t' :
  str_all p s = true -> str_all p s' = true ->
  (forall c u, t = String c u -> p c = false) -> (forall c u, t' = String c u -> p c = false) ->
  String.append s t = String.append s' t' -> s = s' /\ t = t'.
Proof.
  revert s'. induction s as [|c s IH]; intros [|c' s']; cbn.
  - done.
  - intros _ [Hc _]%andb_true_iff Ht _ ->. by rewrite (Ht _ _ eq_refl) in Hc.
  - intros [Hc _]%andb_true_iff _ _ Ht <-. by rewrite (Ht _ _ eq_refl) in Hc.
  - intros [_ Hs]%andb_true_iff [_ Hs']%andb_true_iff Ht Ht' [= -> Heq].
    by destruct (IH s' Hs Hs' Ht Ht' Heq) as [-> ->].
Qed.

Lemma pretty_Z_split (z z' : Z) t t' :
  clean t = true -> clean t' = true ->
  String.append (pretty z) t = String.append (pretty z') t' -> z = z' /\ t = t'.
Proof.
  intros Ht Ht' Heq. apply (numeral_split num_char) in Heq as [Hz ->].
  - split; [|done]. by apply (inj pretty).
  - apply pretty_Z_num.
  - apply pretty_Z_num.
  - intros c u ->. cbn in Ht. by apply negb_true_iff in Ht.
  - intros c u ->. cbn in Ht'. by apply negb_true_iff in Ht'.
Qed.

(** ** Values *)

(** What the first character of a printed value tells. *)
Definition first_tag (c : Ascii.ascii) : nat :=
  match Ascii.nat_of_ascii c with
  | 110%nat => 0 | 116%nat => 1 | 102%nat => 2 | 34%nat => 4 | 91%nat => 5 | 123%nat => 6
  | _ => if num_char c then 3 else 7
  end%nat.

Definition json_tag (j : json) : nat :=
  match j with
  | JNull => 0 | JBool true => 1 | JBool false => 2 | JInt _ => 3 | JStr _ => 4
  | JList _ => 5 | JObj _ => 6 | JFloat _ => 8
  end%nat.

Definition print_member (e : bool) (kv : string * json) : option string :=
  s ← print_json e kv.2; Some (String.append (print_str e kv.1) (String.append ":" s)).

Lemma print_member_inv e kv s :
  print_member e kv = Some s ->
  exists v, s = String.append (print_str e kv.1) (String.append ":" v) /\ print_json e kv.2 = Some v.
Proof.
  unfold print_member. destruct (print_json e kv.2) as [v|]; [|done].
  intros [= <-]. exists v. split; reflexivity.
Qed.

Lemma print_json_list e l :
  print_json e (JList l) =
    (items ← mapM (print_json e) l;
     Some (String.append "[" (String.append (join "," items) "]"))).
Proof. reflexivity. Qed.

Lemma print_json_obj e o :
  print_json e (JObj o) =
    (items ← mapM (print_member e) o;
     Some (String.append "{" (String.append (join "," items) "}"))).
Proof.
  cbn [print_json]. f_equal. induction o as [|[k x] o IH]; [done|].
  rewrite IH. unfold print_member. cbn. by destruct (print_json e x).
Qed.

Lemma num_char_tag c : num_char c = true -> first_tag c = 3%nat.
Proof. destruct c as [[] [] [] [] [] [] [] []]; vm_compute; done. Qed.

Lemma print_json_first e j s :
  print_json e j = Some s -> exists c u, s = String c u /\ first_tag c = json_tag j.
Proof.
  destruct j as [|[]|z|f|str|l|o].
  - intros [= <-]. by eexists _, _.
  - intros [= <-]. by eexists _, _.
  - intros [= <-]. by eexists _, _.
  - intros [= <-]. destruct (pretty_Z_cons z) as (c & u & -> & Hc). exists c, u.
    split; [done|]. by apply num_char_tag.
  - done.
  - intros [= <-]. by eexists _, _.
  - rewrite print_json_list. intros (items & _ & [= <-])%bind_Some. by eexists _, _.
  - rewrite print_json_obj. intros (items & _ & [= <-])%bind_Some. by eexists _, _.
Qed.

(** A printer whose output can be split off the text that follows. *)
Definition splits {A} (f : A -> option string) (x : A) : Prop :=
  forall y s s' t t', f x = Some s -> f y = Some s' -> clean t = true -> clean t' = true ->
    String.append s t = String.append s' t' -> x = y /\ t = t'.

Definition starts_item (s : string) : Prop :=
  exists c u, s = String c u /\ (first_tag c < 7)%nat.

Lemma join_cons sep s l :
  join sep (s :: l) =
    String.append s (match l with [] => EmptyString | _ => String.append sep (join sep l) end).
Proof. destruct l; cbn; [by rewrite append_nil|done]. Qed.

Lemma first_char c d s t : String c s = String d t -> c = d.
Proof. congruence. Qed.

Section items.
Context {A : Type} (f : A -> option string) (close : Ascii.ascii).
Hypothesis starts : forall x s, f x = Some s -> starts_item s.
Hypothesis closes : first_tag close = 7%nat.

(** Text of the items that follow the first one. *)
Definition more (l : list string) : string :=
  match l with [] => EmptyString | _ => String.append "," (join "," l) end.

Lemma closed_ne_item s t u :
  starts_item s -> String.append s t <> String close u.
Proof. intros (c & v & -> & Hc) [= -> _]. lia. Qed.

Lemma mapM_cons_inv x l ss :
  mapM f (x :: l) = Some ss ->
  exists s ss', ss = s :: ss' /\ f x = Some s /\ mapM f l = Some ss'.
Proof. cbn. intros (s & ? & (ss' & ? & [= <-])%bind_Some)%bind_Some. eauto. Qed.

Hypothesis close_clean : num_char close = false.
Hypothesis close_not_comma : close <> Ascii.ascii_of_nat 44.

Lemma more_clean l t : clean (String.append (more l) (String close t)) = true.
Proof. destruct l; cbn; [by rewrite close_clean|done]. Qed.

Lemma more_split l l' ss ss' t t' :
  Forall (splits f) l -> mapM f l = Some ss -> mapM f l' = Some ss' ->
  String.append (more ss) (String close t) = String.append (more ss') (String close t') ->
  l = l' /\ t = t'.
Proof.
  intros Hl. revert l' ss ss'. induction Hl as [|x l Hx _ IH]; intros [|y l'] ss ss'.
  - intros [= <-] [= <-]. by intros [= ->].
  - intros [= <-] (s & ss0 & -> & _ & _)%mapM_cons_inv. cbn.
    by intros Hc%first_char.
  - intros (s & ss0 & -> & _ & _)%mapM_cons_inv [= <-]. cbn.
    by intros Hc%first_char%eq_sym.
  - intros (s & ss1 & -> & Hs & Hss)%mapM_cons_inv (s' & ss2 & -> & Hs' & Hss')%mapM_cons_inv.
    unfold more. rewrite !join_cons, !append_assoc. cbn [String.append]. intros [= Heq].
    apply (Hx y s s') in Heq as [-> Heq]; [|done|done|apply more_clean|apply more_clean].
    by destruct (IH _ _ _ Hss Hss' Heq) as [-> ->].
Qed.

Lemma items_split l l' ss ss' t t' :
  Forall (splits f) l -> mapM f l = Some ss -> mapM f l' = Some ss' ->
  String.append (join "," ss) (String close t) = String.append (join "," ss') (String close t') ->
  l = l' /\ t = t'.
Proof.
  intros Hl Hs Hs'. destruct l as [|x l], l' as [|y l'].
  - injection Hs as <-. injection Hs' as <-. by intros [= ->].
  - injection Hs as <-. apply mapM_cons_inv in Hs' as (s & ss0 & -> & Hs & _).
    rewrite join_cons, append_assoc. intros Heq. apply eq_sym, closed_ne_item in Heq; eauto.
    done.
  - injection Hs' as <-. apply mapM_cons_inv in Hs as (s & ss0 & -> & Hs & _).
    rewrite join_cons, append_assoc. intros Heq. apply closed_ne_item in Heq; eauto. done.
  - pose proof Hs as (s & ss1 & -> & Hf & Hss)%mapM_cons_inv.
    pose proof Hs' as (s' & ss2 & -> & Hf' & Hss')%mapM_cons_inv.
    rewrite !join_cons, !append_assoc. intros Heq. apply Forall_cons in Hl as [Hx Hl].
    apply (Hx y s s') in Heq as [-> Heq]; [|done|done|apply more_clean|apply more_clean].
    by destruct (more_split l l' ss1 ss2 t t' Hl Hss Hss' Heq) as [-> ->].
Qed.
End items.

Lemma print_json_starts e j s : print_json e j = Some s -> starts_item s.
Proof.
  intros Hs. destruct (print_json_first e j s Hs) as (c & u & -> & Hc). exists c, u.
  split; [done|]. rewrite Hc. destruct j as [|[]| | | | |]; cbn; try lia. done.
Qed.

Lemma print_member_starts e kv s : print_member e kv = Some s -> starts_item s.
Proof.
  intros (v & _ & [= <-])%bind_Some. eexists _, _. split; [done|]. vm_compute. lia.
Qed.

Lemma append_inv_head s t t' : String.append s t = String.append s t' -> t = t'.
Proof. induction s as [|c s IH]; cbn; [done|]. intros [= Heq]. by apply IH. Qed.

(** Values printed to texts with a common beginning are of the same kind. *)
Lemma print_json_same_tag e j y s s' t t' :
  print_json e j = Some s -> print_json e y = Some s' ->
  String.append s t = String.append s' t' -> json_tag j = json_tag y.
Proof.
  intros (c & u & -> & <-)%print_json_first (c' & u' & -> & <-)%print_json_first Heq.
  cbn in Heq. by rewrite (first_char _ _ _ _ Heq).
Qed.

Lemma print_json_splits e j : splits (print_json e) j.
Proof.
  induction j as [|b|z|f|str|l IH|o IH] using json_ind';
    intros y s s' t t' Hs Hs' Ht Ht' Heq;
    pose proof (print_json_same_tag _ _ _ _ _ _ _ Hs Hs' Heq) as Htag; try done.
  - destruct y as [|[]| | | | |]; try done. rewrite Hs in Hs'. injection Hs' as <-.
    by apply append_inv_head in Heq.
  - destruct b, y as [|[]| | | | |]; try done; rewrite Hs in Hs'; injection Hs' as <-;
      by apply append_inv_head in Heq.
  - destruct y as [|[]| | | | |]; try done. injection Hs as <-. injection Hs' as <-.
    by apply pretty_Z_split in Heq as [-> ->].
  - destruct y as [|[]| | | | |]; try done. injection Hs as <-. injection Hs' as <-.
    by apply print_str_inj in Heq as [-> ->].
  - destruct y as [|[]| | | |l'|]; try done.
    rewrite print_json_list in Hs. rewrite print_json_list in Hs'.
    apply bind_Some in Hs as (ss & Hss & [= <-]). apply bind_Some in Hs' as (ss' & Hss' & [= <-]).
    cbn in Heq. injection Heq as Heq. rewrite !append_assoc in Heq. cbn in Heq.
    eapply (items_split (print_json e)) in Heq as [-> ->]; try done. apply print_json_starts.
  - destruct y as [|[]| | | | |o']; try done.
    rewrite print_json_obj in Hs. rewrite print_json_obj in Hs'.
    apply bind_Some in Hs as (ss & Hss & [= <-]). apply bind_Some in Hs' as (ss' & Hss' & [= <-]).
    cbn in Heq. injection Heq as Heq. rewrite !append_assoc in Heq. cbn in Heq.
    eapply (items_split (print_member e)) in Heq as [-> ->]; try done.
    + apply print_member_starts.
    + eapply Forall_impl; [exact IH|]. intros [k x] Hx [k' x'] v v' w w'.
      intros (vx & -> & Hvx)%print_member_inv (vx' & -> & Hvx')%print_member_inv Hw Hw'.
      cbn [fst snd] in *. rewrite !append_assoc. intros [-> Hv]%print_str_inj.
      apply (append_inv_head ":") in Hv.
      by destruct (Hx _ _ _ _ _ Hvx Hvx' Hw Hw' Hv) as [-> ->].
Qed.

(** Equal texts were printed from equal values. *)
Lemma print_json_inj e j j' s :
  print_json e j = Some s -> print_json e j' = Some s -> j = j'.
Proof.
  intros Hs Hs'. by destruct (print_json_splits e j j' s s EmptyString EmptyString Hs Hs') as [-> _].
Qed.

(** ** Sorting keys *)

Lemma insert_key_perm kv d : insert_key kv d ≡ₚ kv :: d.
Proof.
  induction d as [|kv' d IH]; cbn; [done|]. case_match; [done|].
  rewrite IH. by constructor.
Qed.

Lemma sort_keys_perm d : sort_keys d ≡ₚ d.
Proof. induction d as [|kv d IH]; cbn; [done|]. by rewrite insert_key_perm, IH. Qed.

Lemma dict_find_elem d k v : dict_ok d -> dict_find d k = Some v <-> (k, v) ∈ d.
Proof.
  unfold dict_ok. induction d as [|[k' v'] d IH]; cbn.
  - intros _. split; [done|]. by intros ?%elem_of_nil.
  - intros [Hn Hd]%NoDup_cons. rewrite elem_of_cons. case_decide as He.
    + split; [intros [= ->]; by left; subst|]. intros [[= _ ->]|Hin]; [done|].
      destruct Hn. subst. apply (list_elem_of_fmap_2 fst) in Hin. exact Hin.
    + rewrite (IH Hd). split; [auto|]. intros [[= -> _]|?]; done.
Qed.

(** A dictionary looks the same in every order of its items. *)
Lemma dict_find_perm d d' k : dict_ok d -> d ≡ₚ d' -> dict_find d k = dict_find d' k.
Proof.
  intros Hd Hp. assert (dict_ok d') as Hd' by (unfold dict_ok in *; by rewrite <-Hp).
  apply option_eq. intros v. by rewrite !dict_find_elem, Hp.
Qed.

Lemma sort_keys_find d k : dict_ok d -> dict_find (sort_keys d) k = dict_find d k.
Proof. intros Hd. symmetry. apply dict_find_perm; [done|]. by rewrite sort_keys_perm. Qed.

Lemma sort_values_find (d : jobject) k :
  dict_find (map (fun kv => (kv.1, sort_json kv.2)) d) k = sort_json <$> dict_find d k.
Proof. induction d as [|[k' v'] d IH]; cbn; [done|]. by case_decide. Qed.

Lemma sort_values_ok (d : jobject) :
  dict_ok d -> dict_ok (map (fun kv => (kv.1, sort_json kv.2)) d).
Proof.
  unfold dict_ok. intros Hd. assert ((map (fun kv => (kv.1, sort_json kv.2)) d).*1 = d.*1) as ->.
  - clear Hd. induction d as [|[k v] d IH]; cbn; [done|]. by rewrite IH.
  - done.
Qed.

(** Equal canonical texts of two dictionaries: same value, up to key order, at every key. *)
Lemma dumps_find e d d' s k :
  dict_ok d -> dict_ok d' ->
  json_dumps e (JObj d) = Some s -> json_dumps e (JObj d') = Some s ->
  sort_json <$> dict_find d k = sort_json <$> dict_find d' k.
Proof.
  intros Hd Hd' Hs Hs'. pose proof (print_json_inj _ _ _ _ Hs Hs') as Heq.
  cbn in Heq. injection Heq as Heq.
  apply (f_equal (fun l => dict_find l k)) in Heq.
  rewrite !sort_keys_find, !sort_values_find in Heq by (by apply sort_values_ok). done.
Qed.

(** Every float-free value has a text. *)
Lemma mapM_total {A B} (f : A -> option B) l :
  Forall (fun x => is_Some (f x)) l -> is_Some (mapM f l).
Proof. apply mapM_is_Some_2. Qed.

Lemma print_json_total e j : float_free j = true -> is_Some (print_json e j).
Proof.
  induction j as [|[]|z|f|str|l IH|o IH] using json_ind'; intros Hf; try done; try by eexists.
  - rewrite print_json_list. destruct (mapM_total (print_json e) l) as [ss ->]; [|by eexists].
    cbn in Hf. induction IH as [|x l Hx _ IHl]; [constructor|].
    apply andb_true_iff in Hf as [Hx' Hl]. constructor; auto.
  - rewrite print_json_obj. destruct (mapM_total (print_member e) o) as [ss ->]; [|by eexists].
    cbn in Hf. induction IH as [|[k x] o Hx _ IHo]; [constructor|].
    apply andb_true_iff in Hf as [Hx' Ho]. constructor; [|auto].
    destruct (Hx Hx') as [s Hs]. unfold print_member. cbn in *. rewrite Hs. by eexists.
Qed.

Lemma float_free_obj o :
  float_free (JObj o) = true <-> Forall (fun kv => float_free kv.2 = true) o.
Proof.
  induction o as [|[k x] o IH]; [by split; [constructor|]|].
  rewrite Forall_cons, <-IH. cbn. by rewrite andb_true_iff.
Qed.

Lemma float_free_sort_keys o : float_free (JObj o) = true -> float_free (JObj (sort_keys o)) = true.
Proof. rewrite !float_free_obj. by rewrite sort_keys_perm. Qed.
