(* ===== verification/Contracts.v ===== *)
(** * Public contracts: [payops/contracts/__init__.py]

    Each pydantic model is a [Record]; [<Model>_valid] is the check the
    constructor and [model_validate] run (field constraints, then the
    [model_validator]), which raises a [ValidationError], a [ValueError], when it
    fails. *)

From S2P Require Import Prelude Json.

Open Scope string_scope.
Open Scope list_scope.
Open Scope Z_scope.
Open Scope result_scope.

(** [Identifier]: 1 to 128 characters matching [^[\w.-]+$] *)
Definition identifier_ok (s : string) : bool :=
  (1 <=? str_len s) && (str_len s <=? 128) &&
  str_all (fun c => is_word c || ascii_between 45 46 c) s.

(** [Summary] after [strip_whitespace] *)
Definition summary_ok (s : string) : bool := (1 <=? str_len s) && (str_len s <=? 4000).

(** [Digest]: [^[a-f0-9]{64}$] *)
Definition digest_ok (s : string) : bool := (str_len s =? 64) && str_all is_lower_hex s.

Inductive Source : Type :=
  | KUBERNETES | PROMETHEUS | LOG | TRACE | DEPLOYMENT | PAYMENT | RUNBOOK | MEMORY.
#[export] Instance Source_eq_dec : EqDecision Source.
Proof. solve_decision. Defined.

Definition source_name (s : Source) : string :=
  match s with
  | KUBERNETES => "KUBERNETES" | PROMETHEUS => "PROMETHEUS" | LOG => "LOG" | TRACE => "TRACE"
  | DEPLOYMENT => "DEPLOYMENT" | PAYMENT => "PAYMENT" | RUNBOOK => "RUNBOOK" | MEMORY => "MEMORY"
  end.

Inductive TerminalState : Type :=
  | ESCALATED | RESOLVED | RESOLVED_WITHOUT_ACTION | SECURITY_BLOCK | EVIDENCE_INSUFFICIENT
  | BUDGET_EXHAUSTED | DEPENDENCY_UNAVAILABLE | ACTION_FAILED | UNRECOVERABLE.
#[export] Instance TerminalState_eq_dec : EqDecision TerminalState.
Proof. solve_decision. Defined.

Definition terminal_name (s : TerminalState) : string :=
  match s with
  | ESCALATED => "ESCALATED" | RESOLVED => "RESOLVED"
  | RESOLVED_WITHOUT_ACTION => "RESOLVED_WITHOUT_ACTION" | SECURITY_BLOCK => "SECURITY_BLOCK"
  | EVIDENCE_INSUFFICIENT => "EVIDENCE_INSUFFICIENT" | BUDGET_EXHAUSTED => "BUDGET_EXHAUSTED"
  | DEPENDENCY_UNAVAILABLE => "DEPENDENCY_UNAVAILABLE" | ACTION_FAILED => "ACTION_FAILED"
  | UNRECOVERABLE => "UNRECOVERABLE"
  end.

Inductive RankingMethod : Type := deterministic | model_fixture | model_provider.
#[export] Instance RankingMethod_eq_dec : EqDecision RankingMethod.
Proof. solve_decision. Defined.

(** [mode] of a report; [OperationMode] and the worker's mode are its sublists. *)
Inductive Mode : Type := mock | fixture_replay | local_kind | cloud_gke.
#[export] Instance Mode_eq_dec : EqDecision Mode.
Proof. solve_decision. Defined.

Inductive Severity : Type := warning | critical.
#[export] Instance Severity_eq_dec : EqDecision Severity.
Proof. solve_decision. Defined.

Record IncidentCreate : Type := {
  title : string;
  req_namespace : string;
  req_service : string;
  severity : Severity;
}.
#[export] Instance IncidentCreate_eq_dec : EqDecision IncidentCreate.
Proof. solve_decision. Defined.

Definition IncidentCreate_valid (r : IncidentCreate) : bool :=
  (1 <=? str_len (title r)) && (str_len (title r) <=? 200) &&
  identifier_ok (req_namespace r) && identifier_ok (req_service r).

(** [untrusted_text: Literal[True]] is a constant and carries no information. *)
Record EvidenceItem : Type := {
  evidence_id : string;
  ev_incident_id : string;
  source : Source;
  observed_at : datetime;
  collected_at : datetime;
  query : string;
  resource : string;
  artifact_uri : string;
  artifact_sha256 : string;
  summary : string;
}.
#[export] Instance EvidenceItem_eq_dec : EqDecision EvidenceItem.
Proof. solve_decision. Defined.

Definition EvidenceItem_valid (e : EvidenceItem) : bool :=
  identifier_ok (evidence_id e) && identifier_ok (ev_incident_id e) &&
  summary_ok (query e) && identifier_ok (resource e) &&
  summary_ok (artifact_uri e) && digest_ok (artifact_sha256 e) && summary_ok (summary e).

Record RootCauseHypothesis : Type := {
  cause_code : string;
  confidence : spec_float;
  supporting_evidence_ids : list string;
  refuting_evidence_ids : list string;
  missing_evidence : list string;
}.
#[export] Instance RootCauseHypothesis_eq_dec : EqDecision RootCauseHypothesis.
Proof. solve_decision. Defined.

(** [Field(ge=0, le=1, allow_inf_nan=False)] *)
Definition confidence_ok (f : spec_float) : bool :=
  SFleb float_zero f && SFleb f (float_of_Z 1).

Definition RootCauseHypothesis_valid (h : RootCauseHypothesis) : bool :=
  identifier_ok (cause_code h) && confidence_ok (confidence h) &&
  forallb identifier_ok (supporting_evidence_ids h) &&
  forallb identifier_ok (refuting_evidence_ids h) && forallb summary_ok (missing_evidence h).

Record IncidentReport : Type := {
  rep_incident_id : string;
  rep_evidence : list EvidenceItem;
  ranked_root_causes : list RootCauseHypothesis;
  terminal_state : TerminalState;
  rep_mode : Mode;
  duration_seconds : spec_float;
  rep_ranking_method : RankingMethod;
  rep_stop_reason : option string;
  rep_receipts : list string;
  trace_id : string;
}.
#[export] Instance IncidentReport_eq_dec : EqDecision IncidentReport.
Proof. solve_decision. Defined.

(** [IncidentReport.validate_citations], one hypothesis *)
Definition citation_check (ids : list string) (h : RootCauseHypothesis) : result unit :=
  let supports := supporting_evidence_ids h in
  let refutes := refuting_evidence_ids h in
  if negb (forallb (fun i => bool_decide (i ∈ ids)) (supports ++ refutes)) then
    Err (ValueError "unresolved evidence citation")
  else if existsb (fun i => bool_decide (i ∈ refutes)) supports then
    Err (ValueError "evidence cannot support and refute the same cause")
  else Ok tt.

(** [IncidentReport.validate_citations] *)
Definition validate_citations (r : IncidentReport) : result unit :=
  let ids := map evidence_id (rep_evidence r) in
  if negb (distinct ids) then Err (ValueError "duplicate evidence IDs")
  else if existsb (fun e => negb (eqb_of (ev_incident_id e) (rep_incident_id r))) (rep_evidence r)
  then Err (ValueError "cross-incident evidence")
  else if negb (distinct (map cause_code (ranked_root_causes r)))
  then Err (ValueError "duplicate root causes")
  else rforeach (citation_check ids) (ranked_root_causes r).

Definition report_fields_ok (r : IncidentReport) : bool :=
  identifier_ok (rep_incident_id r) &&
  forallb EvidenceItem_valid (rep_evidence r) &&
  forallb RootCauseHypothesis_valid (ranked_root_causes r) &&
  nonneg_finite (duration_seconds r) &&
  match rep_stop_reason r with Some s => identifier_ok s | None => true end &&
  forallb digest_ok (rep_receipts r) && (Z.of_nat (length (rep_receipts r)) <=? 20).

(** [IncidentReport(...)] *)
Definition IncidentReport_validate (r : IncidentReport) : result IncidentReport :=
  if negb (report_fields_ok r) then Err (ValueError "IncidentReport")
  else let! _ := validate_citations r in Ok r.

Record Incident : Type := {
  incident_id : string;
  request : IncidentCreate;
  created_at : datetime;
  report : option IncidentReport;
}.
#[export] Instance Incident_eq_dec : EqDecision Incident.
Proof. solve_decision. Defined.

(** [Incident.validate_report_scope] *)
Definition validate_report_scope (i : Incident) : result unit :=
  match report i with
  | Some r => if eqb_of (rep_incident_id r) (incident_id i) then Ok tt
              else Err (ValueError "report belongs to a different incident")
  | None => Ok tt
  end.

(** [Incident.model_validate(...)] *)
Definition Incident_validate (i : Incident) : result Incident :=
  if negb (identifier_ok (incident_id i) && IncidentCreate_valid (request i))
  then Err (ValueError "Incident")
  else
    let! _ := match report i with Some r => let! _ := IncidentReport_validate r in Ok tt | None => Ok tt end in
    let! _ := validate_report_scope i in
    Ok i.

(** ** What a validated report guarantees *)

(** Every citation resolves to an item of the same report, which belongs to the
    report's incident; no item is cited on both sides. *)
Record grounded (r : IncidentReport) : Prop := {
  grounded_ids : NoDup (map evidence_id (rep_evidence r));
  grounded_scope : forall e, e ∈ rep_evidence r -> ev_incident_id e = rep_incident_id r;
  grounded_causes : NoDup (map cause_code (ranked_root_causes r));
  grounded_cited : forall h i, h ∈ ranked_root_causes r ->
    i ∈ supporting_evidence_ids h ++ refuting_evidence_ids h ->
    exists e, e ∈ rep_evidence r /\ evidence_id e = i;
  grounded_disjoint : forall h i, h ∈ ranked_root_causes r ->
    i ∈ supporting_evidence_ids h -> i ∉ refuting_evidence_ids h;
}.

Lemma citation_check_ok ids h :
  citation_check ids h = Ok tt <->
  (forall i, i ∈ supporting_evidence_ids h ++ refuting_evidence_ids h -> i ∈ ids) /\
  (forall i, i ∈ supporting_evidence_ids h -> i ∉ refuting_evidence_ids h).
Proof.
  unfold citation_check.
  destruct (forallb _ _) eqn:Hall; cbn.
  2:{ split; [done|]. intros [H _]. exfalso. apply not_true_iff_false in Hall. apply Hall.
      apply forallb_forall. intros x Hx. apply bool_decide_eq_true, H. by apply list_elem_of_In. }
  rewrite forallb_forall in Hall.
  destruct (existsb _ _) eqn:Hex.
  - split; [done|]. intros [_ H]. apply existsb_exists in Hex as (x & Hx & Hr).
    apply bool_decide_eq_true in Hr. exfalso. eapply H; [|done]. by apply list_elem_of_In.
  - split; [|done]. intros _. split.
    + intros i Hi%list_elem_of_In%Hall. by apply bool_decide_eq_true in Hi.
    + intros i Hi Hr. apply not_true_iff_false in Hex. apply Hex. apply existsb_exists.
      exists i. split; [by apply list_elem_of_In|by apply bool_decide_eq_true].
Qed.

Lemma validate_citations_ok r : validate_citations r = Ok tt <-> grounded r.
Proof.
  unfold validate_citations, distinct.
  destruct (bool_decide (NoDup (map evidence_id _))) eqn:Hids; cbn.
  2:{ apply bool_decide_eq_false in Hids. split; [done|by intros []]. }
  apply bool_decide_eq_true in Hids.
  destruct (existsb _ _) eqn:Hex.
  { split; [done|]. intros [_ Hs _ _ _]. apply existsb_exists in Hex as (e & He & Hne).
    apply list_elem_of_In, Hs in He. rewrite He, eqb_of_refl in Hne. done. }
  destruct (bool_decide (NoDup (map cause_code _))) eqn:Hc; cbn.
  2:{ apply bool_decide_eq_false in Hc. split; [done|by intros []]. }
  apply bool_decide_eq_true in Hc.
  rewrite rforeach_inr. setoid_rewrite citation_check_ok.
  setoid_rewrite (list_elem_of_fmap evidence_id). split.
  - intros H. split; [done| |done| |].
    + intros e He%list_elem_of_In. apply eqb_of_true.
      apply not_true_iff_false in Hex. destruct (eqb_of _ _) eqn:E; [done|].
      exfalso. apply Hex, existsb_exists. exists e. by rewrite E.
    + intros h i Hh Hi. destruct (H h Hh) as [H1 _]. destruct (H1 i Hi) as (e & -> & ?). eauto.
    + intros h i Hh. apply (H h Hh).
  - intros [_ _ _ Hcited Hdis] h Hh. split; [|by intros i; apply Hdis].
    intros i Hi. destruct (Hcited h i Hh Hi) as (e & ? & <-). eauto.
Qed.

(** A report is accepted exactly when its fields are in range and it is grounded. *)
Lemma IncidentReport_validate_ok r r' :
  IncidentReport_validate r = Ok r' <-> r' = r /\ report_fields_ok r = true /\ grounded r.
Proof.
  unfold IncidentReport_validate.
  destruct (report_fields_ok r); cbn; [|naive_solver].
  rewrite rbind_inr, <-validate_citations_ok. split.
  - intros ([] & ? & [= ->]). done.
  - intros (-> & _ & H). by exists tt.
Qed.

(** Every failed validation is a [ValueError], so callers that catch
    [ValueError] never see another exception from the contracts. *)
Lemma validate_citations_raises r e : validate_citations r = Err e -> is_ValueError e = true.
Proof.
  unfold validate_citations. repeat case_match; try (by intros [= <-]).
  intros (h & _ & Hh)%rforeach_inl. revert Hh. unfold citation_check.
  repeat case_match; naive_solver.
Qed.

Lemma IncidentReport_validate_raises r e :
  IncidentReport_validate r = Err e -> is_ValueError e = true.
Proof.
  unfold IncidentReport_validate. case_match; [by intros [= <-]|].
  destruct (validate_citations r) eqn:Hc; cbn; [|done].
  intros [= <-]. by eapply validate_citations_raises.
Qed.

#[export] Hint Resolve validate_citations_raises IncidentReport_validate_raises : payops.
