(* ===== verification/Effects.v ===== *)
(** * Effectful programs and the interleavings of their transactions

    Code that talks to a database, a clock or a trusted backend is a finite tree:
    [Call c k] issues one request [c], atomic for everybody else, and goes on with
    [k] applied to the answer, an exception or a value.  Every piece of logic
    between two requests is ordinary computation.  [run] executes one program
    against a state (used to test the models), [runs] lists what one program may do
    against an arbitrary environment, and [pool_step] interleaves the requests of
    any number of concurrent programs, which may be started, and abandoned, at any
    moment. *)

From S2P Require Import Prelude.

Section programs.
Context {C : Type} {R : C -> Type}.

Inductive prog (A : Type) : Type :=
  | Ret (a : A)
  | Raise (e : exn)
  | Call (c : C) (k : result (R c) -> prog A).
#[global] Arguments Ret {A} a.
#[global] Arguments Raise {A} e.
#[global] Arguments Call {A} c k.

Fixpoint bind {A B} (m : prog A) (f : A -> prog B) : prog B :=
  match m with
  | Ret a => f a
  | Raise e => Raise e
  | Call c k => Call c (fun r => bind (k r) f)
  end.

(** [try: m except <p>: h]; an exception outside [p] propagates. *)
Fixpoint catch {A} (m : prog A) (p : exn -> bool) (h : exn -> prog A) : prog A :=
  match m with
  | Ret a => Ret a
  | Raise e => if p e then h e else Raise e
  | Call c k => Call c (fun r => catch (k r) p h)
  end.

(** A request whose exceptions propagate. *)
Definition call (c : C) : prog (R c) :=
  Call c (fun r => match r with inl e => Raise e | inr a => Ret a end).

Definition lift {A} (m : result A) : prog A :=
  match m with inl e => Raise e | inr a => Ret a end.

(** [if not b: raise e] *)
Definition require (b : bool) (e : exn) : prog unit := if b then Ret tt else Raise e.

(** Every request the program can issue, whatever the answers, satisfies [P]. *)
Fixpoint issues (P : C -> Prop) {A} (m : prog A) : Prop :=
  match m with
  | Call c k => P c /\ forall r, issues P (k r)
  | _ => True
  end.

Lemma issues_bind P {A B} (m : prog A) (f : A -> prog B) :
  issues P m -> (forall a, issues P (f a)) -> issues P (bind m f).
Proof. induction m as [a|e|c k IH]; cbn; [auto|auto|]. intros [Hc Hk] Hf. split; auto. Qed.

Lemma issues_catch P {A} (m : prog A) p h :
  issues P m -> (forall e, issues P (h e)) -> issues P (catch m p h).
Proof.
  induction m as [a|e|c k IH]; cbn; intros Hm Hh; [done|by destruct (p e)|].
  destruct Hm as [Hc Hk]. split; auto.
Qed.

Lemma issues_and P Q {A} (m : prog A) :
  issues P m -> issues Q m -> issues (fun c => P c /\ Q c) m.
Proof. induction m as [a|e|c k IH]; cbn; [done|done|]. intros [? ?] [? ?]. split; auto. Qed.

Lemma issues_weaken (P Q : C -> Prop) {A} (m : prog A) :
  (forall c, P c -> Q c) -> issues P m -> issues Q m.
Proof. intros HPQ. induction m as [a|e|c k IH]; cbn; [done|done|]. intros [? ?]. split; auto. Qed.

Lemma issues_call (P : C -> Prop) c : P c -> issues P (call c).
Proof. intros Hc. split; [done|]. by intros []. Qed.

Lemma issues_lift P {A} (m : result A) : issues P (lift m).
Proof. by destruct m. Qed.

(** A continuation may rely on the value a pure computation returned. *)
Lemma issues_bind_lift P {A B} (m : result A) (f : A -> prog B) :
  (forall a, m = inr a -> issues P (f a)) -> issues P (bind (lift m) f).
Proof. destruct m; cbn; auto. Qed.
End programs.
Arguments prog {C} R A : assert.

Create HintDb effects discriminated.
#[export] Hint Resolve issues_bind issues_catch issues_call issues_lift : effects.

Declare Scope prog_scope.
Delimit Scope prog_scope with prog.
Notation "'let*' x := m 'in' k" := (bind m (fun x => k))
  (at level 10, x pattern, m at level 100, k at level 200) : prog_scope.
Notation "'do*' m 'in' k" := (bind m (fun _ => k))
  (at level 10, m at level 100, k at level 200) : prog_scope.

(** Programs of one signature as programs of a larger one. *)
Section embed.
Context {C D : Type} {R : C -> Type} {Q : D -> Type}.
Context (inj : C -> D) (ans : forall c, result (Q (inj c)) -> result (R c)).

Fixpoint embed {A} (m : prog R A) : prog Q A :=
  match m with
  | Ret a => Ret a
  | Raise e => Raise e
  | Call c k => Call (inj c) (fun r => embed (k (ans c r)))
  end.

Lemma issues_embed (P : C -> Prop) (P' : D -> Prop) {A} (m : prog R A) :
  (forall c, P c -> P' (inj c)) -> issues P m -> issues P' (embed m).
Proof. intros HP. induction m as [a|e|c k IH]; cbn; [done|done|]. intros [? ?]. split; auto. Qed.
End embed.

(** ** Programs over programs

    [link impl m] runs [impl c] where [m] issues the request [c]. *)
Section attempt.
Context {C : Type} {R : C -> Type}.

(** The outcome of a program as a value *)
Fixpoint attempt {A} (m : prog R A) : prog R (result A) :=
  match m with
  | Ret a => Ret (inr a)
  | Raise e => Ret (inl e)
  | Call c k => Call c (fun r => attempt (k r))
  end.

Lemma issues_attempt (P : C -> Prop) {A} (m : prog R A) : issues P m -> issues P (attempt m).
Proof. induction m as [a|e|c k IH]; cbn; [done|done|]. intros [? ?]. split; auto. Qed.

(** [try: m finally: f] *)
Definition finally {A} (m : prog R A) (f : prog R unit) : prog R A :=
  bind (attempt m) (fun out => bind f (fun _ => lift out)).

Lemma issues_finally (P : C -> Prop) {A} (m : prog R A) f :
  issues P m -> issues P f -> issues P (finally m f).
Proof.
  intros Hm Hf. apply issues_bind; [by apply issues_attempt|]. intros out.
  apply issues_bind; [done|]. intros _. apply issues_lift.
Qed.

Lemma issues_any {A} (m : prog R A) : issues (fun _ => True) m.
Proof. induction m; cbn; auto. Qed.
End attempt.
#[export] Hint Resolve issues_attempt issues_finally : effects.

Section link.
Context {C D : Type} {R : C -> Type} {Q : D -> Type}.
Context (impl : forall c : C, prog Q (R c)).

Fixpoint link {A} (m : prog R A) : prog Q A :=
  match m with
  | Ret a => Ret a
  | Raise e => Raise e
  | Call c k => bind (attempt (impl c)) (fun r => link (k r))
  end.

Lemma issues_link (P : C -> Prop) (P' : D -> Prop) {A} (m : prog R A) :
  (forall c, P c -> issues P' (impl c)) -> issues P m -> issues P' (link m).
Proof.
  intros HP. induction m as [a|e|c k IH]; cbn; [done|done|]. intros [Hc Hk].
  apply issues_bind; [by apply issues_attempt, HP|]. auto.
Qed.
End link.

(** ** One program against a state *)
Section run.
Context {C : Type} {R : C -> Type} {S : Type}.
Context (handle : forall c : C, S -> result (R c) * S).

Fixpoint run {A} (m : prog R A) (s : S) : result A * S :=
  match m with
  | Ret a => (inr a, s)
  | Raise e => (inl e, s)
  | Call c k => let '(r, s') := handle c s in run (k r) s'
  end.
End run.

(** How a program runs, step by step *)
Lemma run_bind {C} {R : C -> Type} {S} (handle : forall c, S -> result (R c) * S) {A B}
  (m : prog R A) (f : A -> prog R B) s :
  run handle (bind m f) s =
  match run handle m s with (inr a, s') => run handle (f a) s' | (inl e, s') => (inl e, s') end.
Proof.
  revert s. induction m as [a|e|c k IH]; intros s; cbn; [done..|]. destruct (handle c s). apply IH.
Qed.

Lemma run_lift {C} {R : C -> Type} {S} (handle : forall c, S -> result (R c) * S) {A} (m : result A) s :
  run handle (lift m) s = (m, s).
Proof. by destruct m. Qed.

(** ** One program against any environment

    [runs m tr out]: some answers make [m] issue exactly the requests of [tr], in
    order and with those answers, and end with [out]. *)
Section runs.
Context {C : Type} {R : C -> Type}.

Definition obs : Type := {c : C & result (R c)}.

Inductive runs {A} : prog R A -> list obs -> result A -> Prop :=
  | runs_ret a : runs (Ret a) [] (inr a)
  | runs_raise e : runs (Raise e) [] (inl e)
  | runs_call c k r tr out :
      runs (k r) tr out -> runs (Call c k) (existT c r :: tr) out.

(** Every program has a run: the trees are finite, so nothing diverges. *)
Lemma runs_total {A} (env : forall c, result (R c)) (m : prog R A) :
  exists tr out, runs m tr out.
Proof.
  induction m as [a|e|c k IH].
  - eauto using @runs.
  - eauto using @runs.
  - destruct (IH (env c)) as (tr & out & ?). eauto using @runs.
Qed.

Lemma runs_ret_inv {A} (a : A) tr out : runs (Ret a) tr out -> tr = [] /\ out = inr a.
Proof. inversion 1; auto. Qed.

Lemma runs_raise_inv {A} e tr (out : result A) :
  runs (Raise e) tr out -> tr = [] /\ out = inl e.
Proof. inversion 1; auto. Qed.

Lemma runs_call_inv {A} c k tr (out : result A) :
  runs (Call c k) tr out -> exists r tr', tr = existT c r :: tr' /\ runs (k r) tr' out.
Proof.
  intros H.
  refine (match H in runs m tr out
            return match m with
                   | Call c k => exists r tr', tr = existT c r :: tr' /\ runs (k r) tr' out
                   | _ => True end
          with runs_ret _ => I | runs_raise _ => I | runs_call _ _ _ _ _ H' => _ end).
  eauto.
Qed.

Lemma runs_bind {A B} (m : prog R A) (f : A -> prog R B) tr out :
  runs (bind m f) tr out ->
  (exists e, runs m tr (inl e) /\ out = inl e) \/
  (exists a tr1 tr2, tr = tr1 ++ tr2 /\ runs m tr1 (inr a) /\ runs (f a) tr2 out).
Proof.
  revert tr out. induction m as [a|e|c k IH]; cbn; intros tr out H.
  - right. exists a, [], tr. eauto using @runs.
  - apply runs_raise_inv in H as [-> ->]. left. eauto using @runs.
  - apply runs_call_inv in H as (r & tr' & -> & H).
    destruct (IH r _ _ H) as [(e & ? & ->)|(a & tr1 & tr2 & -> & ? & ?)].
    + left. eauto using @runs.
    + right. exists a, (existT c r :: tr1), tr2. eauto using @runs.
Qed.

Lemma runs_catch {A} (m : prog R A) p h tr out :
  runs (catch m p h) tr out ->
  (runs m tr out /\ forall e, out = inl e -> p e = false) \/
  (exists e tr1 tr2, tr = tr1 ++ tr2 /\ runs m tr1 (inl e) /\ p e = true /\ runs (h e) tr2 out).
Proof.
  revert tr out. induction m as [a|e|c k IH]; cbn; intros tr out H.
  - apply runs_ret_inv in H as [-> ->]. left. split; [constructor|done].
  - destruct (p e) eqn:Hp.
    + right. exists e, [], tr. eauto using @runs.
    + apply runs_raise_inv in H as [-> ->]. left. split; [constructor|]. by intros ? [= <-].
  - apply runs_call_inv in H as (r & tr' & -> & H).
    destruct (IH r _ _ H) as [(? & ?)|(e & tr1 & tr2 & -> & ? & ? & ?)].
    + left. eauto using @runs.
    + right. exists e, (existT c r :: tr1), tr2. eauto using @runs.
Qed.

Lemma runs_call_out (c : C) tr out :
  runs (@call C R c) tr out -> exists r, tr = [existT c r] /\ out = r.
Proof.
  intros (r & tr' & -> & H)%runs_call_inv.
  destruct r; [apply runs_raise_inv in H as [-> ->]|apply runs_ret_inv in H as [-> ->]]; eauto.
Qed.

Lemma runs_lift {A} (m : result A) tr out : runs (lift m) tr out -> tr = [] /\ out = m.
Proof. destruct m; cbn; [apply runs_raise_inv|apply runs_ret_inv]. Qed.

Lemma runs_require b e tr out :
  runs (require b e) tr out -> tr = [] /\ (out = inr tt /\ b = true \/ out = inl e /\ b = false).
Proof.
  unfold require. destruct b.
  - intros [-> ->]%runs_ret_inv. auto.
  - intros [-> ->]%runs_raise_inv. auto.
Qed.

(** The requests of a run are among those the program can issue. *)
Lemma runs_issues (P : C -> Prop) {A} (m : prog R A) tr out :
  issues P m -> runs m tr out -> Forall (fun o : obs => P (projT1 o)) tr.
Proof.
  revert tr. induction m as [a|e|c k IH]; cbn; intros tr Hi Hr.
  - by apply runs_ret_inv in Hr as [-> _].
  - by apply runs_raise_inv in Hr as [-> _].
  - apply runs_call_inv in Hr as (r & tr' & -> & Hr). destruct Hi as [Hc Hk].
    constructor; [done|]. by eapply IH.
Qed.

(** Building runs. *)
Lemma runs_bind_intro {A B} (m : prog R A) (f : A -> prog R B) tr1 tr2 a out :
  runs m tr1 (inr a) -> runs (f a) tr2 out -> runs (bind m f) (tr1 ++ tr2) out.
Proof.
  revert tr1. induction m as [x|e|c k IH]; cbn; intros tr1 Hm Hf.
  - by apply runs_ret_inv in Hm as [-> [= <-]].
  - by apply runs_raise_inv in Hm as [_ [=]].
  - apply runs_call_inv in Hm as (r & tr' & -> & Hm). cbn. constructor. by apply IH.
Qed.

Lemma runs_call_intro c (r : R c) : runs (@call C R c) [existT c (inr r)] (inr r).
Proof. constructor. constructor. Qed.

Lemma runs_catch_intro {A} (m : prog R A) p h tr a :
  runs m tr (inr a) -> runs (catch m p h) tr (inr a).
Proof.
  revert tr. induction m as [x|e|c k IH]; cbn; intros tr Hm; [done| |].
  - by apply runs_raise_inv in Hm as [_ [=]].
  - apply runs_call_inv in Hm as (r & tr' & -> & Hm). constructor. by apply IH.
Qed.

(** Runs that end with a value. *)
Lemma runs_bind_ok {A B} (m : prog R A) (f : A -> prog R B) tr b :
  runs (bind m f) tr (inr b) ->
  exists a tr1 tr2, tr = tr1 ++ tr2 /\ runs m tr1 (inr a) /\ runs (f a) tr2 (inr b).
Proof. intros [(e & _ & [=])|?]%runs_bind. done. Qed.

Lemma runs_call_ok (c : C) tr a : runs (@call C R c) tr (inr a) -> tr = [existT c (inr a)].
Proof. intros (r & -> & <-)%runs_call_out. done. Qed.

Lemma runs_lift_ok {A} (m : result A) tr a : runs (lift m) tr (inr a) -> tr = [] /\ m = inr a.
Proof. by intros [-> <-]%runs_lift. Qed.

Lemma runs_ret_ok {A} (a b : A) tr : runs (Ret a) tr (inr b) -> tr = [] /\ a = b.
Proof. by intros [-> [= ->]]%runs_ret_inv. Qed.

Lemma runs_raise_ok {A} e tr (a : A) : runs (Raise e) tr (inr a) -> False.
Proof. by intros [_ [=]]%runs_raise_inv. Qed.
End runs.
Arguments obs {C} R : assert.

(** Run straight-line code along its answers. *)
Lemma runs_step {C} {R : C -> Type} {B} c (f : R c -> prog R B) r tr out :
  runs (f r) tr out -> runs (bind (@call C R c) f) (existT c (inr r) :: tr) out.
Proof. intros Hf. apply (runs_bind_intro (@call C R c) f [_] tr r); [apply runs_call_intro|done]. Qed.

Lemma runs_pure {C} {R : C -> Type} {A B} (m : result A) (f : A -> prog R B) a tr out :
  m = inr a -> runs (f a) tr out -> runs (bind (lift m) f) tr out.
Proof. intros -> Hf. exact Hf. Qed.

(** Invert the runs of straight-line code that ended with a value: what was requested, in
    which order, and what was answered. *)
Ltac run_ok :=
  repeat match goal with
  | H : runs (bind _ _) _ (inr _) |- _ =>
      let a := fresh "a" in let t1 := fresh "tr" in let t2 := fresh "tr" in
      let H1 := fresh "Hrun" in let H2 := fresh "Hrun" in
      apply runs_bind_ok in H as (a & t1 & t2 & -> & H1 & H2); cbv beta in H2
  | H : runs (@call _ ?R ?c) _ (inr _) |- _ => apply (@runs_call_ok _ R c) in H; subst
  | H : runs (lift _) _ (inr _) |- _ =>
      let E := fresh "Hpure" in apply runs_lift_ok in H as [-> E]
  | H : runs (Ret _) _ (inr _) |- _ =>
      let E := fresh "Heq" in apply runs_ret_ok in H as [-> E]; try (injection E as E); subst
  | H : runs (Raise _) _ (inr _) |- _ => exfalso; exact (runs_raise_ok _ _ _ H)
  | H : runs (if ?b then _ else _) _ (inr _) |- _ => destruct b eqn:?
  end.

(** The runs of an embedded program are its runs with the requests renamed. *)
Lemma runs_embed {C D} {R : C -> Type} {Q : D -> Type} (inj : C -> D)
  (ans : forall c, result (Q (inj c)) -> result (R c)) {A} (m : prog R A) tr out :
  runs (embed inj ans m) tr out ->
  exists tr0, runs m tr0 out /\
    Forall2 (fun (o0 : obs R) (o : obs Q) =>
      exists r, o = existT (inj (projT1 o0)) r /\ projT2 o0 = ans (projT1 o0) r) tr0 tr.
Proof.
  revert tr. induction m as [a|e|c k IH]; cbn; intros tr Hr.
  - apply runs_ret_inv in Hr as [-> ->]. exists []. split; constructor.
  - apply runs_raise_inv in Hr as [-> ->]. exists []. split; constructor.
  - apply runs_call_inv in Hr as (r & tr' & -> & (tr0 & Hm & Ht)%IH).
    exists (existT c (ans c r) :: tr0). split; [by constructor|]. constructor; [by exists r|done].
Qed.

(** The runs of a linked program: those of the program, each request replaced by a run of
    its implementation with that outcome. *)
Lemma runs_attempt {C} {R : C -> Type} {A} (m : prog R A) tr out :
  runs (attempt m) tr out -> exists o, out = inr o /\ runs m tr o.
Proof.
  revert tr. induction m as [a|e|c k IH]; cbn; intros tr Hr.
  - apply runs_ret_inv in Hr as [-> ->]. eexists. split; [done|constructor].
  - apply runs_ret_inv in Hr as [-> ->]. eexists. split; [done|constructor].
  - apply runs_call_inv in Hr as (r & tr' & -> & (o & -> & Hr)%IH). eexists. split; [done|by constructor].
Qed.

Lemma runs_link {C D} {R : C -> Type} {Q : D -> Type} (impl : forall c, prog Q (R c)) {A}
  (m : prog R A) tr out :
  runs (link impl m) tr out ->
  exists segs : list (obs R * list (obs Q)),
    tr = concat segs.*2 /\ runs m segs.*1 out /\
    forall s, s ∈ segs -> runs (impl (projT1 s.1)) s.2 (projT2 s.1).
Proof.
  revert tr. induction m as [a|e|c k IH]; cbn; intros tr Hr.
  - apply runs_ret_inv in Hr as [-> ->]. exists []. split_and!; [done|constructor|].
    by intros ? ?%elem_of_nil.
  - apply runs_raise_inv in Hr as [-> ->]. exists []. split_and!; [done|constructor|].
    by intros ? ?%elem_of_nil.
  - apply runs_bind in Hr as [(e & (o & [=] & _)%runs_attempt & _)|(r & t1 & t2 & -> & Hr & H2)].
    apply runs_attempt in Hr as (o & [= <-] & Hr). apply IH in H2 as (segs & -> & Hm & Hs).
    exists ((existT c r, t1) :: segs). split_and!; [done|by constructor|].
    intros s [->|Hin]%elem_of_cons; [done|]. by apply Hs.
Qed.

(** ** Interleavings

    A system is a pool of running programs, a shared state and the history of
    every request issued so far.  [answers s c r s'] says that request [c], issued
    in state [s], may be answered [r] leaving [s'].  [admitted] is the set of
    programs that may be started. *)
Section pool.
Context {C : Type} {R : C -> Type} {S A : Type}.
Context (answers : S -> forall c : C, result (R c) -> S -> Prop).
Context (admitted : prog R A -> Prop).

Record system : Type := {
  threads : list (prog R A);
  shared : S;
  history : list (obs R);
}.

Inductive pool_step : system -> system -> Prop :=
  | pool_spawn l s h m :
      admitted m ->
      pool_step {| threads := l; shared := s; history := h |}
                {| threads := l ++ [m]; shared := s; history := h |}
  | pool_call l1 c k l2 s h r s' :
      answers s c r s' ->
      pool_step {| threads := l1 ++ Call c k :: l2; shared := s; history := h |}
                {| threads := l1 ++ k r :: l2; shared := s'; history := h ++ [existT c r] |}
  | pool_lost l1 m l2 s h :
      pool_step {| threads := l1 ++ m :: l2; shared := s; history := h |}
                {| threads := l1 ++ l2; shared := s; history := h |}.

Definition initial (s : S) : system := {| threads := []; shared := s; history := [] |}.

(** States reachable from the pool with no program and the state [s0]. *)
Definition reachable (s0 : S) (x : system) : Prop := rtc pool_step (initial s0) x.

(** Rule induction with the step at the end of the run. *)
Lemma reachable_ind (s0 : S) (P : system -> Prop) :
  P (initial s0) ->
  (forall x y, reachable s0 x -> P x -> pool_step x y -> P y) ->
  forall x, reachable s0 x -> P x.
Proof.
  intros H0 Hstep x Hx. unfold reachable in *.
  revert x Hx. refine (rtc_ind_r P (initial s0) H0 _). eauto.
Qed.

(** What every answer keeps true of the state and the history, whoever asks. *)
Lemma history_reachable (s0 : S) (P : S -> list (obs R) -> Prop) :
  P s0 [] ->
  (forall s h c r s', P s h -> answers s c r s' -> P s' (h ++ [existT c r])) ->
  forall x, reachable s0 x -> P (shared x) (history x).
Proof.
  intros H0 Hstep. apply reachable_ind; [done|]. intros x y _ Hx Hxy.
  destruct Hxy; cbn in *; eauto.
Qed.
End pool.
Arguments system {C} R S A : assert.

(** ** A program logic over histories

    [hoare I h m Q]: started after the history [h], every request of [m] satisfies
    [I] of the history at that point, and [m] ends with [Q] of the final history
    and outcome, whatever the environment answers. *)
Section hoare.
Context {C : Type} {R : C -> Type}.
Context (I : list (obs R) -> C -> Prop).

Fixpoint hoare {A} (h : list (obs R)) (m : prog R A)
  (Q : list (obs R) -> result A -> Prop) : Prop :=
  match m with
  | Ret a => Q h (inr a)
  | Raise e => Q h (inl e)
  | Call c k => I h c /\ forall r, hoare (h ++ [existT c r : obs R]) (k r) Q
  end.

Lemma hoare_mono {A} (m : prog R A) h (Q Q' : list (obs R) -> result A -> Prop) :
  hoare h m Q -> (forall h' out, Q h' out -> Q' h' out) -> hoare h m Q'.
Proof. revert h. induction m as [a|e|c k IH]; cbn; [auto..|]. intros h [Hc Hk] HQ. split; auto. Qed.

Lemma hoare_bind {A B} (m : prog R A) (f : A -> prog R B) h
  (Q : list (obs R) -> result B -> Prop) :
  hoare h m (fun h' out => match out with inr a => hoare h' (f a) Q | inl e => Q h' (inl e) end) ->
  hoare h (bind m f) Q.
Proof. revert h. induction m as [a|e|c k IH]; cbn; [done..|]. intros h [Hc Hk]. split; auto. Qed.

Lemma hoare_catch {A} (m : prog R A) (p : exn -> bool) (x : exn -> prog R A) h
  (Q : list (obs R) -> result A -> Prop) :
  hoare h m (fun h' out => match out with
                           | inl e => if p e then hoare h' (x e) Q else Q h' (inl e)
                           | inr a => Q h' (inr a) end) ->
  hoare h (catch m p x) Q.
Proof.
  revert h. induction m as [a|e|c k IH]; cbn; [done| |].
  - intros h. by destruct (p e).
  - intros h [Hc Hk]. split; auto.
Qed.

Lemma hoare_call h (c : C) (Q : list (obs R) -> result (R c) -> Prop) :
  I h c -> (forall r, Q (h ++ [existT c r : obs R]) r) -> hoare h (@call C R c) Q.
Proof. intros Hc HQ. split; [done|]. intros [e|a]; apply HQ. Qed.

Lemma hoare_lift {A} h (m : result A) (Q : list (obs R) -> result A -> Prop) : Q h m -> hoare h (lift m) Q.
Proof. by destruct m. Qed.

(** What the program logic says about the runs of a program. *)
Lemma hoare_sound {A} (m : prog R A) (h : list (obs R))
  (Q : list (obs R) -> result A -> Prop) (tr : list (obs R)) (out : result A) :
  hoare h m Q -> runs m tr out ->
  Q (h ++ tr) out /\ forall tr1 c r tr2, tr = tr1 ++ (existT c r : obs R) :: tr2 -> I (h ++ tr1) c.
Proof.
  revert h tr. induction m as [a|e|c k IH]; cbn; intros h tr Hm Hr.
  - apply runs_ret_inv in Hr as [-> ->]. rewrite app_nil_r. split; [done|].
    by intros [] ? ? ?.
  - apply runs_raise_inv in Hr as [-> ->]. rewrite app_nil_r. split; [done|].
    by intros [] ? ? ?.
  - apply runs_call_inv in Hr as (r & tr' & -> & Hr). destruct Hm as [Hc Hk].
    destruct (IH r _ _ (Hk r) Hr) as [HQ HI]. rewrite <-app_assoc in HQ. split; [done|].
    intros [|o tr1] c' r' tr2.
    + cbn. intros [= -> _ _]. by rewrite app_nil_r.
    + cbn. intros [= <- ->]. specialize (HI tr1 c' r' tr2 eq_refl).
      by rewrite <-app_assoc in HI.
Qed.

(** Programs whose requests are all unconditionally allowed. *)
Lemma hoare_issues {A} (P : C -> Prop) (m : prog R A) h :
  (forall h c, P c -> I h c) -> issues P m -> hoare h m (fun h' _ => h `prefix_of` h').
Proof.
  intros HP. revert h. induction m as [a|e|c k IH]; cbn; intros h Hi; [done..|].
  destruct Hi as [Hc Hk]. split; [auto|]. intros r.
  eapply hoare_mono; [by apply IH|]. cbn. intros h' _ Hp.
  etrans; [|done]. by apply prefix_app_r.
Qed.
End hoare.

(** [seen h h' c r]: the history grew from [h] to [h'] and meanwhile the request [c]
    was answered [r]. *)
Section seen.
Context {C : Type} {R : C -> Type}.

Definition seen (h h' : list (obs R)) (c : C) (r : result (R c)) : Prop :=
  exists h1 h2, h' = h ++ h1 ++ (existT c r : obs R) :: h2.

Lemma seen_last h c r : seen h (h ++ [existT c r]) c r.
Proof. by exists [], []. Qed.

Lemma seen_later h h' h'' c r : seen h h' c r -> h' `prefix_of` h'' -> seen h h'' c r.
Proof. intros (h1 & h2 & ->) [k ->]. exists h1, (h2 ++ k). by rewrite <-!app_assoc. Qed.

Lemma seen_earlier h0 h h' c r : h0 `prefix_of` h -> seen h h' c r -> seen h0 h' c r.
Proof. intros [k ->] (h1 & h2 & ->). exists (k ++ h1), h2. by rewrite <-!app_assoc. Qed.

Lemma prefix_snoc (h h' : list (obs R)) o : h `prefix_of` h' -> h `prefix_of` h' ++ [o].
Proof. apply prefix_app_r. Qed.
End seen.
#[export] Hint Resolve seen_last seen_later seen_earlier prefix_snoc : effects.

(** The history has only grown. *)
Ltac grown :=
  first [reflexivity | eassumption | apply prefix_snoc; grown | etrans; [eassumption|]; grown].

(** ** Scheduled runs

    A handler that always gives one of the possible answers turns a list of
    programs, run one after the other, into a run of the pool. *)
Section play.
Context {C : Type} {R : C -> Type} {S A : Type}.
Context (answers : S -> forall c : C, result (R c) -> S -> Prop).
Context (admitted : prog R A -> Prop).
Context (handle : forall c : C, S -> result (R c) * S).

Fixpoint play (m : prog R A) (s : S) (h : list (obs R)) : result A * S * list (obs R) :=
  match m with
  | Ret a => (inr a, s, h)
  | Raise e => (inl e, s, h)
  | Call c k => play (k (handle c s).1) (handle c s).2 (h ++ [existT c (handle c s).1])
  end.

Fixpoint play_all (ms : list (prog R A)) (s : S) (h : list (obs R))
  : list (result A) * S * list (obs R) :=
  match ms with
  | [] => ([], s, h)
  | m :: ms =>
      let '(r, s, h) := play m s h in
      let '(rs, s, h) := play_all ms s h in (r :: rs, s, h)
  end.

(** What [play] records is a run of the program. *)
Lemma play_runs m s h :
  exists tr, (play m s h).2 = h ++ tr /\ runs m tr (play m s h).1.1.
Proof.
  revert s h. induction m as [a|e|c k IH]; intros s h; cbn.
  - exists []. rewrite app_nil_r. split; [done|constructor].
  - exists []. rewrite app_nil_r. split; [done|constructor].
  - destruct (IH (handle c s).1 (handle c s).2 (h ++ [existT c (handle c s).1]))
      as (tr & -> & Hr).
    exists (existT c (handle c s).1 :: tr). rewrite <-app_assoc. split; [done|].
    by constructor.
Qed.

Lemma play_runs_nil m s : runs m (play m s []).2 (play m s []).1.1.
Proof. by destruct (play_runs m s []) as (tr & -> & Hr). Qed.

Hypothesis handled : forall c s, answers s c (handle c s).1 (handle c s).2.

Lemma play_steps m s h :
  rtc (pool_step answers admitted) {| threads := [m]; shared := s; history := h |}
    {| threads := []; shared := (play m s h).1.2; history := (play m s h).2 |}.
Proof.
  revert s h. induction m as [a|e|c k IH]; intros s h; cbn.
  - apply rtc_once, (pool_lost answers admitted []).
  - apply rtc_once, (pool_lost answers admitted []).
  - eapply rtc_l; [|apply IH]. apply (pool_call answers admitted []), handled.
Qed.

Lemma play_all_steps ms s h :
  Forall admitted ms ->
  rtc (pool_step answers admitted) {| threads := []; shared := s; history := h |}
    {| threads := []; shared := (play_all ms s h).1.2; history := (play_all ms s h).2 |}.
Proof.
  intros Hms. revert s h. induction Hms as [|m ms Hm _ IH]; intros s h; cbn; [done|].
  destruct (play m s h) as [[r s'] h'] eqn:Hp. specialize (IH s' h').
  destruct (play_all ms s' h') as [[rs s''] h'']. cbn in *.
  eapply rtc_l; [by apply (pool_spawn answers admitted [])|]. cbn.
  etrans; [apply play_steps|]. by rewrite Hp.
Qed.

Lemma play_all_reachable ms s :
  Forall admitted ms ->
  reachable answers admitted s
    {| threads := []; shared := (play_all ms s []).1.2; history := (play_all ms s []).2 |}.
Proof. apply play_all_steps. Qed.
End play.

(** ** Assume and guarantee

    [wp ok plausible m Q]: every request of [m] satisfies [ok] and [m] ends with [Q] of
    its outcome, provided that every answer it gets is [plausible]. *)
Section wp.
Context {C : Type} {R : C -> Type}.
Context (ok : C -> Prop) (plausible : forall c : C, result (R c) -> Prop).

Fixpoint wp {A} (m : prog R A) (Q : result A -> Prop) : Prop :=
  match m with
  | Ret a => Q (inr a)
  | Raise e => Q (inl e)
  | Call c k => ok c /\ forall r, plausible c r -> wp (k r) Q
  end.

Lemma wp_mono {A} (m : prog R A) (Q Q' : result A -> Prop) :
  wp m Q -> (forall out, Q out -> Q' out) -> wp m Q'.
Proof. induction m as [a|e|c k IH]; cbn; [auto..|]. intros [Hc Hk] HQ. split; auto. Qed.

Lemma wp_bind {A B} (m : prog R A) (f : A -> prog R B) (Q : result B -> Prop) :
  wp m (fun out => match out with inr a => wp (f a) Q | inl e => Q (inl e) end) -> wp (bind m f) Q.
Proof. induction m as [a|e|c k IH]; cbn; [auto..|]. intros [Hc Hk]. split; auto. Qed.

Lemma wp_catch {A} (m : prog R A) (p : exn -> bool) (h : exn -> prog R A) (Q : result A -> Prop) :
  wp m (fun out => match out with
                   | inl e => if p e then wp (h e) Q else Q (inl e)
                   | inr a => Q (inr a) end) -> wp (catch m p h) Q.
Proof.
  induction m as [a|e|c k IH]; cbn; [auto| |].
  - by destruct (p e).
  - intros [Hc Hk]. split; auto.
Qed.

Lemma wp_call c (Q : result (R c) -> Prop) :
  ok c -> (forall r, plausible c r -> Q r) -> wp (@call C R c) Q.
Proof. intros Hc HQ. split; [done|]. intros [e|a]; apply HQ. Qed.

Lemma wp_lift {A} (m : result A) (Q : result A -> Prop) : Q m -> wp (lift m) Q.
Proof. by destruct m. Qed.

(** The value of a pure computation is known to what follows. *)
Lemma wp_bind_lift {A B} (m : result A) (f : A -> prog R B) (Q : result B -> Prop) :
  (forall e, m = inl e -> Q (inl e)) -> (forall a, m = inr a -> wp (f a) Q) ->
  wp (bind (lift m) f) Q.
Proof. destruct m; cbn; auto. Qed.

(** A request whose answer is not looked at. *)
Lemma wp_bind_call {B} c (f : R c -> prog R B) (Q : result B -> Prop) :
  ok c -> (forall e, plausible c (inl e) -> Q (inl e)) ->
  (forall a, plausible c (inr a) -> wp (f a) Q) -> wp (bind (@call C R c) f) Q.
Proof. intros Hc He Ha. apply wp_bind, wp_call; [done|]. intros [e|a]; auto. Qed.

Lemma wp_runs {A} (m : prog R A) (Q : result A -> Prop) tr out :
  wp m Q -> runs m tr out ->
  (forall c r, (existT c r : obs R) ∈ tr -> ok c -> plausible c r) -> Q out.
Proof.
  revert tr. induction m as [a|e|c k IH]; cbn; intros tr Hm Hr Hp.
  - by apply runs_ret_inv in Hr as [_ ->].
  - by apply runs_raise_inv in Hr as [_ ->].
  - apply runs_call_inv in Hr as (r & tr' & -> & Hr). destruct Hm as [Hc Hk].
    apply (IH r tr').
    + apply Hk. apply Hp; [apply list_elem_of_here|done].
    + done.
    + intros c' r' Hin. by apply Hp, list_elem_of_further.
Qed.

(** Every request of a run with plausible answers is fine. *)
Lemma wp_requests {A} (m : prog R A) (Q : result A -> Prop) tr out :
  wp m Q -> runs m tr out ->
  (forall c r, (existT c r : obs R) ∈ tr -> ok c -> plausible c r) ->
  forall c r, (existT c r : obs R) ∈ tr -> ok c.
Proof.
  revert tr. induction m as [a|e|c k IH]; cbn; intros tr Hm Hr Hp c0 r0 Hin.
  - apply runs_ret_inv in Hr as [-> _]. by apply elem_of_nil in Hin.
  - apply runs_raise_inv in Hr as [-> _]. by apply elem_of_nil in Hin.
  - apply runs_call_inv in Hr as (r & tr' & -> & Hr). destruct Hm as [Hc Hk].
    apply elem_of_cons in Hin as [Heq|Hin]; [by apply (f_equal (@projT1 _ _)) in Heq as [= ->]|].
    eapply (IH r tr'); [|done| |exact Hin].
    + apply Hk. apply Hp; [apply list_elem_of_here|done].
    + intros c' r' Hin'. by apply Hp, list_elem_of_further.
Qed.

(** Programs that guarantee their requests, in a state whose invariant makes the answers
    plausible, keep the invariant. *)
Context {S A : Type} (answers : S -> forall c : C, result (R c) -> S -> Prop).
Context (admitted : prog R A -> Prop) (inv : S -> Prop).
Hypothesis kept : forall s c r s', answers s c r s' -> inv s -> ok c -> inv s' /\ plausible c r.
Hypothesis careful : forall m, admitted m -> wp m (fun _ => True).

Lemma wp_reachable s0 x :
  inv s0 -> reachable answers admitted s0 x ->
  inv (shared x) /\ Forall (fun m => wp m (fun _ => True)) (threads x).
Proof.
  intros H0. apply (reachable_ind answers admitted s0
    (fun x => inv (shared x) /\ Forall (fun m => wp m (fun _ => True)) (threads x))); [by split; [|constructor]|].
  intros y z _ [Hinv Ht] Hstep. destruct Hstep as [l s h m Hm|l1 c k l2 s h r s' Ha|l1 m l2 s h]; cbn in *.
  - split; [done|]. apply Forall_app. split; [done|]. constructor; [by apply careful|constructor].
  - apply Forall_app in Ht as [H1 [[Hc Hk] H2]%Forall_cons].
    destruct (kept s c r s' Ha Hinv Hc) as [Hinv' Hp]. split; [done|].
    apply Forall_app. split; [done|]. constructor; [by apply Hk|done].
  - apply Forall_app in Ht as [H1 [_ H2]%Forall_cons]. split; [done|]. by apply Forall_app.
Qed.
End wp.

(** ** How many requests a program makes

    [costs cost n m]: in every run of [m], whatever is answered, the requests cost at most
    [n] together. *)
Section counting.
Context {C : Type} {R : C -> Type} (cost : C -> nat).

Definition total (tr : list (obs R)) : nat := foldr (fun o n => (cost (projT1 o) + n)%nat) 0%nat tr.

Definition costs {A} (n : nat) (m : prog R A) : Prop := forall tr out, runs m tr out -> (total tr <= n)%nat.

Lemma total_app tr tr' : total (tr ++ tr') = (total tr + total tr')%nat.
Proof. unfold total. induction tr as [|o tr IH]; cbn in *; lia. Qed.

Lemma costs_le {A} n n' (m : prog R A) : (n <= n')%nat -> costs n m -> costs n' m.
Proof. intros Hle Hm tr out Hr. etrans; [by eapply Hm|done]. Qed.

Lemma costs_ret {A} n (a : A) : costs n (Ret a).
Proof. intros tr out [-> _]%runs_ret_inv. cbn. lia. Qed.

Lemma costs_raise {A} n e : costs (A:=A) n (Raise e).
Proof. intros tr out [-> _]%runs_raise_inv. cbn. lia. Qed.

Lemma costs_lift {A} n (m : result A) : costs n (lift m).
Proof. intros tr out [-> _]%runs_lift. cbn. lia. Qed.

Lemma costs_call n c : (cost c <= n)%nat -> costs n (call (R:=R) c).
Proof. intros Hc tr out (r & -> & _)%runs_call_out. cbn. lia. Qed.

(** What follows may rely on the value that was returned. *)
Lemma costs_bind {A B} n n' (m : prog R A) (f : A -> prog R B) :
  costs n m -> (forall a tr, runs m tr (inr a) -> costs n' (f a)) -> costs (n + n') (bind m f).
Proof.
  intros Hm Hf tr out [(e & Hr & _)|(a & t1 & t2 & -> & H1 & H2)]%runs_bind.
  - specialize (Hm _ _ Hr). lia.
  - rewrite total_app. specialize (Hm _ _ H1). specialize (Hf _ _ H1 _ _ H2). lia.
Qed.

(** A prefix without cost *)
Lemma costs_then {A B} n (m : prog R A) (f : A -> prog R B) :
  costs 0 m -> (forall a tr, runs m tr (inr a) -> costs n (f a)) -> costs n (bind m f).
Proof. intros Hm Hf. by apply (costs_bind 0 n). Qed.

(** A program whose value is only used without cost *)
Lemma costs_last {A B} n (m : prog R A) (f : A -> prog R B) :
  costs n m -> (forall a, costs 0 (f a)) -> costs n (bind m f).
Proof. intros Hm Hf. rewrite <-(Nat.add_0_r n). by apply costs_bind. Qed.

Lemma costs_catch {A} n n' (m : prog R A) p h :
  costs n m -> (forall e, costs n' (h e)) -> costs (n + n') (catch m p h).
Proof.
  intros Hm Hh tr out [[Hr _]|(e & t1 & t2 & -> & H1 & _ & H2)]%runs_catch.
  - specialize (Hm _ _ Hr). lia.
  - rewrite total_app. specialize (Hm _ _ H1). specialize (Hh _ _ _ H2). lia.
Qed.

Lemma costs_attempt {A} n (m : prog R A) : costs n m -> costs n (attempt m).
Proof. intros Hm tr out (o & -> & Hr)%runs_attempt. by eapply Hm. Qed.

Lemma costs_finally {A} n (m : prog R A) f : costs n m -> costs 0 f -> costs n (finally m f).
Proof.
  intros Hm Hf. apply costs_last; [by apply costs_attempt|]. intros out.
  apply costs_last; [done|]. intros _. apply costs_lift.
Qed.
End counting.
Arguments costs {C R} cost {A} n m : assert.

Lemma costs_embed {C D} {R : C -> Type} {Q : D -> Type} (inj : C -> D)
  (ans : forall c, result (Q (inj c)) -> result (R c)) (cost : C -> nat) (cost' : D -> nat) {A} n (m : prog R A) :
  (forall c, cost' (inj c) = cost c) -> costs cost n m -> costs cost' n (embed inj ans m).
Proof.
  intros Hcost Hm tr out (tr0 & Hr & Ht)%runs_embed. specialize (Hm _ _ Hr).
  enough (total cost' tr = total cost tr0) by lia. clear Hm Hr. unfold total.
  induction Ht as [|o0 o tr0 tr (r & -> & _) _ IH]; cbn; [done|]. by rewrite Hcost, IH.
Qed.

(** A program without requests of cost *)
Lemma costs_none {C} {R : C -> Type} (cost : C -> nat) {A} (m : prog R A) :
  issues (fun c => cost c = 0%nat) m -> costs cost 0 m.
Proof.
  intros Hi tr out Hr. pose proof (runs_issues _ _ _ _ Hi Hr) as Hz. clear Hi Hr.
  unfold total. induction Hz as [|o tr Ho _ IH]; cbn in *; lia.
Qed.

(** ** Programs with more runs *)
Section inclusion.
Context {C : Type} {R : C -> Type}.

Lemma runs_bind_raise {A B} (m : prog R A) (f : A -> prog R B) tr e :
  runs m tr (inl e) -> runs (bind m f) tr (inl e).
Proof.
  revert tr. induction m as [a|e'|c k IH]; cbn; intros tr Hr.
  - apply runs_ret_inv in Hr as [_ ?]. congruence.
  - apply runs_raise_inv in Hr as [-> ?]. replace e with e' by congruence. constructor.
  - apply runs_call_inv in Hr as (r & tr' & -> & Hr). constructor. by apply IH.
Qed.

Lemma runs_bind_mono {A B} (m m' : prog R A) (f f' : A -> prog R B) tr out :
  (forall tr out, runs m tr out -> runs m' tr out) ->
  (forall a tr out, runs (f a) tr out -> runs (f' a) tr out) ->
  runs (bind m f) tr out -> runs (bind m' f') tr out.
Proof.
  intros Hm Hf [(e & Hr & ->)|(a & t1 & t2 & -> & H1 & H2)]%runs_bind.
  - by apply runs_bind_raise, Hm.
  - eapply runs_bind_intro; [by apply Hm|by apply Hf].
Qed.
End inclusion.

(** One request, whose cost is evaluated *)
Ltac costs_request :=
  match goal with |- costs ?cost ?n (@call _ ?R ?c) => apply (costs_call (R:=R) cost n c); first [exact (le_n _) | exact (Nat.le_0_l _)] end.
