(* ===== verification/Permits.v ===== *)
(** * At-most-once effects behind a one-time claim

    Several parts of the system follow one protocol: a worker first wins a claim, a
    transaction or the exclusive creation of a file that at most one worker can ever win,
    and may then have an effect, once.  This file proves what the protocol gives in any
    interleaving; the parts instantiate it with their own claims and effects.  It also follows
    what a worker has read that nobody can undo, and who holds a lock. *)

From S2P Require Import Prelude Effects.

Section permits.
Context {C : Type} {R : C -> Type} {S A : Type} {K : Type}.
Context (answers : S -> forall c : C, result (R c) -> S -> Prop).
Context (admitted : prog R A -> Prop).

(** [ok]: well-formed requests.  [inv]: an invariant of the shared state.  [claimed]: the
    key was claimed.  [grant]: the claim an answer tells its caller it won.  [spend]: the
    key whose effect a request has. *)
Context (ok : C -> Prop) (inv : S -> Prop) (claimed : S -> K -> Prop).
Context (grant : forall c : C, result (R c) -> option K) (spend : C -> option K).

Class PermitLaws : Prop := {
  law_inv s c r s' : answers s c r s' -> inv s -> ok c -> inv s';
  law_claimed s c r s' k : answers s c r s' -> inv s -> ok c -> claimed s k -> claimed s' k;
  law_fresh s c r s' k :
    answers s c r s' -> inv s -> ok c -> grant c r = Some k -> ~ claimed s k /\ claimed s' k;
  law_apart c r k : spend c = Some k -> grant c r = None;
}.

(** ** Programs that keep to the protocol *)

Definition next_permit (perm : option K) (c : C) (r : result (R c)) : option K :=
  match spend c with
  | Some _ => None
  | None => match grant c r with Some k => Some k | None => perm end
  end.

(** Holding [perm], the program has effects only for the key of its permit, which each
    effect uses up. *)
Fixpoint guarded {B} (perm : option K) (m : prog R B) : Prop :=
  match m with
  | Call c k =>
      ok c /\ (forall key, spend c = Some key -> perm = Some key) /\
      forall r, guarded (next_permit perm c r) (k r)
  | _ => True
  end.

(** Requests that neither claim nor have effects. *)
Definition quiet (c : C) : Prop := ok c /\ spend c = None /\ forall r, grant c r = None.

Lemma next_permit_quiet perm c r : quiet c -> next_permit perm c r = perm.
Proof. intros (_ & Hs & Hg). unfold next_permit. by rewrite Hs, Hg. Qed.

Lemma guarded_quiet {B} perm (m : prog R B) : issues quiet m -> guarded perm m.
Proof.
  revert perm. induction m as [b|e|c k IH]; intros perm; cbn; [done..|]. intros [Hc Hk].
  split_and!; [apply Hc|by destruct Hc as (_ & -> & _)|].
  intros r. rewrite next_permit_quiet by done. auto.
Qed.

(** Requests without effects keep to the protocol, claims or not. *)
Lemma guarded_tame {B} perm (m : prog R B) : issues (fun c => ok c /\ spend c = None) m -> guarded perm m.
Proof.
  revert perm. induction m as [b|e|c k IH]; intros perm; cbn; [done..|]. intros [[Hc Hs] Hk].
  split_and!; [done|by rewrite Hs|]. auto.
Qed.

Lemma guarded_bind {B D} perm (m : prog R B) (f : B -> prog R D) :
  issues quiet m -> (forall b, guarded perm (f b)) -> guarded perm (bind m f).
Proof.
  intros Hm Hf. induction m as [b|e|c k IH]; cbn in *; [auto|done|]. destruct Hm as [Hc Hk].
  split_and!; [apply Hc|by destruct Hc as (_ & -> & _)|].
  intros r. rewrite next_permit_quiet by done. auto.
Qed.

(** A permit that is never used may be dropped. *)
Lemma guarded_weaken {B} perm (m : prog R B) : guarded None m -> guarded perm m.
Proof.
  revert perm. induction m as [b|e|c k IH]; intros perm; cbn; [done..|].
  intros (Hc & Hs & Hk). split_and!; [done|intros key Hkey; by specialize (Hs key Hkey)|].
  intros r. specialize (Hk r). unfold next_permit in *. destruct (spend c); [done|].
  destruct (grant c r); [done|]. by apply IH.
Qed.

Lemma guarded_bind_none {B D} perm (m : prog R B) (f : B -> prog R D) :
  guarded perm m -> (forall b, guarded None (f b)) -> guarded perm (bind m f).
Proof.
  revert perm. induction m as [b|e|c k IH]; intros perm; cbn.
  - intros _ Hf. by apply guarded_weaken.
  - done.
  - intros (Hc & Hs & Hk) Hf. split_and!; auto.
Qed.

Lemma guarded_catch {B} perm (m : prog R B) (p : exn -> bool) h :
  guarded perm m -> (forall e, guarded None (h e)) -> guarded perm (catch m p h).
Proof.
  revert perm. induction m as [b|e|c k IH]; intros perm; cbn.
  - done.
  - intros _ Hh. destruct (p e); [|done]. by apply guarded_weaken.
  - intros (Hc & Hs & Hk) Hh. split_and!; auto.
Qed.

(** An effect uses the permit; what follows must be quiet. *)
Lemma guarded_spend {B} key c (k : result (R c) -> prog R B) :
  ok c -> spend c = Some key -> (forall r, issues quiet (k r)) -> guarded (Some key) (Call c k).
Proof.
  intros Hc Hs Hk. split_and!; [done|congruence|]. intros r. by apply guarded_quiet.
Qed.

(** [guarded] with what is known of the permit and the outcome at the end *)
Fixpoint guards {B} (perm : option K) (m : prog R B) (Q : option K -> result B -> Prop) : Prop :=
  match m with
  | Ret b => Q perm (inr b)
  | Raise e => Q perm (inl e)
  | Call c k =>
      ok c /\ (forall key, spend c = Some key -> perm = Some key) /\
      forall r, guards (next_permit perm c r) (k r) Q
  end.

Lemma guards_mono {B} perm (m : prog R B) (Q Q' : option K -> result B -> Prop) :
  guards perm m Q -> (forall p out, Q p out -> Q' p out) -> guards perm m Q'.
Proof.
  revert perm. induction m as [b|e|c k IH]; intros perm; cbn; [auto..|].
  intros (? & ? & ?) HQ. split_and!; eauto.
Qed.

Lemma guards_guarded {B} perm (m : prog R B) Q : guards perm m Q -> guarded perm m.
Proof. revert perm. induction m; intros perm; cbn; [done..|]. intros (? & ? & ?). split_and!; auto. Qed.

Lemma guards_bind {B D} perm (m : prog R B) (f : B -> prog R D) Q :
  guards perm m (fun p out => match out with inr b => guards p (f b) Q | inl e => Q p (inl e) end) ->
  guards perm (bind m f) Q.
Proof. revert perm. induction m; intros perm; cbn; [done..|]. intros (? & ? & ?). split_and!; auto. Qed.

(** What follows needs only the protocol. *)
Lemma guarded_bind_guards {B D} perm (m : prog R B) (f : B -> prog R D) :
  guards perm m (fun p out => match out with inr b => guarded p (f b) | inl _ => True end) ->
  guarded perm (bind m f).
Proof. revert perm. induction m; intros perm; cbn; [done..|]. intros (? & ? & ?). split_and!; auto. Qed.

Lemma guards_quiet {B} perm (m : prog R B) : issues quiet m -> guards perm m (fun p _ => p = perm).
Proof.
  intros Hm. induction m as [b|e|c k IH]; cbn in *; [done..|]. destruct Hm as [Hc Hk].
  split_and!; [apply Hc|by destruct Hc as (_ & -> & _)|]. intros r.
  rewrite next_permit_quiet by done. auto.
Qed.

(** One request that neither claims nor has an effect *)
Lemma guards_call c perm Q :
  quiet c -> (forall r, Q perm r) -> guards perm (call (R:=R) c) Q.
Proof.
  intros Hc HQ. cbn. split_and!; [apply Hc|by destruct Hc as (_ & -> & _)|]. intros r.
  rewrite next_permit_quiet by done. destruct r; cbn; apply HQ.
Qed.

Lemma guards_catch {B} perm (m : prog R B) (p : exn -> bool) h Q :
  guards perm m (fun q out => match out with
                              | inl e => if p e then guards q (h e) Q else Q q (inl e)
                              | inr b => Q q (inr b) end) -> guards perm (catch m p h) Q.
Proof.
  revert perm. induction m as [b|e|c k IH]; intros perm; cbn; [done| |].
  - by destruct (p e).
  - intros (? & ? & ?). split_and!; auto.
Qed.

Lemma guards_attempt {B} perm (m : prog R B) (Q : option K -> result (result B) -> Prop) :
  guards perm m (fun p out => Q p (inr out)) -> guards perm (attempt m) Q.
Proof. revert perm. induction m; intros perm; cbn; [done..|]. intros (? & ? & ?). split_and!; auto. Qed.

(** ** The pool *)

(** The effects had so far. *)
Definition spent (h : list (obs R)) : list K := omap (fun o : obs R => spend (projT1 o)) h.

Definition held (perms : list (option K)) : list K := omap (fun p => p) perms.

Record permit_inv (x : system R S A) : Prop := {
  permit_state : inv (shared x);
  permit_pool : exists perms,
    Forall2 (fun p m => guarded p m) perms (threads x) /\
    NoDup (held perms ++ spent (history x)) /\
    forall key, key ∈ held perms ++ spent (history x) -> claimed (shared x) key;
}.

Lemma held_middle (l1 l2 : list (option K)) p :
  held (l1 ++ p :: l2) ≡ₚ option_list p ++ held (l1 ++ l2).
Proof.
  unfold held. rewrite !omap_app. cbn. destruct p as [k|]; cbn; [|done].
  by rewrite Permutation_middle.
Qed.

Lemma spent_snoc h c (r : result (R c)) :
  spent (h ++ [existT c r]) = spent h ++ option_list (spend c).
Proof. unfold spent. rewrite omap_app. cbn. by destruct (spend c). Qed.

(** The permits and effects of the pool after one request: what was there, plus at most
    one permit, for a key not claimed before. *)
Lemma permit_request `{PermitLaws} s s' perm c (r : result (R c)) rest h :
  answers s c r s' -> inv s -> ok c -> (forall key, spend c = Some key -> perm = Some key) ->
  NoDup (option_list perm ++ rest ++ spent h) ->
  (forall key, key ∈ option_list perm ++ rest ++ spent h -> claimed s key) ->
  NoDup (option_list (next_permit perm c r) ++ rest ++ spent (h ++ [existT c r])) /\
  (forall key, key ∈ option_list (next_permit perm c r) ++ rest ++ spent (h ++ [existT c r]) ->
     claimed s' key).
Proof.
  intros Ha Hinv Hok Hspend Hnd Hcl.
  assert (forall key, claimed s key -> claimed s' key) as Hmono by eauto using law_claimed.
  pose proof (fun k => law_fresh _ _ _ _ k Ha Hinv Hok) as Hfresh.
  rewrite spent_snoc. unfold next_permit. destruct (spend c) as [key|] eqn:Hs.
  - rewrite (Hspend key eq_refl) in *. cbn in *.
    assert (rest ++ spent h ++ [key] ≡ₚ key :: rest ++ spent h) as Hperm
      by (rewrite app_assoc, <-Permutation_cons_append; done).
    split; [by rewrite Hperm|]. intros key'. rewrite Hperm. eauto.
  - cbn. rewrite app_nil_r. destruct (grant c r) as [key|] eqn:Hg; [|split; [done|]; auto].
    destruct (Hfresh key eq_refl) as [Hnew Hid].
    apply NoDup_app in Hnd as (_ & _ & Hnd). cbn. split.
    + apply NoDup_cons. split; [|done]. intros Hin. apply Hnew, Hcl, elem_of_app. by right.
    + intros k' [->|Hin]%elem_of_cons; [done|]. apply Hmono, Hcl, elem_of_app. by right.
Qed.

Hypothesis admitted_guarded : forall m, admitted m -> guarded None m.

Lemma permit_inv_step `{PermitLaws} x y :
  pool_step answers admitted x y -> permit_inv x -> permit_inv y.
Proof.
  intros Hstep [Hinv (perms & Hg & Hnd & Hcl)].
  destruct Hstep as [l s h m Hm|l1 c k l2 s h r s' Ha|l1 m l2 s h]; cbn in *.
  - split; [done|]. exists (perms ++ [None]). cbn. unfold held in *. rewrite omap_app. cbn.
    rewrite app_nil_r. split_and!; [|done|done]. apply Forall2_app; [done|].
    constructor; [by apply admitted_guarded|done].
  - apply Forall2_app_inv_r in Hg as (p1 & pm & H1 & Hm & ->).
    apply Forall2_cons_inv_r in Hm as (p & p2 & (Hok & Hspend & Hk) & H2 & ->).
    rewrite held_middle, <-app_assoc in Hnd. setoid_rewrite held_middle in Hcl.
    setoid_rewrite <-app_assoc in Hcl.
    destruct (permit_request s s' p c r _ h Ha Hinv Hok Hspend Hnd Hcl) as [Hnd' Hcl'].
    split; [by eapply law_inv|]. exists (p1 ++ next_permit p c r :: p2). cbn.
    rewrite held_middle, <-app_assoc. setoid_rewrite held_middle.
    setoid_rewrite <-app_assoc. split_and!; [|done|done].
    apply Forall2_app; [done|]. constructor; [apply Hk|done].
  - apply Forall2_app_inv_r in Hg as (p1 & pm & H1 & Hm & ->).
    apply Forall2_cons_inv_r in Hm as (p & p2 & _ & H2 & ->).
    rewrite held_middle, <-app_assoc in Hnd. setoid_rewrite held_middle in Hcl.
    setoid_rewrite <-app_assoc in Hcl. split; [done|]. exists (p1 ++ p2). cbn. split_and!.
    + by apply Forall2_app.
    + by apply NoDup_app in Hnd as (_ & _ & ?).
    + intros key Hk. apply Hcl, elem_of_app. by right.
Qed.

Lemma permit_inv_reachable `{PermitLaws} s0 x :
  inv s0 -> reachable answers admitted s0 x -> permit_inv x.
Proof.
  intros H0. apply (reachable_ind _ _ s0).
  - split; [done|]. exists []. split_and!; [constructor|constructor|].
    intros key Hk. by apply elem_of_nil in Hk.
  - intros y z _ Hy Hstep. by eapply permit_inv_step.
Qed.

(** Every request of the history was well-formed. *)
Lemma requests_ok `{PermitLaws} s0 x :
  inv s0 -> reachable answers admitted s0 x -> Forall (fun o : obs R => ok (projT1 o)) (history x).
Proof.
  intros H0. apply (reachable_ind answers admitted s0
    (fun x => Forall (fun o : obs R => ok (projT1 o)) (history x))); [constructor|].
  intros y z Hy IH Hstep.
  destruct (permit_inv_reachable s0 y H0 Hy) as [_ (perms & Hg & _)].
  destruct Hstep as [l s h m Hm|l1 c k l2 s h r s' Ha|l1 m l2 s h]; cbn in *; [done| |done].
  apply Forall2_app_inv_r in Hg as (p1 & pm & _ & Hm & _).
  apply Forall2_cons_inv_r in Hm as (p & p2 & (Hok & _) & _ & _).
  apply Forall_app. split; [done|]. by constructor.
Qed.

(** What the protocol gives: no effect twice, and only after its claim. *)
Lemma spent_once `{PermitLaws} s0 x :
  inv s0 -> reachable answers admitted s0 x ->
  inv (shared x) /\ NoDup (spent (history x)) /\
  forall key, key ∈ spent (history x) -> claimed (shared x) key.
Proof.
  intros H0 Hx. destruct (permit_inv_reachable s0 x H0 Hx) as [Hinv (perms & _ & Hnd & Hcl)].
  split_and!; [done|by apply NoDup_app in Hnd as (_ & _ & ?)|].
  intros key Hk. apply Hcl, elem_of_app. by right.
Qed.
End permits.

(** A protocol relation survives [attempt]. *)
Lemma guarded_attempt {C} {R : C -> Type} {K A} (ok : C -> Prop) (grant : forall c : C, result (R c) -> option K)
  (spend : C -> option K) perm (m : prog R A) :
  guarded ok grant spend perm m -> guarded ok grant spend perm (attempt m).
Proof. revert perm. induction m; intros perm; cbn; [done|done|]. intros (? & ? & ?). split_and!; auto. Qed.

(** A program that is never granted anything has at most the effect of its permit. *)
Lemma guarded_runs_once {C} {R : C -> Type} {K A} (ok : C -> Prop) (spend : C -> option K) perm
  (m : prog R A) tr out :
  guarded ok (fun _ _ => None) spend perm m -> runs m tr out ->
  (length (spent spend tr) <= length (option_list perm))%nat.
Proof.
  revert perm tr. induction m as [a|e|c k IH]; intros perm tr; cbn.
  - intros _ [-> _]%runs_ret_inv. cbn. lia.
  - intros _ [-> _]%runs_raise_inv. cbn. lia.
  - intros (_ & Hs & Hk) (r & tr' & -> & Hr)%runs_call_inv. specialize (IH r _ _ (Hk r) Hr).
    unfold next_permit in IH. unfold spent. cbn. fold (spent spend tr').
    destruct (spend c) as [key|]; [|done]. rewrite (Hs key eq_refl). cbn in *. lia.
Qed.

(** ** The protocol across layers

    A program over requests of a lower layer keeps to the protocol there when the request
    with the effect is implemented by a program that has at most one effect, and a claim by
    one request that tells the same. *)
Section layers.
Context {C D : Type} {R : C -> Type} {Q : D -> Type} {K : Type}.
Context (impl : forall c : C, prog Q (R c)).
Context (ok1 : C -> Prop) (grant1 : forall c : C, result (R c) -> option K) (spend1 : C -> option K).
Context (ok2 : D -> Prop) (grant2 : forall d : D, result (Q d) -> option K) (spend2 : D -> option K).

(** The request [c] is passed on as one request. *)
Definition passed_on (c : C) : Prop :=
  exists d (f : result (Q d) -> result (R c)), impl c = Call d (fun r => lift (f r)) /\
    ok2 d /\ spend2 d = None /\ forall r, grant2 d r = grant1 c (f r).

Definition layer_quiet (c : C) : Prop :=
  issues (quiet ok2 grant2 spend2) (impl c) /\ forall r, grant1 c r = None.

Hypothesis impl_spend : forall c key, ok1 c -> spend1 c = Some key ->
  guarded ok2 grant2 spend2 (Some key) (attempt (impl c)).
Hypothesis impl_rest : forall c, ok1 c -> spend1 c = None -> passed_on c \/ layer_quiet c.

Lemma guarded_link {B} perm (m : prog R B) :
  guarded ok1 grant1 spend1 perm m -> guarded ok2 grant2 spend2 perm (link impl m).
Proof.
  revert perm. induction m as [b|e|c k IH]; intros perm; cbn; [done..|]. intros (Hok & Hs & Hk).
  destruct (spend1 c) as [key|] eqn:Hc.
  - rewrite (Hs key eq_refl). apply guarded_bind_none; [by apply impl_spend|]. intros r.
    apply IH. specialize (Hk r). unfold next_permit in Hk. by rewrite Hc in Hk.
  - destruct (impl_rest c Hok Hc) as [(d & f & -> & Hd & Hsd & Hg)|[Hq Hg]].
    + cbn. split_and!; [done|by rewrite Hsd|]. intros r.
      specialize (IH (f r) _ (Hk (f r))). unfold next_permit in *. rewrite Hsd, Hg, Hc in *.
      by destruct (f r).
    + apply guarded_bind; [by apply issues_attempt|]. intros r.
      specialize (IH r _ (Hk r)). unfold next_permit in IH. by rewrite Hc, Hg in IH.
Qed.

(** A program of the lower layer, with what is known at its end *)
Lemma guards_embed {B} perm (inj : C -> D) (ans : forall c, result (Q (inj c)) -> result (R c))
  (m : prog R B) (P : option K -> result B -> Prop) :
  (forall c, ok1 c -> ok2 (inj c)) -> (forall c, spend2 (inj c) = spend1 c) ->
  (forall c r, grant2 (inj c) r = grant1 c (ans c r)) ->
  guards ok1 grant1 spend1 perm m P -> guards ok2 grant2 spend2 perm (embed inj ans m) P.
Proof.
  intros Hok Hs Hg. revert perm. induction m as [b|e|c k IH]; intros perm; cbn; [done..|].
  intros (Hc & Hp & Hk). split_and!; [auto|by rewrite Hs|]. intros r.
  specialize (IH (ans c r) _ (Hk (ans c r))). unfold next_permit in *. by rewrite Hs, Hg.
Qed.

(** A program of the lower layer continued by a protocol program *)
Lemma guarded_embed {B} perm (inj : C -> D) (ans : forall c, result (Q (inj c)) -> result (R c))
  (m : prog R B) :
  (forall c, ok1 c -> ok2 (inj c)) -> (forall c, spend2 (inj c) = spend1 c) ->
  (forall c r, grant2 (inj c) r = grant1 c (ans c r)) ->
  guarded ok1 grant1 spend1 perm m -> guarded ok2 grant2 spend2 perm (embed inj ans m).
Proof.
  intros Hok Hs Hg. revert perm. induction m as [b|e|c k IH]; intros perm; cbn; [done..|].
  intros (Hc & Hp & Hk). split_and!; [auto|by rewrite Hs|]. intros r.
  specialize (IH (ans c r) _ (Hk (ans c r))). unfold next_permit in *. by rewrite Hs, Hg.
Qed.
End layers.

(** ** What workers may rely on under interference

    A worker that reads a shared table learns facts, some of which other workers can never
    make false: a row that exists stays, a report once published stays.  [informed] checks
    a program against the knowledge it has gathered, [facts_reachable] says what follows
    for every interleaving: whatever a request of the history needed still holds. *)

Section facts.
Context {C : Type} {R : C -> Type} {S A F : Type}.
Context (answers : S -> forall c : C, result (R c) -> S -> Prop).
Context (admitted : prog R A -> Prop).

(** [ok]: well-formed requests.  [inv]: an invariant of the shared state.  [learns]: what an
    answer tells.  [needs]: what a request takes for granted. *)
Context (ok : C -> Prop) (inv : S -> Prop) (holds : S -> F -> Prop).
Context (learns : forall c : C, result (R c) -> F -> Prop) (needs : C -> F -> Prop).

Class FactLaws : Prop := {
  fact_inv s c r s' : answers s c r s' -> inv s -> ok c -> inv s';
  fact_stable s c r s' f : answers s c r s' -> inv s -> ok c -> holds s f -> holds s' f;
  fact_learned s c r s' f : answers s c r s' -> inv s -> ok c -> learns c r f -> holds s' f;
}.

(** ** Programs that check before they rely on something *)

Definition learning (K : F -> Prop) (c : C) (r : result (R c)) (f : F) : Prop := K f \/ learns c r f.

Fixpoint informed {B} (K : F -> Prop) (m : prog R B) (Q : (F -> Prop) -> result B -> Prop) : Prop :=
  match m with
  | Ret a => Q K (inr a)
  | Raise e => Q K (inl e)
  | Call c k =>
      ok c /\ (forall f, needs c f -> K f) /\ forall r, informed (learning K c r) (k r) Q
  end.

Lemma informed_mono {B} K (m : prog R B) (Q Q' : (F -> Prop) -> result B -> Prop) :
  informed K m Q -> (forall K' out, Q K' out -> Q' K' out) -> informed K m Q'.
Proof.
  revert K. induction m as [a|e|c k IH]; intros K; cbn; [auto..|].
  intros (Hok & Hn & Hk) HQ. split_and!; auto.
Qed.

Lemma informed_bind {B D} K (m : prog R B) (f : B -> prog R D) Q :
  informed K m (fun K' out => match out with inr a => informed K' (f a) Q | inl e => Q K' (inl e) end) ->
  informed K (bind m f) Q.
Proof.
  revert K. induction m as [a|e|c k IH]; intros K; cbn; [auto..|].
  intros (Hok & Hn & Hk). split_and!; auto.
Qed.

Lemma informed_catch {B} K (m : prog R B) (p : exn -> bool) (h : exn -> prog R B) Q :
  informed K m (fun K' out => match out with
    | inl e => if p e then informed K' (h e) Q else Q K' (inl e)
    | inr a => Q K' (inr a) end) ->
  informed K (catch m p h) Q.
Proof.
  revert K. induction m as [a|e|c k IH]; intros K; cbn; [auto| |].
  - by destruct (p e).
  - intros (Hok & Hn & Hk). split_and!; auto.
Qed.

Lemma informed_call K c (Q : (F -> Prop) -> result (R c) -> Prop) :
  ok c -> (forall f, needs c f -> K f) -> (forall r, Q (learning K c r) r) -> informed K (@call C R c) Q.
Proof. intros Hc Hn HQ. split_and!; [done..|]. intros [e|a]; apply HQ. Qed.

Lemma informed_bind_call {B} K c (f : R c -> prog R B) Q :
  ok c -> (forall f, needs c f -> K f) -> (forall e, Q (learning K c (inl e)) (inl e)) ->
  (forall a, informed (learning K c (inr a)) (f a) Q) -> informed K (bind (@call C R c) f) Q.
Proof. intros Hc Hn He Ha. apply informed_bind, informed_call; [done..|]. intros [e|a]; auto. Qed.

Lemma informed_bind_lift {B D} K (m : result B) (f : B -> prog R D) Q :
  (forall e, m = inl e -> Q K (inl e)) -> (forall a, m = inr a -> informed K (f a) Q) ->
  informed K (bind (lift m) f) Q.
Proof. destruct m; cbn; auto. Qed.

(** ** The pool *)

(** A running program whose knowledge is true. *)
Definition knowing (s : S) (m : prog R A) : Prop :=
  exists K : F -> Prop, (forall f, K f -> holds s f) /\ informed K m (fun _ _ => True).

Lemma knowing_later s s' m : (forall f, holds s f -> holds s' f) -> knowing s m -> knowing s' m.
Proof. intros Hmono (K & ? & ?). exists K. eauto. Qed.

Record facts_inv (x : system R S A) : Prop := {
  facts_state : inv (shared x);
  facts_past : forall c r, (existT c r : obs R) ∈ history x ->
    ok c /\ forall f, needs c f -> holds (shared x) f;
  facts_pool : Forall (knowing (shared x)) (threads x);
}.

Hypothesis admitted_informed : forall m, admitted m -> informed (fun _ => False) m (fun _ _ => True).

Lemma facts_inv_step `{FactLaws} x y : pool_step answers admitted x y -> facts_inv x -> facts_inv y.
Proof.
  intros Hstep [Hinv Hpast Hpool].
  destruct Hstep as [l s h m Hm|l1 c k l2 s h r s' Ha|l1 m l2 s h]; cbn in *.
  - split; cbn; [done|done|]. apply Forall_app. split; [done|]. constructor; [|constructor].
    exists (fun _ => False). split; [done|]. by apply admitted_informed.
  - apply Forall_app in Hpool as [H1 [(K & HK & Hok & Hn & Hk) H2]%Forall_cons].
    assert (forall f, holds s f -> holds s' f) as Hmono by eauto using fact_stable.
    split; cbn; [by eapply fact_inv| |].
    + intros c' r' [Hin|Hin]%elem_of_app.
      * destruct (Hpast c' r' Hin). split; eauto.
      * apply list_elem_of_singleton in Hin. apply (f_equal (@projT1 _ _)) in Hin as [= ->].
        split; [done|]. eauto.
    + assert (forall l, Forall (knowing s) l -> Forall (knowing s') l) as Hlater
        by (intros l Hl; eapply Forall_impl; [exact Hl|]; eauto using knowing_later).
      apply Forall_app. split; [by apply Hlater|]. constructor; [|by apply Hlater].
      exists (learning K c r). split; [|apply Hk]. intros f [Hf|Hf]; [auto|by eapply fact_learned].
  - apply Forall_app in Hpool as [H1 [_ H2]%Forall_cons]. split; cbn; [done|done|].
    by apply Forall_app.
Qed.

Lemma facts_reachable `{FactLaws} s0 x :
  inv s0 -> reachable answers admitted s0 x -> facts_inv x.
Proof.
  intros H0. apply (reachable_ind answers admitted s0 facts_inv).
  - split; cbn; [done| |constructor]. intros c r Hin. by apply elem_of_nil in Hin.
  - intros y z _ Hy Hstep. by eapply facts_inv_step.
Qed.
End facts.

(** ** Exclusive ownership under interference

    A lock of the system, a latch file or a pending entry of a table, is taken by one request
    and given back by another.  Workers that touch what it protects only while they hold it
    exclude each other, in any interleaving; one that is lost while it holds a lock leaves it
    taken.  The parts instantiate this with their own locks. *)

Section locks.
Context {C : Type} {R : C -> Type} {S A K L : Type} `{EqDecision K}.
Context (answers : S -> forall c : C, result (R c) -> S -> Prop) (admitted : prog R A -> Prop).

(** [acquires c r]: the answer [r] gives its lock to the worker, under a label;
    [releases c r]: whoever was answered [r] no longer holds the lock; [needs c]: only its holder may issue [c];
    [locked s k]: the state says that [k] is taken. *)
Context (acquires : forall c : C, result (R c) -> option (K * L)).
Context (releases : forall c : C, result (R c) -> option K) (needs : C -> option (K * L)).
Context (locked : S -> K -> Prop).

Class LockLaws : Prop := {
  acquire_free s c r s' k l : answers s c r s' -> acquires c r = Some (k, l) -> ~ locked s k /\ locked s' k;
  locked_kept s c r s' k : answers s c r s' -> locked s k -> releases c r <> Some k -> locked s' k;
  acquire_plain c r x : acquires c r = Some x -> releases c r = None /\ needs c = None;
  release_needs c r k : releases c r = Some k -> exists l, needs c = Some (k, l);
}.

(** ** Discipline *)

(** What a worker holds after a request *)
Definition after_call (o : option (K * L)) (c : C) (r : result (R c)) : option (K * L) :=
  match acquires c r with
  | Some x => Some x
  | None => match releases c r with Some _ => None | None => o end
  end.

(** A worker that holds [o] issues only requests it is entitled to, and asks for a lock only
    when it holds none. *)
Fixpoint disciplined {B} (o : option (K * L)) (m : prog R B) : Prop :=
  match m with
  | Call c k =>
      (forall x, needs c = Some x -> o = Some x) /\
      (forall r x, acquires c r = Some x -> o = None) /\
      forall r, disciplined (after_call o c r) (k r)
  | _ => True
  end.

(** The programs that hold [o] at the start and, when they end, hold what [Q] says *)
Fixpoint holding {B} (o : option (K * L)) (m : prog R B) (Q : option (K * L) -> result B -> Prop) : Prop :=
  match m with
  | Ret a => Q o (inr a)
  | Raise e => Q o (inl e)
  | Call c k =>
      (forall x, needs c = Some x -> o = Some x) /\
      (forall r x, acquires c r = Some x -> o = None) /\
      forall r, holding (after_call o c r) (k r) Q
  end.

Lemma holding_disciplined {B} o (m : prog R B) Q : holding o m Q -> disciplined o m.
Proof. revert o. induction m as [a|e|c k IH]; cbn; [done..|]. intros o (? & ? & ?). eauto. Qed.

Lemma disciplined_holding {B} o (m : prog R B) : disciplined o m -> holding o m (fun _ _ => True).
Proof. revert o. induction m as [a|e|c k IH]; cbn; [done..|]. intros o (? & ? & ?). eauto. Qed.

Lemma holding_mono {B} o (m : prog R B) (Q Q' : option (K * L) -> result B -> Prop) :
  holding o m Q -> (forall o' out, Q o' out -> Q' o' out) -> holding o m Q'.
Proof. revert o. induction m as [a|e|c k IH]; cbn; [auto..|]. intros o (? & ? & ?) HQ. eauto. Qed.

Lemma holding_bind {B D} o (m : prog R B) (f : B -> prog R D) (Q : option (K * L) -> result D -> Prop) :
  holding o m (fun o' out => match out with inr a => holding o' (f a) Q | inl e => Q o' (inl e) end) ->
  holding o (bind m f) Q.
Proof. revert o. induction m as [a|e|c k IH]; cbn; [auto..|]. intros o (? & ? & ?). eauto. Qed.

Lemma holding_catch {B} o (m : prog R B) (p : exn -> bool) (h : exn -> prog R B) (Q : option (K * L) -> result B -> Prop) :
  holding o m (fun o' (out : result B) => match out with
                               | inl e => if p e then holding o' (h e) Q else Q o' (inl e)
                               | inr a => Q o' (inr a) end) ->
  holding o (catch m p h) Q.
Proof.
  revert o. induction m as [a|e|c k IH]; cbn; [auto| |].
  - intros o. by destruct (p e).
  - intros o (? & ? & ?). eauto.
Qed.

Lemma holding_attempt {B} o (m : prog R B) (Q : option (K * L) -> result (result B) -> Prop) :
  holding o m (fun o' (out : result B) => Q o' (inr out)) -> holding o (attempt m) Q.
Proof. revert o. induction m as [a|e|c k IH]; cbn; [auto..|]. intros o (? & ? & ?). eauto. Qed.

(** Requests that have nothing to do with locks *)
Definition unrelated (c : C) : Prop := needs c = None /\ forall r, releases c r = None /\ acquires c r = None.

(** Requests the holder of [o] may issue without giving it up *)
Definition entitled (o : option (K * L)) (c : C) : Prop :=
  (forall x, needs c = Some x -> o = Some x) /\ forall r, releases c r = None /\ acquires c r = None.

Lemma unrelated_entitled o c : unrelated c -> entitled o c.
Proof. intros [Hn Hr]. split; [congruence|done]. Qed.

Lemma holding_entitled {B} o (m : prog R B) (Q : option (K * L) -> result B -> Prop) :
  issues (entitled o) m -> (forall out, Q o out) -> holding o m Q.
Proof.
  intros Hm HQ. induction m as [a|e|c k IH]; cbn in *; [auto..|].
  destruct Hm as [[Hn Hr] Hk]. split; [done|]. split; [intros r x Hx; by rewrite (proj2 (Hr r)) in Hx|].
  intros r. unfold after_call. destruct (Hr r) as [-> ->]. auto.
Qed.

Lemma holding_call {B} o c (f : R c -> prog R B) (Q : option (K * L) -> result B -> Prop) :
  (forall x, needs c = Some x -> o = Some x) -> (forall r x, acquires c r = Some x -> o = None) ->
  (forall e, Q (after_call o c (inl e)) (inl e)) -> (forall a, holding (after_call o c (inr a)) (f a) Q) ->
  holding o (bind (@call C R c) f) Q.
Proof. intros Hn Ha He Hf. split; [done|]. split; [done|]. intros [e|a]; cbn; auto. Qed.

Lemma holding_step {B D} o (m : prog R B) (f : B -> prog R D) (Q : option (K * L) -> result D -> Prop) :
  issues (entitled o) m -> (forall e, Q o (inl e)) -> (forall a, holding o (f a) Q) -> holding o (bind m f) Q.
Proof. intros Hm He Hf. apply holding_bind, holding_entitled; [done|]. intros [e|a]; auto. Qed.

(** ** The holder a history gives a lock *)

Definition lock_event (holder : option L) (k : K) (x : obs R) : option L :=
  match acquires (projT1 x) (projT2 x) with
  | Some (k', l) => if decide (k' = k) then Some l else holder
  | None => match releases (projT1 x) (projT2 x) with
            | Some k' => if decide (k' = k) then None else holder
            | None => holder
            end
  end.
Definition holder (h : list (obs R)) (k : K) : option L :=
  foldl (fun o x => lock_event o k x) None h.

Lemma holder_snoc h x k : holder (h ++ [x]) k = lock_event (holder h k) k x.
Proof. unfold holder. by rewrite foldl_app. Qed.

(** ** Exclusion *)

Definition owns (s : S) (h : list (obs R)) (o : option (K * L)) : Prop :=
  forall k l, o = Some (k, l) -> locked s k /\ holder h k = Some l.

(** The locks some workers hold *)
Definition keys_of (os : list (option (K * L))) : list K := omap (fun o => fst <$> o) os.

Lemma keys_of_app os1 os2 : keys_of (os1 ++ os2) = keys_of os1 ++ keys_of os2.
Proof. apply omap_app. Qed.

Lemma keys_of_elem os k l : Some (k, l) ∈ os -> k ∈ keys_of os.
Proof. intros Hin. apply list_elem_of_omap. by exists (Some (k, l)). Qed.

Lemma keys_of_drop os1 o os2 : NoDup (keys_of (os1 ++ o :: os2)) -> NoDup (keys_of (os1 ++ os2)).
Proof.
  rewrite !keys_of_app. unfold keys_of at 2. cbn. destruct (fst <$> o) as [k|]; [|done].
  rewrite !NoDup_app, NoDup_cons. intros (? & Hdis & _ & ?). split_and!; [done| |done].
  intros k' Hin Hin'. by eapply Hdis, list_elem_of_further.
Qed.

Lemma keys_of_fresh os1 k l os2 : NoDup (keys_of (os1 ++ Some (k, l) :: os2)) -> k ∉ keys_of (os1 ++ os2).
Proof.
  rewrite !keys_of_app. unfold keys_of at 2. cbn. rewrite NoDup_app, NoDup_cons, elem_of_app.
  intros (_ & Hdis & Hno & _) [Hin|Hin]; [|done]. by apply (Hdis k); [|apply list_elem_of_here].
Qed.

Lemma keys_of_put os1 o os2 :
  NoDup (keys_of (os1 ++ os2)) -> (forall k l, o = Some (k, l) -> k ∉ keys_of (os1 ++ os2)) ->
  NoDup (keys_of (os1 ++ o :: os2)).
Proof.
  rewrite !keys_of_app. unfold keys_of at 4. cbn. destruct o as [[k l]|]; cbn; [|done].
  intros Hnd Hno. specialize (Hno k l eq_refl). rewrite elem_of_app in Hno.
  rewrite !NoDup_app in *. rewrite NoDup_cons. destruct Hnd as (? & Hdis & ?). split_and!; [done| |tauto|done].
  intros k' Hin [->|Hin']%elem_of_cons; [tauto|by eapply Hdis].
Qed.

Definition lock_inv (x : system R S A) : Prop :=
  exists os : list (option (K * L)),
    Forall2 disciplined os (threads x) /\ NoDup (keys_of os) /\
    Forall (owns (shared x) (history x)) os.

Context `{!LockLaws}.
Hypothesis disciplines : forall m, admitted m -> disciplined None m.

Lemma owns_step s c r s' h o :
  answers s c r s' -> owns s h o ->
  (forall k l, o = Some (k, l) -> releases c r <> Some k) ->
  owns s' (h ++ [existT c r]) o.
Proof.
  intros Ha Ho Hrel k l ->. destruct (Ho k l eq_refl) as [Hl Hh]. split.
  - eapply locked_kept; eauto.
  - rewrite holder_snoc. unfold lock_event. cbn. destruct (acquires c r) as [[k' l']|] eqn:Hacq.
    + case_decide as Hk; [|done]. subst k'. by destruct (acquire_free _ _ _ _ _ _ Ha Hacq).
    + destruct (releases c r) as [k'|] eqn:Hr; [|done]. case_decide as Hk; [|done]. subst k'.
      by destruct (Hrel k l eq_refl).
Qed.

Lemma owns_call s c r s' h o :
  answers s c r s' -> owns s h o -> (forall x, acquires c r = Some x -> o = None) ->
  (forall x, needs c = Some x -> o = Some x) -> owns s' (h ++ [existT c r]) (after_call o c r).
Proof.
  intros Ha Ho Hfree Hneed. unfold after_call. destruct (acquires c r) as [[k l]|] eqn:Hacq.
  - intros k' l' [= <- <-]. destruct (acquire_free _ _ _ _ _ _ Ha Hacq) as [_ Hl]. split; [done|].
    rewrite holder_snoc. unfold lock_event. cbn. rewrite Hacq. by rewrite decide_True.
  - destruct (releases c r) as [k|] eqn:Hr; [by intros ? ? [=]|].
    apply (owns_step s); [done|done|]. intros k l _. by rewrite Hr.
Qed.

Lemma owns_keys s h os k : Forall (owns s h) os -> ~ locked s k -> k ∉ keys_of os.
Proof.
  intros Hos Hno (o & Hin & Heq)%list_elem_of_omap. destruct o as [[k' l]|]; [|done]. injection Heq as ->.
  rewrite Forall_forall in Hos. by destruct (Hos _ Hin k l eq_refl).
Qed.

(** What the others hold is not given up by this worker. *)
Lemma others_kept os1 o os2 c r :
  NoDup (keys_of (os1 ++ o :: os2)) -> (forall x, needs c = Some x -> o = Some x) ->
  forall o' k l, o' ∈ os1 ++ os2 -> o' = Some (k, l) -> releases c r <> Some k.
Proof.
  intros Hnd Hneed o' k l Hin -> Hrel. destruct (release_needs _ _ _ Hrel) as (l' & Hn).
  rewrite (Hneed _ Hn) in Hnd. apply keys_of_elem in Hin. by eapply keys_of_fresh.
Qed.

(** Every step of the pool respects the discipline: a request that needs a lock is issued in a
    state where the lock is taken, by its holder. *)
Lemma lock_inv_step (x y : system R S A) :
  lock_inv x -> pool_step answers admitted x y -> lock_inv y.
Proof.
  intros (os & Hd & Hnd & Ho) Hstep. destruct Hstep as [l s h m Hm|l1 c k l2 s h r s' Ha|l1 m l2 s h]; cbn in *.
  - exists (os ++ [None]). split_and!.
    + apply Forall2_app; [done|]. constructor; [by apply disciplines|constructor].
    + rewrite keys_of_app. cbn. by rewrite app_nil_r.
    + apply Forall_app. split; [done|]. constructor; [|constructor]. by intros ? ? [=].
  - apply Forall2_app_inv_r in Hd as (os1 & os2 & H1 & H2 & ->).
    apply Forall2_cons_inv_r in H2 as (o & os2' & Hcall & H2 & ->).
    cbn in Hcall. destruct Hcall as (Hneed & Hfree & Hk).
    apply Forall_app in Ho as [Ho1 [Ho0 Ho2]%Forall_cons].
    pose proof (fun r => others_kept _ _ _ _ r Hnd Hneed) as Hothers.
    exists (os1 ++ after_call o c r :: os2'). split_and!.
    + apply Forall2_app; [done|]. by constructor.
    + apply keys_of_put; [by eapply keys_of_drop|]. unfold after_call. intros k0 l0.
      destruct (acquires c r) as [x|] eqn:Hacq.
      * intros [= ->]. destruct (acquire_free _ _ _ _ _ _ Ha Hacq) as [Hno _].
        apply (owns_keys s h); [by apply Forall_app|done].
      * destruct (releases c r); [done|]. intros ->. by eapply keys_of_fresh.
    + apply Forall_app. split; [|constructor].
      * apply Forall_forall. intros o' Hin. rewrite Forall_forall in Ho1. apply (owns_step s); [done|by apply Ho1|].
        intros k0 l0. apply Hothers. set_solver.
      * by eapply owns_call; eauto.
      * apply Forall_forall. intros o' Hin. rewrite Forall_forall in Ho2. apply (owns_step s); [done|by apply Ho2|].
        intros k0 l0. apply Hothers. set_solver.
  - apply Forall2_app_inv_r in Hd as (os1 & os2 & H1 & H2 & ->).
    apply Forall2_cons_inv_r in H2 as (o & os2' & _ & H2 & ->).
    apply Forall_app in Ho as [Ho1 [_ Ho2]%Forall_cons].
    exists (os1 ++ os2'). split_and!; [by apply Forall2_app|by eapply keys_of_drop|by apply Forall_app].
Qed.

Lemma lock_inv_reachable s0 x : reachable answers admitted s0 x -> lock_inv x.
Proof.
  apply reachable_ind.
  - exists []. split_and!; constructor.
  - intros y z _ Hinv Hstep. by eapply lock_inv_step.
Qed.

(** In every reachable state, a request that needs a lock would be issued by its holder, in a
    state where the lock is taken: so whatever such steps preserve holds of every reachable
    state and history. *)
Lemma lock_reachable s0 (P : S -> list (obs R) -> Prop) :
  P s0 [] ->
  (forall s h c r s', P s h -> answers s c r s' ->
     (forall k l, needs c = Some (k, l) -> locked s k /\ holder h k = Some l) ->
     (forall k l, acquires c r = Some (k, l) -> ~ locked s k) -> P s' (h ++ [existT c r])) ->
  forall x, reachable answers admitted s0 x -> P (shared x) (history x).
Proof.
  intros H0 Hstep. apply reachable_ind; [done|]. intros x y Hx HP Hxy.
  apply lock_inv_reachable in Hx as (os & Hd & _ & Ho).
  destruct Hxy as [l s h m Hm|l1 c k l2 s h r s' Ha|l1 m l2 s h]; cbn in *; [done| |done].
  apply (Hstep s); [done|done| |].
  - apply Forall2_app_inv_r in Hd as (os1 & os2 & _ & H2 & ->).
    apply Forall2_cons_inv_r in H2 as (o & os2' & (Hneed & _) & _ & ->).
    apply Forall_app in Ho as [_ [Ho0 _]%Forall_cons]. intros k0 l0 Hn. by apply Ho0, Hneed.
  - intros k0 l0 Hacq. by destruct (acquire_free _ _ _ _ _ _ Ha Hacq).
Qed.
End locks.
