(* ===== verification/Policy.v ===== *)
(** * Deterministic authorization: [payops/policy/contracts.py], [payops/policy/engine.py]

    Closed action schemas, the identity and scope guards, and [evaluate], which
    turns an untrusted JSON proposal into a review.  Artifact verification is used
    through the interface [ArtifactOps]. *)

From S2P Require Import Prelude Json Digest Contracts.

Open Scope string_scope.
Open Scope list_scope.
Open Scope Z_scope.
Open Scope result_scope.

(** ** [policy/contracts.py] *)

Inductive Role : Type := viewer | responder | approver | executor.
#[export] Instance Role_eq_dec : EqDecision Role.
Proof. solve_decision. Defined.

Record Principal : Type := {
  subject : string;
  roles : list Role;
  namespaces : list string;
  verified_at : datetime;
  expires_at : datetime;
  enabled : bool;
}.
#[export] Instance Principal_eq_dec : EqDecision Principal.
Proof. solve_decision. Defined.

Inductive Kind : Type := Deployment | Traffic.
#[export] Instance Kind_eq_dec : EqDecision Kind.
Proof. solve_decision. Defined.

Record ResourceSnapshot : Type := {
  res_namespace : string;
  res_service : string;
  uid : string;
  version : string;
  res_observed_at : datetime;
  kind : Kind;
  synthetic : bool;
  res_replicas : Z;
  approved_revisions : list string;
  res_mode : Mode;
}.
#[export] Instance ResourceSnapshot_eq_dec : EqDecision ResourceSnapshot.
Proof. solve_decision. Defined.

(** [OperationMode] *)
Definition operation_mode_ok (m : Mode) : bool := negb (eqb_of m mock).

Record ActionBase : Type := {
  act_incident_id : string;
  act_namespace : string;
  act_service : string;
  resource_uid : string;
  expected_version : string;
  evidence_ids : list string;
  act_mode : Mode;
}.
#[export] Instance ActionBase_eq_dec : EqDecision ActionBase.
Proof. solve_decision. Defined.

Inductive Action : Type :=
  | RestartAction (b : ActionBase)
  | ScaleAction (b : ActionBase) (replicas : Z)
  | RollbackAction (b : ActionBase) (revision_sha256 : string)
  | PauseAction (b : ActionBase).
#[export] Instance Action_eq_dec : EqDecision Action.
Proof. solve_decision. Defined.

Definition base (a : Action) : ActionBase :=
  match a with RestartAction b | ScaleAction b _ | RollbackAction b _ | PauseAction b => b end.
Coercion base : Action >-> ActionBase.

Definition is_pause (a : Action) : bool := match a with PauseAction _ => true | _ => false end.

(** Field constraints and [ActionBase.distinct_evidence]. *)
Definition base_valid (b : ActionBase) : bool :=
  identifier_ok (act_incident_id b) && identifier_ok (act_namespace b) &&
  identifier_ok (act_service b) && identifier_ok (resource_uid b) &&
  identifier_ok (expected_version b) &&
  (1 <=? Z.of_nat (length (evidence_ids b))) && (Z.of_nat (length (evidence_ids b)) <=? 8) &&
  forallb identifier_ok (evidence_ids b) && distinct (evidence_ids b) &&
  operation_mode_ok (act_mode b).

Definition Action_valid (a : Action) : bool :=
  base_valid a &&
  match a with
  | ScaleAction _ n => (1 <=? n) && (n <=? 3)
  | RollbackAction _ rev => digest_ok rev
  | _ => true
  end.

(** ** Wire format of an action *)

Definition mode_name (m : Mode) : string :=
  match m with
  | mock => "mock" | fixture_replay => "fixture_replay"
  | local_kind => "local_kind" | cloud_gke => "cloud_gke"
  end.
Definition mode_of_name (s : string) : option Mode :=
  if decide (s = "fixture_replay") then Some fixture_replay
  else if decide (s = "local_kind") then Some local_kind
  else if decide (s = "cloud_gke") then Some cloud_gke
  else None.

Definition action_type (a : Action) : string :=
  match a with
  | RestartAction _ => "restart_deployment"
  | ScaleAction _ _ => "scale_deployment"
  | RollbackAction _ _ => "rollback_deployment"
  | PauseAction _ => "pause_synthetic_traffic"
  end.

(** [proposal.model_dump(mode="json")]: fields in declaration order *)
Definition dump_action (a : Action) : list (string * json) :=
  [("incident_id", JStr (act_incident_id a)); ("namespace", JStr (act_namespace a));
   ("service", JStr (act_service a)); ("resource_uid", JStr (resource_uid a));
   ("expected_version", JStr (expected_version a));
   ("evidence_ids", JList (map JStr (evidence_ids a)));
   ("mode", JStr (mode_name (act_mode a))); ("action_type", JStr (action_type a))]
  ++ match a with
     | ScaleAction _ n => [("replicas", JInt n)]
     | RollbackAction _ rev => [("revision_sha256", JStr rev)]
     | _ => []
     end.

Definition base_keys : list string :=
  ["incident_id"; "namespace"; "service"; "resource_uid"; "expected_version"; "evidence_ids";
   "mode"; "action_type"].

Definition parse_mode (d : list (string * json)) : option Mode :=
  match dict_find d "mode" with
  | None => Some local_kind
  | Some j => as_str j ≫= mode_of_name
  end.

Definition parse_base (d : list (string * json)) : option ActionBase :=
  i ← field_str d "incident_id";
  n ← field_str d "namespace";
  s ← field_str d "service";
  u ← field_str d "resource_uid";
  v ← field_str d "expected_version";
  e ← field_strings d "evidence_ids";
  m ← parse_mode d;
  Some {| act_incident_id := i; act_namespace := n; act_service := s; resource_uid := u;
          expected_version := v; evidence_ids := e; act_mode := m |}.

(** The discriminated union on [action_type]; numbers are strict. *)
Definition parse_action (d : list (string * json)) : option Action :=
  t ← field_str d "action_type";
  b ← parse_base d;
  if decide (t = "restart_deployment") then
    if closed d base_keys then Some (RestartAction b) else None
  else if decide (t = "scale_deployment") then
    n ← dict_find d "replicas" ≫= as_int;
    if closed d ("replicas" :: base_keys) then Some (ScaleAction b n) else None
  else if decide (t = "rollback_deployment") then
    rev ← field_str d "revision_sha256";
    if closed d ("revision_sha256" :: base_keys) then Some (RollbackAction b rev) else None
  else if decide (t = "pause_synthetic_traffic") then
    if closed d base_keys then Some (PauseAction b) else None
  else None.

(** [ACTION.validate_python(value)] *)
Definition ACTION_validate (d : list (string * json)) : result Action :=
  match parse_action d with
  | Some a => if Action_valid a then Ok a else Err (ValueError "Action")
  | None => Err (ValueError "Action")
  end.

(** [action_digest]; an action's dump holds no float, so the text exists
    ([action_text_total]). *)
Definition action_text (a : Action) : option string := json_dumps true (JObj (dump_action a)).
Definition action_digest (a : Action) : string := sha256_hex (default EmptyString (action_text a)).

(** ** Artifact verification, as the policy uses it

    [artifact_verify] is [ArtifactStore.verify] and [window_complete] is
    [verify_payment_window(...).status == "complete"]; both read files and may
    raise. *)
Class ArtifactOps : Type := {
  artifact_store : Type;
  artifact_verify : artifact_store -> EvidenceItem -> result json;
  window_complete : artifact_store -> EvidenceItem -> result bool;
}.

(** ** [policy/engine.py] *)

Definition SERVICES : list string := ["payments-api"; "processor-adapter"; "risk-sim"; "webhook-sim"].

Inductive RiskTier : Type := R2 | R3.
Inductive Decision : Type := DENY | APPROVAL_REQUIRED.
#[export] Instance Decision_eq_dec : EqDecision Decision.
Proof. solve_decision. Defined.
#[export] Instance RiskTier_eq_dec : EqDecision RiskTier.
Proof. solve_decision. Defined.

Record PolicyReview : Type := {
  decision : Decision;
  reason : string;
  risk_tier : option RiskTier;
  proposal : option Action;
  review_digest : option string;
}.
#[export] Instance PolicyReview_eq_dec : EqDecision PolicyReview.
Proof. solve_decision. Defined.

Definition identity_valid (p : option Principal) (role : Role) (namespace : string) (now : datetime)
  : bool :=
  match p with
  | None => false
  | Some p =>
      enabled p && bool_decide (role ∈ roles p) && bool_decide (namespace ∈ namespaces p) &&
      (now <? expires_at p) && age_within now (verified_at p) 60
  end.

Section engine.
Context `{ArtifactOps}.

Record PolicyContext : Type := {
  principal : option Principal;
  incident : Incident;
  ctx_resource : ResourceSnapshot;
  store : artifact_store;
}.

Definition scope_failure (a : Action) (c : PolicyContext) (now : datetime) : option string :=
  let inc := incident c in
  let res := ctx_resource c in
  if negb (identity_valid (principal c) responder (act_namespace a) now) then
    Some "IDENTITY_DENIED"
  else if negb (eqb_of (act_namespace a) "payops-sandbox")
       || negb (bool_decide (act_service a ∈ SERVICES)) then Some "SCOPE_DENIED"
  else if negb (eqb_of (act_incident_id a) (incident_id inc))
       || negb (eqb_of (act_namespace a) (req_namespace (request inc))) then
    Some "INCIDENT_SCOPE_MISMATCH"
  else if negb (eqb_of (act_namespace a, act_service a) (res_namespace res, res_service res)) then
    Some "RESOURCE_SCOPE_MISMATCH"
  else if negb (eqb_of (act_mode a) (res_mode res)) then Some "OPERATION_MODE_MISMATCH"
  else if negb (synthetic res) || negb (age_within now (res_observed_at res) 30) then
    Some "RESOURCE_NOT_CURRENT"
  else if negb (eqb_of (resource_uid a, expected_version a) (uid res, version res)) then
    Some "STALE_PRECONDITION"
  else if negb (eqb_of (kind res) (if is_pause a then Traffic else Deployment)) then
    Some "RESOURCE_KIND_MISMATCH"
  else match a with
       | RollbackAction _ rev =>
           if bool_decide (rev ∈ approved_revisions res) then None else Some "REVISION_NOT_APPROVED"
       | _ => None
       end.

Definition operational_evidence (item : EvidenceItem) (s : artifact_store)
  : result (option string) :=
  if bool_decide (source item ∈ [RUNBOOK; MEMORY]) || eqb_of (source item) TRACE then
    Ok (Some "EVIDENCE_NOT_OPERATIONAL")
  else if eqb_of (source item) LOG && eqb_of (query item) "trace.console-log.v1" then
    Ok (Some "EVIDENCE_NOT_OPERATIONAL")
  else if eqb_of (source item) PAYMENT then
    let! complete := window_complete s item in
    Ok (if complete then None else Some "EVIDENCE_NOT_OPERATIONAL")
  else
    let! _ := artifact_verify s item in Ok None.

(** [{item.evidence_id: item for item in report.evidence}[id]]: a later item wins *)
Definition evidence_by_id (l : list EvidenceItem) (id : string) : result EvidenceItem :=
  match List.find (fun e => eqb_of (evidence_id e) id) (rev l) with
  | Some e => Ok e
  | None => Err (KeyError id)
  end.

(** The body of the [for] loop of [evidence_failure]; [Some] is an early return. *)
Definition evidence_step (a : Action) (s : artifact_store) (now : datetime)
  (l : list EvidenceItem) (id : string) : result (option string) :=
  let! item := evidence_by_id l id in
  if negb (eqb_of (ev_incident_id item) (act_incident_id a)) then Ok (Some "EVIDENCE_SCOPE_MISMATCH")
  else if negb (age_within now (observed_at item) 300) then Ok (Some "EVIDENCE_STALE")
  else if negb (age_within now (collected_at item) 300) then Ok (Some "EVIDENCE_STALE")
  else operational_evidence item s.

Fixpoint evidence_loop (a : Action) (s : artifact_store) (now : datetime)
  (l : list EvidenceItem) (ids : list string) : result (option string) :=
  match ids with
  | [] => Ok None
  | id :: ids =>
      let! failure := evidence_step a s now l id in
      match failure with
      | Some f => Ok (Some f)
      | None => evidence_loop a s now l ids
      end
  end.

Definition evidence_failure (a : Action) (c : PolicyContext) (now : datetime)
  : result (option string) :=
  match report (incident c) with
  | None => Ok (Some "INCIDENT_NOT_ACTIONABLE")
  | Some rep =>
      if negb (eqb_of (terminal_state rep) ESCALATED) then Ok (Some "INCIDENT_NOT_ACTIONABLE")
      else if negb (eqb_of (rep_mode rep) (res_mode (ctx_resource c))) then
        Ok (Some "EVIDENCE_MODE_MISMATCH")
      else
        rcatch (evidence_loop a (store c) now (rep_evidence rep) (evidence_ids a))
          (fun e => is_KeyError e || is_ValueError e || is_OSError e)
          (fun _ => Ok (Some "EVIDENCE_INVALID"))
  end.

Definition deny (why : string) : PolicyReview :=
  {| decision := DENY; reason := why; risk_tier := None; proposal := None; review_digest := None |}.

Definition risk (a : Action) : RiskTier :=
  match a with ScaleAction _ _ | RollbackAction _ _ => R3 | _ => R2 end.

(** [evaluate(value, context)] at the instant [now] returned by [utc_now()] *)
Definition evaluate (value : list (string * json)) (c : PolicyContext) (now : datetime)
  : result PolicyReview :=
  match ACTION_validate value with
  | inl e => if is_ValueError e then Ok (deny "INVALID_PROPOSAL") else Err e
  | inr a =>
      let! failure := match scope_failure a c now with
                      | Some f => Ok (Some f)
                      | None => evidence_failure a c now
                      end in
      match failure with
      | Some why => Ok (deny why)
      | None =>
          Ok {| decision := APPROVAL_REQUIRED; reason := "REVIEW_REQUIRED";
                risk_tier := Some (risk a); proposal := Some a;
                review_digest := Some (action_digest a) |}
      end
  end.
End engine.

(** ** What the review grants *)

(** Evidence that may justify an operational change, with verified lineage. *)
Definition operational `{ArtifactOps} (item : EvidenceItem) (s : artifact_store) : Prop :=
  match source item with
  | PAYMENT => window_complete s item = Ok true
  | KUBERNETES | PROMETHEUS | DEPLOYMENT => exists j, artifact_verify s item = Ok j
  | LOG => query item <> "trace.console-log.v1" /\ exists j, artifact_verify s item = Ok j
  | TRACE | RUNBOOK | MEMORY => False
  end.

(** A currently authenticated subject holding [role] in [namespace]. *)
Record identity_current (p : Principal) (role : Role) (namespace : string) (now : datetime) : Prop := {
  current_enabled : enabled p = true;
  current_role : role ∈ roles p;
  current_namespace : namespace ∈ namespaces p;
  current_unexpired : now < expires_at p;
  current_fresh : verified_at p <= now <= verified_at p + seconds 60;
}.

(** The whole list of conditions the review checks, in one place. *)
Record authorized `{ArtifactOps} (a : Action) (c : PolicyContext) (now : datetime) : Prop := {
  auth_identity : exists p, principal c = Some p /\ identity_current p responder (act_namespace a) now;
  auth_namespace : act_namespace a = "payops-sandbox";
  auth_service : act_service a ∈ SERVICES;
  auth_incident : act_incident_id a = incident_id (incident c);
  auth_incident_ns : act_namespace a = req_namespace (request (incident c));
  auth_resource_ns : act_namespace a = res_namespace (ctx_resource c);
  auth_resource_svc : act_service a = res_service (ctx_resource c);
  auth_mode : act_mode a = res_mode (ctx_resource c);
  auth_synthetic : synthetic (ctx_resource c) = true;
  auth_snapshot : res_observed_at (ctx_resource c) <= now <= res_observed_at (ctx_resource c) + seconds 30;
  auth_uid : resource_uid a = uid (ctx_resource c);
  auth_version : expected_version a = version (ctx_resource c);
  auth_kind : kind (ctx_resource c) = if is_pause a then Traffic else Deployment;
  auth_revision : forall b rev, a = RollbackAction b rev -> rev ∈ approved_revisions (ctx_resource c);
  auth_report : exists rep, report (incident c) = Some rep /\ terminal_state rep = ESCALATED /\
    rep_mode rep = res_mode (ctx_resource c) /\
    forall id, id ∈ evidence_ids a -> exists item,
      evidence_by_id (rep_evidence rep) id = Ok item /\
      ev_incident_id item = act_incident_id a /\
      observed_at item <= now <= observed_at item + seconds 300 /\
      collected_at item <= now <= collected_at item + seconds 300 /\
      operational item (store c);
}.

Lemma identity_valid_true p role ns now :
  identity_valid p role ns now = true <-> exists q, p = Some q /\ identity_current q role ns now.
Proof.
  destruct p as [q|]; cbn; [|naive_solver].
  rewrite !andb_true_iff, !bool_decide_eq_true, Z.ltb_lt, age_within_spec.
  split; [intros ((((?&?)&?)&?)&?); exists q; split; [done|by constructor]|].
  intros (? & [= <-] & []). split_and!; (done || lia).
Qed.

Lemma evidence_by_id_ok l id item :
  evidence_by_id l id = Ok item -> item ∈ l /\ evidence_id item = id.
Proof.
  unfold evidence_by_id. destruct (List.find _ _) as [e|] eqn:Hf; [|done]. intros [= ->].
  apply find_some in Hf as [Hin Hid]. cbn in Hid. rewrite eqb_of_true in Hid. split; [|exact Hid].
  apply list_elem_of_In, in_rev. done.
Qed.

(** ** Parsing what was dumped *)

Lemma mode_of_name_name m : operation_mode_ok m = true -> mode_of_name (mode_name m) = Some m.
Proof. by destruct m. Qed.

Lemma parse_base_dump (a : Action) :
  parse_base (dump_action a) =
    (m ← mode_of_name (mode_name (act_mode a));
     Some {| act_incident_id := act_incident_id a; act_namespace := act_namespace a;
             act_service := act_service a; resource_uid := resource_uid a;
             expected_version := expected_version a; evidence_ids := evidence_ids a;
             act_mode := m |}).
Proof.
  assert (field_strings (dump_action a) "evidence_ids" = Some (evidence_ids a)) as He
    by exact (strings_of_map (evidence_ids a)).
  unfold parse_base. rewrite He. done.
Qed.

Lemma parse_action_dump (a : Action) :
  operation_mode_ok (act_mode a) = true -> parse_action (dump_action a) = Some a.
Proof.
  intros Hm. unfold parse_action. rewrite parse_base_dump, (mode_of_name_name _ Hm).
  by destruct a as [[]|[]|[]|[]].
Qed.

(** The replay mode name is no operation mode, so such a dump does not parse. *)
Lemma parse_action_dump_mock (a : Action) :
  act_mode a = mock -> parse_action (dump_action a) = None.
Proof. intros Hm. unfold parse_action. rewrite parse_base_dump, Hm. by destruct a. Qed.

Lemma ACTION_validate_dump a b : ACTION_validate (dump_action a) = Ok b -> b = a.
Proof.
  unfold ACTION_validate. destruct (decide (act_mode a = mock)) as [Hm|Hm].
  - by rewrite (parse_action_dump_mock a Hm).
  - rewrite parse_action_dump by (unfold operation_mode_ok; by destruct (act_mode a)).
    case_match; congruence.
Qed.

Section review.
Context `{ArtifactOps}.

Lemma operational_evidence_none item s :
  operational_evidence item s = Ok None <-> operational item s.
Proof.
  unfold operational_evidence, operational.
  destruct (source item) eqn:Hs; decide_closed; cbn; rewrite ?rbind_inr; try naive_solver.
  - destruct_eqb (query item) "trace.console-log.v1".
    + split; [done|intros [Hne _]; congruence].
    + rewrite rbind_inr. split; [intros (j & ? & _); by eauto|intros (_ & j & ?); by eauto].
  - split.
    + intros (b & -> & Hb). by destruct b.
    + intros ->. by exists true.
Qed.

Lemma evidence_step_none a s now l id :
  evidence_step a s now l id = Ok None <->
  exists item, evidence_by_id l id = Ok item /\ ev_incident_id item = act_incident_id a /\
    observed_at item <= now <= observed_at item + seconds 300 /\
    collected_at item <= now <= collected_at item + seconds 300 /\ operational item s.
Proof.
  unfold evidence_step. rewrite rbind_inr. apply exist_proper. intros item.
  rewrite !guard_ok_none, eqb_of_true, !age_within_spec, operational_evidence_none. done.
Qed.

Lemma evidence_loop_none a s now l ids :
  evidence_loop a s now l ids = Ok None <->
  forall id, id ∈ ids -> evidence_step a s now l id = Ok None.
Proof.
  induction ids as [|id ids IH]; cbn.
  - split; [intros _ ? Hin; by apply elem_of_nil in Hin|done].
  - setoid_rewrite elem_of_cons. destruct (evidence_step a s now l id) as [e|[f|]] eqn:Hs; cbn.
    + split; [done|intros Hall]. rewrite (Hall id) in Hs by auto. done.
    + split; [done|intros Hall]. rewrite (Hall id) in Hs by auto. done.
    + rewrite IH. naive_solver.
Qed.

Lemma scope_failure_none a c now :
  scope_failure a c now = None <->
  identity_valid (principal c) responder (act_namespace a) now = true /\
  (act_namespace a = "payops-sandbox" /\ act_service a ∈ SERVICES) /\
  (act_incident_id a = incident_id (incident c) /\
   act_namespace a = req_namespace (request (incident c))) /\
  (act_namespace a, act_service a) = (res_namespace (ctx_resource c), res_service (ctx_resource c)) /\
  act_mode a = res_mode (ctx_resource c) /\
  (synthetic (ctx_resource c) = true /\ age_within now (res_observed_at (ctx_resource c)) 30 = true) /\
  (resource_uid a, expected_version a) = (uid (ctx_resource c), version (ctx_resource c)) /\
  kind (ctx_resource c) = (if is_pause a then Traffic else Deployment) /\
  (forall b rev, a = RollbackAction b rev -> rev ∈ approved_revisions (ctx_resource c)).
Proof.
  unfold scope_failure.
  rewrite <-!negb_andb, !guard_none, !andb_true_iff, !eqb_of_true, !bool_decide_eq_true.
  repeat (apply and_iff_compat_l).
  destruct a as [| |b rev|]; try (split; [intros _ ? ?; discriminate|done]).
  case_bool_decide as Hrev; split.
  - intros _ ? ? [= <- <-]. done.
  - done.
  - done.
  - intros Hall. destruct Hrev. by eapply Hall.
Qed.

Lemma evidence_failure_none a c now :
  evidence_failure a c now = Ok None <->
  exists rep, report (incident c) = Some rep /\ terminal_state rep = ESCALATED /\
    rep_mode rep = res_mode (ctx_resource c) /\
    evidence_loop a (store c) now (rep_evidence rep) (evidence_ids a) = Ok None.
Proof.
  unfold evidence_failure. destruct (report (incident c)) as [rep|]; [|naive_solver].
  rewrite !guard_ok_none, rcatch_none, !eqb_of_true. naive_solver.
Qed.

Lemma authorized_iff a c now :
  authorized a c now <-> scope_failure a c now = None /\ evidence_failure a c now = Ok None.
Proof.
  rewrite scope_failure_none, evidence_failure_none, identity_valid_true, age_within_spec.
  setoid_rewrite evidence_loop_none. setoid_rewrite evidence_step_none.
  split.
  - intros []. split_and!; try done; try lia; by f_equal.
  - intros ((?&(?&?)&(?&?)&[= ? ?]&?&(?&?)&[= ? ?]&?&?)&?). by constructor.
Qed.

(** What [evaluate] returns once the proposal parses. *)
Lemma evaluate_parsed value a c now :
  ACTION_validate value = Ok a ->
  evaluate value c now =
    (let! failure := match scope_failure a c now with
                     | Some f => Ok (Some f) | None => evidence_failure a c now end in
     match failure with
     | Some why => Ok (deny why)
     | None => Ok {| decision := APPROVAL_REQUIRED; reason := "REVIEW_REQUIRED";
                     risk_tier := Some (risk a); proposal := Some a;
                     review_digest := Some (action_digest a) |}
     end).
Proof. intros Hv. unfold evaluate. by rewrite Hv. Qed.

Lemma evaluate_approval value c now rv :
  evaluate value c now = Ok rv -> decision rv = APPROVAL_REQUIRED ->
  exists a, ACTION_validate value = Ok a /\ authorized a c now /\
    rv = {| decision := APPROVAL_REQUIRED; reason := "REVIEW_REQUIRED"; risk_tier := Some (risk a);
            proposal := Some a; review_digest := Some (action_digest a) |}.
Proof.
  destruct (ACTION_validate value) as [e|a] eqn:Hv.
  - unfold evaluate. rewrite Hv. destruct (is_ValueError e); [by intros [= <-]|done].
  - rewrite (evaluate_parsed _ _ _ _ Hv). intros Hr Hd. exists a. split; [done|].
    apply rbind_inr in Hr as ([why|] & Hf & [= <-]); [done|]. split; [|done].
    apply authorized_iff. destruct (scope_failure a c now); [done|]. done.
Qed.

Lemma evaluate_authorized value a c now :
  ACTION_validate value = Ok a -> authorized a c now ->
  evaluate value c now =
    Ok {| decision := APPROVAL_REQUIRED; reason := "REVIEW_REQUIRED"; risk_tier := Some (risk a);
          proposal := Some a; review_digest := Some (action_digest a) |}.
Proof.
  intros Hv [Hs He]%authorized_iff. rewrite (evaluate_parsed _ _ _ _ Hv), Hs, He. done.
Qed.
End review.
