(* ===== verification/ActionStore.v ===== *)
(** * Durable actions: [payops/remediation/contracts.py], [payops/remediation/store.py]

    Immutable records, the transition table and the SQL store.  A method of
    [ActionStore] is a program whose requests are SQL transactions; [db_exec] is
    the effect of one transaction, and [db_answers] adds the database errors whose
    commit status the caller cannot know. *)

From S2P Require Import Prelude Json Digest Contracts Effects Policy.

Open Scope string_scope.
Open Scope list_scope.
Open Scope Z_scope.
Open Scope result_scope.
Open Scope prog_scope.

(** ** [remediation/contracts.py] *)

Inductive ActionState : Type := PROPOSED | APPROVED | EXECUTING | SUCCEEDED | FAILED | UNKNOWN.
#[export] Instance ActionState_eq_dec : EqDecision ActionState.
Proof. solve_decision. Defined.

Record Approval : Type := {
  apr_subject : string;
  apr_digest : string;
  approved_at : datetime;
  apr_expires_at : datetime;
}.
#[export] Instance Approval_eq_dec : EqDecision Approval.
Proof. solve_decision. Defined.

(** [outcome: Literal["SUCCEEDED", "FAILED"]], a subset of the states *)
Inductive Outcome : Type := OUTCOME_SUCCEEDED | OUTCOME_FAILED.
#[export] Instance Outcome_eq_dec : EqDecision Outcome.
Proof. solve_decision. Defined.
Definition outcome_state (o : Outcome) : ActionState :=
  match o with OUTCOME_SUCCEEDED => SUCCEEDED | OUTCOME_FAILED => FAILED end.

Record EffectReceipt : Type := {
  outcome : Outcome;
  rcp_resource_uid : string;
  previous_version : string;
  resulting_version : option string;
}.
#[export] Instance EffectReceipt_eq_dec : EqDecision EffectReceipt.
Proof. solve_decision. Defined.

Record ActionRecord : Type := {
  action_id : string;
  rec_proposal : Action;
  proposer : string;
  state : ActionState;
  revision : Z;
  rec_created_at : datetime;
  updated_at : datetime;
  approval : option Approval;
  effect : option EffectReceipt;
}.
#[export] Instance ActionRecord_eq_dec : EqDecision ActionRecord.
Proof. solve_decision. Defined.

Definition Approval_valid (a : Approval) : bool :=
  identifier_ok (apr_subject a) && digest_ok (apr_digest a).

Definition EffectReceipt_valid (e : EffectReceipt) : bool :=
  identifier_ok (rcp_resource_uid e) && identifier_ok (previous_version e) &&
  match resulting_version e with Some v => identifier_ok v | None => true end.

(** [ActionRecord._validate_approval] *)
Definition validate_approval (r : ActionRecord) (a : Approval) : result unit :=
  if eqb_of (apr_subject a) (proposer r) || negb (eqb_of (apr_digest a) (action_id r)) then
    Err (ValueError "approval identity/digest mismatch")
  else
    let lifetime := apr_expires_at a - approved_at a in
    if negb ((0 <? lifetime) && (lifetime <=? seconds 300)) then
      Err (ValueError "approval lifetime outside bounds")
    else Ok tt.

(** [ActionRecord.consistent] *)
Definition consistent (r : ActionRecord) : result unit :=
  if negb (eqb_of (action_id r) (action_digest (rec_proposal r))) then
    Err (ValueError "action digest mismatch")
  else if negb (Bool.eqb (eqb_of (state r) PROPOSED) (eqb_of (approval r) None)) then
    Err (ValueError "approval/state mismatch")
  else
    let! _ := match approval r with Some a => validate_approval r a | None => Ok tt end in
    if bool_decide (state r ∈ [SUCCEEDED; FAILED]) then
      match effect r with
      | None => Err (ValueError "result/state mismatch")
      | Some e =>
          if negb (eqb_of (outcome_state (outcome e)) (state r)) then Err (ValueError "result/state mismatch")
          else if negb (eqb_of (rcp_resource_uid e, previous_version e)
                         (resource_uid (rec_proposal r), expected_version (rec_proposal r)))
          then Err (ValueError "result precondition mismatch")
          else Ok tt
      end
    else if negb (eqb_of (effect r) None) then Err (ValueError "unexpected effect result")
    else Ok tt.

Definition record_fields_ok (r : ActionRecord) : bool :=
  digest_ok (action_id r) && Action_valid (rec_proposal r) && identifier_ok (proposer r) &&
  (0 <=? revision r) &&
  match approval r with Some a => Approval_valid a | None => true end &&
  match effect r with Some e => EffectReceipt_valid e | None => true end.

(** [ActionRecord(...)] and [ActionRecord.model_validate(...)] *)
Definition ActionRecord_validate (r : ActionRecord) : result ActionRecord :=
  if negb (record_fields_ok r) then Err (ValueError "ActionRecord")
  else let! _ := consistent r in Ok r.

Record AuditEvent : Type := {
  aud_action_id : string;
  aud_revision : Z;
  aud_state : ActionState;
  actor : string;
  aud_reason : string;
  recorded_at : datetime;
}.
#[export] Instance AuditEvent_eq_dec : EqDecision AuditEvent.
Proof. solve_decision. Defined.

Definition AuditEvent_validate (e : AuditEvent) : result AuditEvent :=
  if digest_ok (aud_action_id e) && (0 <=? aud_revision e) && identifier_ok (actor e) &&
     identifier_ok (aud_reason e)
  then Ok e else Err (ValueError "AuditEvent").

(** ** [remediation/store.py] *)

(** [TRANSITIONS] *)
Definition TRANSITIONS (s : ActionState) : list ActionState :=
  match s with
  | PROPOSED => [APPROVED]
  | APPROVED => [EXECUTING]
  | EXECUTING => [SUCCEEDED; FAILED; UNKNOWN]
  | SUCCEEDED | FAILED | UNKNOWN => []
  end.

(** Text columns.  [dump_record] is [model_dump_json] and [load_record] the
    field-level decoding of [model_validate_json]; the record's own validator is
    [ActionRecord_validate].  The laws are the round trips pydantic documents. *)
Class ActionCodec : Type := {
  text : Type;
  text_eq_dec :: EqDecision text;
  dump_record : ActionRecord -> text;
  load_record : text -> option ActionRecord;
  dump_event : AuditEvent -> text;
  load_event : text -> option AuditEvent;
  load_dump_record r : load_record (dump_record r) = Some r;
  load_dump_event e : load_event (dump_event e) = Some e;
}.

(** The event [ActionStore._audit] writes beside a record. *)
Definition audit_event (r : ActionRecord) (who why : string) : AuditEvent :=
  {| aud_action_id := action_id r; aud_revision := revision r; aud_state := state r;
     actor := who; aud_reason := why; recorded_at := updated_at r |}.

(** The record a transition publishes: [{**before.model_dump(), ...}]. *)
Definition advance (before : ActionRecord) (st : ActionState) (now : datetime)
  (apr : option Approval) (res : option EffectReceipt) : ActionRecord :=
  {| action_id := action_id before; rec_proposal := rec_proposal before;
     proposer := proposer before; state := st; revision := revision before + 1;
     rec_created_at := rec_created_at before; updated_at := now;
     approval := match apr with Some a => Some a | None => approval before end;
     effect := res |}.

Section store.
Context `{ActionCodec}.

Record db : Type := {
  remediation_actions : gmap string text;
  remediation_audit : gmap (string * Z) text;
}.

Inductive store_call : Type :=
  | QSelectAction (id : string)
  | QInsertAction (id : string) (payload : text) (rev : Z) (event : text)
  | QUpdateAction (id : string) (old new : text) (rev : Z) (event : result text)
  | QSelectAudit (id : string)
  | QUtcNow.

Definition store_answer (c : store_call) : Type :=
  match c with
  | QSelectAction _ => option text
  | QInsertAction _ _ _ _ => unit
  | QUpdateAction _ _ _ _ _ => bool
  | QSelectAudit _ => list (Z * text)
  | QUtcNow => datetime
  end.

Abbreviation sprog := (prog store_answer).

(** [ActionRecord.model_validate_json] and [AuditEvent.model_validate_json] *)
Definition parse_record (p : text) : result ActionRecord :=
  match load_record p with
  | Some r => ActionRecord_validate r
  | None => Err (ValueError "ActionRecord")
  end.
Definition parse_event (p : text) : result AuditEvent :=
  match load_event p with
  | Some e => AuditEvent_validate e
  | None => Err (ValueError "AuditEvent")
  end.

(** [ActionStore.get] *)
Definition store_get (id : string) : sprog ActionRecord :=
  let* row := call (R:=store_answer) (QSelectAction id) in
  match row with
  | None => Raise (KeyError id)
  | Some p =>
      let* r := lift (parse_record p) in
      if eqb_of (action_id r) id then Ret r
      else Raise (ValueError "action row identity mismatch")
  end.

(** [ActionStore.create] *)
Definition store_create (r : ActionRecord) : sprog ActionRecord :=
  if negb (eqb_of (state r) PROPOSED) || negb (revision r =? 0) then
    Raise (ValueError "new action must be proposed")
  else
    let* e := lift (AuditEvent_validate (audit_event r (proposer r) "POLICY_REVIEWED")) in
    catch
      (do* call (R:=store_answer)
             (QInsertAction (action_id r) (dump_record r) (revision r) (dump_event e)) in
       Ret r)
      (fun x => eqb_of x IntegrityError)
      (fun _ =>
         let* previous := store_get (action_id r) in
         if negb (eqb_of (proposer previous) (proposer r))
            || negb (eqb_of (rec_proposal previous) (rec_proposal r))
         then Raise (PermissionError "proposal belongs to another identity")
         else Ret previous).

(** [ActionStore.transition] *)
Definition store_transition (before : ActionRecord) (st : ActionState) (who why : string)
  (apr : option Approval) (res : option EffectReceipt) : sprog ActionRecord :=
  if negb (bool_decide (st ∈ TRANSITIONS (state before))) then
    Raise (TransitionConflict "invalid action transition")
  else
    let* now := call (R:=store_answer) QUtcNow in
    let* after := lift (ActionRecord_validate (advance before st now apr res)) in
    let event := let! e := AuditEvent_validate (audit_event after who why) in
                 Ok (dump_event e) in
    let* changed := call (R:=store_answer)
      (QUpdateAction (action_id before) (dump_record before) (dump_record after)
         (revision after) event) in
    if changed then Ret after else Raise (TransitionConflict "action changed concurrently").

(** [ActionStore._read_event] *)
Definition read_event (id : string) (row : Z * text) : result AuditEvent :=
  let! e := parse_event row.2 in
  if eqb_of (aud_action_id e, aud_revision e) (id, row.1) then Ok e
  else Err (ValueError "audit row identity mismatch").

(** [ActionStore.audit] *)
Definition store_audit (id : string) : sprog (list AuditEvent) :=
  let* rows := call (R:=store_answer) (QSelectAudit id) in
  lift (rmap (read_event id) rows).

(** *** Transactions *)

(** Rows of one action in [ORDER BY revision]: the revisions present, in
    increasing order. *)
Definition audit_revisions (d : db) (id : string) : gset Z :=
  set_map snd (filter (fun k : string * Z => k.1 = id) (dom (remediation_audit d))).

Definition audit_rows (d : db) (id : string) : list (Z * text) :=
  omap (fun k => p ← remediation_audit d !! (id, k); Some (k, p))
    (merge_sort Z.le (elements (audit_revisions d id))).

(** One committed transaction.  [QUtcNow] does not touch the database. *)
Definition db_exec (d : db) (c : store_call) : result (store_answer c) * db :=
  match c return result (store_answer c) * db with
  | QSelectAction id => (Ok (remediation_actions d !! id), d)
  | QInsertAction id payload rev event =>
      match remediation_actions d !! id, remediation_audit d !! (id, rev) with
      | None, None =>
          (Ok tt, {| remediation_actions := <[id := payload]> (remediation_actions d);
                     remediation_audit := <[(id, rev) := event]> (remediation_audit d) |})
      | _, _ => (Err IntegrityError, d)
      end
  | QUpdateAction id old new rev event =>
      if decide (remediation_actions d !! id = Some old) then
        match event, remediation_audit d !! (id, rev) with
        | inl e, _ => (Err e, d)
        | inr _, Some _ => (Err IntegrityError, d)
        | inr ev, None =>
            (Ok true, {| remediation_actions := <[id := new]> (remediation_actions d);
                         remediation_audit := <[(id, rev) := ev]> (remediation_audit d) |})
        end
      else (Ok false, d)
  | QSelectAudit id => (Ok (audit_rows d id), d)
  | QUtcNow => (Ok 0, d)
  end.

(** What a caller may see: the transaction's result; any time from the clock; or
    an error of the database driver, after which the transaction may or may not
    have been committed. *)
Inductive db_answers (d : db) : forall c : store_call, result (store_answer c) -> db -> Prop :=
  | answers_exec c : c <> QUtcNow -> db_answers d c (db_exec d c).1 (db_exec d c).2
  | answers_clock t : db_answers d QUtcNow (Ok t) d
  | answers_aborted c msg : db_answers d c (Err (OtherError msg)) d
  | answers_uncertain c msg : db_answers d c (Err (OtherError msg)) (db_exec d c).2.
End store.

(** ** Lifecycles

    [lifecycle r evs]: [evs] is the history, oldest first, of an action whose
    current record is [r]; every record in it was validated and every step is
    allowed by [TRANSITIONS]. *)
Definition event_valid (e : AuditEvent) : Prop := AuditEvent_validate e = Ok e.

Inductive lifecycle : ActionRecord -> list AuditEvent -> Prop :=
  | life_new r :
      ActionRecord_validate r = Ok r -> state r = PROPOSED -> revision r = 0 ->
      event_valid (audit_event r (proposer r) "POLICY_REVIEWED") ->
      lifecycle r [audit_event r (proposer r) "POLICY_REVIEWED"]
  | life_step before evs st now apr res who why :
      lifecycle before evs ->
      st ∈ TRANSITIONS (state before) ->
      ActionRecord_validate (advance before st now apr res) = Ok (advance before st now apr res) ->
      event_valid (audit_event (advance before st now apr res) who why) ->
      lifecycle (advance before st now apr res)
        (evs ++ [audit_event (advance before st now apr res) who why]).

Lemma lifecycle_valid r evs : lifecycle r evs -> ActionRecord_validate r = Ok r.
Proof. by destruct 1. Qed.

Lemma lifecycle_length r evs : lifecycle r evs -> Z.of_nat (length evs) = revision r + 1.
Proof.
  induction 1 as [r _ _ Hr _|before evs st now apr res who why _ IH _ _ _].
  - cbn. lia.
  - rewrite length_app. cbn. lia.
Qed.

Lemma lifecycle_revision r evs : lifecycle r evs -> 0 <= revision r.
Proof.
  induction 1 as [r _ _ Hr _|before evs st now apr res who why _ IH _ _ _]; cbn; lia.
Qed.

Lemma lifecycle_last r evs :
  lifecycle r evs -> exists evs' who why, evs = evs' ++ [audit_event r who why].
Proof. destruct 1; [exists []|]; eauto. Qed.

Lemma lifecycle_events r evs e :
  lifecycle r evs -> e ∈ evs -> event_valid e /\ aud_action_id e = action_id r.
Proof.
  induction 1 as [r _ _ _ Hv|before evs st now apr res who why _ IH _ _ Hv].
  - by intros ->%list_elem_of_singleton.
  - intros [Hin| ->%list_elem_of_singleton]%elem_of_app; [by apply IH|done].
Qed.

Lemma lifecycle_revisions r evs (k : nat) e :
  lifecycle r evs -> evs !! k = Some e -> aud_revision e = Z.of_nat k.
Proof.
  intros Hl. revert k e.
  induction Hl as [r _ _ Hr _|before evs st now apr res who why Hl IH _ _ _]; intros k e.
  - intros [-> <-]%list_lookup_singleton_Some. done.
  - intros [Hk|[Hk He]]%lookup_app_Some; [by apply IH|].
    apply list_lookup_singleton_Some in He as [Hz <-].
    apply lifecycle_length in Hl. cbn. lia.
Qed.

(** The only shapes a history can have. *)
Lemma lifecycle_states r evs :
  lifecycle r evs ->
  match state r with
  | PROPOSED => map aud_state evs = [PROPOSED]
  | APPROVED => map aud_state evs = [PROPOSED; APPROVED]
  | EXECUTING => map aud_state evs = [PROPOSED; APPROVED; EXECUTING]
  | s => map aud_state evs = [PROPOSED; APPROVED; EXECUTING; s]
  end.
Proof.
  induction 1 as [r _ Hs _ _|before evs st now apr res who why _ IH Hst _ _].
  - cbn. by rewrite Hs.
  - rewrite map_app. cbn.
    destruct (state before); cbn in Hst; repeat (apply elem_of_cons in Hst as [->|Hst]);
      try (by apply elem_of_nil in Hst); by rewrite IH.
Qed.

(** Requests built by the methods of [ActionStore] on validated records. *)
Definition insert_ok `{ActionCodec} (id : string) (payload : text) (rev : Z) (event : text) : Prop :=
  exists r, ActionRecord_validate r = Ok r /\ state r = PROPOSED /\ revision r = 0 /\
    id = action_id r /\ payload = dump_record r /\ rev = 0 /\
    event_valid (audit_event r (proposer r) "POLICY_REVIEWED") /\
    event = dump_event (audit_event r (proposer r) "POLICY_REVIEWED").

Definition update_ok `{ActionCodec} (id : string) (old new : text) (rev : Z)
  (event : result text) : Prop :=
  exists before st now apr res who why,
    let after := advance before st now apr res in
    st ∈ TRANSITIONS (state before) /\ ActionRecord_validate after = Ok after /\
    id = action_id before /\ old = dump_record before /\ new = dump_record after /\
    rev = revision after /\
    forall ev, event = Ok ev ->
      event_valid (audit_event after who why) /\ ev = dump_event (audit_event after who why).

Definition request_ok `{ActionCodec} (c : store_call) : Prop :=
  match c with
  | QInsertAction id payload rev event => insert_ok id payload rev event
  | QUpdateAction id old new rev event => update_ok id old new rev event
  | _ => True
  end.

(** The history of one action as the audit table holds it. *)
Definition audit_holds `{ActionCodec} (d : db) (id : string) (evs : list AuditEvent) : Prop :=
  forall k, remediation_audit d !! (id, k) =
    if decide (0 <= k) then dump_event <$> evs !! Z.to_nat k else None.

Definition row_inv `{ActionCodec} (d : db) (id : string) : Prop :=
  match remediation_actions d !! id with
  | None => audit_holds d id []
  | Some p => exists r evs, p = dump_record r /\ action_id r = id /\ lifecycle r evs /\
                audit_holds d id evs
  end.

(** The two tables agree: each action row is the last record of a legal history
    and the audit rows are exactly that history. *)
Definition store_inv `{ActionCodec} (d : db) : Prop := forall id, row_inv d id.

Definition empty_db `{ActionCodec} : db :=
  {| remediation_actions := ∅; remediation_audit := ∅ |}.

Section store_facts.
Context `{ActionCodec}.

Lemma dump_record_inj r r' : dump_record r = dump_record r' -> r = r'.
Proof. intros He. apply (f_equal load_record) in He. rewrite !load_dump_record in He. congruence. Qed.

Lemma empty_db_inv : store_inv empty_db.
Proof.
  intros id. unfold row_inv.
  rewrite (lookup_empty (M:=gmap string) id : remediation_actions empty_db !! id = None).
  intros k. rewrite (lookup_empty (M:=gmap _) _ : remediation_audit empty_db !! (id, k) = None).
  by case_decide.
Qed.

Lemma audit_holds_insert d d' id rev ev evs e :
  audit_holds d id evs -> rev = Z.of_nat (length evs) -> ev = dump_event e ->
  remediation_audit d' = <[(id, rev) := ev]> (remediation_audit d) ->
  audit_holds d' id (evs ++ [e]).
Proof.
  intros Hh -> -> Hd k. rewrite Hd.
  destruct (decide (k = Z.of_nat (length evs))) as [->|Hne].
  - rewrite lookup_insert_eq, decide_True by lia. by rewrite Nat2Z.id, list_lookup_middle.
  - rewrite lookup_insert_ne by congruence. rewrite Hh. case_decide; [|done].
    destruct (decide (k < Z.of_nat (length evs))).
    + rewrite lookup_app_l by lia. done.
    + rewrite lookup_ge_None_2 by lia. rewrite lookup_ge_None_2; [done|].
      rewrite length_app. cbn. lia.
Qed.

Lemma audit_holds_other d d' id id' rev ev evs :
  id <> id' -> remediation_audit d' = <[(id, rev) := ev]> (remediation_audit d) ->
  audit_holds d id' evs -> audit_holds d' id' evs.
Proof. intros Hne Hd Hh k. rewrite Hd, lookup_insert_ne by congruence. apply Hh. Qed.

(** Writes to the row of one action leave the others alone. *)
Lemma row_inv_other d id id' p rev ev :
  id <> id' -> row_inv d id' ->
  row_inv {| remediation_actions := <[id := p]> (remediation_actions d);
             remediation_audit := <[(id, rev) := ev]> (remediation_audit d) |} id'.
Proof.
  intros Hne. unfold row_inv. cbn. rewrite lookup_insert_ne by done.
  destruct (remediation_actions d !! id') as [q|].
  - intros (r & evs & ? & ? & ? & ?). exists r, evs. split_and!; try done.
    by eapply audit_holds_other.
  - by eapply (audit_holds_other _ _ id).
Qed.

Lemma row_inv_insert d id payload rev event :
  insert_ok id payload rev event -> remediation_actions d !! id = None -> row_inv d id ->
  row_inv {| remediation_actions := <[id := payload]> (remediation_actions d);
             remediation_audit := <[(id, rev) := event]> (remediation_audit d) |} id.
Proof.
  intros (r & Hv & Hs & Hr & -> & -> & -> & Hev & ->) Hnone. unfold row_inv. rewrite Hnone. cbn.
  intros Hh. rewrite lookup_insert_eq.
  exists r, [audit_event r (proposer r) "POLICY_REVIEWED"]. split_and!; try done.
  - by constructor.
  - by eapply (audit_holds_insert d _ _ 0 _ []).
Qed.

Lemma row_inv_update d id old new rev ev :
  update_ok id old new rev (Ok ev) -> remediation_actions d !! id = Some old -> row_inv d id ->
  row_inv {| remediation_actions := <[id := new]> (remediation_actions d);
             remediation_audit := <[(id, rev) := ev]> (remediation_audit d) |} id.
Proof.
  intros (before & st & now & apr & res & who & why & Hst & Hv & -> & -> & -> & -> & Hev) Hold.
  unfold row_inv. rewrite Hold. cbn. rewrite lookup_insert_eq.
  intros (r & evs & Hr & Hid & Hl & Hh). apply dump_record_inj in Hr as <-.
  destruct (Hev ev eq_refl) as [Hvalid ->].
  eexists _, _. split_and!; [done|done|by apply life_step|].
  eapply audit_holds_insert; [done| |done|done].
  apply lifecycle_length in Hl. cbn. lia.
Qed.

(** Every transaction the store issues keeps the two tables in agreement. *)
Lemma db_exec_inv d c : store_inv d -> request_ok c -> store_inv (db_exec d c).2.
Proof.
  intros Hd Hc. destruct c as [id|id payload rev event|id old new rev event|id|]; cbn; try done.
  - destruct (remediation_actions d !! id) eqn:Ha; [done|].
    destruct (remediation_audit d !! (id, rev)) eqn:Hb; [done|].
    intros id'. destruct (decide (id = id')) as [<-|].
    + by apply row_inv_insert.
    + by apply row_inv_other.
  - case_decide as Ha; [|done]. destruct event as [e|ev]; [done|].
    destruct (remediation_audit d !! (id, rev)) eqn:Hb; [done|].
    intros id'. destruct (decide (id = id')) as [<-|].
    + by eapply row_inv_update.
    + by apply row_inv_other.
Qed.

Lemma db_answers_inv d c r d' :
  db_answers d c r d' -> store_inv d -> request_ok c -> store_inv d'.
Proof. destruct 1; auto using db_exec_inv. Qed.
End store_facts.

(** ** The programs of the store *)
Section store_programs.
Context `{ActionCodec}.

Lemma AuditEvent_validate_ok e e' : AuditEvent_validate e = Ok e' -> e' = e /\ event_valid e.
Proof. unfold event_valid, AuditEvent_validate. case_match; naive_solver. Qed.

Lemma ActionRecord_validate_ok r r' :
  ActionRecord_validate r = Ok r' -> r' = r /\ ActionRecord_validate r = Ok r.
Proof.
  intros Hv. assert (r' = r) as ->; [|done]. revert Hv. unfold ActionRecord_validate.
  case_match; [done|]. intros (? & _ & ?)%rbind_inr. congruence.
Qed.

Lemma store_get_issues id : issues request_ok (store_get id).
Proof.
  unfold store_get. apply issues_bind; [by apply issues_call|]. intros [p|]; [|done].
  apply issues_bind; [apply issues_lift|]. intros r. by case_match.
Qed.

Lemma store_create_issues r :
  ActionRecord_validate r = Ok r -> issues request_ok (store_create r).
Proof.
  intros Hv. unfold store_create. rewrite <-negb_andb.
  destruct (eqb_of (state r) PROPOSED && (revision r =? 0)) eqn:Hnew; [|done]. cbn [negb].
  apply andb_true_iff in Hnew as [Hs%eqb_of_true_1 Hr%Z.eqb_eq].
  apply issues_bind_lift. intros e [-> He]%AuditEvent_validate_ok.
  apply issues_catch.
  - apply issues_bind; [|done]. apply issues_call. exists r. by rewrite Hr.
  - intros _. apply issues_bind; [apply store_get_issues|]. intros p. by case_match.
Qed.

Lemma store_transition_issues before st who why apr res :
  issues request_ok (store_transition before st who why apr res).
Proof.
  unfold store_transition. case_bool_decide as Hst; [|done]. cbn [negb].
  apply issues_bind; [by apply issues_call|]. intros now.
  apply issues_bind_lift. intros after [-> Hv]%ActionRecord_validate_ok. cbv zeta.
  apply issues_bind; [|by intros []]. apply issues_call.
  exists before, st, now, apr, res, who, why. split_and!; try done.
  intros ev (e & [-> He]%AuditEvent_validate_ok & [= <-])%rbind_inr. done.
Qed.

Lemma store_audit_issues id : issues request_ok (store_audit id).
Proof.
  unfold store_audit. apply issues_bind; [by apply issues_call|].
  intros rows. apply issues_lift.
Qed.
End store_programs.
#[export] Hint Resolve store_get_issues store_create_issues store_transition_issues
  store_audit_issues : effects.

(** ** Reading a history back *)
Section audit.
Context `{ActionCodec}.

Definition db_handle (c : store_call) (d : db) : result (store_answer c) * db := db_exec d c.

Lemma audit_revisions_sorted d id evs :
  audit_holds d id evs ->
  merge_sort Z.le (elements (audit_revisions d id)) = seqZ 0 (Z.of_nat (length evs)).
Proof.
  intros Hh. apply (StronglySorted_unique Z.le).
  - apply (StronglySorted_merge_sort Z.le).
  - generalize (length evs) as n, 0 as m. induction n as [|n IH]; intros m.
    + rewrite seqZ_nil by lia. constructor.
    + rewrite seqZ_cons by lia. replace (Z.pred (Z.of_nat (S n))) with (Z.of_nat n) by lia.
      constructor; [apply IH|]. apply Forall_seqZ. lia.
  - rewrite merge_sort_Permutation. apply NoDup_Permutation.
    + apply NoDup_elements.
    + apply NoDup_seqZ.
    + intros k. rewrite elem_of_elements, elem_of_seqZ. unfold audit_revisions.
      rewrite elem_of_map. setoid_rewrite elem_of_filter. setoid_rewrite elem_of_dom.
      split.
      * intros ([id' k'] & -> & Hid & [t Ht]). cbn in *. subst id'.
        rewrite Hh in Ht. case_decide; [|done].
        apply fmap_Some in Ht as (e & He%lookup_lt_Some & _). lia.
      * intros Hk. exists (id, k). split_and!; [done|done|]. rewrite Hh, decide_True by lia.
        apply fmap_is_Some, lookup_lt_is_Some. lia.
Qed.

Lemma read_rows d r evs evs1 evs2 :
  audit_holds d (action_id r) evs -> lifecycle r evs -> evs = evs1 ++ evs2 ->
  rmap (read_event (action_id r))
    (omap (fun k => p ← remediation_audit d !! (action_id r, k); Some (k, p))
       (seqZ (Z.of_nat (length evs1)) (Z.of_nat (length evs2)))) = Ok evs2.
Proof.
  intros Hh Hl. revert evs1. induction evs2 as [|e evs2 IH]; intros evs1 Heq.
  - by rewrite seqZ_nil by (cbn; lia).
  - assert (evs !! length evs1 = Some e) as He by (rewrite Heq; by apply list_lookup_middle).
    assert (e ∈ evs) as Hin by (by eapply list_elem_of_lookup_2).
    destruct (lifecycle_events _ _ _ Hl Hin) as [Hv Hid].
    pose proof (lifecycle_revisions _ _ _ _ Hl He) as Hrev.
    rewrite seqZ_cons by (cbn; lia). cbn [omap list_omap].
    rewrite Hh, decide_True, Nat2Z.id, He by lia. cbn [fmap option_fmap option_map mbind option_bind rmap].
    replace (read_event (action_id r) (Z.of_nat (length evs1), dump_event e)) with (@inr exn AuditEvent e).
    2:{ unfold read_event, parse_event. cbn. rewrite load_dump_event, Hv. cbn.
        by rewrite Hid, Hrev, eqb_of_refl. }
    cbn [rbind]. specialize (IH (evs1 ++ [e])). rewrite length_app in IH. cbn [length] in *.
    replace (Z.succ (Z.of_nat (length evs1))) with (Z.of_nat (length evs1 + 1)) by lia.
    replace (Z.pred (Z.of_nat (S (length evs2)))) with (Z.of_nat (length evs2)) by lia.
    rewrite IH; [done|]. rewrite Heq, <-app_assoc. done.
Qed.

Lemma run_store_audit d r evs :
  lifecycle r evs -> audit_holds d (action_id r) evs ->
  run db_handle (store_audit (action_id r)) d = (Ok evs, d).
Proof.
  intros Hl Hh. cbn. unfold audit_rows. rewrite (audit_revisions_sorted _ _ _ Hh).
  pose proof (read_rows d r evs [] evs Hh Hl eq_refl) as Hr.
  change (length (@nil AuditEvent)) with 0%nat in Hr. change (Z.of_nat 0) with 0 in Hr.
  rewrite Hr. done.
Qed.
End audit.
