(* ===== verification/Broker.v ===== *)
(** * Approval and execution: [payops/remediation/broker.py]

    [RemediationBroker] as programs over the action store, the clock and the
    trusted backend.  Every method is written with the order of reads, checks,
    transactions and effects of the source. *)

From S2P Require Import Prelude Json Digest Contracts Effects Policy ActionStore.

Open Scope string_scope.
Open Scope list_scope.
Open Scope Z_scope.
Open Scope result_scope.
Open Scope prog_scope.

Definition EffectReceipt_validate (e : EffectReceipt) : result EffectReceipt :=
  if EffectReceipt_valid e then Ok e else Err (ValueError "EffectReceipt").

Definition Approval_validate (a : Approval) : result Approval :=
  if Approval_valid a then Ok a else Err (ValueError "Approval").

Section broker.
Context `{ActionCodec, ArtifactOps}.

(** [TrustedBackend], the injected clock, the policy's [utc_now] and the store. *)
Inductive broker_call : Type :=
  | KStore (c : store_call)
  | KPrincipal (who : string)
  | KContext (a : Action) (who : string)
  | KExecute (a : Action) (key : string)
  | KClock
  | KPolicyNow.

Definition broker_answer (c : broker_call) : Type :=
  match c with
  | KStore c => store_answer c
  | KPrincipal _ => option Principal
  | KContext _ _ => PolicyContext
  | KExecute _ _ => EffectReceipt
  | KClock | KPolicyNow => datetime
  end.

Abbreviation bprog := (prog broker_answer).
Abbreviation ask := (call (R:=broker_answer)) (only parsing).

(** A method of the store called by the broker. *)
Definition on_store {A} (m : prog store_answer A) : bprog A :=
  embed (Q:=broker_answer) KStore (fun _ r => r) m.

(** [_identity] *)
Definition identity (who : string) (role : Role) (ns : string) : bprog Principal :=
  let* p := ask (KPrincipal who) in
  let* now := ask KClock in
  if negb (identity_valid p role ns now) then Raise (PermissionError "IDENTITY_DENIED")
  else match p with
       | None => Raise (PermissionError "IDENTITY_DENIED")
       | Some q => if eqb_of (subject q) who then Ret q
                   else Raise (PermissionError "IDENTITY_DENIED")
       end.

(** The [deadlines] list of [_review]. *)
Definition deadlines (a : Action) (c : PolicyContext) (rep : IncidentReport) : list datetime :=
  (res_observed_at (ctx_resource c) + seconds 30) ::
  flat_map (fun item =>
    if bool_decide (evidence_id item ∈ evidence_ids a)
    then [observed_at item + seconds 300; collected_at item + seconds 300] else [])
    (rep_evidence rep).

Definition min_of (l : list datetime) : datetime :=
  match l with [] => 0 | t :: l => foldl Z.min t l end.

(** [_review] in a broker of mode [mode] *)
Definition review (mode : Mode) (a : Action) (who : string) : bprog datetime :=
  let* p := identity who responder (act_namespace a) in
  let* c := ask (KContext a who) in
  if negb (eqb_of (act_mode a) mode) then Raise (PermissionError "BACKEND_CONTEXT_MISMATCH")
  else
    let trusted := {| principal := Some p; incident := incident c;
                      ctx_resource := ctx_resource c; store := store c |} in
    let* now := ask KPolicyNow in
    let* rv := lift (evaluate (dump_action a) trusted now) in
    if negb (eqb_of (decision rv) APPROVAL_REQUIRED) then Raise (PermissionError (reason rv))
    else match report (incident c) with
         | None => Raise AssertionError
         | Some rep => Ret (min_of (deadlines a c rep))
         end.

(** [propose] *)
Definition propose (mode : Mode) (value : list (string * json)) (who : string)
  : bprog ActionRecord :=
  match ACTION_validate value with
  | inl e => if is_ValueError e then Raise (PermissionError "INVALID_PROPOSAL") else Raise e
  | inr a =>
      do* review mode a who in
      let* now := ask KClock in
      let* r := lift (ActionRecord_validate
        {| action_id := action_digest a; rec_proposal := a; proposer := who; state := PROPOSED;
           revision := 0; rec_created_at := now; updated_at := now; approval := None;
           effect := None |}) in
      on_store (store_create r)
  end.

(** [approve] *)
Definition approve (mode : Mode) (id who : string) : bprog ActionRecord :=
  let* r := on_store (store_get id) in
  do* identity who approver (act_namespace (rec_proposal r)) in
  if eqb_of who (proposer r) || negb (eqb_of (state r) PROPOSED) then
    Raise (PermissionError "APPROVAL_DENIED")
  else
    let* policy_deadline := review mode (rec_proposal r) (proposer r) in
    do* identity who approver (act_namespace (rec_proposal r)) in
    let* now := ask KClock in
    if policy_deadline <? now then Raise (PermissionError "POLICY_EXPIRED")
    else
      let* apr := lift (Approval_validate
        {| apr_subject := who; apr_digest := action_id r; approved_at := now;
           apr_expires_at := now + seconds 300 |}) in
      on_store (store_transition r APPROVED who "HUMAN_APPROVED" (Some apr) None).

Definition approval_window (apr : Approval) (now : datetime) : bool :=
  (approved_at apr <=? now) && (now <? apr_expires_at apr).

(** [_approval_current] *)
Definition approval_current (apr : Approval) : bprog unit :=
  let* now := ask KClock in
  require (approval_window apr now) (PermissionError "APPROVAL_EXPIRED").

(** [_dispatch_authority] *)
Definition dispatch_authority (r : ActionRecord) (who : string) (policy_deadline : datetime)
  : bprog unit :=
  match approval r with
  | None => Raise AssertionError
  | Some apr =>
      let ns := act_namespace (rec_proposal r) in
      let* e := identity who executor ns in
      let* a := identity (apr_subject apr) approver ns in
      let* p := identity (proposer r) responder ns in
      let* now := ask KClock in
      if negb (forallb (fun pr => identity_valid (Some pr.1) pr.2 ns now)
                 [(e, executor); (a, approver); (p, responder)])
      then Raise (PermissionError "IDENTITY_DENIED")
      else
        do* approval_current apr in
        let* now := ask KClock in
        require (now <=? policy_deadline) (PermissionError "POLICY_EXPIRED")
  end.

(** The receipt check of [_dispatch]. *)
Definition checked_execute (r : ActionRecord) : bprog EffectReceipt :=
  let* res := ask (KExecute (rec_proposal r) (action_id r)) in
  if eqb_of (rcp_resource_uid res, previous_version res)
       (resource_uid (rec_proposal r), expected_version (rec_proposal r))
  then Ret res else Raise (ValueError "executor receipt precondition mismatch").

(** [_dispatch]: [inl] is an early return. *)
Definition dispatch (r : ActionRecord) (who : string) (policy_deadline : datetime)
  : bprog ActionRecord :=
  match approval r with
  | None => Raise AssertionError
  | Some _ =>
      let* denied := catch (do* dispatch_authority r who policy_deadline in Ret None)
        is_PermissionError
        (fun _ =>
           let* res := lift (EffectReceipt_validate
             {| outcome := OUTCOME_FAILED; rcp_resource_uid := resource_uid (rec_proposal r);
                previous_version := expected_version (rec_proposal r);
                resulting_version := None |}) in
           let* after := on_store
             (store_transition r FAILED who "DISPATCH_AUTHORITY_DENIED" None (Some res)) in
           Ret (Some after)) in
      match denied with
      | Some after => Ret after
      | None =>
          let* res := catch (let* res := checked_execute r in Ret (inr res)) (fun _ => true)
            (fun _ =>
               let* after := on_store
                 (store_transition r UNKNOWN who "EXECUTOR_RESULT_UNKNOWN" None None) in
               Ret (inl after)) in
          match res with
          | inl after => Ret after
          | inr res =>
              on_store (store_transition r (outcome_state (outcome res)) who "EXECUTOR_RESULT" None (Some res))
          end
      end
  end.

(** [execute] *)
Definition execute (mode : Mode) (id who : string) : bprog ActionRecord :=
  let* r := on_store (store_get id) in
  do* identity who executor (act_namespace (rec_proposal r)) in
  if negb (eqb_of (act_mode (rec_proposal r)) mode) then
    Raise (PermissionError "OPERATION_MODE_MISMATCH")
  else if bool_decide (state r ∈ [EXECUTING; SUCCEEDED; FAILED; UNKNOWN]) then Ret r
  else
    let* now := (if eqb_of (state r) APPROVED && negb (eqb_of (approval r) None)
                 then ask KClock else Raise (PermissionError "APPROVAL_REQUIRED")) in
    match approval r with
    | None => Raise (PermissionError "APPROVAL_REQUIRED")
    | Some apr =>
        if negb (approval_window apr now) then Raise (PermissionError "APPROVAL_REQUIRED")
        else
          do* identity (apr_subject apr) approver (act_namespace (rec_proposal r)) in
          let* policy_deadline := review mode (rec_proposal r) (proposer r) in
          do* approval_current apr in
          let* claimed := on_store (store_transition r EXECUTING who "DISPATCH" None None) in
          dispatch claimed who policy_deadline
    end.

(** ** The world the broker runs in

    The store answers as [db_answers]; identities, contexts, clock readings and
    executor outcomes are arbitrary, exceptions included. *)
Inductive broker_answers (d : db)
  : forall c : broker_call, result (broker_answer c) -> db -> Prop :=
  | on_db c r d' : db_answers d c r d' -> broker_answers d (KStore c) r d'
  | on_backend c r : (forall q, c <> KStore q) -> broker_answers d c r d.

(** Programs started by the API and its workers, in brokers of any mode. *)
Inductive broker_program : bprog ActionRecord -> Prop :=
  | start_propose mode value who : broker_program (propose mode value who)
  | start_approve mode id who : broker_program (approve mode id who)
  | start_execute mode id who : broker_program (execute mode id who).

Definition broker_reachable : system broker_answer db ActionRecord -> Prop :=
  reachable broker_answers broker_program empty_db.
End broker.
