(* ===== verification/BrokerSafety.v ===== *)
(** * At-most-once dispatch under any interleaving of workers

    The claim of an action is a committed transition into [EXECUTING]; its effect is the
    executor's.  Every method of the broker keeps to the protocol of [Permits] with this
    claim and this effect. *)

From S2P Require Import Prelude Json Digest Contracts Effects Permits Policy ActionStore.
From S2P Require Import Broker.

Open Scope list_scope.
Open Scope Z_scope.

Section safety.
Context `{ActionCodec, ArtifactOps}.

(** The action a transaction claims when it commits. *)
Definition claims (c : store_call) : option string :=
  match c with
  | QUpdateAction id _ new _ _ =>
      match load_record new with
      | Some r => if decide (state r = EXECUTING) then Some id else None
      | None => None
      end
  | _ => None
  end.

Definition store_grant (c : store_call) : result (store_answer c) -> option string :=
  match c return result (store_answer c) -> option string with
  | QUpdateAction id old new rev ev => fun r =>
      match r with inr true => claims (QUpdateAction id old new rev ev) | _ => None end
  | _ => fun _ => None
  end.

(** The claim an answer tells its caller it won. *)
Definition broker_grant (c : broker_call) : result (broker_answer c) -> option string :=
  match c return result (broker_answer c) -> option string with
  | KStore q => store_grant q
  | _ => fun _ => None
  end.

(** The action whose effect a request asks for. *)
Definition broker_spend (c : broker_call) : option string :=
  match c with KExecute _ key => Some key | _ => None end.

Definition broker_ok (c : broker_call) : Prop :=
  match c with KStore q => request_ok q | _ => True end.

(** The action left [APPROVED] through a claim. *)
Definition claimed (d : db) (key : string) : Prop :=
  exists r, remediation_actions d !! key = Some (dump_record r) /\
    state r ∈ [EXECUTING; SUCCEEDED; FAILED; UNKNOWN].

Abbreviation Guarded := (guarded broker_ok broker_grant broker_spend).

(** Requests that neither claim nor execute. *)
Definition inert : broker_call -> Prop := quiet broker_ok broker_grant broker_spend.

(** Requests of the store that write no [EXECUTING] record. *)
Definition unclaiming (q : store_call) : Prop := request_ok q /\ claims q = None.

Lemma inert_store q : unclaiming q -> inert (KStore q).
Proof.
  intros [Hq Hn]. split_and!; [done|done|]. intros r. destruct q; try done. cbn in *.
  by destruct r as [|[]].
Qed.

Lemma inert_other c : (forall q, c <> KStore q) -> broker_spend c = None -> inert c.
Proof. intros Hne Hs. destruct c; try done. by destruct (Hne c). Qed.

Lemma issues_on_store {A} (P : store_call -> Prop) (Q : broker_call -> Prop) (m : prog store_answer A) :
  issues P m -> (forall c, P c -> Q (KStore c)) -> issues Q (on_store m).
Proof. intros Hm HPQ. by apply (issues_embed _ _ P). Qed.

Lemma get_quiet id : issues unclaiming (store_get id).
Proof.
  apply issues_and; [apply store_get_issues|]. unfold store_get.
  apply issues_bind; [by apply issues_call|]. intros [p|]; [|done].
  apply issues_bind; [apply issues_lift|]. intros r. by case_match.
Qed.

Lemma create_quiet r : ActionRecord_validate r = Ok r -> issues unclaiming (store_create r).
Proof.
  intros Hv. apply issues_and; [by apply store_create_issues|].
  unfold store_create. case_match; [done|].
  apply issues_bind; [apply issues_lift|]. intros e. apply issues_catch.
  - apply issues_bind; [by apply issues_call|done].
  - intros _. apply issues_bind.
    + eapply issues_weaken; [|apply get_quiet]. by intros c [_ ?].
    + intros p. by case_match.
Qed.

Lemma transition_quiet before st who why apr res :
  st <> EXECUTING -> issues unclaiming (store_transition before st who why apr res).
Proof.
  intros Hne. apply issues_and; [apply store_transition_issues|].
  unfold store_transition. case_match; [done|].
  apply issues_bind; [by apply issues_call|]. intros now.
  apply issues_bind_lift. intros after [-> _]%ActionRecord_validate_ok. cbv zeta.
  apply issues_bind; [|by intros []]. apply issues_call. cbn.
  rewrite load_dump_record. by rewrite decide_False.
Qed.

Hint Resolve get_quiet create_quiet transition_quiet : effects.

Lemma on_store_inert {A} (m : prog store_answer A) : issues unclaiming m -> issues inert (on_store m).
Proof. intros Hm. apply (issues_on_store unclaiming); [done|]. apply inert_store. Qed.

Lemma identity_inert who role ns : issues inert (identity who role ns).
Proof.
  unfold identity. apply issues_bind; [by apply issues_call, inert_other|]. intros p.
  apply issues_bind; [by apply issues_call, inert_other|]. intros now. repeat case_match; done.
Qed.

Lemma review_inert mode a who : issues inert (review mode a who).
Proof.
  unfold review. apply issues_bind; [apply identity_inert|]. intros p.
  apply issues_bind; [by apply issues_call, inert_other|]. intros c. case_match; [done|]. cbv zeta.
  apply issues_bind; [by apply issues_call, inert_other|]. intros now.
  apply issues_bind; [apply issues_lift|]. intros rv. repeat case_match; done.
Qed.

Lemma approval_current_inert apr : issues inert (approval_current apr).
Proof.
  unfold approval_current. apply issues_bind; [by apply issues_call, inert_other|]. intros now.
  unfold require. by case_match.
Qed.

Lemma dispatch_authority_inert r who t : issues inert (dispatch_authority r who t).
Proof.
  unfold dispatch_authority. destruct (approval r) as [apr|]; [|done]. cbv zeta.
  do 3 (apply issues_bind; [apply identity_inert|]; intros ?).
  apply issues_bind; [by apply issues_call, inert_other|]. intros now. case_match; [done|].
  apply issues_bind; [apply approval_current_inert|]. intros _.
  apply issues_bind; [by apply issues_call, inert_other|]. intros now'. unfold require. by case_match.
Qed.

Hint Resolve identity_inert review_inert approval_current_inert dispatch_authority_inert
  on_store_inert : effects.

(** ** The broker's methods are guarded *)

Lemma propose_guarded mode value who : Guarded None (propose mode value who).
Proof.
  apply guarded_quiet. unfold propose. destruct (ACTION_validate value) as [e|a]; [by case_match|].
  apply issues_bind; [auto with effects|]. intros _.
  apply issues_bind; [by apply issues_call, inert_other|]. intros now.
  apply issues_bind_lift. intros r [-> Hv]%ActionRecord_validate_ok. auto with effects.
Qed.

Lemma approve_guarded mode id who : Guarded None (approve mode id who).
Proof.
  apply guarded_quiet. unfold approve.
  apply issues_bind; [auto with effects|]. intros r.
  apply issues_bind; [auto with effects|]. intros _. case_match; [done|].
  apply issues_bind; [auto with effects|]. intros t.
  apply issues_bind; [auto with effects|]. intros _.
  apply issues_bind; [by apply issues_call, inert_other|]. intros now. case_match; [done|].
  apply issues_bind; [apply issues_lift|]. intros apr. auto with effects.
Qed.

Lemma dispatch_guarded r who t : Guarded (Some (action_id r)) (dispatch r who t).
Proof.
  unfold dispatch. destruct (approval r) as [apr|]; [|done].
  apply guarded_bind.
  - apply issues_catch.
    + apply issues_bind; [auto with effects|done].
    + intros _. apply issues_bind; [apply issues_lift|]. intros res.
      apply issues_bind; [|done]. by apply on_store_inert, transition_quiet.
  - intros [after|]; [done|]. apply guarded_spend; [done|done|]. intros ans. apply issues_bind.
    + apply issues_catch.
      * apply issues_bind; [|done]. apply issues_bind; [apply issues_lift|].
        intros res. by case_match.
      * intros _. apply issues_bind; [|done]. by apply on_store_inert, transition_quiet.
    + intros [after|res]; [done|]. apply on_store_inert, transition_quiet. by destruct (outcome res).
Qed.

(** A committed claim hands its permit to the continuation. *)
Lemma claim_guarded {A} before who why (f : ActionRecord -> prog broker_answer A) :
  (forall after, action_id after = action_id before -> Guarded (Some (action_id before)) (f after)) ->
  Guarded None (bind (on_store (store_transition before EXECUTING who why None None)) f).
Proof.
  intros Hf. pose proof (store_transition_issues before EXECUTING who why None None) as Hi.
  unfold store_transition in *. destruct (negb _); [done|].
  cbn in Hi |- *. destruct Hi as [_ Hi]. split_and!; [done|done|]. intros ans. specialize (Hi ans).
  destruct ans as [e|now]; [done|]. cbn in *.
  destruct (ActionRecord_validate _) as [e|after] eqn:Ha; [done|]. cbn in *.
  apply ActionRecord_validate_ok in Ha as [-> _]. destruct Hi as [Hq _].
  split_and!; [exact Hq|done|]. intros [e|[]]; cbn; [done| |done].
  unfold next_permit. cbn. rewrite load_dump_record. by apply Hf.
Qed.

Lemma execute_guarded mode id who : Guarded None (execute mode id who).
Proof.
  unfold execute. apply guarded_bind; [auto with effects|]. intros r.
  apply guarded_bind; [auto with effects|]. intros _. case_match; [done|].
  case_match; [done|]. apply guarded_bind.
  { case_match; [by apply issues_call, inert_other|done]. } intros now.
  destruct (approval r) as [apr|]; [|done]. case_match; [done|].
  apply guarded_bind; [auto with effects|]. intros _.
  apply guarded_bind; [auto with effects|]. intros t.
  apply guarded_bind; [auto with effects|]. intros _.
  apply claim_guarded. intros after <-. apply dispatch_guarded.
Qed.

Lemma broker_program_guarded m : broker_program m -> Guarded None m.
Proof. destruct 1; auto using propose_guarded, approve_guarded, execute_guarded. Qed.

(** ** The laws of the claim *)

(** Claims are never undone. *)
Lemma claimed_exec d c key :
  store_inv d -> request_ok c -> claimed d key -> claimed (db_exec d c).2 key.
Proof.
  intros Hd Hc (r & Hr & Hs). destruct c as [id|id p rev ev|id old new rev ev|id|]; cbn;
    try (by exists r).
  - destruct (remediation_actions d !! id) eqn:Ha; [by exists r|].
    destruct (remediation_audit d !! (id, rev)); [by exists r|]. exists r. cbn.
    rewrite lookup_insert_ne by congruence. done.
  - case_decide as Ha; [|by exists r]. destruct ev as [e|ev]; [by exists r|].
    destruct (remediation_audit d !! (id, rev)); [by exists r|]. unfold claimed; cbn.
    destruct (decide (id = key)) as [->|Hne].
    + destruct Hc as (before & st & now & apr & res & who & why & Hst & Hv & -> & -> & -> & -> & _).
      rewrite Hr in Ha. injection Ha as Ha%dump_record_inj. subst before.
      rewrite lookup_insert_eq. eexists; split; [done|]. cbn.
      repeat (apply elem_of_cons in Hs as [Hs|Hs]); [..|by apply elem_of_nil in Hs];
        rewrite Hs in Hst; cbn in Hst; set_solver.
    + rewrite lookup_insert_ne by done. by exists r.
Qed.

(** A granted permit is new: its action was not claimed before. *)
Lemma granted_fresh d c key :
  request_ok c -> store_grant c (db_exec d c).1 = Some key ->
  ~ claimed d key /\ claimed (db_exec d c).2 key.
Proof.
  intros Hc. destruct c as [id|id p rev ev|id old new rev ev|id|]; try done. cbn.
  case_decide as Ha; [|done]. destruct ev as [e|ev]; [done|].
  destruct (remediation_audit d !! (id, rev)); [done|]. cbn.
  destruct Hc as (before & st & now & apr & res & who & why & Hst & Hv & -> & -> & -> & -> & _).
  rewrite load_dump_record. cbn. case_decide as He; [|done]. intros [= <-]. subst st. split.
  - intros (r & Hr & Hs). rewrite Hr in Ha. injection Ha as Ha%dump_record_inj. subst before.
    repeat (apply elem_of_cons in Hs as [Hs|Hs]); [..|by apply elem_of_nil in Hs];
      rewrite Hs in Hst; cbn in Hst; set_solver.
  - unfold claimed. cbn. rewrite lookup_insert_eq. eexists; split; [done|]. cbn. set_solver.
Qed.

Lemma granted_db_answers d c r d' key :
  db_answers d c r d' -> request_ok c -> store_grant c r = Some key ->
  ~ claimed d key /\ claimed d' key.
Proof.
  intros Ha. destruct Ha as [c _|t|c msg|c msg]; [apply granted_fresh|done|..];
    intros _; by destruct c.
Qed.

#[export] Instance broker_laws :
  PermitLaws broker_answers broker_ok store_inv claimed broker_grant broker_spend.
Proof.
  split.
  - intros d c r d' Ha Hd Hc. destruct Ha as [q r d' Hq|c r Hne]; [|done].
    by eapply db_answers_inv.
  - intros d c r d' key Ha Hd Hc Hk. destruct Ha as [q r d' Hq|c r Hne]; [|done].
    destruct Hq; auto using claimed_exec.
  - intros d c r d' key Ha Hd Hc. destruct Ha as [q r d' Hq|c r Hne].
    + by apply granted_db_answers.
    + destruct c; try done. by destruct (Hne c).
  - by intros [].
Qed.

(** Every effect requested from the executor so far, by action. *)
Definition executed (h : list (obs broker_answer)) : list string := spent broker_spend h.

Lemma broker_reachable_inv x :
  broker_reachable x ->
  store_inv (shared x) /\ NoDup (executed (history x)) /\
  forall key, key ∈ executed (history x) -> claimed (shared x) key.
Proof.
  apply (spent_once broker_answers broker_program broker_ok store_inv claimed broker_grant
           broker_spend broker_program_guarded empty_db), empty_db_inv.
Qed.
End safety.
