(* ===== verification/BrokerAuthority.v ===== *)
(** * What must be true when an effect is requested

    [execute] asks the executor for an effect only after its own claim committed
    and, after that, after all authorities were refreshed.  The program logic of
    [Effects] follows the method and collects what it has observed; and whatever the effect
    answers, its outcome is recorded. *)

From S2P Require Import Prelude Json Digest Contracts Effects Policy ActionStore Broker BrokerSafety.

Open Scope string_scope.
Open Scope list_scope.
Open Scope Z_scope.
Open Scope result_scope.
Open Scope prog_scope.

Section authority.
Context `{ActionCodec, ArtifactOps}.
Context (mode : Mode) (who : string).

Abbreviation trace := (list (obs broker_answer)).

(** The identity provider named [who] as [p] since [h], and [p] holds [role] in
    [ns] at some clock reading since then. *)
Definition identity_seen (h h' : trace) (who : string) (p : Principal) : Prop :=
  seen h h' (KPrincipal who) (Ok (Some p)) /\ subject p = who.

(** The update that claims [r] for [who] in place of the approved record [before]. *)
Definition claim_request (before r : ActionRecord) : store_call :=
  QUpdateAction (action_id before) (dump_record before) (dump_record r) (revision r)
    (let! e := AuditEvent_validate (audit_event r who "DISPATCH") in Ok (dump_event e)).

(** Policy accepted the action against a context fetched for the proposer. *)
Definition policy_seen (h : trace) (a : Action) (prop : string) (deadline : datetime) : Prop :=
  exists c p now rep,
    seen [] h (KContext a prop) (Ok c) /\ seen [] h KPolicyNow (Ok now) /\
    identity_seen [] h prop p /\
    authorized a {| principal := Some p; incident := incident c;
                    ctx_resource := ctx_resource c; store := store c |} now /\
    report (incident c) = Some rep /\ deadline = min_of (deadlines a c rep).

(** Everything the dispatch re-checks, between [h] and [h']. *)
Definition authority_seen (h h' : trace) (r : ActionRecord) (deadline : datetime) : Prop :=
  exists apr e a p now now' now'',
    let ns := act_namespace (rec_proposal r) in
    approval r = Some apr /\
    identity_seen h h' who e /\ identity_seen h h' (apr_subject apr) a /\
    identity_seen h h' (proposer r) p /\
    seen h h' KClock (Ok now) /\ identity_current e executor ns now /\
    identity_current a approver ns now /\ identity_current p responder ns now /\
    seen h h' KClock (Ok now') /\ approved_at apr <= now' < apr_expires_at apr /\
    seen h h' KClock (Ok now'') /\ now'' <= deadline.

(** The moment an effect on [a] under the key [key] may be requested: [r] was claimed
    by a committed transaction, policy and approval were checked before the claim
    and every authority again after it. *)
Definition dispatch_ready (h : trace) (a : Action) (key : string) : Prop :=
  exists r before now h1 h2 deadline,
    rec_proposal r = a /\ action_id r = key /\ act_mode a = mode /\
    state before = APPROVED /\ r = advance before EXECUTING now None None /\
    ActionRecord_validate r = Ok r /\
    h = h1 ++ (existT (KStore (claim_request before r)) (Ok true) : obs broker_answer) :: h2 /\
    policy_seen h1 a (proposer r) deadline /\
    authority_seen h1 h r deadline.

Definition allowed (h : trace) (c : broker_call) : Prop :=
  match c with KExecute a key => dispatch_ready h a key | _ => True end.

Abbreviation Hoare := (hoare allowed).
Abbreviation ask := (call (R:=broker_answer)) (only parsing).

(** ** Specifications of the parts *)

(** The postcondition of a program that ended with an exception. *)
Ltac raised := split; [grown|by intros].

Lemma identity_spec who' role ns h :
  Hoare h (identity who' role ns) (fun h' out =>
    h `prefix_of` h' /\ forall p, out = Ok p -> identity_seen h h' who' p /\
      exists now, seen h h' KClock (Ok now) /\ identity_current p role ns now).
Proof.
  unfold identity. cbn. split; [done|]. intros [e|p]; cbn; [raised|].
  split; [done|]. intros [e|now]; cbn; [raised|].
  destruct (identity_valid p role ns now) eqn:Hv; cbn; [|raised].
  destruct p as [q|]; [|done]. destruct_eqb (subject q) who'; cbn; [|raised].
  split; [grown|]. intros p [= <-].
  apply identity_valid_true in Hv as (q' & [= <-] & Hv). unfold identity_seen. split.
  - split; [|done]. eapply seen_later; [apply seen_last|]. grown.
  - exists now. split; [|done]. eapply seen_earlier; [|apply seen_last]. grown.
Qed.

Lemma clock_spec h :
  Hoare h (ask KClock) (fun h' out =>
    h `prefix_of` h' /\ forall now, out = Ok now -> seen h h' KClock (Ok now)).
Proof.
  apply hoare_call; [done|]. intros r. split; [grown|]. intros now ->. apply seen_last.
Qed.

Lemma review_spec a prop h :
  Hoare h (review mode a prop) (fun h' out =>
    h `prefix_of` h' /\ forall deadline, out = Ok deadline -> act_mode a = mode /\
      exists c p now rep,
        seen h h' (KContext a prop) (Ok c) /\ seen h h' KPolicyNow (Ok now) /\
        identity_seen h h' prop p /\
        authorized a {| principal := Some p; incident := incident c;
                        ctx_resource := ctx_resource c; store := store c |} now /\
        report (incident c) = Some rep /\ deadline = min_of (deadlines a c rep)).
Proof.
  unfold review. apply hoare_bind. eapply hoare_mono; [apply identity_spec|].
  intros h1 [e|p] [Hp Hid]; [by raised|]. destruct (Hid p eq_refl) as [Hseen _].
  cbn. split; [done|]. intros [e|c]; cbn; [raised|].
  destruct_eqb (act_mode a) mode; cbn; [|raised].
  split; [done|]. intros [e|now]; cbn; [raised|].
  destruct (evaluate _ _ now) as [e|rv] eqn:Hev; cbn; [raised|].
  destruct_eqb (decision rv) APPROVAL_REQUIRED; cbn; [|raised].
  apply evaluate_approval in Hev as (a' & Ha & Hauth & ->); [|done].
  destruct (report (incident c)) as [rep|] eqn:Hrep; cbn; [|raised].
  split; [grown|]. intros d [= <-]. split; [done|].
  apply ACTION_validate_dump in Ha as ->.
  exists c, p, now, rep. destruct Hseen as [Hpr Hsub]. split_and!; try done.
  - eapply seen_earlier; [exact Hp|]. eapply seen_later; [apply seen_last|]. grown.
  - eapply seen_earlier; [|apply seen_last]. grown.
  - split; [|done]. eapply seen_later; [exact Hpr|]. grown.
Qed.

Lemma approval_current_spec apr h :
  Hoare h (approval_current apr) (fun h' out =>
    h `prefix_of` h' /\ (out = Ok tt -> exists now, seen h h' KClock (Ok now) /\
      approved_at apr <= now < apr_expires_at apr)).
Proof.
  unfold approval_current. apply hoare_bind. eapply hoare_mono; [apply clock_spec|].
  intros h' [e|now] [Hp Hs]; [by raised|]. unfold require.
  destruct (approval_window apr now) eqn:Hw; cbn; [|by raised]. split; [done|].
  intros _. exists now. split; [by apply Hs|]. unfold approval_window in Hw. pybool. lia.
Qed.

Lemma identity_seen_grow h0 h h' h'' u p :
  identity_seen h h' u p -> h0 `prefix_of` h -> h' `prefix_of` h'' -> identity_seen h0 h'' u p.
Proof. intros [? ?] ? ?. split; eauto with effects. Qed.

Lemma seen_grow h0 h h' h'' c r :
  seen h h' c r -> h0 `prefix_of` h -> h' `prefix_of` h'' ->
  seen (R:=broker_answer) h0 h'' c r.
Proof. eauto with effects. Qed.

Lemma authority_seen_earlier h0 h h' r deadline :
  authority_seen h h' r deadline -> h0 `prefix_of` h -> authority_seen h0 h' r deadline.
Proof.
  intros (apr & e & a & p & now & now' & now'' & ? & ? & ? & ? & ? & ? & ? & ? & ? & ? & ? & ?) Hp.
  exists apr, e, a, p, now, now', now''. cbv zeta in *. split_and!; try done; try lia.
  all: first [eapply identity_seen_grow|eapply seen_grow]; [done|grown..].
Qed.

Lemma dispatch_authority_spec r deadline h :
  Hoare h (dispatch_authority r who deadline) (fun h' out =>
    h `prefix_of` h' /\ (out = Ok tt -> authority_seen h h' r deadline)).
Proof.
  unfold dispatch_authority. destruct (approval r) as [apr|] eqn:Hapr; [|by raised]. cbv zeta.
  apply hoare_bind. eapply hoare_mono; [apply identity_spec|].
  intros h1 [?|e] [H1 He]; [by raised|]. destruct (He e eq_refl) as [He' _].
  apply hoare_bind. eapply hoare_mono; [apply identity_spec|].
  intros h2 [?|a] [H2 Ha]; [by raised|]. destruct (Ha a eq_refl) as [Ha' _].
  apply hoare_bind. eapply hoare_mono; [apply identity_spec|].
  intros h3 [?|p] [H3 Hp]; [by raised|]. destruct (Hp p eq_refl) as [Hp' _].
  apply hoare_bind. eapply hoare_mono; [apply clock_spec|].
  intros h4 [?|now] [H4 Hn]; [by raised|]. destruct (forallb _ _) eqn:Hall; cbn [negb]; [|by raised].
  apply hoare_bind. eapply hoare_mono; [apply approval_current_spec|].
  intros h5 [?|[]] [H5 Hw]; [by raised|]. destruct (Hw eq_refl) as (now' & Hs' & Hw').
  apply hoare_bind. eapply hoare_mono; [apply clock_spec|].
  intros h6 [?|now''] [H6 Hn'']; [by raised|]. unfold require.
  destruct (now'' <=? deadline) eqn:Hd; cbn; [|by raised]. split; [grown|]. intros _.
  cbn [forallb fst snd] in Hall. rewrite !andb_true_iff, !identity_valid_true in Hall.
  destruct Hall as ((? & [= <-] & ?) & (? & [= <-] & ?) & (? & [= <-] & ?) & _).
  exists apr, e, a, p, now, now', now''. cbv zeta. pybool. split_and!; try done.
  - eapply identity_seen_grow; [done|grown..].
  - eapply identity_seen_grow; [done|grown..].
  - eapply identity_seen_grow; [done|grown..].
  - eapply seen_grow; [by apply Hn|grown..].
  - eapply seen_grow; [done|grown..].
  - lia.
  - lia.
  - eapply seen_grow; [by apply Hn''|grown..].
Qed.

(** Transactions are never effects. *)
Lemma on_store_spec {A} (m : prog store_answer A) h (Q : trace -> result A -> Prop) :
  (forall h' out, h `prefix_of` h' -> Q h' out) -> Hoare h (on_store m) Q.
Proof.
  revert h. induction m as [a|e|c k IH]; cbn; intros h HQ; [by apply HQ..|].
  split; [done|]. intros r. apply IH. intros h' out Hp. apply HQ.
  etrans; [|exact Hp]. grown.
Qed.

Lemma store_get_spec id h :
  Hoare h (on_store (store_get id)) (fun h' out =>
    h `prefix_of` h' /\ forall r, out = Ok r -> action_id r = id /\ ActionRecord_validate r = Ok r).
Proof.
  unfold store_get. cbn. split; [done|]. intros [e|[p|]]; cbn; [raised| |raised].
  unfold parse_record. destruct (load_record p) as [r|]; cbn; [|raised].
  destruct (ActionRecord_validate r) as [e|r'] eqn:Hv; cbn; [raised|].
  apply ActionRecord_validate_ok in Hv as [-> Hv].
  destruct_eqb (action_id r) id; cbn; [|raised]. split; [grown|]. by intros ? [= <-].
Qed.

(** The whole method [dispatch], entered right after the claim. *)
Lemma dispatch_spec before r now h1 deadline :
  state before = APPROVED -> r = advance before EXECUTING now None None ->
  ActionRecord_validate r = Ok r -> act_mode (rec_proposal r) = mode ->
  policy_seen h1 (rec_proposal r) (proposer r) deadline ->
  Hoare (h1 ++ [existT (KStore (claim_request before r)) (Ok true) : obs broker_answer])
    (dispatch r who deadline) (fun _ _ => True).
Proof.
  intros Hst Hadv Hv Hm Hpol. unfold dispatch. destruct (approval r) as [apr|]; [|done].
  apply hoare_bind, hoare_catch, hoare_bind.
  eapply hoare_mono; [apply dispatch_authority_spec|]. intros h2 [e|[]] [Hp Hs].
  - case_match; [|done]. apply hoare_bind, hoare_lift. case_match; [done|].
    apply hoare_bind, on_store_spec. by intros ? [] _.
  - specialize (Hs eq_refl). cbn beta iota. apply hoare_bind, hoare_catch, hoare_bind.
    unfold checked_execute. apply hoare_bind, hoare_call.
    + destruct Hp as [h3 ->]. exists r, before, now, h1, h3, deadline.
      rewrite <-app_assoc. split_and!; try done. rewrite app_assoc.
      eapply authority_seen_earlier; [exact Hs|]. grown.
    + intros res. destruct res as [e|res]; cbn; [|case_match; cbn];
        try (apply hoare_bind, on_store_spec; by intros ? [] _); by apply on_store_spec.
Qed.

(** Every effect [execute] requests, in any environment, is ready. *)
Lemma execute_spec id h :
  h = [] -> Hoare h (execute mode id who) (fun _ _ => True).
Proof.
  intros ->. unfold execute. apply hoare_bind. eapply hoare_mono; [apply store_get_spec|].
  intros h1 [?|r] [G1 Hr]; [done|]. destruct (Hr r eq_refl) as [Hid Hv].
  apply hoare_bind. eapply hoare_mono; [apply identity_spec|]. intros h2 [?|e] [G2 _]; [done|].
  destruct_eqb (act_mode (rec_proposal r)) mode; cbn [negb]; [|done].
  case_bool_decide; [done|].
  destruct (eqb_of (state r) APPROVED) eqn:Hst; cbn [negb andb]; [apply eqb_of_true_1 in Hst|done].
  destruct (negb (eqb_of (approval r) None)); [|done].
  apply hoare_bind. eapply hoare_mono; [apply clock_spec|]. intros h3 [?|now] [G3 _]; [done|].
  destruct (approval r) as [apr|] eqn:Hapr; [|done]. case_match; [done|].
  apply hoare_bind. eapply hoare_mono; [apply identity_spec|]. intros h4 [?|a] [G4 _]; [done|].
  apply hoare_bind. eapply hoare_mono; [apply review_spec|]. intros h5 [?|d] [G5 Hrev]; [done|].
  apply hoare_bind. eapply hoare_mono; [apply approval_current_spec|].
  intros h6 [?|[]] [G6 _]; [done|].
  apply hoare_bind. unfold store_transition. rewrite Hst. cbn [TRANSITIONS].
  rewrite bool_decide_eq_true_2 by set_solver.
  cbn. split; [done|]. intros [?|t]; [done|]. cbn.
  destruct (ActionRecord_validate (advance _ _ _ _ _)) as [?|after] eqn:Ha; [done|].
  apply ActionRecord_validate_ok in Ha as [-> Ha]. cbn. split; [done|].
  intros [?|[]]; [done| |done]. cbn.
  destruct (Hrev d eq_refl) as (_ & c & p & pn & rep & ? & ? & ? & ? & ? & ?).
  refine (dispatch_spec r _ t (h6 ++ [_]) d Hst eq_refl Ha _ _); [done|].
  exists c, p, pn, rep. split_and!; try done.
  - eapply seen_grow; [done|grown..].
  - eapply seen_grow; [done|grown..].
  - eapply identity_seen_grow; [done|grown..].
Qed.
End authority.

(** ** After the effect

    Once the executor has answered, or raised, the broker does one thing: it records the
    outcome with a single transition of the claimed record. *)

Section settle.
Context `{ActionCodec, ArtifactOps}.

(** The transition that records the executor's answer. *)
Definition settle (r : ActionRecord) (who : string) (ans : result EffectReceipt)
  : prog broker_answer ActionRecord :=
  match ans with
  | inr res =>
      if eqb_of (rcp_resource_uid res, previous_version res)
           (resource_uid (rec_proposal r), expected_version (rec_proposal r))
      then on_store (store_transition r (outcome_state (outcome res)) who "EXECUTOR_RESULT"
                       None (Some res))
      else on_store (store_transition r UNKNOWN who "EXECUTOR_RESULT_UNKNOWN" None None)
  | inl _ => on_store (store_transition r UNKNOWN who "EXECUTOR_RESULT_UNKNOWN" None None)
  end.

(** After every effect [m] requests it only settles. *)
Fixpoint settles (who : string) (m : prog broker_answer ActionRecord) : Prop :=
  match m with
  | Ret _ | Raise _ => True
  | Call c k =>
      match c return (result (broker_answer c) -> prog broker_answer ActionRecord) -> Prop with
      | KExecute a key => fun k =>
          exists r, rec_proposal r = a /\ action_id r = key /\
            forall ans tr out, runs (k ans) tr out -> runs (settle r who ans) tr out
      | _ => fun _ => True
      end k /\ forall ans, settles who (k ans)
  end.

Definition no_effect (c : broker_call) : Prop :=
  match c with KExecute _ _ => False | _ => True end.

Lemma inert_no_effect c : inert c -> no_effect c.
Proof. intros (_ & Hs & _). by destruct c. Qed.

Lemma issues_no_effect {A} (m : prog broker_answer A) : issues inert m -> issues no_effect m.
Proof. apply issues_weaken, inert_no_effect. Qed.

Lemma on_store_no_effect {A} (m : prog store_answer A) : issues no_effect (on_store m).
Proof. induction m as [a|e|c k IH]; cbn; auto. Qed.

Lemma settles_no_effect who m : issues no_effect m -> settles who m.
Proof.
  induction m as [a|e|c k IH]; cbn; [done..|]. intros [Hc Hk]. split; [by destruct c|auto].
Qed.

Lemma settles_bind {A} who (m : prog broker_answer A) f :
  issues no_effect m -> (forall a, settles who (f a)) -> settles who (bind m f).
Proof.
  intros Hm Hf. induction m as [a|e|c k IH]; cbn in *; [auto|done|].
  destruct Hm as [Hc Hk]. split; [by destruct c|auto].
Qed.

(** [let* x := m in Ret (inl x)] followed by the early return is [m]. *)
Lemma runs_early {A B} (m : prog broker_answer A) (f : B -> prog broker_answer A) tr out :
  runs (bind (bind m (fun x => Ret (inl x)))
          (fun res => match res with inl x => Ret x | inr y => f y end)) tr out ->
  runs m tr out.
Proof.
  revert tr. induction m as [a|e|c k IH]; cbn; intros tr Hr; [done..|].
  apply runs_call_inv in Hr as (ans & tr' & -> & Hr). constructor. by apply IH.
Qed.

Lemma dispatch_settles r who t : settles who (dispatch r who t).
Proof.
  unfold dispatch. destruct (approval r) as [apr|]; [|done]. apply settles_bind.
  { apply issues_catch.
    - apply issues_bind; [|done]. apply issues_no_effect, dispatch_authority_inert.
    - intros _. apply issues_bind; [apply issues_lift|]. intros res.
      apply issues_bind; [apply on_store_no_effect|done]. }
  intros [after|]; [done|]. cbn. split.
  - exists r. split_and!; [done|done|]. intros [e|res] tr out; cbn.
    + apply runs_early.
    + destruct (eqb_of _ _); cbn; [done|]. apply runs_early.
  - intros [e|res]; cbn; [|destruct (eqb_of _ _); cbn];
      apply settles_no_effect;
      repeat first [apply on_store_no_effect | apply issues_bind | done | intros []].
Qed.

Lemma execute_settles mode id who : settles who (execute mode id who).
Proof.
  unfold execute. apply settles_bind; [apply on_store_no_effect|]. intros r.
  apply settles_bind; [apply issues_no_effect, identity_inert|]. intros _.
  case_match; [done|]. case_match; [done|].
  apply settles_bind; [case_match; [by apply issues_call|done]|]. intros now.
  destruct (approval r) as [apr|]; [|done]. case_match; [done|].
  apply settles_bind; [apply issues_no_effect, identity_inert|]. intros _.
  apply settles_bind; [apply issues_no_effect, review_inert|]. intros t.
  apply settles_bind; [apply issues_no_effect, approval_current_inert|]. intros _.
  apply settles_bind; [apply on_store_no_effect|]. intros c. apply dispatch_settles.
Qed.

(** The effect an observation shows. *)
Definition effect_of (o : obs broker_answer) : option (Action * string * result EffectReceipt) :=
  match o with existT (KExecute a key) ans => Some (a, key, ans) | _ => None end.

(** What [settles] says of a run. *)
Lemma settles_runs who m tr out tr1 a key (ans : result EffectReceipt) tr2 :
  settles who m -> runs m tr out ->
  tr = tr1 ++ (existT (KExecute a key) ans : obs broker_answer) :: tr2 ->
  exists r, rec_proposal r = a /\ action_id r = key /\ runs (settle r who ans) tr2 out.
Proof.
  revert tr tr1. induction m as [x|e|c k IH]; intros tr tr1 Hs Hr Htr.
  - apply runs_ret_inv in Hr as [-> _]. by destruct tr1.
  - apply runs_raise_inv in Hr as [-> _]. by destruct tr1.
  - apply runs_call_inv in Hr as (r & tr' & -> & Hr). destruct Hs as [Hc Hk].
    destruct tr1 as [|o tr1]; cbn in Htr.
    + assert (tr' = tr2) as -> by congruence.
      apply (f_equal (fun l => head l ≫= effect_of)) in Htr. cbn in Htr.
      destruct c; try discriminate Htr. injection Htr as -> -> ->.
      destruct Hc as (r & ? & ? & Hrun). eauto.
    + eapply (IH r); [apply Hk|exact Hr|]. exact (f_equal tail Htr).
Qed.
End settle.
