(* ===== verification/Walkthrough.v ===== *)
(** * A concrete deployment

    Instances of the interfaces and one scenario, on which the definitions are
    evaluated: text columns hold the values themselves, every artifact verifies,
    and one incident of [payments-api] justifies a restart that [alice] proposes,
    [bob] approves and the worker [exec] executes. *)

From S2P Require Import Prelude Json Digest Contracts Effects Policy ActionStore Broker.

Open Scope string_scope.
Open Scope list_scope.
Open Scope Z_scope.

#[export] Instance value_codec : ActionCodec := {|
  text := (ActionRecord + AuditEvent)%type;
  dump_record := inl;
  load_record t := match t with inl r => Some r | inr _ => None end;
  dump_event := inr;
  load_event t := match t with inr e => Some e | inl _ => None end;
  load_dump_record _ := eq_refl;
  load_dump_event _ := eq_refl;
|}.

(** An artifact store that lists the evidence it can verify. *)
#[export] Instance listed_artifacts : ArtifactOps := {|
  artifact_store := list string;
  artifact_verify s item :=
    if bool_decide (evidence_id item ∈ s) then inr (JObj [])
    else inl (EvidenceIntegrityError "artifact changed or missing");
  window_complete s item := inr (bool_decide (evidence_id item ∈ s));
|}.

Definition noon : datetime := seconds 1750000000.
Definition sha_of_nothing : string :=
  "e3b0c44298fc1c149afbf4c8996fb92427ae41e4649b934ca495991b7852b855".

Definition pod_evidence : EvidenceItem := {|
  evidence_id := "ev-pod"; ev_incident_id := "inc-1"; source := KUBERNETES;
  observed_at := noon - seconds 20; collected_at := noon - seconds 10;
  query := "pods.list"; resource := "payments-api"; artifact_uri := "file:///pod.json";
  artifact_sha256 := sha_of_nothing; summary := "crash loop" |}.

Definition crash_report : IncidentReport := {|
  rep_incident_id := "inc-1"; rep_evidence := [pod_evidence];
  ranked_root_causes := [{| cause_code := "CRASH_LOOP"; confidence := float_lit 9 10;
    supporting_evidence_ids := ["ev-pod"]; refuting_evidence_ids := [];
    missing_evidence := [] |}];
  terminal_state := ESCALATED; rep_mode := local_kind; duration_seconds := float_of_Z 3;
  rep_ranking_method := deterministic; rep_stop_reason := None; rep_receipts := [];
  trace_id := "trace-1" |}.

Definition crash_incident : Incident := {|
  incident_id := "inc-1";
  request := {| title := "payments down"; req_namespace := "payops-sandbox";
                req_service := "payments-api"; severity := critical |};
  created_at := noon - seconds 60; report := Some crash_report |}.

Definition payments_deployment : ResourceSnapshot := {|
  res_namespace := "payops-sandbox"; res_service := "payments-api"; uid := "uid-1";
  version := "41"; res_observed_at := noon - seconds 5; kind := Deployment; synthetic := true;
  res_replicas := 2; approved_revisions := []; res_mode := local_kind |}.

Definition member (name : string) (r : Role) : Principal := {|
  subject := name; roles := [r]; namespaces := ["payops-sandbox"]; verified_at := noon - seconds 1;
  expires_at := noon + seconds 600; enabled := true |}.

Definition directory (who : string) : option Principal :=
  if decide (who = "alice") then Some (member who responder)
  else if decide (who = "bob") then Some (member who approver)
  else if decide (who = "exec") then Some (member who executor)
  else None.

Definition restart_payments : Action := RestartAction {|
  act_incident_id := "inc-1"; act_namespace := "payops-sandbox"; act_service := "payments-api";
  resource_uid := "uid-1"; expected_version := "41"; evidence_ids := ["ev-pod"];
  act_mode := local_kind |}.

Definition crash_context (who : string) : PolicyContext := {|
  principal := directory who; incident := crash_incident;
  ctx_resource := payments_deployment; store := ["ev-pod"] |}.

Definition restarted : EffectReceipt := {|
  outcome := OUTCOME_SUCCEEDED; rcp_resource_uid := "uid-1"; previous_version := "41";
  resulting_version := Some "42" |}.

(** The world of the scenario: no error, a clock that stands still. *)
Definition calm_store (c : store_call) (d : db) : result (store_answer c) * db :=
  match c with
  | QUtcNow => (inr noon, d)
  | c => db_exec d c
  end.

Definition calm (c : broker_call) (d : db) : result (broker_answer c) * db :=
  match c return result (broker_answer c) * db with
  | KStore q => calm_store q d
  | KPrincipal who => (inr (directory who), d)
  | KContext _ who => (inr (crash_context who), d)
  | KExecute _ _ => (inr restarted, d)
  | KClock | KPolicyNow => (inr noon, d)
  end.

Definition restart_id : string := Eval vm_compute in action_digest restart_payments.

(** Proposal, approval, execution, and a second execution of the same action. *)
Definition restart_story : list (prog broker_answer ActionRecord) :=
  [propose local_kind (dump_action restart_payments) "alice";
   approve local_kind restart_id "bob";
   execute local_kind restart_id "exec";
   execute local_kind restart_id "exec"].

Lemma calm_answers c d : broker_answers d c (calm c d).1 (calm c d).2.
Proof.
  destruct c as [q| | | | |]; cbn; try by apply (on_backend d).
  constructor. destruct q; cbn; try by apply (answers_exec d). apply answers_clock.
Qed.

Lemma restart_story_admitted : Forall broker_program restart_story.
Proof. unfold restart_story. eauto 10 using List.Forall_nil, List.Forall_cons, @broker_program. Qed.

Definition played (ms : list (prog broker_answer ActionRecord)) :
    list (result ActionRecord) * db * list (obs broker_answer) := play_all calm ms empty_db [].

Definition after (ms : list (prog broker_answer ActionRecord)) : system broker_answer db ActionRecord :=
  {| threads := []; shared := (played ms).1.2; history := (played ms).2 |}.

Lemma after_reachable ms : Forall broker_program ms -> broker_reachable (after ms).
Proof. apply (play_all_reachable _ broker_program calm calm_answers). Qed.

Example restart_story_results :
  map (fun r => match r with inr x => Some (state x) | inl _ => None end)
    (played restart_story).1.1
  = [Some PROPOSED; Some APPROVED; Some SUCCEEDED; Some SUCCEEDED].
Proof. vm_compute. reflexivity. Qed.
