(* ===== verification/PolicyTheorems.v ===== *)
(** * What the policy guarantees

    Properties of [Policy], each with a witness on the scenario of [Walkthrough]
    where it has hypotheses. *)

From S2P Require Import Prelude Json Digest Canonical Contracts Policy Effects ActionStore.
From S2P Require Import Broker Walkthrough.

Open Scope string_scope.
Open Scope list_scope.
Open Scope Z_scope.
Open Scope result_scope.

(** ** Action text *)

Lemma sort_json_strs l : map sort_json (map JStr l) = map JStr l.
Proof. induction l as [|s l IH]; cbn; [done|]. by rewrite IH. Qed.

Lemma dump_action_ok a : dict_ok (dump_action a).
Proof. destruct a; apply (bool_decide_unpack _); vm_compute; done. Qed.

(** Sorting leaves the values of an action's dump as they are. *)
Lemma dump_action_sorted a k :
  sort_json <$> dict_find (dump_action a) k = dict_find (dump_action a) k.
Proof.
  rewrite <-sort_values_find. f_equal. unfold dump_action.
  rewrite map_app. cbn [map fst snd sort_json]. rewrite sort_json_strs. by destruct a.
Qed.

Lemma mode_name_inj m m' : mode_name m = mode_name m' -> m = m'.
Proof. by destruct m, m'. Qed.

(** The dump, key by key. *)
Lemma dump_action_find (a : Action) :
  dict_find (dump_action a) "incident_id" = Some (JStr (act_incident_id a)) /\
  dict_find (dump_action a) "namespace" = Some (JStr (act_namespace a)) /\
  dict_find (dump_action a) "service" = Some (JStr (act_service a)) /\
  dict_find (dump_action a) "resource_uid" = Some (JStr (resource_uid a)) /\
  dict_find (dump_action a) "expected_version" = Some (JStr (expected_version a)) /\
  dict_find (dump_action a) "evidence_ids" = Some (JList (map JStr (evidence_ids a))) /\
  dict_find (dump_action a) "mode" = Some (JStr (mode_name (act_mode a))) /\
  dict_find (dump_action a) "action_type" = Some (JStr (action_type a)) /\
  dict_find (dump_action a) "replicas" =
    match a with ScaleAction _ n => Some (JInt n) | _ => None end /\
  dict_find (dump_action a) "revision_sha256" =
    match a with RollbackAction _ rev => Some (JStr rev) | _ => None end.
Proof. split_and!; try reflexivity; by destruct a. Qed.

Lemma JStrs_inj l l' : map JStr l = map JStr l' -> l = l'.
Proof. intros Hl. apply (inj Some). by rewrite <-!strings_of_map, Hl. Qed.

Lemma dump_action_inj a b :
  (forall k, dict_find (dump_action a) k = dict_find (dump_action b) k) -> a = b.
Proof.
  intros Heq.
  destruct (dump_action_find a) as (A1 & A2 & A3 & A4 & A5 & A6 & A7 & A8 & A9 & A10).
  destruct (dump_action_find b) as (B1 & B2 & B3 & B4 & B5 & B6 & B7 & B8 & B9 & B10).
  rewrite <-Heq, A1 in B1. rewrite <-Heq, A2 in B2. rewrite <-Heq, A3 in B3.
  rewrite <-Heq, A4 in B4. rewrite <-Heq, A5 in B5. rewrite <-Heq, A6 in B6.
  rewrite <-Heq, A7 in B7. rewrite <-Heq, A8 in B8. rewrite <-Heq, A9 in B9.
  rewrite <-Heq, A10 in B10. clear Heq A1 A2 A3 A4 A5 A6 A7 A8 A9 A10.
  injection B6 as B6%JStrs_inj. injection B7 as B7%mode_name_inj.
  assert (base a = base b) as Hb by (destruct (base a), (base b); cbn in *; congruence).
  destruct a, b; cbn in Hb, B8; congruence.
Qed.

Lemma dump_action_float_free a : float_free (sort_json (JObj (dump_action a))) = true.
Proof.
  assert (forall l, float_free (JList (map JStr l)) = true) as Hl
    by (induction l as [|s l IH]; [done|exact IH]).
  apply float_free_sort_keys, float_free_obj. unfold dump_action. rewrite map_app.
  cbn [map fst snd sort_json]. rewrite sort_json_strs.
  apply Forall_app. split; [repeat (constructor; [try done; apply Hl|]); constructor|].
  destruct a; repeat constructor.
Qed.

Lemma action_text_some a : is_Some (action_text a).
Proof. apply print_json_total, dump_action_float_free. Qed.

(** the canonical text of an action exists and identifies the action: two actions
    have the same text exactly when they are equal, so action identifiers, the SHA-256
    of that text, differ whenever the digest separates the two texts. *)
Theorem action_text_identifies a b :
  is_Some (action_text a) /\ (action_text a = action_text b <-> a = b).
Proof.
  split; [apply action_text_some|]. split; [|congruence]. intros Heq.
  destruct (action_text_some a) as [s Hs]. pose proof Hs as Hs'. rewrite Heq in Hs'.
  apply dump_action_inj. intros k.
  rewrite <-(dump_action_sorted a), <-(dump_action_sorted b).
  by apply (dumps_find true _ _ s); [apply dump_action_ok..| |].
Qed.

(** ** Parsing *)

Lemma mode_of_name_inv s m : mode_of_name s = Some m -> s = mode_name m.
Proof. unfold mode_of_name. repeat case_decide; naive_solver. Qed.

(** The mode field of an accepted proposal is present or defaulted. *)
Definition mode_field (d : jobject) (m : Mode) : Prop :=
  dict_find d "mode" = Some (JStr (mode_name m)) \/ (dict_find d "mode" = None /\ m = local_kind).

Lemma parse_mode_inv d m : parse_mode d = Some m -> mode_field d m.
Proof.
  unfold parse_mode, mode_field. destruct (dict_find d "mode") as [[]|]; cbn; try done.
  - intros ->%mode_of_name_inv. by left.
  - intros [= <-]. by right.
Qed.

Lemma closed_find d allowed k : closed d allowed = true -> k ∉ allowed -> dict_find d k = None.
Proof.
  unfold closed. intros Hc Hk. induction d as [|[k' v] d IH]; [done|]. cbn in Hc |- *.
  apply andb_true_iff in Hc as [Hin Hc]. apply bool_decide_eq_true in Hin.
  case_decide; [by subst|auto].
Qed.

(** What an accepted proposal says, key by key: the action's dump, except that the
    mode may be missing. *)
Definition says (d : jobject) (a : Action) (k : string) : Prop :=
  dict_find d k = dict_find (dump_action a) k \/
  (k = "mode" /\ dict_find d k = None /\ act_mode a = local_kind).

Lemma parse_base_inv d (b : ActionBase) :
  parse_base d = Some b ->
  dict_find d "incident_id" = Some (JStr (act_incident_id b)) /\
  dict_find d "namespace" = Some (JStr (act_namespace b)) /\
  dict_find d "service" = Some (JStr (act_service b)) /\
  dict_find d "resource_uid" = Some (JStr (resource_uid b)) /\
  dict_find d "expected_version" = Some (JStr (expected_version b)) /\
  dict_find d "evidence_ids" = Some (JList (map JStr (evidence_ids b))) /\
  mode_field d (act_mode b).
Proof.
  unfold parse_base. intros (i & Hi & (n & Hn & (s & Hs & (u & Hu & (v & Hv & (e & He &
    (m & Hm & [= <-])%bind_Some)%bind_Some)%bind_Some)%bind_Some)%bind_Some)%bind_Some)%bind_Some.
  cbn. split_and!; auto using field_str_inv, field_strings_inv, parse_mode_inv.
Qed.

Lemma dict_find_app (d d' : jobject) k :
  dict_find (d ++ d') k = match dict_find d k with Some v => Some v | None => dict_find d' k end.
Proof. induction d as [|[k' v] d IH]; cbn; [done|]. by case_decide. Qed.

Lemma dict_find_none (d : jobject) k : k ∉ d.*1 -> dict_find d k = None.
Proof.
  induction d as [|[k' v] d IH]; cbn; [done|]. rewrite not_elem_of_cons. intros [Hne Hin].
  case_decide; [congruence|auto].
Qed.

(** The fields of one kind of action beyond the common ones. *)
Definition extra_fields (a : Action) : jobject :=
  match a with
  | ScaleAction _ n => [("replicas", JInt n)]
  | RollbackAction _ rev => [("revision_sha256", JStr rev)]
  | _ => []
  end.

Lemma dump_action_extra a k :
  k ∉ base_keys -> dict_find (dump_action a) k = dict_find (extra_fields a) k.
Proof.
  intros Hk. unfold dump_action. rewrite dict_find_app.
  rewrite (dict_find_none (_ :: _)) by exact Hk. by destruct a.
Qed.

(** The shape common to the four kinds: base fields, type, and the extra field. *)
Lemma says_all d (a : Action) :
  parse_base d = Some (base a) -> dict_find d "action_type" = Some (JStr (action_type a)) ->
  closed d ((extra_fields a).*1 ++ base_keys) = true ->
  (forall k v, dict_find (extra_fields a) k = Some v -> dict_find d k = Some v) ->
  forall k, says d a k.
Proof.
  intros (B1 & B2 & B3 & B4 & B5 & B6 & B7)%parse_base_inv B8 Hc Hfound k.
  destruct (dump_action_find a) as (A1 & A2 & A3 & A4 & A5 & A6 & A7 & A8 & _).
  unfold says. destruct (decide (k ∈ base_keys)) as [Hk|Hk].
  - unfold base_keys in Hk. repeat (apply elem_of_cons in Hk as [->|Hk]); try (left; congruence).
    + destruct B7 as [B7|[B7 Hm]]; [left; congruence|by right].
    + by apply elem_of_nil in Hk.
  - left. rewrite (dump_action_extra a k Hk).
    destruct (dict_find (extra_fields a) k) as [v|] eqn:He; [by apply Hfound|].
    apply (closed_find _ _ _ Hc). rewrite elem_of_app. intros [Hin|Hin]; [|done].
    apply list_elem_of_fmap in Hin as ([k' v] & -> & Hin).
    apply dict_find_elem in Hin; [cbn in He; congruence|].
    destruct a; apply (bool_decide_unpack _); vm_compute; done.
Qed.

Lemma single_field d k0 j k v :
  dict_find d k0 = Some j -> dict_find [(k0, j)] k = Some v -> dict_find d k = Some v.
Proof. intros Hd. cbn. case_decide; [|done]. intros [= <-]. by subst. Qed.

Lemma parse_action_says d a : parse_action d = Some a -> forall k, says d a k.
Proof.
  unfold parse_action. intros (t & Ht%field_str_inv & (b & Hb & Hp)%bind_Some)%bind_Some.
  case_decide as H1; [subst t|case_decide as H2; [subst t|case_decide as H3; [subst t|
    case_decide as H4; [subst t|done]]]].
  - case_match; [|done]. injection Hp as <-. by apply (says_all d (RestartAction b)).
  - apply bind_Some in Hp as (n & (j & Hj & Hn)%bind_Some & Hp). destruct j; try done.
    injection Hn as ->. case_match; [|done]. injection Hp as <-.
    apply (says_all d (ScaleAction b n)); try done. intros k v. by apply single_field.
  - apply bind_Some in Hp as (rev & Hrev%field_str_inv & Hp). case_match; [|done].
    injection Hp as <-. apply (says_all d (RollbackAction b rev)); try done.
    intros k v. by apply single_field.
  - case_match; [|done]. injection Hp as <-. by apply (says_all d (PauseAction b)).
Qed.

(** what the parser accepts is the action it returns.  Every key of an accepted
    proposal, the absent ones included, reads as in the dump of a valid action; only
    the mode may be left to its default. *)
Theorem parse_exact d a :
  ACTION_validate d = Ok a -> Action_valid a = true /\ forall k, says d a k.
Proof.
  unfold ACTION_validate. destruct (parse_action d) as [b|] eqn:Hp; [|done].
  destruct (Action_valid b) eqn:Hv; [|done]. intros [= ->]. split; [done|].
  by apply parse_action_says.
Qed.

Lemma parse_exact_witness :
  let d := List.remove (prod_eq_dec (A:=string) (B:=json)) ("mode", JStr "local_kind")
             (dump_action restart_payments) in
  ACTION_validate d = Ok restart_payments /\
  Action_valid restart_payments = true /\ forall k, says d restart_payments k.
Proof.
  cbv zeta. split; [vm_compute; reflexivity|]. apply parse_exact. vm_compute. reflexivity.
Defined.

(** validating the dump of a valid action gives the action back. *)
Theorem action_round_trip a : Action_valid a = true -> ACTION_validate (dump_action a) = Ok a.
Proof.
  intros Hv. unfold ACTION_validate. rewrite parse_action_dump; [by rewrite Hv|].
  unfold Action_valid, base_valid in Hv. rewrite !andb_true_iff in Hv. by destruct_and!.
Qed.

Lemma action_round_trip_witness :
  ACTION_validate (dump_action restart_payments) = Ok restart_payments.
Proof. apply action_round_trip. vm_compute. reflexivity. Defined.

(** ** Reviews *)

(** C3: a review demands approval exactly for a well-formed proposal whose every
    condition, identity, scope, freshness, precondition and evidence lineage, holds at
    the instant of the review; it then carries the parsed action, its digest and its
    risk tier. *)
Theorem review_iff_authorized `{ArtifactOps} value c now rv :
  evaluate value c now = Ok rv /\ decision rv = APPROVAL_REQUIRED <->
  exists a, ACTION_validate value = Ok a /\ authorized a c now /\
    rv = {| decision := APPROVAL_REQUIRED; reason := "REVIEW_REQUIRED"; risk_tier := Some (risk a);
            proposal := Some a; review_digest := Some (action_digest a) |}.
Proof.
  split.
  - intros [Hr Hd]. by apply (evaluate_approval value c now).
  - intros (a & Hv & Ha & ->). split; [|done]. by apply evaluate_authorized.
Qed.

(** Exceptions of artifact verification that [evidence_failure] turns into a denial. *)
Definition caught (e : exn) : bool := is_KeyError e || is_ValueError e || is_OSError e.

Lemma operational_evidence_raises `{ArtifactOps} item s e :
  (forall e, artifact_verify s item = Err e -> caught e = true) ->
  (forall e, window_complete s item = Err e -> caught e = true) ->
  operational_evidence item s = Err e -> caught e = true.
Proof.
  intros Hv Hw. unfold operational_evidence. repeat (case_match; [done|]).
  case_match.
  - destruct (window_complete s item) eqn:He; cbn; [intros [= <-]; by apply Hw|done].
  - destruct (artifact_verify s item) eqn:He; cbn; [intros [= <-]; by apply Hv|done].
Qed.

Lemma evidence_loop_raises `{ArtifactOps} a s now l ids e :
  (forall item e, artifact_verify s item = Err e -> caught e = true) ->
  (forall item e, window_complete s item = Err e -> caught e = true) ->
  evidence_loop a s now l ids = Err e -> caught e = true.
Proof.
  intros Hv Hw. induction ids as [|id ids IH]; cbn; [done|].
  destruct (evidence_step a s now l id) as [e'|[f|]] eqn:Hs; cbn; [|done|done].
  intros [= ->]. revert Hs. unfold evidence_step.
  destruct (evidence_by_id l id) as [e'|item] eqn:Hid; cbn.
  - intros [= ->]. unfold evidence_by_id in Hid. case_match; [done|]. by injection Hid as <-.
  - repeat (case_match; [done|]). apply operational_evidence_raises; eauto.
Qed.

Lemma ACTION_validate_raises d e : ACTION_validate d = Err e -> is_ValueError e = true.
Proof. unfold ACTION_validate. repeat case_match; naive_solver. Qed.

(** a review always returns when verification raises nothing but the exceptions it
    documents, and a review that does not demand approval is a plain denial: no tier, no
    action, no digest. *)
Theorem review_total `{ArtifactOps} value c now :
  (forall item e, artifact_verify (store c) item = Err e -> caught e = true) ->
  (forall item e, window_complete (store c) item = Err e -> caught e = true) ->
  exists rv, evaluate value c now = Ok rv /\
    (decision rv <> APPROVAL_REQUIRED -> exists why, rv = deny why).
Proof.
  intros Hv Hw. destruct (ACTION_validate value) as [e|a] eqn:Ha.
  - unfold evaluate. rewrite Ha, (ACTION_validate_raises _ _ Ha). eauto.
  - rewrite (evaluate_parsed _ _ _ _ Ha).
    assert (exists f, evidence_failure a c now = Ok f) as [f Hf].
    { unfold evidence_failure. destruct (report (incident c)) as [rep|]; [|eauto].
      repeat (case_match; [by eauto|]). unfold rcatch.
      destruct (evidence_loop _ _ _ _ _) as [e|f] eqn:Hl; [|eauto].
      change (is_KeyError e || is_ValueError e || is_OSError e) with (caught e).
      rewrite (evidence_loop_raises _ _ _ _ _ _ Hv Hw Hl). eauto. }
    rewrite Hf. destruct (scope_failure a c now) as [w|]; cbn; [eauto|].
    destruct f as [w|]; cbn; [eauto|]. eexists. split; [done|]. by intros [].
Qed.

Lemma review_total_witness :
  let c := crash_context "mallory" in
  (forall item e, artifact_verify (store c) item = Err e -> caught e = true) /\
  exists rv, evaluate (dump_action restart_payments) c noon = Ok rv /\
    (decision rv <> APPROVAL_REQUIRED -> exists why, rv = deny why).
Proof.
  cbv zeta. assert (forall item e, artifact_verify (store (crash_context "mallory")) item = Err e ->
    caught e = true) as Hv by (cbn; intros item e; case_match; [done|by intros [= <-]]).
  split; [exact Hv|]. apply review_total; [exact Hv|]. cbn. done.
Defined.

Example review_alice :
  decision <$> (match evaluate (dump_action restart_payments) (crash_context "alice") noon with
                | inr rv => Some rv | inl _ => None end) = Some APPROVAL_REQUIRED.
Proof. vm_compute. reflexivity. Qed.
