(* ===== verification/BrokerTheorems.v ===== *)
(** * What the action store and the broker guarantee

    Properties of [ActionStore] and [Broker]; the proofs apply the protocol of
    [BrokerSafety] and the program logic of [BrokerAuthority]. *)

From S2P Require Import Prelude Json Digest Contracts Effects Policy ActionStore Broker.
From S2P Require Import BrokerSafety BrokerAuthority Walkthrough.

Open Scope string_scope.
Open Scope list_scope.
Open Scope Z_scope.
Open Scope result_scope.

(** ** Effects *)

(** C1: however proposals, approvals and executions of any number of workers interleave,
    and whatever database errors and abandoned workers occur, the executor is asked for
    the effect of an action at most once, and only for an action whose stored record has
    left [APPROVED] through a committed claim. *)
Theorem dispatch_at_most_once `{ActionCodec, ArtifactOps} x :
  broker_reachable x ->
  NoDup (executed (history x)) /\
  forall key, key ∈ executed (history x) ->
    exists r, remediation_actions (shared x) !! key = Some (dump_record r) /\
      state r ∈ [EXECUTING; SUCCEEDED; FAILED; UNKNOWN].
Proof.
  intros (_ & Hnd & Hcl)%broker_reachable_inv. by split.
Qed.

Lemma dispatch_at_most_once_witness :
  let x := after restart_story in
  executed (history x) = [restart_id] /\ NoDup (executed (history x)) /\
  forall key, key ∈ executed (history x) ->
    exists r, remediation_actions (shared x) !! key = Some (dump_record r) /\
      state r ∈ [EXECUTING; SUCCEEDED; FAILED; UNKNOWN].
Proof.
  cbv zeta. split; [vm_compute; reflexivity|].
  apply dispatch_at_most_once, after_reachable, restart_story_admitted.
Defined.

(** C2: in every run of [execute], whatever the store, the identity provider, the
    resource reader and the clock answer, an effect is requested only when the action
    belongs to the broker's mode, policy authorized it against a context fetched for its
    proposer, this run committed the claim of its approved record, and after that commit
    executor, approver and proposer were fetched again and all held their roles at one
    instant, the approval was in its window and the policy deadline had not passed. *)
Theorem dispatch_authorized `{ActionCodec, ArtifactOps} mode id who tr out tr1 a key r tr2 :
  runs (execute mode id who) tr out ->
  tr = tr1 ++ (existT (KExecute a key) r : obs broker_answer) :: tr2 ->
  dispatch_ready mode who tr1 a key.
Proof.
  intros Hr Htr. destruct (hoare_sound _ _ [] _ _ _ (execute_spec mode who id [] eq_refl) Hr)
    as [_ HI]. exact (HI _ _ _ _ Htr).
Qed.

(** The run of the worker in the scenario: claim, refresh, effect, result. *)
Definition approved_db : db := (played (take 2 restart_story)).1.2.
Definition execution : result ActionRecord * db * list (obs broker_answer) :=
  play calm (execute local_kind restart_id "exec") approved_db [].

Lemma dispatch_authorized_witness :
  execution.2 !! 22%nat
    = Some (existT (KExecute restart_payments restart_id) (Ok restarted) : obs broker_answer) /\
  dispatch_ready local_kind "exec" (take 22 execution.2) restart_payments restart_id.
Proof.
  assert (execution.2 !! 22%nat
    = Some (existT (KExecute restart_payments restart_id) (Ok restarted) : obs broker_answer)) as Ho
    by (vm_compute; reflexivity).
  split; [exact Ho|].
  apply (dispatch_authorized local_kind restart_id "exec" execution.2 execution.1.1
           (take 22 execution.2) restart_payments restart_id (Ok restarted) (drop 23 execution.2)).
  - exact (play_runs_nil calm (execute local_kind restart_id "exec") approved_db).
  - symmetry. by apply take_drop_middle.
Defined.

(** ** Histories *)

(** C4: in every reachable state the audit trail of a stored action, as the store reads
    it back, is complete: one event per revision, in order, every record on the way
    validated, every step one of the transition table, the last event that of the stored
    record. *)
Theorem audit_complete `{ActionCodec, ArtifactOps} x id r :
  broker_reachable x -> remediation_actions (shared x) !! id = Some (dump_record r) ->
  exists evs, run db_handle (store_audit id) (shared x) = (Ok evs, shared x) /\
    action_id r = id /\ lifecycle r evs /\ Z.of_nat (length evs) = revision r + 1.
Proof.
  intros (Hd & _)%broker_reachable_inv Hr. specialize (Hd id). unfold row_inv in Hd.
  rewrite Hr in Hd. destruct Hd as (r' & evs & <-%dump_record_inj & <- & Hl & Hh).
  exists evs. split_and!; [by apply run_store_audit|done|done|by eapply lifecycle_length].
Qed.

Definition restart_record : ActionRecord := {|
  action_id := restart_id; rec_proposal := restart_payments; proposer := "alice";
  state := SUCCEEDED; revision := 3; rec_created_at := noon; updated_at := noon;
  approval := Some {| apr_subject := "bob"; apr_digest := restart_id; approved_at := noon;
                      apr_expires_at := noon + seconds 300 |};
  effect := Some restarted |}.

Lemma audit_complete_witness :
  let x := after restart_story in
  remediation_actions (shared x) !! restart_id = Some (dump_record restart_record) /\
  exists evs, run db_handle (store_audit restart_id) (shared x) = (Ok evs, shared x) /\
    action_id restart_record = restart_id /\ lifecycle restart_record evs /\
    Z.of_nat (length evs) = revision restart_record + 1.
Proof.
  cbv zeta. assert (remediation_actions (shared (after restart_story)) !! restart_id
    = Some (dump_record restart_record)) as Hr by (vm_compute; reflexivity).
  split; [exact Hr|]. apply audit_complete; [|exact Hr].
  apply after_reachable, restart_story_admitted.
Defined.

(** ** Records *)

(** What the states of a record mean. *)
Record well_formed (r : ActionRecord) : Prop := {
  wf_fields : record_fields_ok r = true;
  wf_digest : action_id r = action_digest (rec_proposal r);
  wf_proposed : state r = PROPOSED <-> approval r = None;
  wf_approval : forall a, approval r = Some a ->
    apr_subject a <> proposer r /\ apr_digest a = action_id r /\
    approved_at a < apr_expires_at a <= approved_at a + seconds 300;
  wf_result : state r = SUCCEEDED \/ state r = FAILED ->
    exists e, effect r = Some e /\ outcome_state (outcome e) = state r /\
      rcp_resource_uid e = resource_uid (rec_proposal r) /\
      previous_version e = expected_version (rec_proposal r);
  wf_no_result : state r <> SUCCEEDED -> state r <> FAILED -> effect r = None;
}.

Lemma guard_ok {A} (b : bool) (e : exn) (m : result A) a :
  (if negb b then inl e else m) = inr a <-> b = true /\ m = inr a.
Proof. destruct b; cbn; naive_solver. Qed.

Lemma validate_approval_ok r a :
  validate_approval r a = Ok tt <->
  apr_subject a <> proposer r /\ apr_digest a = action_id r /\
  approved_at a < apr_expires_at a <= approved_at a + seconds 300.
Proof.
  unfold validate_approval.
  destruct_eqb (apr_subject a) (proposer r); cbn; [naive_solver|].
  destruct_eqb (apr_digest a) (action_id r); cbn; [|naive_solver].
  rewrite guard_ok, andb_true_iff, Z.ltb_lt, Z.leb_le. split; intros; split_and!; try done; lia.
Qed.

Lemma eqb_iff_ok {A} `{EqDecision A} {B} `{EqDecision B} (x y : A) (z w : B) :
  Bool.eqb (eqb_of x y) (eqb_of z w) = true <-> (x = y <-> z = w).
Proof.
  rewrite eqb_true_iff. destruct_eqb x y; destruct_eqb z w; naive_solver.
Qed.

Lemma consistent_wf r :
  consistent r = Ok tt /\ record_fields_ok r = true <-> well_formed r.
Proof.
  unfold consistent. rewrite !guard_ok, eqb_of_true, eqb_iff_ok, rbind_inr. split.
  - intros [(Hd & Hp & [] & Ha & Hs) Hf].
    assert (forall a, approval r = Some a -> apr_subject a <> proposer r /\
      apr_digest a = action_id r /\
      approved_at a < apr_expires_at a <= approved_at a + seconds 300) as Happ
      by (intros a Heq; rewrite Heq in Ha; by apply validate_approval_ok).
    case_bool_decide as Hin.
    + destruct (effect r) as [e|] eqn:He; [|done]. rewrite !guard_ok, !eqb_of_true in Hs.
      destruct Hs as (Ho & [= Hu Hv] & _). split; try done; [by eauto|].
      intros Hns Hnf. set_solver.
    + rewrite guard_ok, eqb_of_true in Hs. destruct Hs as [Hs _].
      split; try done. intros [Heq|Heq]; rewrite Heq in Hin; set_solver.
  - intros [Hf Hd Hp Ha Hr Hn]. split; [|done]. split_and!; [done|done|].
    exists tt. split.
    + destruct (approval r) as [a|]; [|done]. by apply validate_approval_ok, Ha.
    + case_bool_decide as Hin.
      * destruct Hr as (e & -> & Ho & Hu & Hv); [set_solver|].
        rewrite !guard_ok, !eqb_of_true. by rewrite Hu, Hv.
      * rewrite guard_ok, eqb_of_true. split; [|done]. apply Hn; set_solver.
Qed.

(** a record is accepted exactly when it is well formed: its identifier is the digest
    of its proposal, it carries an approval exactly when it has left [PROPOSED], the
    approver is not the proposer and approved this digest for at most five minutes, and
    it carries a result, matching state and precondition, exactly when it has one. *)
Theorem record_accepted_iff r r' :
  ActionRecord_validate r = Ok r' <-> r' = r /\ well_formed r.
Proof.
  unfold ActionRecord_validate. rewrite guard_ok, rbind_inr. split.
  - intros [Hf ([] & Hc & [= <-])]. split; [done|]. by apply consistent_wf.
  - intros [-> [Hc Hf]%consistent_wf]. split; [done|]. by exists tt.
Qed.

Lemma approved_by_other `{ActionCodec} d id r :
  store_inv d -> remediation_actions d !! id = Some (dump_record r) -> state r <> PROPOSED ->
  exists a, approval r = Some a /\ apr_subject a <> proposer r /\
    apr_digest a = action_digest (rec_proposal r) /\ id = action_digest (rec_proposal r).
Proof.
  intros Hd Hr Hst. specialize (Hd id). unfold row_inv in Hd.
  rewrite Hr in Hd. destruct Hd as (r' & evs & <-%dump_record_inj & <- & Hl & _).
  apply lifecycle_valid in Hl. unfold ActionRecord_validate in Hl.
  apply guard_ok in Hl as [Hf ([] & Hc & _)%rbind_inr].
  destruct (proj1 (consistent_wf r) (conj Hc Hf)) as [_ Hd Hp Ha _ _].
  destruct (approval r) as [a|] eqn:Happ; [|by destruct Hst; apply Hp].
  destruct (Ha a eq_refl) as (? & ? & _). exists a. split_and!; congruence.
Qed.

(** four eyes in every reachable state: the stored record of an action that has left
    [PROPOSED] carries the approval of somebody who did not propose it, bound to the
    digest of exactly the stored proposal. *)
Theorem four_eyes `{ActionCodec, ArtifactOps} x id r :
  broker_reachable x -> remediation_actions (shared x) !! id = Some (dump_record r) ->
  state r <> PROPOSED ->
  exists a, approval r = Some a /\ apr_subject a <> proposer r /\
    apr_digest a = action_digest (rec_proposal r) /\ id = action_digest (rec_proposal r).
Proof. intros (Hd & _)%broker_reachable_inv. by apply approved_by_other. Qed.

Lemma four_eyes_witness :
  let x := after restart_story in
  remediation_actions (shared x) !! restart_id = Some (dump_record restart_record) /\
  exists a, approval restart_record = Some a /\ apr_subject a <> proposer restart_record /\
    apr_digest a = action_digest (rec_proposal restart_record) /\
    restart_id = action_digest (rec_proposal restart_record).
Proof.
  cbv zeta. assert (remediation_actions (shared (after restart_story)) !! restart_id
    = Some (dump_record restart_record)) as Hr by (vm_compute; reflexivity).
  split; [exact Hr|]. eapply four_eyes; [|exact Hr|done].
  apply after_reachable, restart_story_admitted.
Defined.

(** ** The store's two writing methods *)

(** A database whose transactions all commit and a clock that reads [t]. *)
Definition at_time `{ActionCodec} (t : datetime) (c : store_call) (d : db)
  : result (store_answer c) * db :=
  match c with
  | QUtcNow => (inr t, d)
  | c => db_exec d c
  end.

(** [transition] is a compare-and-set with an audit row.  For a step of the
    transition table to a valid record, it replaces the row and appends the event
    exactly when the stored row is the record the caller read, and otherwise raises
    [TransitionConflict] and changes nothing. *)
Theorem transition_compare_and_set `{ActionCodec} before st who why apr res t d :
  let after := advance before st t apr res in
  st ∈ TRANSITIONS (state before) ->
  ActionRecord_validate after = Ok after ->
  event_valid (audit_event after who why) ->
  remediation_audit d !! (action_id before, revision after) = None ->
  run (at_time t) (store_transition before st who why apr res) d =
    if decide (remediation_actions d !! action_id before = Some (dump_record before))
    then (Ok after,
          {| remediation_actions := <[action_id before := dump_record after]> (remediation_actions d);
             remediation_audit := <[(action_id before, revision after)
                                    := dump_event (audit_event after who why)]> (remediation_audit d) |})
    else (Err (TransitionConflict "action changed concurrently"), d).
Proof.
  cbv zeta. intros Hst Hv Hev Hfree. unfold store_transition.
  rewrite bool_decide_eq_true_2 by done. cbn -[audit_event advance]. rewrite Hv.
  cbn -[audit_event advance]. rewrite Hev. cbn -[audit_event advance].
  case_decide; [|done]. by rewrite Hfree.
Qed.

Definition approved_record : ActionRecord := {|
  action_id := restart_id; rec_proposal := restart_payments; proposer := "alice";
  state := APPROVED; revision := 1; rec_created_at := noon; updated_at := noon;
  approval := approval restart_record; effect := None |}.

Lemma transition_compare_and_set_witness :
  let after := advance approved_record EXECUTING noon None None in
  remediation_actions approved_db !! restart_id = Some (dump_record approved_record) /\
  run (at_time noon) (store_transition approved_record EXECUTING "exec" "DISPATCH" None None)
    approved_db =
    if decide (remediation_actions approved_db !! restart_id = Some (dump_record approved_record))
    then (Ok after,
          {| remediation_actions := <[restart_id := dump_record after]> (remediation_actions approved_db);
             remediation_audit := <[(restart_id, revision after)
                := dump_event (audit_event after "exec" "DISPATCH")]> (remediation_audit approved_db) |})
    else (Err (TransitionConflict "action changed concurrently"), approved_db).
Proof.
  cbv zeta. split; [vm_compute; reflexivity|].
  apply (transition_compare_and_set approved_record EXECUTING "exec" "DISPATCH" None None noon
           approved_db).
  - cbn. apply list_elem_of_here.
  - vm_compute. reflexivity.
  - vm_compute. reflexivity.
  - vm_compute. reflexivity.
Defined.

(** [create] is idempotent per proposer.  A new record is stored with its first
    event; when the action exists already, the stored record is returned to the same
    proposer of the same proposal and refused to anybody else, and nothing changes. *)
Theorem create_idempotent `{ActionCodec} r t d :
  state r = PROPOSED -> revision r = 0 ->
  event_valid (audit_event r (proposer r) "POLICY_REVIEWED") ->
  (remediation_actions d !! action_id r = None -> remediation_audit d !! (action_id r, 0) = None ->
   run (at_time t) (store_create r) d =
     (Ok r, {| remediation_actions := <[action_id r := dump_record r]> (remediation_actions d);
               remediation_audit := <[(action_id r, 0)
                 := dump_event (audit_event r (proposer r) "POLICY_REVIEWED")]> (remediation_audit d) |}))
  /\ (forall p, remediation_actions d !! action_id r = Some (dump_record p) ->
       ActionRecord_validate p = Ok p -> action_id p = action_id r ->
       run (at_time t) (store_create r) d =
         (if decide (proposer p = proposer r /\ rec_proposal p = rec_proposal r) then Ok p
          else Err (PermissionError "proposal belongs to another identity"), d)).
Proof.
  intros Hst Hrev Hev. unfold store_create. rewrite Hst, Hrev, eqb_of_refl. cbn -[audit_event].
  rewrite Hev. split.
  - intros Hnone Haudit. cbn -[audit_event]. by rewrite Hnone, Haudit.
  - intros p Hrow Hv Hid. cbn -[audit_event]. rewrite Hrow. cbn -[audit_event].
    rewrite eqb_of_refl. cbn -[audit_event]. rewrite Hrow. cbn -[audit_event].
    unfold parse_record. rewrite load_dump_record, Hv. cbn. rewrite Hid, eqb_of_refl. cbn.
    rewrite <-negb_andb. destruct (eqb_of (proposer p) (proposer r) &&
      eqb_of (rec_proposal p) (rec_proposal r)) eqn:He; cbn.
    + rewrite andb_true_iff, !eqb_of_true in He. by rewrite decide_True.
    + rewrite andb_false_iff, !eqb_of_false in He. rewrite decide_False; [done|]. naive_solver.
Qed.

Definition proposed_record : ActionRecord := {|
  action_id := restart_id; rec_proposal := restart_payments; proposer := "alice";
  state := PROPOSED; revision := 0; rec_created_at := noon; updated_at := noon;
  approval := None; effect := None |}.

Lemma create_idempotent_witness :
  run (at_time noon) (store_create proposed_record) empty_db =
    (Ok proposed_record,
     {| remediation_actions := <[restart_id := dump_record proposed_record]> ∅;
        remediation_audit := <[(restart_id, 0)
          := dump_event (audit_event proposed_record "alice" "POLICY_REVIEWED")]> ∅ |}) /\
  run (at_time (noon + 1)) (store_create proposed_record) approved_db = (Ok approved_record, approved_db).
Proof.
  split.
  - eapply (create_idempotent proposed_record noon empty_db); vm_compute; reflexivity.
  - destruct (create_idempotent proposed_record (noon + 1) approved_db) as [_ Hold];
      [reflexivity|reflexivity|vm_compute; reflexivity|].
    exact (Hold approved_record ltac:(vm_compute; reflexivity) ltac:(vm_compute; reflexivity) eq_refl).
Defined.

(** C5: an effect is never forgotten or repeated.  Whatever the executor does, the rest of
    the run is exactly one transition of the claimed record: to the reported outcome when
    the receipt names the resource and version the action was approved for, to [UNKNOWN]
    when the executor raised or answered about something else. *)
Theorem outcome_recorded `{ActionCodec, ArtifactOps} mode id who tr out tr1 a key ans tr2 :
  runs (execute mode id who) tr out ->
  tr = tr1 ++ (existT (KExecute a key) ans : obs broker_answer) :: tr2 ->
  exists r, rec_proposal r = a /\ action_id r = key /\ runs (settle r who ans) tr2 out.
Proof. apply settles_runs, execute_settles. Qed.

Lemma outcome_recorded_witness :
  exists r, rec_proposal r = restart_payments /\ action_id r = restart_id /\
    runs (settle r "exec" (Ok restarted)) (drop 23 execution.2) execution.1.1.
Proof.
  apply (outcome_recorded local_kind restart_id "exec" execution.2 execution.1.1
           (take 22 execution.2) restart_payments restart_id (Ok restarted) (drop 23 execution.2)).
  - exact (play_runs_nil calm (execute local_kind restart_id "exec") approved_db).
  - symmetry. apply take_drop_middle. vm_compute. reflexivity.
Defined.
