(* ===== verification/Reasoning.v ===== *)
(** * Model decisions and provider usage: [payops/orchestrator/reasoning.py]

    What a language model may say, what a provider may charge for, and the closed
    catalog of reads both refer to ([CATALOG] of [payops/tools/registry.py]). *)

From S2P Require Import Prelude Json Contracts.

Open Scope string_scope.
Open Scope list_scope.
Open Scope Z_scope.
Open Scope result_scope.

(** ** The read catalog *)

Inductive ToolName : Type :=
  | workload_status | pod_events | recent_logs | payment_snapshot | runbook_search | incident_search.
#[export] Instance ToolName_eq_dec : EqDecision ToolName.
Proof. solve_decision. Defined.

Inductive Service : Type := payments_api | processor_adapter | risk_sim | ledger_sim | webhook_sim.
#[export] Instance Service_eq_dec : EqDecision Service.
Proof. solve_decision. Defined.

Definition service_name (s : Service) : string :=
  match s with
  | payments_api => "payments-api" | processor_adapter => "processor-adapter"
  | risk_sim => "risk-sim" | ledger_sim => "ledger-sim" | webhook_sim => "webhook-sim"
  end.

Record ReadSpec : Type := { backend_reads : Z; deadline_seconds : Z }.

(** [CATALOG], without the descriptions *)
Definition CATALOG (t : ToolName) : ReadSpec :=
  match t with
  | workload_status | pod_events => {| backend_reads := 2; deadline_seconds := 26 |}
  | recent_logs => {| backend_reads := 1; deadline_seconds := 14 |}
  | payment_snapshot => {| backend_reads := 2; deadline_seconds := 14 |}
  | runbook_search | incident_search => {| backend_reads := 1; deadline_seconds := 8 |}
  end.

(** [Brief] and the search text *)
Definition brief_ok (s : string) : bool := between 1 600 (str_len s).

Record ReadRequest : Type := { tool : ToolName; service : Service; query_text : option string }.
#[export] Instance ReadRequest_eq_dec : EqDecision ReadRequest.
Proof. solve_decision. Defined.

Definition is_search (t : ToolName) : bool := bool_decide (t ∈ [runbook_search; incident_search]).

(** Field bounds and [ReadRequest.query_scope] *)
Definition ReadRequest_validate (r : ReadRequest) : result ReadRequest :=
  if negb (match query_text r with Some q => between 1 240 (str_len q) | None => true end) then
    Err (ValueError "ReadRequest")
  else if negb (Bool.eqb (is_search (tool r)) (bool_decide (is_Some (query_text r)))) then
    Err (ValueError "search text must match the selected read tool")
  else Ok r.

(** ** Decisions *)

Inductive DecisionKind : Type := read | finish | refuse.
#[export] Instance DecisionKind_eq_dec : EqDecision DecisionKind.
Proof. solve_decision. Defined.

Record RankedCause : Type := {
  rc_cause_code : string;
  rc_confidence : spec_float;
  rc_supporting : list string;
  rc_refuting : list string;
  rc_missing : list string;
}.
#[export] Instance RankedCause_eq_dec : EqDecision RankedCause.
Proof. solve_decision. Defined.

Definition RankedCause_valid (c : RankedCause) : bool :=
  identifier_ok (rc_cause_code c) && confidence_ok (rc_confidence c) &&
  between 1 8 (len (rc_supporting c)) && forallb identifier_ok (rc_supporting c) &&
  (len (rc_refuting c) <=? 8) && forallb identifier_ok (rc_refuting c) &&
  (len (rc_missing c) <=? 4) && forallb brief_ok (rc_missing c).

Record ReasoningDecision : Type := {
  dec_kind : DecisionKind;
  dec_summary : string;
  dec_reads : list ReadRequest;
  dec_hypotheses : list RankedCause;
}.

(** [ReasoningDecision.coherent] *)
Definition coherent (d : ReasoningDecision) : result unit :=
  if negb (Bool.eqb (eqb_of (dec_kind d) read) (is_nonempty (dec_reads d))) then
    Err (ValueError "read decision must contain a bounded read request")
  else if negb (eqb_of (dec_kind d) finish) && is_nonempty (dec_hypotheses d) then
    Err (ValueError "only a finish decision may publish hypotheses")
  else if negb (distinct (dec_reads d)) then Err (ValueError "duplicate read requests")
  else if negb (distinct (map rc_cause_code (dec_hypotheses d))) then
    Err (ValueError "duplicate ranked causes")
  else Ok tt.

Definition ReasoningDecision_validate (d : ReasoningDecision) : result ReasoningDecision :=
  if negb (brief_ok (dec_summary d)) then Err (ValueError "ReasoningDecision")
  else
    let! _ := rforeach (fun r => let! _ := ReadRequest_validate r in Ok tt) (dec_reads d) in
    if negb ((len (dec_reads d) <=? 2) && forallb RankedCause_valid (dec_hypotheses d) &&
             (len (dec_hypotheses d) <=? 3))
    then Err (ValueError "ReasoningDecision")
    else let! _ := coherent d in Ok d.

(** The citation loop of [parse_decision] *)
Definition resolve_citations (evidence_ids cause_codes : gset string) (c : RankedCause)
  : result unit :=
  let supports := list_to_set (C:=gset string) (rc_supporting c) in
  let refutes := list_to_set (C:=gset string) (rc_refuting c) in
  if negb (bool_decide (rc_cause_code c ∈ cause_codes))
     || negb (bool_decide (supports ∪ refutes ⊆ evidence_ids)) then
    Err (ValueError "model output contains an unresolved cause or citation")
  else if negb (bool_decide (supports ∩ refutes = ∅))
     || negb (Z.of_nat (size supports) =? len (rc_supporting c))
     || negb (Z.of_nat (size refutes) =? len (rc_refuting c)) then
    Err (ValueError "model output contains conflicting or duplicate citations")
  else Ok tt.

(** [hypotheses] *)
Definition cause_hypothesis (c : RankedCause) : RootCauseHypothesis :=
  {| cause_code := rc_cause_code c; confidence := rc_confidence c;
     supporting_evidence_ids := rc_supporting c; refuting_evidence_ids := rc_refuting c;
     missing_evidence := rc_missing c |}.

Definition hypotheses_of (d : ReasoningDecision) : result (list RootCauseHypothesis) :=
  if negb (eqb_of (dec_kind d) finish) then Err (ValueError "decision is not final")
  else rmap (fun c => let h := cause_hypothesis c in
                      if RootCauseHypothesis_valid h then Ok h
                      else Err (ValueError "RootCauseHypothesis")) (dec_hypotheses d).

(** [unique_keys], the [object_pairs_hook] of [parse_decision] *)
Fixpoint unique_keys_loop (acc : jobject) (pairs : list (string * json)) : result jobject :=
  match pairs with
  | [] => Ok acc
  | (k, v) :: pairs =>
      if dhas acc k then Err (ValueError "duplicate model output key")
      else unique_keys_loop (dset acc k v) pairs
  end.
Definition unique_keys (pairs : list (string * json)) : result jobject := unique_keys_loop [] pairs.

(** [reject_constant] *)
Definition reject_constant (value : string) : result json := Err (ValueError "nonfinite model JSON").

(** *** The fields of a decision, closed at every level *)

Definition tool_of_name (s : string) : option ToolName :=
  if decide (s = "workload_status") then Some workload_status
  else if decide (s = "pod_events") then Some pod_events
  else if decide (s = "recent_logs") then Some recent_logs
  else if decide (s = "payment_snapshot") then Some payment_snapshot
  else if decide (s = "runbook_search") then Some runbook_search
  else if decide (s = "incident_search") then Some incident_search
  else None.

Definition service_of_name (s : string) : option Service :=
  List.find (fun x => eqb_of (service_name x) s)
    [payments_api; processor_adapter; risk_sim; ledger_sim; webhook_sim].

Definition kind_of_name (s : string) : option DecisionKind :=
  if decide (s = "read") then Some read
  else if decide (s = "finish") then Some finish
  else if decide (s = "refuse") then Some refuse
  else None.

Definition parse_request (j : json) : option ReadRequest :=
  d ← as_object j;
  t ← field_str d "tool" ≫= tool_of_name;
  s ← field_str d "service" ≫= service_of_name;
  q ← match dict_find d "query" with
      | Some JNull => Some None
      | Some (JStr q) => Some (Some q)
      | _ => None
      end;
  if closed d ["tool"; "service"; "query"]
  then Some {| tool := t; service := s; query_text := q |} else None.

(** A strict [float] field takes an integer too. *)
Definition as_number (j : json) : option spec_float :=
  match j with JFloat f => Some f | JInt z => Some (float_of_Z z) | _ => None end.

Definition parse_cause (j : json) : option RankedCause :=
  d ← as_object j;
  code ← field_str d "cause_code";
  c ← dict_find d "confidence" ≫= as_number;
  sup ← field_strings d "supporting_evidence_ids";
  ref ← field_strings d "refuting_evidence_ids";
  mis ← field_strings d "missing_evidence";
  if closed d ["cause_code"; "confidence"; "supporting_evidence_ids"; "refuting_evidence_ids";
               "missing_evidence"]
  then Some {| rc_cause_code := code; rc_confidence := c; rc_supporting := sup;
               rc_refuting := ref; rc_missing := mis |}
  else None.

Definition parse_fields (j : json) : option ReasoningDecision :=
  d ← as_object j;
  k ← field_str d "decision" ≫= kind_of_name;
  s ← field_str d "summary";
  r ← field_items parse_request d "reads";
  h ← field_items parse_cause d "hypotheses";
  if closed d ["decision"; "summary"; "reads"; "hypotheses"]
  then Some {| dec_kind := k; dec_summary := s; dec_reads := r; dec_hypotheses := h |} else None.

(** [ReasoningDecision.model_validate(value)] *)
Definition decision_of_json (j : json) : result ReasoningDecision :=
  match parse_fields j with
  | Some d => ReasoningDecision_validate d
  | None => Err (ValueError "ReasoningDecision")
  end.

(** [json.loads(content, object_pairs_hook=..., parse_constant=...)] *)
Class JsonLoads : Type :=
  json_loads : (list (string * json) -> result (list (string * json))) -> (string -> result json) ->
    string -> result json.

Definition is_RecursionError (e : exn) : bool := eqb_of e (OtherError "RecursionError").

(** [parse_decision] *)
Definition parse_decision `{JsonLoads} (content : string) (evidence_ids cause_codes : gset string)
  : result ReasoningDecision :=
  if 16384 <? str_len content then Err (ValueError "model output exceeds byte budget")
  else
    let! value := rcatch (json_loads unique_keys reject_constant content) is_RecursionError
      (fun _ => Err (ValueError "model output nesting exceeds parser bounds")) in
    let! r := decision_of_json value in
    let! _ := rforeach (resolve_citations evidence_ids cause_codes) (dec_hypotheses r) in
    Ok r.

(** ** Provider usage *)

(** [Count] *)
Definition count_ok (z : Z) : bool := between 0 10000000 z.

Definition as_count (j : json) : result Z :=
  match j with
  | JInt z => if count_ok z then Ok z else Err (ValueError "Count")
  | _ => Err (ValueError "Count")
  end.

Record ProviderUsage : Type := {
  input_tokens : Z;
  output_tokens : Z;
  total_tokens : Z;
  cached_input_tokens : Z;
}.
#[export] Instance ProviderUsage_eq_dec : EqDecision ProviderUsage.
Proof. solve_decision. Defined.

(** [ProviderUsage.census] *)
Definition ProviderUsage_validate (u : ProviderUsage) : result ProviderUsage :=
  if negb (count_ok (input_tokens u) && count_ok (output_tokens u) && count_ok (total_tokens u) &&
           count_ok (cached_input_tokens u)) then Err (ValueError "ProviderUsage")
  else if negb (input_tokens u + output_tokens u =? total_tokens u)
          || (input_tokens u <? cached_input_tokens u)
  then Err (ValueError "provider token counts disagree") else Ok u.

(** [TypeAdapter(dict[str, Count]).validate_python] *)
Definition count_dict (j : json) : result (list (string * Z)) :=
  match j with
  | JObj o => rmap (fun kv => let! z := as_count kv.2 in Ok (kv.1, z)) o
  | _ => Err (ValueError "dict")
  end.

Definition count_get (d : list (string * Z)) (k : string) : Z :=
  match List.find (fun kv => eqb_of kv.1 k) d with Some kv => kv.2 | None => 0 end.

Definition usage_keys : list string :=
  ["input_tokens"; "output_tokens"; "total_tokens"; "input_token_details"; "output_token_details"].

(** [provider_usage] of a message whose [usage_metadata] is [raw] *)
Definition provider_usage (metadata : option jobject) : result (option ProviderUsage) :=
  match metadata with
  | None => Ok None
  | Some raw =>
      if negb (forallb (fun kv => bool_decide (kv.1 ∈ usage_keys)) raw) then
        Err (ValueError "unsupported provider usage field")
      else
        let! details := count_dict (dget_or raw "input_token_details" (JObj [])) in
        let! output_details := count_dict (dget_or raw "output_token_details" (JObj [])) in
        if existsb (fun kv => negb (eqb_of kv.1 "cache_read") && negb (kv.2 =? 0)) details
           || existsb (fun kv => negb (eqb_of kv.1 "reasoning") && negb (kv.2 =? 0)) output_details
        then Err (ValueError "unsupported provider token category")
        else
          let! i := ditem raw "input_tokens" in
          let! o := ditem raw "output_tokens" in
          let! t := ditem raw "total_tokens" in
          let! i := as_count i in
          let! o := as_count o in
          let! t := as_count t in
          let! usage := ProviderUsage_validate
            {| input_tokens := i; output_tokens := o; total_tokens := t;
               cached_input_tokens := count_get details "cache_read" |} in
          if output_tokens usage <? count_get output_details "reasoning" then
            Err (ValueError "provider reasoning token count exceeds total output")
          else Ok (Some usage)
  end.

(** ** Prices *)

Record TextPrice : Type := {
  input_nano_usd : Z;
  cached_input_nano_usd : Z;
  output_nano_usd : Z;
}.
#[export] Instance TextPrice_eq_dec : EqDecision TextPrice.
Proof. solve_decision. Defined.

Definition TextPrice_valid (p : TextPrice) : bool :=
  count_ok (input_nano_usd p) && count_ok (cached_input_nano_usd p) && count_ok (output_nano_usd p).

(** [TextPrice.cost_nano_usd] *)
Definition cost_nano_usd (p : TextPrice) (usage : option ProviderUsage) : option Z :=
  u ← usage;
  Some ((input_tokens u - cached_input_tokens u) * input_nano_usd p
        + cached_input_tokens u * cached_input_nano_usd p
        + output_tokens u * output_nano_usd p).
