(* ===== verification/Budget.v ===== *)
(** * The reasoning budget: [payops/orchestrator/budget.py]

    Charges, the budget record and its validator, and [BudgetLedger] as programs over
    one SQL table.  A write is a compare-and-set on the stored text. *)

From S2P Require Import Prelude Json Contracts Effects Reasoning.

Open Scope string_scope.
Open Scope list_scope.
Open Scope Z_scope.
Open Scope result_scope.
Open Scope prog_scope.

Record ReasoningBudget : Type := {
  lim_model_calls : Z;
  lim_tokens : Z;
  lim_cost_nano_usd : Z;
  lim_tool_calls : Z;
  lim_backend_reads : Z;
  lim_provider_requests : Z;
}.
#[export] Instance ReasoningBudget_eq_dec : EqDecision ReasoningBudget.
Proof. solve_decision. Defined.

Definition ReasoningBudget_valid (b : ReasoningBudget) : bool :=
  between 0 10 (lim_model_calls b) && between 0 100000 (lim_tokens b) &&
  between 0 1000000000000 (lim_cost_nano_usd b) && between 0 40 (lim_tool_calls b) &&
  between 0 64 (lim_backend_reads b) && between 0 20 (lim_provider_requests b).

Inductive TokenAccounting : Type := fixture_exact | provider_ceiling.
#[export] Instance TokenAccounting_eq_dec : EqDecision TokenAccounting.
Proof. solve_decision. Defined.

Record ModelCharge : Type := {
  mc_operation_id : string;
  prompt_sha256 : string;
  mc_input_tokens : Z;
  output_token_limit : Z;
  price : TextPrice;
  token_accounting : TokenAccounting;
  provider_requests : Z;
}.
#[export] Instance ModelCharge_eq_dec : EqDecision ModelCharge.
Proof. solve_decision. Defined.

(** Fields and [ModelCharge.request_census] *)
Definition ModelCharge_valid (c : ModelCharge) : bool :=
  identifier_ok (mc_operation_id c) && digest_ok (prompt_sha256 c) &&
  between 0 100000 (mc_input_tokens c) && between 1 16384 (output_token_limit c) &&
  TextPrice_valid (price c) && between 0 2 (provider_requests c) &&
  (provider_requests c =? match token_accounting c with provider_ceiling => 2 | _ => 0 end).

(** [ModelCharge.tokens], [ModelCharge.cost] *)
Definition mc_tokens (c : ModelCharge) : Z := mc_input_tokens c + output_token_limit c.
Definition mc_cost (c : ModelCharge) : Z :=
  mc_input_tokens c * Z.max (input_nano_usd (price c)) (cached_input_nano_usd (price c))
  + output_token_limit c * output_nano_usd (price c).

Record ReadCharge : Type := {
  rd_operation_id : string;
  requests : list ReadRequest;
  backend_read_count : Z;
}.
#[export] Instance ReadCharge_eq_dec : EqDecision ReadCharge.
Proof. solve_decision. Defined.

Definition request_valid (r : ReadRequest) : bool :=
  match ReadRequest_validate r with inr _ => true | inl _ => false end.

(** Fields and [ReadCharge.distinct] *)
Definition ReadCharge_valid (c : ReadCharge) : bool :=
  identifier_ok (rd_operation_id c) && between 1 2 (len (requests c)) &&
  forallb request_valid (requests c) && between 1 4 (backend_read_count c) &&
  distinct (requests c) &&
  (backend_read_count c =? sum_of (fun r => backend_reads (CATALOG (tool r))) (requests c)).

Inductive Charge : Type :=
  | Model (c : ModelCharge)
  | Reads (c : ReadCharge).
#[export] Instance Charge_eq_dec : EqDecision Charge.
Proof. solve_decision. Defined.

Definition operation_id (c : Charge) : string :=
  match c with Model c => mc_operation_id c | Reads c => rd_operation_id c end.
Definition Charge_valid (c : Charge) : bool :=
  match c with Model c => ModelCharge_valid c | Reads c => ReadCharge_valid c end.

Record Completion : Type := { cpl_operation_id : string; cpl_artifact_sha256 : string }.
#[export] Instance Completion_eq_dec : EqDecision Completion.
Proof. solve_decision. Defined.
Definition Completion_valid (c : Completion) : bool :=
  identifier_ok (cpl_operation_id c) && digest_ok (cpl_artifact_sha256 c).

Record BudgetRecord : Type := {
  run_id : string;
  binding_sha256 : string;
  limits : ReasoningBudget;
  charges : list Charge;
  completions : list Completion;
}.
#[export] Instance BudgetRecord_eq_dec : EqDecision BudgetRecord.
Proof. solve_decision. Defined.

Definition model_charges (l : list Charge) : list ModelCharge :=
  omap (fun c => match c with Model c => Some c | Reads _ => None end) l.
Definition read_charges (l : list Charge) : list ReadCharge :=
  omap (fun c => match c with Reads c => Some c | Model _ => None end) l.

(** [BudgetRecord.within_limits] *)
Definition within_limits (r : BudgetRecord) : result unit :=
  if negb (distinct (map operation_id (charges r))) then
    Err (ValueError "duplicate budget operation")
  else if negb (distinct (map cpl_operation_id (completions r)))
       || negb (forallb (fun c => bool_decide (cpl_operation_id c ∈ map operation_id (charges r)))
                  (completions r)) then
    Err (ValueError "completion lacks one unique reserved operation")
  else
    let model := model_charges (charges r) in
    let reads := read_charges (charges r) in
    if (lim_model_calls (limits r) <? len model)
       || (lim_tokens (limits r) <? sum_of mc_tokens model)
       || (lim_cost_nano_usd (limits r) <? sum_of mc_cost model)
       || (lim_provider_requests (limits r) <? sum_of provider_requests model)
       || (lim_tool_calls (limits r) <? sum_of (fun c => len (requests c)) reads)
       || (lim_backend_reads (limits r) <? sum_of backend_read_count reads)
    then Err (ValueError "reasoning allowance exhausted")
    else Ok tt.

Definition budget_fields_ok (r : BudgetRecord) : bool :=
  identifier_ok (run_id r) && digest_ok (binding_sha256 r) && ReasoningBudget_valid (limits r) &&
  forallb Charge_valid (charges r) && (len (charges r) <=? 50) &&
  forallb Completion_valid (completions r) && (len (completions r) <=? 50).

(** [BudgetRecord(...)], [BudgetRecord.model_validate(...)] *)
Definition BudgetRecord_validate (r : BudgetRecord) : result BudgetRecord :=
  if negb (budget_fields_ok r) then Err (ValueError "BudgetRecord")
  else let! _ := within_limits r in Ok r.

Definition CHARGE_validate (c : Charge) : result Charge :=
  if Charge_valid c then Ok c else Err (ValueError "Charge").
Definition Completion_validate (c : Completion) : result Completion :=
  if Completion_valid c then Ok c else Err (ValueError "Completion").

(** The text column.  [load_budget] also reads texts written by older versions, so two
    texts may hold the same record. *)
Class BudgetCodec : Type := {
  payload : Type;
  payload_eq_dec :: EqDecision payload;
  dump_budget : BudgetRecord -> payload;
  load_budget : payload -> option BudgetRecord;
  load_dump_budget r : load_budget (dump_budget r) = Some r;
}.

Definition with_charge (r : BudgetRecord) (c : Charge) : BudgetRecord :=
  {| run_id := run_id r; binding_sha256 := binding_sha256 r; limits := limits r;
     charges := charges r ++ [c]; completions := completions r |}.
Definition with_completion (r : BudgetRecord) (c : Completion) : BudgetRecord :=
  {| run_id := run_id r; binding_sha256 := binding_sha256 r; limits := limits r;
     charges := charges r; completions := completions r ++ [c] |}.

Inductive Grant : Type := NEW | EXISTING | DENIED.
#[export] Instance Grant_eq_dec : EqDecision Grant.
Proof. solve_decision. Defined.

(** [reasoning_budgets] *)
Abbreviation ledger := (gmap string payload).

Section ledger.
Context `{BudgetCodec}.

Inductive ledger_call : Type :=
  | LSelect (id : string)
  | LInsert (id : string) (p : payload)
  | LUpdate (id : string) (old new : payload).

Definition ledger_answer (c : ledger_call) : Type :=
  match c with LSelect _ => option payload | LInsert _ _ => unit | LUpdate _ _ _ => bool end.

Abbreviation lprog := (prog ledger_answer).
Abbreviation sql := (call (R:=ledger_answer)) (only parsing).

Definition parse_budget (p : payload) : result BudgetRecord :=
  match load_budget p with
  | Some r => BudgetRecord_validate r
  | None => Err (ValueError "BudgetRecord")
  end.

(** [BudgetLedger.get] *)
Definition budget_get (id : string) : lprog BudgetRecord :=
  let* row := sql (LSelect id) in
  match row with
  | None => Raise (KeyError id)
  | Some p =>
      let* r := lift (parse_budget p) in
      if eqb_of (run_id r) id then Ret r else Raise (BudgetConflict "budget row identity differs")
  end.

(** [BudgetLedger.open] *)
Definition budget_open (id binding : string) (lim : ReasoningBudget) : lprog BudgetRecord :=
  let* r := lift (BudgetRecord_validate
    {| run_id := id; binding_sha256 := binding; limits := lim; charges := []; completions := [] |}) in
  let* inserted := catch (do* sql (LInsert id (dump_budget r)) in Ret true)
                     (fun e => eqb_of e IntegrityError) (fun _ => Ret false) in
  if inserted : bool then Ret r
  else
    let* existing := budget_get id in
    if negb (eqb_of (binding_sha256 existing) binding) || negb (eqb_of (limits existing) lim) then
      Raise (BudgetConflict "run budget binding differs")
    else Ret existing.

(** [BudgetLedger._replace] *)
Definition budget_replace (expected updated : BudgetRecord) : lprog unit :=
  let* row := sql (LSelect (run_id expected)) in
  match row with
  | None => Raise (BudgetConflict "budget changed before reservation")
  | Some raw =>
      let* r := lift (parse_budget raw) in
      if negb (eqb_of r expected) then Raise (BudgetConflict "budget changed before reservation")
      else
        let* winner := sql (LUpdate (run_id expected) raw (dump_budget updated)) in
        if winner : bool then Ret tt
        else Raise (BudgetConflict "budget changed before reservation")
  end.

(** [BudgetLedger.reserve] *)
Definition budget_reserve (expected : BudgetRecord) (charge : Charge) : lprog Grant :=
  let* expected := lift (BudgetRecord_validate expected) in
  let* charge := lift (CHARGE_validate charge) in
  match List.find (fun c => eqb_of (operation_id c) (operation_id charge)) (charges expected) with
  | Some existing =>
      if negb (eqb_of existing charge) then
        Raise (BudgetConflict "operation identity reused with different work")
      else
        let* current := budget_get (run_id expected) in
        if negb (eqb_of current expected) then Raise (BudgetConflict "budget changed before replay")
        else Ret EXISTING
  | None =>
      match BudgetRecord_validate (with_charge expected charge) with
      | inl e => if is_ValueError e then Ret DENIED else Raise e
      | inr updated => do* budget_replace expected updated in Ret NEW
      end
  end.

(** [BudgetLedger.complete] *)
Definition budget_complete (expected : BudgetRecord) (op artifact : string) : lprog Grant :=
  let* expected := lift (BudgetRecord_validate expected) in
  let* receipt := lift (Completion_validate
    {| cpl_operation_id := op; cpl_artifact_sha256 := artifact |}) in
  match List.find (fun c => eqb_of (cpl_operation_id c) op) (completions expected) with
  | Some existing =>
      if negb (eqb_of existing receipt) then
        Raise (BudgetConflict "completion differs or budget changed")
      else
        let* current := budget_get (run_id expected) in
        if negb (eqb_of current expected) then
          Raise (BudgetConflict "completion differs or budget changed")
        else Ret EXISTING
  | None =>
      let* updated := lift (BudgetRecord_validate (with_completion expected receipt)) in
      do* budget_replace expected updated in Ret NEW
  end.

(** ** The table *)

Definition ledger_exec (d : ledger) (c : ledger_call) : result (ledger_answer c) * ledger :=
  match c return result (ledger_answer c) * ledger with
  | LSelect id => (Ok (d !! id), d)
  | LInsert id p =>
      match d !! id with
      | None => (Ok tt, <[id := p]> d)
      | Some _ => (Err IntegrityError, d)
      end
  | LUpdate id old new =>
      if decide (d !! id = Some old) then (Ok true, <[id := new]> d) else (Ok false, d)
  end.

(** Answers a worker may see: the statement's own result, or an error of the driver that
    leaves unknown whether it was committed. *)
Inductive ledger_answers (d : ledger)
  : forall c : ledger_call, result (ledger_answer c) -> ledger -> Prop :=
  | ledger_done c : ledger_answers d c (ledger_exec d c).1 (ledger_exec d c).2
  | ledger_aborted c msg : ledger_answers d c (Err (OtherError msg)) d
  | ledger_uncertain c msg : ledger_answers d c (Err (OtherError msg)) (ledger_exec d c).2.

Definition discard {A} (m : lprog A) : lprog unit := bind m (fun _ => Ret tt).

(** What workers run, with any arguments. *)
Inductive ledger_program : lprog unit -> Prop :=
  | run_open id binding lim : ledger_program (discard (budget_open id binding lim))
  | run_get id : ledger_program (discard (budget_get id))
  | run_reserve expected charge : ledger_program (discard (budget_reserve expected charge))
  | run_complete expected op artifact :
      ledger_program (discard (budget_complete expected op artifact)).

Definition ledger_reachable : system ledger_answer ledger unit -> Prop :=
  reachable ledger_answers ledger_program ∅.
End ledger.
