(* ===== verification/BudgetSafety.v ===== *)
(** * Reservations under any interleaving of workers

    The ledger's table only ever holds valid records, a record only grows, and a
    committed update adds at most one operation, which the record did not contain: so a
    dispatch is granted once per operation however many workers race for it. *)

From S2P Require Import Prelude Json Contracts Effects Reasoning Budget.

Open Scope string_scope.
Open Scope list_scope.
Open Scope Z_scope.
Open Scope result_scope.
Open Scope prog_scope.

Lemma BudgetRecord_validate_ok r r' :
  BudgetRecord_validate r = Ok r' -> r' = r /\ BudgetRecord_validate r = Ok r.
Proof.
  intros Hv. assert (r' = r) as ->; [|done]. revert Hv. unfold BudgetRecord_validate.
  case_match; [done|]. intros (? & _ & [= ->])%rbind_inr. done.
Qed.

Definition budget_valid (r : BudgetRecord) : Prop := BudgetRecord_validate r = Ok r.

Lemma budget_valid_limits r : budget_valid r -> within_limits r = Ok tt.
Proof.
  unfold budget_valid, BudgetRecord_validate. case_match; [done|].
  by intros ([] & Hw & _)%rbind_inr.
Qed.

Lemma budget_valid_distinct r : budget_valid r -> NoDup (map operation_id (charges r)).
Proof.
  intros Hv%budget_valid_limits. revert Hv. unfold within_limits, distinct.
  case_bool_decide; [done|]. by cbn.
Qed.

(** What a run keeps for good. *)
Record grows (r r' : BudgetRecord) : Prop := {
  grows_id : run_id r' = run_id r;
  grows_binding : binding_sha256 r' = binding_sha256 r;
  grows_limits : limits r' = limits r;
  grows_charges : charges r `prefix_of` charges r';
  grows_completions : completions r `prefix_of` completions r';
}.
#[export] Instance grows_preorder : PreOrder grows.
Proof.
  split.
  - intros r. by split.
  - intros r1 r2 r3 [] []. split; try congruence; by etrans.
Qed.

Section safety.
Context `{BudgetCodec}.

(** The row of a run holds this record. *)
Definition holds (d : ledger) (id : string) (r : BudgetRecord) : Prop :=
  exists p, d !! id = Some p /\ load_budget p = Some r.

Lemma holds_fun d id r r' : holds d id r -> holds d id r' -> r = r'.
Proof. intros (p & ? & ?) (p' & ? & ?). congruence. Qed.

(** Statements the ledger's methods issue. *)
Definition insert_sound (id : string) (p : payload) : Prop :=
  exists r, p = dump_budget r /\ budget_valid r /\ run_id r = id /\ charges r = [].

Definition update_sound (id : string) (old new : payload) : Prop :=
  exists r r', load_budget old = Some r /\ new = dump_budget r' /\ budget_valid r' /\
    run_id r = id /\
    ((exists c, r' = with_charge r c) \/ (exists c, r' = with_completion r c)).

Definition sound (c : ledger_call) : Prop :=
  match c with
  | LSelect _ => True
  | LInsert id p => insert_sound id p
  | LUpdate id old new => update_sound id old new
  end.

Lemma budget_get_sound id : issues sound (budget_get id).
Proof.
  unfold budget_get. apply issues_bind; [by apply issues_call|]. intros [p|]; [|done].
  apply issues_bind; [apply issues_lift|]. intros r. by case_match.
Qed.

Lemma budget_open_sound id binding lim : issues sound (budget_open id binding lim).
Proof.
  unfold budget_open. apply issues_bind_lift. intros r [-> Hr]%BudgetRecord_validate_ok.
  apply issues_bind.
  - apply issues_catch; [|done]. apply issues_bind; [|done]. apply issues_call.
    eexists. by split_and!.
  - intros []; [done|]. apply issues_bind; [apply budget_get_sound|]. intros r'. by case_match.
Qed.

Lemma parse_budget_ok p r :
  parse_budget p = Ok r -> load_budget p = Some r /\ budget_valid r.
Proof.
  unfold parse_budget. case_match; [|done]. by intros [-> ?]%BudgetRecord_validate_ok.
Qed.

Lemma budget_replace_sound r r' :
  budget_valid r' ->
  ((exists c, r' = with_charge r c) \/ (exists c, r' = with_completion r c)) ->
  issues sound (budget_replace r r').
Proof.
  intros Hv Hr'. unfold budget_replace. apply issues_bind; [by apply issues_call|].
  intros [raw|]; [|done]. apply issues_bind_lift. intros s [Hs _]%parse_budget_ok.
  destruct_eqb s r; cbn [negb]; [|done]. subst s.
  apply issues_bind; [|by intros []]. apply issues_call. exists r, r'. by split_and!.
Qed.

Lemma budget_reserve_sound r c : issues sound (budget_reserve r c).
Proof.
  unfold budget_reserve. apply issues_bind_lift. intros ? [-> Hr]%BudgetRecord_validate_ok.
  apply issues_bind; [apply issues_lift|]. intros c'. case_match.
  - case_match; [done|]. apply issues_bind; [apply budget_get_sound|]. intros s. by case_match.
  - destruct (BudgetRecord_validate (with_charge r c')) as [e|r'] eqn:Hv; [by case_match|].
    apply BudgetRecord_validate_ok in Hv as [-> Hv].
    apply issues_bind; [|done]. apply budget_replace_sound; eauto.
Qed.

Lemma budget_complete_sound r op artifact : issues sound (budget_complete r op artifact).
Proof.
  unfold budget_complete. apply issues_bind_lift. intros ? [-> Hr]%BudgetRecord_validate_ok.
  apply issues_bind; [apply issues_lift|]. intros c'. case_match.
  - case_match; [done|]. apply issues_bind; [apply budget_get_sound|]. intros s. by case_match.
  - apply issues_bind_lift. intros ? [-> Hv]%BudgetRecord_validate_ok.
    apply issues_bind; [|done]. apply budget_replace_sound; eauto.
Qed.

Lemma ledger_program_sound m : ledger_program m -> issues sound m.
Proof.
  destruct 1; (apply issues_bind; [|done]);
    auto using budget_open_sound, budget_get_sound, budget_reserve_sound, budget_complete_sound.
Qed.

(** ** The table *)

Definition ledger_inv (d : ledger) : Prop :=
  forall id p, d !! id = Some p -> exists r, load_budget p = Some r /\ budget_valid r /\ run_id r = id.

Lemma update_grows id old new r :
  update_sound id old new -> load_budget old = Some r ->
  exists r', load_budget new = Some r' /\ budget_valid r' /\ grows r r' /\ run_id r' = id.
Proof.
  intros (s & r' & Hs & -> & Hv & Hid & Hr') Hr. assert (s = r) as -> by congruence.
  exists r'. rewrite load_dump_budget. split_and!; [done|done| |].
  - destruct Hr' as [[c ->]|[c ->]]; split; cbn; try done; by apply prefix_app_r.
  - destruct Hr' as [[c ->]|[c ->]]; done.
Qed.

Lemma ledger_exec_inv d c : ledger_inv d -> sound c -> ledger_inv (ledger_exec d c).2.
Proof.
  intros Hd Hc. destruct c as [id|id p|id old new]; cbn; [done| |].
  - destruct (d !! id) eqn:Hid; [done|]. destruct Hc as (r & -> & Hv & <- & _).
    intros id' p'. destruct (decide (run_id r = id')) as [<-|Hne]; cbn [snd].
    + rewrite lookup_insert_eq. intros [= <-]. exists r. by rewrite load_dump_budget.
    + rewrite lookup_insert_ne by done. apply Hd.
  - case_decide as Hold; [|done]. cbn.
    destruct (Hd _ _ Hold) as (r & Hr & _ & _).
    destruct (update_grows _ _ _ _ Hc Hr) as (r' & Hr' & Hv & _ & Hid).
    intros id' p'. destruct (decide (id = id')) as [<-|Hne].
    + rewrite lookup_insert_eq. intros [= <-]. eauto.
    + rewrite lookup_insert_ne by done. apply Hd.
Qed.

(** A statement leaves every record in place or makes it grow. *)
Lemma ledger_exec_grows d c id r :
  ledger_inv d -> sound c -> holds d id r ->
  exists r', holds (ledger_exec d c).2 id r' /\ grows r r'.
Proof.
  intros Hd Hc (p & Hp & Hr). destruct c as [k|k q|k old new]; cbn.
  - exists r. split; [by exists p|done].
  - destruct (d !! k) eqn:Hk; cbn; [by exists r; split; [exists p|]|].
    exists r. split; [|done]. exists p. rewrite lookup_insert_ne; [done|congruence].
  - case_decide as Hold; cbn; [|by exists r; split; [exists p|]].
    destruct (decide (k = id)) as [->|Hne].
    + assert (old = p) as -> by congruence.
      destruct (update_grows _ _ _ _ Hc Hr) as (r' & Hr' & _ & Hg & _).
      exists r'. split; [|done]. exists new. by rewrite lookup_insert_eq.
    + exists r. split; [|done]. exists p. by rewrite lookup_insert_ne.
Qed.

Lemma ledger_answers_inv d c ans d' :
  ledger_answers d c ans d' -> ledger_inv d -> sound c -> ledger_inv d'.
Proof. destruct 1; auto using ledger_exec_inv. Qed.

Lemma ledger_answers_grows d c ans d' id r :
  ledger_answers d c ans d' -> ledger_inv d -> sound c -> holds d id r ->
  exists r', holds d' id r' /\ grows r r'.
Proof. destruct 1; [by apply ledger_exec_grows|by exists r|by apply ledger_exec_grows]. Qed.

(** ** Grants *)

(** The operation an update adds. *)
Definition added_op (old new : payload) : option string :=
  r ← load_budget old; r' ← load_budget new;
  operation_id <$> head (drop (length (charges r)) (charges r')).

Definition grant_of (o : obs ledger_answer) : option (string * string) :=
  match o with
  | existT (LUpdate id old new) (inr true) => op ← added_op old new; Some (id, op)
  | _ => None
  end.

(** The reservations committed to a caller that was told so, oldest first. *)
Definition grants (h : list (obs ledger_answer)) : list (string * string) := omap grant_of h.

Definition charged (d : ledger) (g : string * string) : Prop :=
  exists r, holds d g.1 r /\ g.2 ∈ map operation_id (charges r).

Record ledger_pool_inv (x : system ledger_answer ledger unit) : Prop := {
  lpi_threads : Forall (issues sound) (threads x);
  lpi_table : ledger_inv (shared x);
  lpi_unique : NoDup (grants (history x));
  lpi_charged : forall g, g ∈ grants (history x) -> charged (shared x) g;
}.

Lemma charged_answers d c ans d' g :
  ledger_answers d c ans d' -> ledger_inv d -> sound c -> charged d g -> charged d' g.
Proof.
  intros Ha Hd Hc (r & Hr & Hg). destruct (ledger_answers_grows _ _ _ _ _ _ Ha Hd Hc Hr)
    as (r' & Hr' & [_ _ _ [k Hk] _]).
  exists r'. split; [done|]. rewrite Hk, map_app. apply elem_of_app. by left.
Qed.

(** A grant is for an operation the table did not hold, and now does. *)
Lemma grant_fresh d c ans d' g :
  ledger_answers d c ans d' -> ledger_inv d -> sound c -> grant_of (existT c ans) = Some g ->
  ~ charged d g /\ charged d' g.
Proof.
  intros Ha Hd Hc. destruct Ha as [c|c msg|c msg]; [|by destruct c|by destruct c].
  destruct c as [id|id p|id old new]; [done|done|].
  cbn [ledger_exec] in *. case_decide as Hold; [|done]. cbn.
  intros (op & Hop & [= <-])%bind_Some.
  destruct Hc as (r & r' & Hr & -> & Hv & Hid & Hr'). unfold added_op in Hop.
  rewrite Hr, load_dump_budget in Hop. cbn in Hop.
  destruct Hr' as [[c ->]|[c ->]]; cbn in Hop;
    [|by rewrite drop_all in Hop].
  rewrite drop_app_length in Hop. injection Hop as <-.
  apply budget_valid_distinct in Hv. cbn in Hv. rewrite map_app in Hv.
  apply NoDup_app in Hv as (_ & Hnew & _). split.
  - intros (s & Hs & Hin). cbn in *. assert (s = r) as ->
      by (eapply holds_fun; [exact Hs|by exists old]).
    apply (Hnew _ Hin). cbn. apply list_elem_of_here.
  - exists (with_charge r c). cbn. split.
    + exists (dump_budget (with_charge r c)). by rewrite lookup_insert_eq, load_dump_budget.
    + rewrite map_app. apply elem_of_app. right. cbn. apply list_elem_of_here.
Qed.

Lemma grants_app h o : grants (h ++ [o]) = grants h ++ option_list (grant_of o).
Proof. unfold grants. rewrite omap_app. cbn. by destruct (grant_of o). Qed.

Lemma ledger_pool_inv_step x y :
  pool_step ledger_answers ledger_program x y -> ledger_pool_inv x -> ledger_pool_inv y.
Proof.
  intros Hstep [Ht Hd Hnd Hcl].
  destruct Hstep as [l s h m Hm|l1 c k l2 s h ans s' Ha|l1 m l2 s h]; cbn in *.
  - split; cbn; [|done|done|done]. apply Forall_app. split; [done|].
    constructor; [by apply ledger_program_sound|constructor].
  - apply Forall_app in Ht as [H1 Hk]. apply Forall_cons in Hk as [[Hc Hk] H2].
    assert (forall g, g ∈ grants h -> charged s' g) as Hold
      by eauto using charged_answers.
  pose proof (fun g => grant_fresh s c ans s' g Ha Hd Hc) as Hfresh.
    split; cbn.
    + apply Forall_app. split; [done|]. constructor; [apply Hk|done].
    + by eapply ledger_answers_inv.
    + rewrite grants_app. destruct (grant_of _) as [g|] eqn:Hg; cbn; [|by rewrite app_nil_r].
      apply NoDup_app. split_and!; [done| |apply NoDup_singleton].
      intros g' Hin ->%list_elem_of_singleton.
      by destruct (Hfresh g eq_refl) as [[] _]; apply Hcl.
    + intros g. rewrite grants_app. intros [Hin|Hin]%elem_of_app; [by apply Hold|].
      destruct (grant_of _) as [g'|] eqn:Hg; cbn in Hin; [|by apply elem_of_nil in Hin].
      apply list_elem_of_singleton in Hin as ->. by apply (Hfresh g').
  - apply Forall_app in Ht as [H1 [_ H2]%Forall_cons]. split; cbn; try done.
    by apply Forall_app.
Qed.

Lemma ledger_pool_inv_reachable x : ledger_reachable x -> ledger_pool_inv x.
Proof.
  apply (reachable_ind _ _ ∅).
  - split; cbn; [constructor| |constructor|].
    + intros id p. by rewrite (lookup_empty (M:=gmap string)).
    + intros g Hg. by apply elem_of_nil in Hg.
  - intros y z _ Hy Hstep. by eapply ledger_pool_inv_step.
Qed.
End safety.
