(* ===== verification/BudgetTheorems.v ===== *)
(** * What the reasoning budget guarantees *)

From S2P Require Import Prelude Json Contracts Effects Reasoning Budget BudgetSafety.

Open Scope string_scope.
Open Scope list_scope.
Open Scope Z_scope.
Open Scope result_scope.
Open Scope prog_scope.

(** Text columns that hold the records themselves. *)
#[export] Instance value_budgets : BudgetCodec := {|
  payload := BudgetRecord;
  dump_budget r := r;
  load_budget p := Some p;
  load_dump_budget _ := eq_refl;
|}.

Definition zeros64 : string := "0000000000000000000000000000000000000000000000000000000000000000".

Definition small_limits : ReasoningBudget :=
  {| lim_model_calls := 2; lim_tokens := 3000; lim_cost_nano_usd := 10000; lim_tool_calls := 4;
     lim_backend_reads := 4; lim_provider_requests := 0 |}.

Definition fresh_budget : BudgetRecord :=
  {| run_id := "run-1"; binding_sha256 := zeros64; limits := small_limits; charges := [];
     completions := [] |}.

Definition model_call (op : string) : Charge := Model
  {| mc_operation_id := op; prompt_sha256 := zeros64; mc_input_tokens := 1000;
     output_token_limit := 500;
     price := {| input_nano_usd := 2; cached_input_nano_usd := 1; output_nano_usd := 6 |};
     token_accounting := fixture_exact; provider_requests := 0 |}.

(** Two workers race for the same operation; the second sees the record before the first
    has changed it. *)
Definition race : list (prog ledger_answer unit) :=
  [discard (budget_open "run-1" zeros64 small_limits);
   discard (budget_reserve fresh_budget (model_call "op-1"));
   discard (budget_reserve fresh_budget (model_call "op-1"));
   discard (budget_reserve (with_charge fresh_budget (model_call "op-1")) (model_call "op-2"))].

Definition raced : list (result unit) * ledger * list (obs ledger_answer) :=
  play_all (fun c d => ledger_exec d c) race ∅ [].
Definition after_race : system ledger_answer ledger unit :=
  {| threads := []; shared := raced.1.2; history := raced.2 |}.

Lemma after_race_reachable : ledger_reachable after_race.
Proof.
  apply (play_all_reachable ledger_answers ledger_program (fun c d => ledger_exec d c)).
  - intros c s. constructor.
  - repeat constructor.
Qed.

(** C8: a reservation is granted once.  However the ledger's methods of any number of
    workers interleave, with whatever driver errors and abandoned workers, no operation of
    a run is granted twice, and a granted operation stays charged to its run. *)
Theorem granted_once `{BudgetCodec} x :
  ledger_reachable x ->
  NoDup (grants (history x)) /\
  forall id op, (id, op) ∈ grants (history x) ->
    exists r, holds (shared x) id r /\ op ∈ map operation_id (charges r).
Proof. intros [_ _ Hnd Hcl]%ledger_pool_inv_reachable. split; [done|]. intros id op. apply Hcl. Qed.

Lemma granted_once_witness :
  grants (history after_race) = [("run-1", "op-1"); ("run-1", "op-2")] /\
  NoDup (grants (history after_race)) /\
  forall id op, (id, op) ∈ grants (history after_race) ->
    exists r, holds (shared after_race) id r /\ op ∈ map operation_id (charges r).
Proof. split; [vm_compute; reflexivity|]. apply granted_once, after_race_reachable. Defined.

(** What a record has spent of each allowance. *)
Record within (lim : ReasoningBudget) (l : list Charge) : Prop := {
  spent_calls : len (model_charges l) <= lim_model_calls lim;
  spent_tokens : sum_of mc_tokens (model_charges l) <= lim_tokens lim;
  spent_cost : sum_of mc_cost (model_charges l) <= lim_cost_nano_usd lim;
  spent_requests : sum_of provider_requests (model_charges l) <= lim_provider_requests lim;
  spent_tools : sum_of (fun c => len (requests c)) (read_charges l) <= lim_tool_calls lim;
  spent_reads : sum_of (fun c => sum_of (fun r => backend_reads (CATALOG (tool r))) (requests c))
                  (read_charges l) <= lim_backend_reads lim;
}.

Lemma sum_of_ext {A} (f g : A -> Z) l : (forall x, x ∈ l -> f x = g x) -> sum_of f l = sum_of g l.
Proof.
  unfold sum_of. induction l as [|x l IH]; cbn; [done|]. intros Hfg.
  rewrite (Hfg x) by apply list_elem_of_here. rewrite IH; [done|].
  intros y Hy. by apply Hfg, list_elem_of_further.
Qed.

Lemma read_charge_cost c :
  ReadCharge_valid c = true ->
  backend_read_count c = sum_of (fun r => backend_reads (CATALOG (tool r))) (requests c).
Proof. unfold ReadCharge_valid. rewrite !andb_true_iff. intros [_ Hc]. by apply Z.eqb_eq. Qed.

Lemma budget_valid_charges r c : budget_valid r -> c ∈ charges r -> Charge_valid c = true.
Proof.
  unfold budget_valid, BudgetRecord_validate, budget_fields_ok.
  destruct (forallb Charge_valid (charges r)) eqn:Hall.
  - intros _ Hc. rewrite forallb_forall in Hall. by apply Hall, list_elem_of_In.
  - rewrite !andb_false_r. cbn. done.
Qed.

Lemma budget_valid_within r : budget_valid r -> within (limits r) (charges r).
Proof.
  intros Hv. pose proof (budget_valid_limits r Hv) as Hw. unfold within_limits in Hw.
  repeat (case_match; [done|]).
  match goal with H : _ || _ = false |- _ => rewrite !orb_false_iff, !Z.ltb_ge in H end.
  destruct_and!. split; try done.
  erewrite sum_of_ext; [done|]. intros c Hc. symmetry. apply read_charge_cost.
  apply (budget_valid_charges r (Reads c) Hv).
  unfold read_charges in Hc. apply list_elem_of_omap in Hc as ([|c'] & Hin & [= ->]). done.
Qed.

(** C7: the budget holds.  In every reachable state the row of a run is a record of that
    run whose reserved model calls, tokens, cost, provider requests, tool calls and
    catalog-priced backend reads all stay within the limits it was opened with. *)
Theorem budget_holds `{BudgetCodec} x id p :
  ledger_reachable x -> shared x !! id = Some p ->
  exists r, load_budget p = Some r /\ run_id r = id /\ within (limits r) (charges r).
Proof.
  intros [_ Hd _ _]%ledger_pool_inv_reachable Hp. destruct (Hd id p Hp) as (r & Hr & Hv & Hid).
  exists r. split_and!; [done|done|]. by apply budget_valid_within.
Qed.

Lemma budget_holds_witness :
  exists p, shared after_race !! "run-1" = Some p /\
    exists r, load_budget p = Some r /\ run_id r = "run-1" /\ within (limits r) (charges r).
Proof.
  exists (with_charge (with_charge fresh_budget (model_call "op-1")) (model_call "op-2")).
  split; [vm_compute; reflexivity|].
  apply (budget_holds after_race "run-1"); [apply after_race_reachable|].
  vm_compute. reflexivity.
Defined.

(** nothing is refunded.  From any reachable state on, a run keeps its binding and its
    limits, and its charges and completions are only ever appended to. *)
Theorem budget_only_grows `{BudgetCodec} x y id r :
  ledger_reachable x -> rtc (pool_step ledger_answers ledger_program) x y -> holds (shared x) id r ->
  exists r', holds (shared y) id r' /\ grows r r'.
Proof.
  intros Hx%ledger_pool_inv_reachable Hxy. revert r Hx.
  induction Hxy as [x|x z y Hstep _ IH]; intros r Hx Hr; [by exists r|].
  assert (exists r', holds (shared z) id r' /\ grows r r') as (r' & Hr' & Hg).
  { destruct Hstep as [l s h m Hm|l1 c k l2 s h ans s' Ha|l1 m l2 s h]; cbn in *; [by exists r| |by exists r].
    destruct Hx as [Ht Hd _ _]. cbn in *.
    apply Forall_app in Ht as [_ [[Hc _] _]%Forall_cons].
    by eapply ledger_answers_grows. }
  destruct (IH r') as (r'' & ? & ?); [by eapply ledger_pool_inv_step|done|].
  exists r''. split; [done|]. by etrans.
Qed.

Definition before_race : system ledger_answer ledger unit :=
  let p := play_all (fun c d => ledger_exec d c) (take 1 race) ∅ [] in
  {| threads := []; shared := p.1.2; history := p.2 |}.

Lemma budget_only_grows_witness :
  holds (shared before_race) "run-1" fresh_budget /\
  exists r', holds (shared after_race) "run-1" r' /\ grows fresh_budget r'.
Proof.
  assert (holds (shared before_race) "run-1" fresh_budget) as Hh
    by (exists fresh_budget; split; vm_compute; reflexivity).
  split; [exact Hh|].
  apply (budget_only_grows before_race after_race "run-1" fresh_budget); [| |exact Hh].
  - apply (play_all_reachable ledger_answers ledger_program (fun c d => ledger_exec d c)).
    + intros c s. constructor.
    + repeat constructor.
  - apply (play_all_steps ledger_answers ledger_program (fun c d => ledger_exec d c)
             ltac:(intros c s; constructor) (drop 1 race)).
    repeat constructor.
Defined.

(** ** One reservation *)

Definition read_only `{BudgetCodec} (c : ledger_call) : Prop :=
  match c with LSelect _ => True | _ => False end.

Lemma read_only_grants `{BudgetCodec} {A} (m : prog ledger_answer A) tr out :
  issues read_only m -> runs m tr out -> grants tr = [].
Proof.
  revert tr. induction m as [a|e|c k IH]; cbn; intros tr Hi Hr.
  - by apply runs_ret_inv in Hr as [-> _].
  - by apply runs_raise_inv in Hr as [-> _].
  - destruct Hi as [Hc Hk]. apply runs_call_inv in Hr as (ans & tr' & -> & Hr).
    unfold grants in *. destruct c; try done. cbn. by eapply IH.
Qed.

Lemma budget_get_read_only `{BudgetCodec} id : issues read_only (budget_get id).
Proof.
  unfold budget_get. apply issues_bind; [by apply issues_call|]. intros [p|]; [|done].
  apply issues_bind; [apply issues_lift|]. intros r. by case_match.
Qed.

Lemma budget_replace_runs `{BudgetCodec} r c tr :
  runs (budget_replace r (with_charge r c)) tr (Ok tt) ->
  grants tr = [(run_id r, operation_id c)].
Proof.
  unfold budget_replace. cbn. intros (row & tr1 & -> & Hr)%runs_call_inv.
  destruct row as [e|[raw|]]; cbn in Hr;
    [by apply runs_raise_inv in Hr as [_ ?]| |by apply runs_raise_inv in Hr as [_ ?]].
  apply runs_bind in Hr as [(e & _ & [=])|(s & t1 & t2 & -> & Hs & Hr)].
  apply runs_lift in Hs as [-> Hs]. symmetry in Hs. apply parse_budget_ok in Hs as [Hs _].
  destruct_eqb s r; cbn in Hr; [|by apply runs_raise_inv in Hr as [_ ?]]. subst s.
  apply runs_call_inv in Hr as (win & t3 & -> & Hr).
  destruct win as [e|[]]; cbn in Hr;
    [by apply runs_raise_inv in Hr as [_ ?]| |by apply runs_raise_inv in Hr as [_ ?]].
  apply runs_ret_inv in Hr as [-> _]. unfold grants. cbn. unfold added_op.
  rewrite Hs, load_dump_budget. cbn. by rewrite drop_app_length.
Qed.

(** [reserve] says [NEW] exactly when its own update of the ledger committed the
    charge: a run that ends in [NEW] has been granted the operation, once; a run that ends
    in [EXISTING] or [DENIED] has been granted nothing. *)
Theorem new_means_granted `{BudgetCodec} expected charge tr g :
  runs (budget_reserve expected charge) tr (Ok g) ->
  grants tr = if decide (g = NEW) then [(run_id expected, operation_id charge)] else [].
Proof.
  unfold budget_reserve. intros Hr.
  apply runs_bind in Hr as [(e & _ & [=])|(r & t1 & t2 & -> & Hs & Hr)].
  apply runs_lift in Hs as [-> Hs]. symmetry in Hs. apply BudgetRecord_validate_ok in Hs as [-> _].
  apply runs_bind in Hr as [(e & _ & [=])|(c & t3 & t4 & -> & Hc & Hr)].
  apply runs_lift in Hc as [-> Hc]. unfold CHARGE_validate in Hc. destruct (Charge_valid charge); [|done].
  injection Hc as ->. cbn. destruct (List.find _ _) as [old|].
  - case_match; [by apply runs_raise_inv in Hr as [_ ?]|].
    apply runs_bind in Hr as [(e & _ & [=])|(s & t5 & t6 & -> & Hg & Hr)].
    apply (read_only_grants _ _ _ (budget_get_read_only _)) in Hg.
    unfold grants in *. rewrite omap_app, Hg. cbn.
    case_match; [by apply runs_raise_inv in Hr as [_ ?]|].
    by apply runs_ret_inv in Hr as [-> [= ->]].
  - destruct (BudgetRecord_validate (with_charge expected charge)) as [e|r'] eqn:Hv.
    + case_match; [|by apply runs_raise_inv in Hr as [_ ?]].
      by apply runs_ret_inv in Hr as [-> [= ->]].
    + apply BudgetRecord_validate_ok in Hv as [-> _].
      apply runs_bind in Hr as [(e & _ & [=])|([] & t5 & t6 & -> & Hg & Hr)].
      apply runs_ret_inv in Hr as [-> [= ->]]. rewrite app_nil_r. cbn.
      by apply budget_replace_runs.
Qed.

Definition first_reserve : result Grant * ledger * list (obs ledger_answer) :=
  play (fun c d => ledger_exec d c) (budget_reserve fresh_budget (model_call "op-1"))
    {["run-1" := fresh_budget]} [].

Lemma new_means_granted_witness :
  first_reserve.1.1 = Ok NEW /\ grants first_reserve.2 = [("run-1", "op-1")].
Proof.
  assert (first_reserve.1.1 = Ok NEW) as Hn by (vm_compute; reflexivity).
  split; [exact Hn|].
  apply (new_means_granted fresh_budget (model_call "op-1") first_reserve.2 NEW).
  rewrite <-Hn.
  exact (play_runs_nil (fun c d => ledger_exec d c)
           (budget_reserve fresh_budget (model_call "op-1")) {["run-1" := fresh_budget]}).
Defined.
