(* ===== verification/ReasoningTheorems.v ===== *)
(** * What a model may make the system say, and what it may cost *)

From S2P Require Import Prelude Json Contracts Reasoning Budget Walkthrough.

Open Scope string_scope.
Open Scope list_scope.
Open Scope Z_scope.
Open Scope result_scope.

(** ** Decisions *)

Lemma ReasoningDecision_validate_ok d d' :
  ReasoningDecision_validate d = Ok d' ->
  d' = d /\ coherent d = Ok tt /\ forallb RankedCause_valid (dec_hypotheses d) = true /\
  (forall r, r ∈ dec_reads d -> ReadRequest_validate r = Ok r) /\ len (dec_reads d) <= 2.
Proof.
  unfold ReasoningDecision_validate. case_match; [done|].
  intros ([] & Hreads & Hrest)%rbind_inr. revert Hrest. case_match eqn:Hb; [done|].
  intros ([] & Hc & [= <-])%rbind_inr. apply negb_false_iff in Hb.
  rewrite !andb_true_iff, !Z.leb_le in Hb. split_and!; [done|done|naive_solver| |lia].
  intros r Hr. rewrite rforeach_inr in Hreads. specialize (Hreads r Hr). revert Hreads.
  unfold ReadRequest_validate. repeat case_match; done.
Qed.

(** An accepted cause cites only what was submitted, on one side only. *)
Lemma resolve_citations_ok ids codes c :
  resolve_citations ids codes c = Ok tt ->
  rc_cause_code c ∈ codes /\
  (forall i, i ∈ rc_supporting c ++ rc_refuting c -> i ∈ ids) /\
  (forall i, i ∈ rc_supporting c -> i ∉ rc_refuting c).
Proof.
  unfold resolve_citations. case_match eqn:Hres; [done|]. case_match eqn:Hdis; [done|]. intros _.
  apply orb_false_iff in Hres as [Hcode Hsub]. apply orb_false_iff in Hdis as [[Hdis _]%orb_false_iff _].
  apply negb_false_iff, bool_decide_eq_true in Hcode, Hsub, Hdis. split_and!; [done| |].
  - intros i. rewrite elem_of_app. set_solver.
  - intros i Hs Hr. assert (i ∈ (∅ : gset string)) as []%not_elem_of_empty.
    rewrite <-Hdis. apply elem_of_intersection. by rewrite !elem_of_list_to_set.
Qed.

Lemma parse_decision_ok `{JsonLoads} content ids codes d :
  parse_decision content ids codes = Ok d ->
  ReasoningDecision_validate d = Ok d /\
  forall c, c ∈ dec_hypotheses d -> resolve_citations ids codes c = Ok tt.
Proof.
  unfold parse_decision. case_match; [done|].
  intros (j & _ & (d' & Hd & ([] & Hc & [= ->])%rbind_inr)%rbind_inr)%rbind_inr.
  rewrite rforeach_inr in Hc. split; [|done]. revert Hd. unfold decision_of_json.
  destruct (parse_fields j) as [d0|]; [|done]. intros Hv.
  by destruct (ReasoningDecision_validate_ok _ _ Hv) as [-> _].
Qed.

Lemma hypotheses_of_ok d hs :
  hypotheses_of d = Ok hs -> dec_kind d = finish /\ hs = map cause_hypothesis (dec_hypotheses d).
Proof.
  unfold hypotheses_of. destruct_eqb (dec_kind d) finish; cbn; [|done]. intros Hm. split; [done|].
  revert hs Hm. induction (dec_hypotheses d) as [|c l IH]; cbn; intros hs; [by intros [= <-]|].
  destruct (RootCauseHypothesis_valid (cause_hypothesis c)); cbn; [|done]. intros (hs' & Hl & [= <-])%rbind_inr. by rewrite (IH hs').
Qed.

Lemma coherent_causes d : coherent d = Ok tt -> NoDup (map rc_cause_code (dec_hypotheses d)).
Proof.
  unfold coherent. do 4 (destruct_guard; [done|]). intros _.
  match goal with H : negb (distinct (map rc_cause_code _)) = false |- _ =>
    by apply negb_false_iff, bool_decide_eq_true in H end.
Qed.

(** C13: an accepted final decision is a grounded report.  Whatever text the model returned,
    if it is parsed against the evidence of an incident and translated to hypotheses, the
    report that publishes them with that evidence is grounded: every citation resolves to
    an item of the report, nothing is cited on both sides and no cause is ranked twice; and
    every cause is one of those allowed. *)
Theorem decision_grounded `{JsonLoads} content codes d hs rep :
  parse_decision content (list_to_set (map evidence_id (rep_evidence rep))) codes = Ok d ->
  hypotheses_of d = Ok hs -> ranked_root_causes rep = hs ->
  NoDup (map evidence_id (rep_evidence rep)) ->
  (forall e, e ∈ rep_evidence rep -> ev_incident_id e = rep_incident_id rep) ->
  grounded rep /\ forall h, h ∈ hs -> cause_code h ∈ codes.
Proof.
  intros [Hv Hc]%parse_decision_ok [_ ->]%hypotheses_of_ok Hr Hnd Hs.
  destruct (ReasoningDecision_validate_ok _ _ Hv) as (_ & Hco & _).
  assert (forall h, h ∈ ranked_root_causes rep -> exists c, c ∈ dec_hypotheses d /\ h = cause_hypothesis c) as Hh.
  { intros h. rewrite Hr. intros (c & -> & Hin)%list_elem_of_fmap. eauto. }
  split; [split; try done|].
  - rewrite Hr, map_map. by apply coherent_causes.
  - intros h i (c & Hin & ->)%Hh Hi. apply Hc, resolve_citations_ok in Hin as (_ & Hcite & _).
    apply Hcite, elem_of_list_to_set, list_elem_of_fmap in Hi as (e & -> & He). eauto.
  - intros h i (c & Hin & ->)%Hh. apply Hc, resolve_citations_ok in Hin as (_ & _ & Hdis). apply Hdis.
  - intros h (c & -> & Hin)%list_elem_of_fmap. by apply Hc, resolve_citations_ok in Hin as (? & _).
Qed.

(** ** Usage and prices *)

Lemma ProviderUsage_validate_ok u u' :
  ProviderUsage_validate u = Ok u' -> u' = u /\ input_tokens u + output_tokens u = total_tokens u /\
  0 <= cached_input_tokens u <= input_tokens u /\ 0 <= output_tokens u.
Proof.
  unfold ProviderUsage_validate. case_match eqn:Hb; [done|]. case_match eqn:Hs; [done|]. intros [= <-].
  apply negb_false_iff in Hb. unfold count_ok, between in Hb.
  apply orb_false_iff in Hs as [Hs1%negb_false_iff Hs2]. split; [done|]. lia.
Qed.

Lemma TextPrice_valid_nonneg p :
  TextPrice_valid p = true ->
  0 <= input_nano_usd p /\ 0 <= cached_input_nano_usd p /\ 0 <= output_nano_usd p.
Proof. unfold TextPrice_valid, count_ok, between. lia. Qed.

(** a reservation covers the bill.  Whatever usage a provider reports, if it is accepted
    and stays within the reserved input and output tokens of a valid charge, then its price
    is at most the cost the ledger reserved, and so are its tokens. *)
Theorem reservation_covers c raw u cost :
  ModelCharge_valid c = true -> provider_usage (Some raw) = Ok (Some u) ->
  input_tokens u <= mc_input_tokens c -> output_tokens u <= output_token_limit c ->
  cost_nano_usd (price c) (Some u) = Some cost ->
  0 <= cost <= mc_cost c /\ total_tokens u <= mc_tokens c.
Proof.
  intros Hv Hu Hin Hout [= <-].
  assert (TextPrice_valid (price c) = true) as (Hi & Hci & Ho)%TextPrice_valid_nonneg
    by (unfold ModelCharge_valid in Hv; rewrite !andb_true_iff in Hv; naive_solver).
  assert (exists v, ProviderUsage_validate v = Ok u) as [v [-> (Ht & Hc & Hp)]%ProviderUsage_validate_ok].
  { revert Hu. unfold provider_usage. case_match; [done|].
    intros (ds & _ & (os & _ & Hrest)%rbind_inr)%rbind_inr. revert Hrest. case_match; [done|].
    intros (i & _ & (o & _ & (t & _ & (i' & _ & (o' & _ & (t' & _ & (w & Hw & Hlast)%rbind_inr)%rbind_inr)%rbind_inr)%rbind_inr)%rbind_inr)%rbind_inr)%rbind_inr.
    revert Hlast. case_match; [done|]. intros [= ->]. by eexists. }
  unfold mc_cost, mc_tokens. split; [split|]; [nia| |lia].
  set (m := Z.max (input_nano_usd (price c)) (cached_input_nano_usd (price c))).
  assert (input_nano_usd (price c) <= m /\ cached_input_nano_usd (price c) <= m) by lia.
  transitivity (input_tokens v * m + output_tokens v * output_nano_usd (price c)); [nia|].
  apply Z.add_le_mono; apply Z.mul_le_mono_nonneg_r; lia.
Qed.

(** ** A concrete answer and a concrete bill *)

(** The object a model answered with. *)
Definition answer_fields : list (string * json) :=
  [("decision", JStr "finish"); ("summary", JStr "the pod crash-loops"); ("reads", JList []);
   ("hypotheses", JList [JObj
     [("cause_code", JStr "CRASH_LOOP"); ("confidence", JFloat (float_lit 9 10));
      ("supporting_evidence_ids", JList [JStr "ev-pod"]); ("refuting_evidence_ids", JList []);
      ("missing_evidence", JList [])]])].

(** A decoder that knows one text. *)
#[local] Instance one_text : JsonLoads := fun hook _ content =>
  if decide (content = "answer") then let! o := hook answer_fields in Ok (JObj o)
  else Err (ValueError "JSONDecodeError").

Definition crash_cause : RankedCause :=
  {| rc_cause_code := "CRASH_LOOP"; rc_confidence := float_lit 9 10; rc_supporting := ["ev-pod"];
     rc_refuting := []; rc_missing := [] |}.
Definition crash_decision : ReasoningDecision :=
  {| dec_kind := finish; dec_summary := "the pod crash-loops"; dec_reads := [];
     dec_hypotheses := [crash_cause] |}.

Lemma decision_grounded_witness :
  grounded crash_report /\
  forall h, h ∈ ranked_root_causes crash_report -> cause_code h ∈ ({["CRASH_LOOP"]} : gset string).
Proof.
  apply (decision_grounded "answer" {["CRASH_LOOP"]} crash_decision (ranked_root_causes crash_report)
    crash_report).
  - vm_compute. reflexivity.
  - vm_compute. reflexivity.
  - reflexivity.
  - apply (bool_decide_unpack _). vm_compute. exact I.
  - intros e He. cbn in He. apply list_elem_of_singleton in He as ->. reflexivity.
Defined.

Definition small_charge : ModelCharge :=
  {| mc_operation_id := "turn-1"; prompt_sha256 := sha_of_nothing; mc_input_tokens := 1000;
     output_token_limit := 200;
     price := {| input_nano_usd := 300; cached_input_nano_usd := 30; output_nano_usd := 2500 |};
     token_accounting := provider_ceiling; provider_requests := 2 |}.
Definition small_usage : ProviderUsage :=
  {| input_tokens := 900; output_tokens := 150; total_tokens := 1050; cached_input_tokens := 400 |}.

Lemma reservation_covers_witness :
  0 <= 537000 <= mc_cost small_charge /\ total_tokens small_usage <= mc_tokens small_charge.
Proof.
  apply (reservation_covers small_charge
    [("input_tokens", JInt 900); ("output_tokens", JInt 150); ("total_tokens", JInt 1050);
     ("input_token_details", JObj [("cache_read", JInt 400)]);
     ("output_token_details", JObj [("reasoning", JInt 20)])]).
  - vm_compute. reflexivity.
  - vm_compute. reflexivity.
  - vm_compute. discriminate.
  - vm_compute. discriminate.
  - vm_compute. reflexivity.
Defined.
