(* ===== verification/Investigation.v ===== *)
(** * The investigation lifecycle: [payops/orchestrator/state.py], [nodes.py],
    [graph_reasoning.py] and [graph.py]

    The durable state, the five lifecycle nodes as programs over files, clocks and the
    operator's collector, the route between them, and the worker that starts and resumes
    a graph.  LangGraph itself is used through what its documentation says: nodes run one
    at a time along the declared edges, the state is saved after each of them, and a run
    stops before an interrupt node unless it is the node the run was resumed at. *)

From S2P Require Import Prelude Json Digest Contracts Effects Reasoning Budget.

Open Scope string_scope.
Open Scope list_scope.
Open Scope Z_scope.
Open Scope result_scope.
Open Scope prog_scope.

(** ** [state.py] *)

Inductive Phase : Type :=
  | RECEIVED | TRIAGED | READS_RESERVED | EVIDENCE_COLLECTED | RANKED | FINISHED.
#[export] Instance Phase_eq_dec : EqDecision Phase.
Proof. solve_decision. Defined.

Inductive CollectionProfile : Type := instant_v1 | payment_windows_v1.
#[export] Instance CollectionProfile_eq_dec : EqDecision CollectionProfile.
Proof. solve_decision. Defined.

Record InvestigationBudget : Type := {
  max_steps : Z;
  max_tool_calls : Z;
  max_backend_reads : Z;
  node_start_deadline : datetime;
}.
#[export] Instance InvestigationBudget_eq_dec : EqDecision InvestigationBudget.
Proof. solve_decision. Defined.

Definition InvestigationBudget_valid (b : InvestigationBudget) : bool :=
  between 0 16 (max_steps b) && between 0 40 (max_tool_calls b) && between 0 64 (max_backend_reads b).

Record StepRecord : Type := {
  step_node : string;
  step_observed_at : datetime;
  step_duration : spec_float;
}.
#[export] Instance StepRecord_eq_dec : EqDecision StepRecord.
Proof. solve_decision. Defined.

Definition StepRecord_validate (s : StepRecord) : result StepRecord :=
  if nonneg_finite (step_duration s) then Ok s else Err (ValueError "StepRecord").

(** [CollectionFailure], [Collection] of [tools/collect.py] *)
Record CollectionFailure : Type := { cf_tool : string; cf_resource : string; error_type : string }.
#[export] Instance CollectionFailure_eq_dec : EqDecision CollectionFailure.
Proof. solve_decision. Defined.

Record Collection : Type := {
  col_incident_id : string;
  col_evidence : list EvidenceItem;
  col_failures : list CollectionFailure;
}.
#[export] Instance Collection_eq_dec : EqDecision Collection.
Proof. solve_decision. Defined.

Record InvestigationState : Type := mk_state {
  st_incident : Incident;
  st_budget : InvestigationBudget;
  st_mode : Mode;
  collection_profile : CollectionProfile;
  ranking_profile : string;
  ranking_method : RankingMethod;
  reasoning_stop_reason : option string;
  reasoning_receipts : list string;
  phase : Phase;
  started_at : datetime;
  steps_used : Z;
  tool_calls_reserved : Z;
  backend_reads_reserved : Z;
  st_evidence : list EvidenceItem;
  st_failures : list CollectionFailure;
  st_hypotheses : list RootCauseHypothesis;
  terminal : option TerminalState;
  steps : list StepRecord;
  st_report : option IncidentReport;
}.
#[export] Instance InvestigationState_eq_dec : EqDecision InvestigationState.
Proof. solve_decision. Defined.

Definition is_ok {A} (r : result A) : bool := match r with inr _ => true | inl _ => false end.

(** The constraints of [InvestigationState], nested models included. *)
Definition state_valid (s : InvestigationState) : bool :=
  is_ok (Incident_validate (st_incident s)) && InvestigationBudget_valid (st_budget s) &&
  bool_decide (st_mode s ∈ [local_kind; fixture_replay]) && identifier_ok (ranking_profile s) &&
  match reasoning_stop_reason s with Some r => identifier_ok r | None => true end &&
  (len (reasoning_receipts s) <=? 20) && between 0 16 (steps_used s) &&
  between 0 40 (tool_calls_reserved s) && between 0 64 (backend_reads_reserved s) &&
  forallb EvidenceItem_valid (st_evidence s) && forallb RootCauseHypothesis_valid (st_hypotheses s) &&
  forallb (fun x => nonneg_finite (step_duration x)) (steps s) &&
  match st_report s with Some r => is_ok (IncidentReport_validate r) | None => true end.

Definition InvestigationState_validate (s : InvestigationState) : result InvestigationState :=
  if state_valid s then Ok s else Err (ValueError "InvestigationState").

(** A keyword argument of [updated]. *)
Inductive change : Type :=
  | CMethod (m : RankingMethod)
  | CStop (r : option string)
  | CReceipts (l : list string)
  | CPhase (p : Phase)
  | CStepsUsed (n : Z)
  | CTools (n : Z)
  | CReads (n : Z)
  | CEvidence (l : list EvidenceItem)
  | CFailures (l : list CollectionFailure)
  | CHypotheses (l : list RootCauseHypothesis)
  | CTerminal (t : option TerminalState)
  | CSteps (l : list StepRecord)
  | CReport (r : option IncidentReport).

Definition apply_change (s : InvestigationState) (c : change) : InvestigationState :=
  let '(mk_state i b m cp rp rm rs rr ph sa su tc br ev fa hy te st re) := s in
  match c with
  | CMethod rm => mk_state i b m cp rp rm rs rr ph sa su tc br ev fa hy te st re
  | CStop rs => mk_state i b m cp rp rm rs rr ph sa su tc br ev fa hy te st re
  | CReceipts rr => mk_state i b m cp rp rm rs rr ph sa su tc br ev fa hy te st re
  | CPhase ph => mk_state i b m cp rp rm rs rr ph sa su tc br ev fa hy te st re
  | CStepsUsed su => mk_state i b m cp rp rm rs rr ph sa su tc br ev fa hy te st re
  | CTools tc => mk_state i b m cp rp rm rs rr ph sa su tc br ev fa hy te st re
  | CReads br => mk_state i b m cp rp rm rs rr ph sa su tc br ev fa hy te st re
  | CEvidence ev => mk_state i b m cp rp rm rs rr ph sa su tc br ev fa hy te st re
  | CFailures fa => mk_state i b m cp rp rm rs rr ph sa su tc br ev fa hy te st re
  | CHypotheses hy => mk_state i b m cp rp rm rs rr ph sa su tc br ev fa hy te st re
  | CTerminal te => mk_state i b m cp rp rm rs rr ph sa su tc br ev fa hy te st re
  | CSteps st => mk_state i b m cp rp rm rs rr ph sa su tc br ev fa hy te st re
  | CReport re => mk_state i b m cp rp rm rs rr ph sa su tc br ev fa hy te st re
  end.

(** [updated] of [nodes.py] *)
Definition updated (s : InvestigationState) (l : list change) : result InvestigationState :=
  InvestigationState_validate (foldl apply_change s l).

(** ** [graph_reasoning.py] *)

Inductive StopReason : Type :=
  | SR_FINISHED | SR_REFUSED | SR_INVALID_OUTPUT | SR_BUDGET_EXHAUSTED | SR_UNKNOWN_COMPLETION
  | SR_ERROR | SR_TIMEOUT | SR_DENIED | SR_BUSY.
#[export] Instance StopReason_eq_dec : EqDecision StopReason.
Proof. solve_decision. Defined.

Definition stop_name (r : StopReason) : string :=
  match r with
  | SR_FINISHED => "FINISHED" | SR_REFUSED => "REFUSED" | SR_INVALID_OUTPUT => "INVALID_OUTPUT"
  | SR_BUDGET_EXHAUSTED => "BUDGET_EXHAUSTED" | SR_UNKNOWN_COMPLETION => "UNKNOWN_COMPLETION"
  | SR_ERROR => "ERROR" | SR_TIMEOUT => "TIMEOUT" | SR_DENIED => "DENIED" | SR_BUSY => "BUSY"
  end.

(** [LoopResult] of [loop.py]; [lr_fixture] is [mode == "fixture"]. *)
Record LoopResult : Type := {
  lr_run_id : string;
  lr_fixture : bool;
  stop_reason : StopReason;
  lr_hypotheses : list RootCauseHypothesis;
  lr_evidence : list EvidenceItem;
  receipt_sha256s : list string;
}.

(** The loop the operator's factory builds. *)
Record Reasoner : Type := {
  rz_fixture : bool;
  rz_root : string;
  rz_limits : ReasoningBudget;
}.

(** [terminal] of [graph_reasoning.py] *)
Definition loop_terminal (r : LoopResult) : TerminalState :=
  match stop_reason r with
  | SR_FINISHED => if is_nonempty (lr_hypotheses r) then ESCALATED else EVIDENCE_INSUFFICIENT
  | SR_DENIED => SECURITY_BLOCK
  | SR_BUDGET_EXHAUSTED => BUDGET_EXHAUSTED
  | SR_REFUSED | SR_INVALID_OUTPUT => EVIDENCE_INSUFFICIENT
  | _ => DEPENDENCY_UNAVAILABLE
  end.

Definition method_of (fixture : bool) : RankingMethod :=
  if fixture then model_fixture else model_provider.

(** [SERVICES] of [tools/kubernetes.py] *)
Definition SANDBOX_SERVICES : list string :=
  ["payments-api"; "risk-sim"; "processor-adapter"; "ledger-sim"; "webhook-sim"].

Inductive node : Type := Triage | Reserve | Collect | Rank | Finish.
#[export] Instance node_eq_dec : EqDecision node.
Proof. solve_decision. Defined.

Definition node_name (n : node) : string :=
  match n with
  | Triage => "triage" | Reserve => "reserve" | Collect => "collect" | Rank => "rank"
  | Finish => "finish"
  end.

(** ** What a worker asks of the world

    Files and checkpoints are those of one incident. *)
Inductive inv_call : Type :=
  | ICountAttempts (id : string)
  | ICreateAttempt (id : string) (n : Z) (r : StepRecord)
  | IResultExists (id : string)
  | IReadResult (id : string)
  | IMarkDispatched (id : string)
  | ICollect (i : Incident)
  | IRetain (id : string) (c : Collection)
  | IVerify (id : string) (e : EvidenceItem)
  | IRankEvidence (id : string) (l : list EvidenceItem)
  | IReasoner (s : InvestigationState)
  | IRunReasoner (i : Incident) (l : list EvidenceItem)
  | ICharges (run : string)
  | IClock
  | IPerf
  | INewId
  | ILock (id : string)
  | ILoad (id : string)
  | ISave (id : string) (s : InvestigationState) (next : option node).

Definition inv_answer (c : inv_call) : Type :=
  match c with
  | ICountAttempts _ => Z
  | ICreateAttempt _ _ _ => unit
  | IResultExists _ => bool
  | IReadResult _ => Collection
  | IMarkDispatched _ => unit
  | ICollect _ => Collection
  | IRetain _ _ => unit
  | IVerify _ _ => unit
  | IRankEvidence _ _ => list RootCauseHypothesis
  | IReasoner _ => Reasoner
  | IRunReasoner _ _ => LoopResult
  | ICharges _ => list Charge
  | IClock => datetime
  | IPerf => spec_float
  | INewId => string
  | ILock _ => unit
  | ILoad _ => option (InvestigationState * option node)
  | ISave _ _ _ => unit
  end.

Abbreviation iprog := (prog inv_answer).
Abbreviation io := (call (R:=inv_answer)) (only parsing).

(** [type(error).__name__]: [exn] has a constructor per class the code catches by name, so
    the name of the exact subclass is an argument. *)
Class ExceptionNames : Type := type_name : exn -> string.

(** ** [nodes.py] *)

Definition the_id (s : InvestigationState) : string := incident_id (st_incident s).

(** [incident_directory] *)
Definition incident_directory (root id : string) : string := root +:+ "/" +:+ sha256_hex id.

(** [reserve_attempt] *)
Definition reserve_attempt (s : InvestigationState) (n : node) : iprog InvestigationState :=
  let* found := io (ICountAttempts (the_id s)) in
  let used := Z.max (steps_used s) found in
  let* late := (if max_steps (st_budget s) <=? used then Ret true
                else let* now := io IClock in
                     Ret (node_start_deadline (st_budget s) <=? now)) in
  if late : bool then lift (updated s [CStepsUsed used; CTerminal (Some BUDGET_EXHAUSTED)])
  else
    let* now := io IClock in
    let* record := lift (StepRecord_validate
      {| step_node := node_name n; step_observed_at := now; step_duration := float_zero |}) in
    do* io (ICreateAttempt (the_id s) (used + 1) record) in
    lift (updated s [CStepsUsed (used + 1)]).

(** [InvestigationNodes._step] *)
Definition in_step (s : InvestigationState) (n : node)
  (operation : InvestigationState -> iprog InvestigationState) : iprog InvestigationState :=
  let* s := lift (InvestigationState_validate s) in
  let* started := io IPerf in
  let* reserved := reserve_attempt s n in
  let* res := (match terminal reserved with Some _ => Ret reserved | None => operation reserved end) in
  let* now := io IClock in
  let* ended := io IPerf in
  let* record := lift (StepRecord_validate
    {| step_node := node_name n; step_observed_at := now; step_duration := float_sub ended started |}) in
  lift (updated res [CSteps (steps s ++ [record])]).

(** [InvestigationNodes.triage] *)
Definition triage_op (s : InvestigationState) : iprog InvestigationState :=
  let r := request (st_incident s) in
  let t := if eqb_of (req_namespace r) "payops-sandbox" && bool_decide (req_service r ∈ SANDBOX_SERVICES)
           then None else Some SECURITY_BLOCK in
  lift (updated s [CPhase TRIAGED; CTerminal t]).
Definition triage (s : InvestigationState) : iprog InvestigationState := in_step s Triage triage_op.

Definition required_reads (p : CollectionProfile) : Z :=
  match p with payment_windows_v1 => 34 | instant_v1 => 30 end.

(** [InvestigationNodes.reserve] *)
Definition reserve_op (s : InvestigationState) : iprog InvestigationState :=
  let reserved := tool_calls_reserved s + 20 in
  let backend := backend_reads_reserved s + required_reads (collection_profile s) in
  if max_tool_calls (st_budget s) <? reserved then lift (updated s [CTerminal (Some BUDGET_EXHAUSTED)])
  else if max_backend_reads (st_budget s) <? backend then
    lift (updated s [CTerminal (Some BUDGET_EXHAUSTED)])
  else lift (updated s [CPhase READS_RESERVED; CTools reserved; CReads backend]).
Definition reserve_reads (s : InvestigationState) : iprog InvestigationState :=
  in_step s Reserve reserve_op.

(** [verify_collected_item] *)
Definition verify_collected_item (id : string) (e : EvidenceItem) : iprog unit :=
  catch (io (IVerify id e)) is_ValueError
    (fun _ => Raise (EvidenceIntegrityError "collected evidence failed verification")).

Fixpoint verify_each (check : EvidenceItem -> iprog unit) (l : list EvidenceItem) : iprog unit :=
  match l with
  | [] => Ret tt
  | e :: l => do* check e in verify_each check l
  end.

(** [InvestigationNodes._collected] *)
Definition collected (s : InvestigationState) (c : Collection) : iprog InvestigationState :=
  if negb (eqb_of (col_incident_id c) (the_id s)) then
    Raise (EvidenceIntegrityError "collection belongs to another incident")
  else
    do* verify_each (fun e =>
          if negb (eqb_of (ev_incident_id e) (the_id s)) then
            Raise (EvidenceIntegrityError "evidence belongs to another incident")
          else verify_collected_item (the_id s) e) (col_evidence c) in
    lift (updated s [CPhase EVIDENCE_COLLECTED; CEvidence (col_evidence c); CFailures (col_failures c)]).

(** The body of the [try] of [InvestigationNodes._collect] *)
Definition collect_attempt (s : InvestigationState) : iprog InvestigationState :=
  let* retained := io (IResultExists (the_id s)) in
  if retained : bool then
    let* c := io (IReadResult (the_id s)) in collected s c
  else
    do* io (IMarkDispatched (the_id s)) in
    let* c := io (ICollect (st_incident s)) in
    do* io (IRetain (the_id s) c) in
    collected s c.

Section nodes.
Context `{ExceptionNames}.

(** [InvestigationNodes._collect] *)
Definition collect_op (s : InvestigationState) : iprog InvestigationState :=
  if (tool_calls_reserved s <? 20)
     || (backend_reads_reserved s <? required_reads (collection_profile s)) then
    lift (updated s [CTerminal (Some BUDGET_EXHAUSTED)])
  else
    catch (collect_attempt s) (fun e => is_ValueError e || is_OSError e)
      (fun e =>
         if is_EvidenceIntegrityError e then lift (updated s [CTerminal (Some SECURITY_BLOCK)])
         else
           let failure := {| cf_tool := "collection"; cf_resource := req_service (request (st_incident s));
                             error_type := type_name e |} in
           lift (updated s [CTerminal (Some DEPENDENCY_UNAVAILABLE);
                            CFailures (st_failures s ++ [failure])])).
Definition collect_evidence (s : InvestigationState) : iprog InvestigationState :=
  in_step s Collect collect_op.

Context (root : string) (reasoning : bool).

(** [reason] of [graph_reasoning.py] *)
Definition reason_model (s : InvestigationState) : iprog InvestigationState :=
  let* loop := io (IReasoner s) in
  if negb (eqb_of (rz_root loop) (incident_directory root (the_id s) +:+ "/artifacts"))
     || negb (eqb_of (method_of (rz_fixture loop)) (ranking_method s))
     || (max_tool_calls (st_budget s) - tool_calls_reserved s <? lim_tool_calls (rz_limits loop))
     || (max_backend_reads (st_budget s) - backend_reads_reserved s <? lim_backend_reads (rz_limits loop))
  then Raise (EvidenceIntegrityError "reasoner store or remaining read allowance differs")
  else
    let* r := io (IRunReasoner (st_incident s) (st_evidence s)) in
    if negb (eqb_of (lr_run_id r) (the_id s)) then
      Raise (EvidenceIntegrityError "reasoning result belongs to another incident")
    else
      let* charges := io (ICharges (lr_run_id r)) in
      let reads := read_charges charges in
      lift (updated s
        [CPhase RANKED; CEvidence (lr_evidence r); CHypotheses (lr_hypotheses r);
         CTerminal (Some (loop_terminal r)); CMethod (method_of (lr_fixture r));
         CStop (Some (stop_name (stop_reason r))); CReceipts (receipt_sha256s r);
         CTools (tool_calls_reserved s + sum_of (fun c => len (requests c)) reads);
         CReads (backend_reads_reserved s + sum_of backend_read_count reads)]).

(** [InvestigationNodes.rank]; the two exits of the [try] statement are told apart by
    [inl] (a return inside it) and [inr] (its normal end). *)
Definition rank_op (s : InvestigationState) : iprog InvestigationState :=
  let* out := catch
    (do* verify_each (verify_collected_item (the_id s)) (st_evidence s) in
     if reasoning then let* t := reason_model s in Ret (inl t)
     else let* h := io (IRankEvidence (the_id s) (st_evidence s)) in Ret (inr h))
    is_EvidenceIntegrityError
    (fun _ => let* t := lift (updated s [CTerminal (Some SECURITY_BLOCK);
                CStop (if reasoning then Some "SECURITY_BLOCK" else None)]) in Ret (inl t)) in
  match out with
  | inl t => Ret t
  | inr h =>
      let t := if is_nonempty h then ESCALATED else EVIDENCE_INSUFFICIENT in
      lift (updated s [CPhase RANKED; CHypotheses h; CTerminal (Some t)])
  end.
Definition rank (s : InvestigationState) : iprog InvestigationState := in_step s Rank rank_op.

(** The report [finish] builds. *)
Definition final_report (s : InvestigationState) (trace : string) : IncidentReport :=
  {| rep_incident_id := the_id s; rep_evidence := st_evidence s;
     ranked_root_causes := st_hypotheses s;
     terminal_state := default UNRECOVERABLE (terminal s); rep_mode := st_mode s;
     duration_seconds := float_sum (map step_duration (steps s));
     rep_ranking_method := ranking_method s; rep_stop_reason := reasoning_stop_reason s;
     rep_receipts := reasoning_receipts s; trace_id := trace |}.

(** [InvestigationNodes.finish] *)
Definition finish_node (s : InvestigationState) : iprog InvestigationState :=
  let* s := lift (InvestigationState_validate s) in
  let* trace := io INewId in
  let* r := lift (IncidentReport_validate (final_report s trace)) in
  lift (updated s [CPhase FINISHED; CReport (Some r)]).

(** [route] *)
Definition route (s : InvestigationState) : result node :=
  let! s := InvestigationState_validate s in
  match terminal s with
  | Some _ => Ok Finish
  | None =>
      match phase s with
      | TRIAGED => Ok Reserve
      | READS_RESERVED => Ok Collect
      | EVIDENCE_COLLECTED => Ok Rank
      | _ => Err (ValueError "illegal investigation transition")
      end
  end.

(** ** [graph.py] *)

Definition run_node (n : node) (s : InvestigationState) : iprog InvestigationState :=
  match n with
  | Triage => triage s
  | Reserve => reserve_reads s
  | Collect => collect_evidence s
  | Rank => rank s
  | Finish => finish_node s
  end.

(** The edges of [compile_graph]; [None] is [END]. *)
Definition successor (n : node) (s : InvestigationState) : result (option node) :=
  match n with
  | Triage | Reserve | Collect => let! m := route s in Ok (Some m)
  | Rank => Ok (Some Finish)
  | Finish => Ok None
  end.

(** [graph.invoke] from node [n], with at most [fuel] nodes ([recursion_limit]).  [first]
    holds for the node a run starts or resumes at, before which it does not stop. *)
Fixpoint graph_run (pause first : bool) (fuel : nat) (n : node) (s : InvestigationState)
  : iprog InvestigationState :=
  match fuel with
  | O => Raise (OtherError "GraphRecursionError")
  | S fuel =>
      if pause && negb first && eqb_of n Rank then Ret s
      else
        let* s' := run_node n s in
        let* next := lift (successor n s') in
        do* io (ISave (the_id s) s' next) in
        match next with
        | None => Ret s'
        | Some m => graph_run pause false fuel m s'
        end
  end.

Definition recursion_limit : nat := 16.

(** The worker's own configuration. *)
Record WorkerConfig : Type := {
  wk_mode : Mode;
  wk_profile : CollectionProfile;
  wk_ranking_profile : string;
  wk_method : RankingMethod;
  wk_pause : bool;
}.

(** [InvestigationWorker._invoke]; [initial] is the packed state of [start]. *)
Definition worker_invoke (w : WorkerConfig) (id : string) (initial : option InvestigationState)
  : iprog InvestigationState :=
  do* io (ILock id) in
  let* saved := io (ILoad id) in
  match saved with
  | Some (existing, next) =>
      let* existing := lift (InvestigationState_validate existing) in
      if negb (eqb_of (st_mode existing) (wk_mode w)) then
        Raise (ValueError "worker mode differs from saved investigation")
      else if negb (eqb_of (collection_profile existing) (wk_profile w)) then
        Raise (ValueError "collection profile differs from saved investigation")
      else if negb (eqb_of (ranking_profile existing) (wk_ranking_profile w)) then
        Raise (ValueError "ranking profile differs from saved investigation")
      else if negb (eqb_of (ranking_method existing) (wk_method w)) then
        Raise (ValueError "ranking method differs from saved investigation")
      else
        match initial with
        | Some i =>
            if negb (eqb_of (st_incident existing) (st_incident i)) then
              Raise (ValueError "thread already belongs to a different incident")
            else Ret existing
        | None =>
            if eqb_of (phase existing) FINISHED then Ret existing
            else match next with
                 | Some n => graph_run (wk_pause w) true recursion_limit n existing
                 | None => Ret existing
                 end
        end
  | None =>
      match initial with
      | None => Raise (KeyError id)
      | Some i =>
          do* io (ISave id i (Some Triage)) in
          graph_run (wk_pause w) true recursion_limit Triage i
      end
  end.

(** [InvestigationState(...)] of [InvestigationWorker.start] *)
Definition initial_state (w : WorkerConfig) (i : Incident) (b : InvestigationBudget)
  (now : datetime) : InvestigationState :=
  mk_state i b (wk_mode w) (wk_profile w) (wk_ranking_profile w) (wk_method w) None [] RECEIVED now
    0 0 0 [] [] [] None [] None.

(** [InvestigationWorker.start] *)
Definition worker_start (w : WorkerConfig) (i : Incident) (b : InvestigationBudget)
  : iprog InvestigationState :=
  let* now := io IClock in
  let* s := lift (InvestigationState_validate (initial_state w i b now)) in
  worker_invoke w (incident_id i) (Some s).

(** [InvestigationWorker.resume] *)
Definition worker_resume (w : WorkerConfig) (id : string) : iprog InvestigationState :=
  worker_invoke w id None.
End nodes.
