(* ===== verification/InvestigationSafety.v ===== *)
(** * Bounds of an investigation that may crash and be resumed at any moment *)

From S2P Require Import Prelude Json Digest Contracts Effects Permits Reasoning Budget.
From S2P Require Import Investigation.

Open Scope string_scope.
Open Scope list_scope.
Open Scope Z_scope.
Open Scope result_scope.
Open Scope prog_scope.

(** ** The world: attempt files, dispatch markers and checkpoints of every incident *)

Record inv_world : Type := {
  attempts : gmap string (gset Z);
  dispatched : gset string;
  checkpoints : gmap string (InvestigationState * option node);
}.

Definition empty_world : inv_world :=
  {| attempts := ∅; dispatched := ∅; checkpoints := ∅ |}.

Definition attempts_of (w : inv_world) (id : string) : gset Z := default ∅ (attempts w !! id).

(** Exclusive creation ([open("xb")]) and the checkpoint table; [None] for requests that
    are not about files. *)
Definition files_exec (w : inv_world) (c : inv_call) : option (result (inv_answer c) * inv_world) :=
  match c return option (result (inv_answer c) * inv_world) with
  | ICountAttempts id => Some (Ok (Z.of_nat (size (attempts_of w id))), w)
  | ICreateAttempt id n _ =>
      if decide (n ∈ attempts_of w id) then Some (Err (OSError "FileExistsError"), w)
      else Some (Ok tt, {| attempts := <[id := {[n]} ∪ attempts_of w id]> (attempts w);
                           dispatched := dispatched w; checkpoints := checkpoints w |})
  | IMarkDispatched id =>
      if decide (id ∈ dispatched w) then Some (Err (OSError "FileExistsError"), w)
      else Some (Ok tt, {| attempts := attempts w; dispatched := {[id]} ∪ dispatched w;
                           checkpoints := checkpoints w |})
  | ILoad id => Some (Ok (checkpoints w !! id), w)
  | ISave id s n => Some (Ok tt, {| attempts := attempts w; dispatched := dispatched w;
                                    checkpoints := <[id := (s, n)]> (checkpoints w) |})
  | _ => None
  end.

(** A file operation does its work, fails, or fails after its work; everything else,
    the lock included, answers anything at all. *)
Inductive inv_answers (w : inv_world) : forall c : inv_call, result (inv_answer c) -> inv_world -> Prop :=
  | files_done c r w' : files_exec w c = Some (r, w') -> inv_answers w c r w'
  | files_failed c x e : files_exec w c = Some x -> inv_answers w c (Err e) w
  | files_uncertain c r w' e : files_exec w c = Some (r, w') -> inv_answers w c (Err e) w'
  | elsewhere c r : files_exec w c = None -> inv_answers w c r w.

(** ** Collecting at most once *)

Definition inv_grant (c : inv_call) : result (inv_answer c) -> option string :=
  match c return result (inv_answer c) -> option string with
  | IMarkDispatched id => fun r => match r with inr _ => Some id | _ => None end
  | _ => fun _ => None
  end.
Definition inv_spend (c : inv_call) : option string :=
  match c with ICollect i => Some (incident_id i) | _ => None end.

Definition any_call (c : inv_call) : Prop := True.

#[export] Instance collect_laws :
  PermitLaws inv_answers any_call (fun _ => True) (fun w id => id ∈ dispatched w) inv_grant inv_spend.
Proof.
  assert (forall w c r w' k, files_exec w c = Some (r, w') -> k ∈ dispatched w -> k ∈ dispatched w')
    as Hmono.
  { intros w c r w' k. destruct c; cbn; try case_decide; intros [= <- <-]; cbn; set_solver. }
  split.
  - done.
  - intros w c r w' k Ha _ _ Hk. destruct Ha; eauto.
  - intros w c r w' k Ha _ _. destruct Ha as [c r w' He|c x e He|c r w' e He|c r He].
    + destruct c; try done. cbn in *. case_decide; injection He as <- <-; [done|].
      intros [= <-]. cbn. set_solver.
    + by destruct c.
    + by destruct c.
    + destruct c; try done. cbn in He. by case_decide.
  - by intros [].
Qed.

Abbreviation IGuarded := (guarded any_call inv_grant inv_spend).
Abbreviation iquiet := (quiet any_call inv_grant inv_spend).

(** Requests that are neither the marker nor the collector. *)
Definition calm_call (c : inv_call) : bool :=
  match c with IMarkDispatched _ | ICollect _ => false | _ => true end.

Lemma calm_quiet c : calm_call c = true -> iquiet c.
Proof. intros Hc. split_and!; [done|by destruct c|]. by destruct c. Qed.

(** Programs without the collector, piece by piece. *)
Ltac calm :=
  repeat first
    [ apply issues_lift | apply issues_call, calm_quiet; reflexivity
    | apply issues_bind; [|intros ?] | apply issues_catch; [|intros ?] | done | case_match ].

Lemma reserve_attempt_quiet s n : issues iquiet (reserve_attempt s n).
Proof. unfold reserve_attempt. calm. Qed.

Lemma verify_each_quiet check l :
  (forall e, issues iquiet (check e)) -> issues iquiet (verify_each check l).
Proof.
  intros Hc. induction l as [|e l IH]; [done|]. cbn. apply issues_bind; auto.
Qed.

Lemma verify_item_quiet id e : issues iquiet (verify_collected_item id e).
Proof. unfold verify_collected_item. calm. Qed.

Lemma collected_quiet s c : issues iquiet (collected s c).
Proof.
  unfold collected. case_match; [done|]. apply issues_bind; [|intros; apply issues_lift].
  apply verify_each_quiet. intros e. case_match; [done|]. apply verify_item_quiet.
Qed.

Lemma collect_attempt_guarded s : IGuarded None (collect_attempt s).
Proof.
  unfold collect_attempt. apply guarded_bind; [apply issues_call, calm_quiet; reflexivity|].
  intros [].
  - apply guarded_quiet, issues_bind; [apply issues_call, calm_quiet; reflexivity|].
    intros c. apply collected_quiet.
  - cbn. split_and!; [done|done|]. intros [e|[]]; [done|]. unfold next_permit. cbn.
    split_and!; [done|done|]. intros [e|c]; cbn; [done|].
    split_and!; [done|done|]. intros [e|[]]; cbn; [done|].
    apply guarded_quiet, collected_quiet.
Qed.

Lemma in_step_guarded s n op : (forall t, IGuarded None (op t)) -> IGuarded None (in_step s n op).
Proof.
  intros Hop. unfold in_step. apply guarded_bind; [apply issues_lift|]. intros t.
  apply guarded_bind; [apply issues_call, calm_quiet; reflexivity|]. intros p.
  apply guarded_bind; [apply reserve_attempt_quiet|]. intros r.
  apply guarded_bind_none; [by destruct (terminal r)|].
  intros res. apply guarded_quiet. calm.
Qed.

Section guarded.
Context `{ExceptionNames}.

Lemma run_node_guarded root reasoning n s : IGuarded None (run_node root reasoning n s).
Proof.
  destruct n; cbn [run_node].
  - apply (in_step_guarded s Triage triage_op). intros t. apply guarded_quiet. unfold triage_op. calm.
  - apply (in_step_guarded s Reserve reserve_op). intros t. apply guarded_quiet. unfold reserve_op. calm.
  - apply (in_step_guarded s Collect collect_op). intros t. unfold collect_op. case_match; [apply guarded_quiet; calm|].
    apply guarded_catch; [apply collect_attempt_guarded|]. intros e. apply guarded_quiet. calm.
  - apply (in_step_guarded s Rank (rank_op root reasoning)). intros t. apply guarded_quiet. unfold rank_op, reason_model.
    apply issues_bind; [|intros []; calm]. apply issues_catch; [|intros e; calm].
    apply issues_bind; [apply verify_each_quiet, verify_item_quiet|intros _]. calm.
  - apply guarded_quiet. unfold finish_node. calm.
Qed.

Lemma graph_run_guarded root reasoning pause first fuel n s :
  IGuarded None (graph_run root reasoning pause first fuel n s).
Proof.
  revert first n s. induction fuel as [|fuel IH]; intros first n s; cbn [graph_run]; [done|].
  case_match; [done|]. apply guarded_bind_none; [apply run_node_guarded|]. intros s'.
  apply guarded_bind; [apply issues_lift|]. intros next.
  apply guarded_bind; [apply issues_call, calm_quiet; reflexivity|]. intros _.
  destruct next; [apply IH|done].
Qed.

(** What the worker processes of one installation run: any incident, budget and worker
    configuration whose step allowance respects [bound], which may be the schema's own
    maximum. *)
Inductive inv_program (root : string) (bound : string -> Z) : prog inv_answer InvestigationState -> Prop :=
  | program_start reasoning w i b :
      max_steps b <= bound (incident_id i) ->
      inv_program root bound (worker_start root reasoning w i b)
  | program_resume reasoning w id : inv_program root bound (worker_resume root reasoning w id).

Definition inv_reachable root bound : system inv_answer inv_world InvestigationState -> Prop :=
  reachable inv_answers (inv_program root bound) empty_world.

Lemma worker_invoke_guarded root reasoning w id initial :
  IGuarded None (worker_invoke root reasoning w id initial).
Proof.
  unfold worker_invoke. do 2 (apply guarded_bind; [apply issues_call, calm_quiet; reflexivity|]; intros ?).
  case_match.
  - destruct p as [existing next]. apply guarded_bind; [apply issues_lift|]. intros s.
    repeat (case_match; try done). apply graph_run_guarded.
  - destruct initial; [|done]. apply guarded_bind; [apply issues_call, calm_quiet; reflexivity|].
    intros _. apply graph_run_guarded.
Qed.

Lemma inv_program_guarded root bound m : inv_program root bound m -> IGuarded None m.
Proof.
  destruct 1; [|apply worker_invoke_guarded]. unfold worker_start.
  apply guarded_bind; [apply issues_call, calm_quiet; reflexivity|]. intros now.
  apply guarded_bind; [apply issues_lift|]. intros s. apply worker_invoke_guarded.
Qed.

End guarded.

(** The incidents whose collector has run, in order. *)
Definition collections (h : list (obs inv_answer)) : list string := spent inv_spend h.

(** ** What one node does *)

Lemma updated_ok s l s' :
  updated s l = Ok s' -> s' = foldl apply_change s l /\ state_valid s' = true.
Proof. unfold updated, InvestigationState_validate. case_match; [|done]. by intros [= <-]. Qed.

(** The incident, its budget, its mode and its collection profile never change. *)
Definition keeps (s s' : InvestigationState) : Prop :=
  st_incident s' = st_incident s /\ st_budget s' = st_budget s /\ st_mode s' = st_mode s /\
  collection_profile s' = collection_profile s.
#[export] Instance keeps_preorder : PreOrder keeps.
Proof. split; [done|]. intros a b c (? & ? & ? & ?) (? & ? & ? & ?). split_and!; congruence. Qed.

Lemma keeps_changes s l : keeps s (foldl apply_change s l).
Proof.
  revert s. induction l as [|c l IH]; intros s; cbn; [done|].
  etrans; [|apply IH]. destruct s, c; done.
Qed.

Lemma keeps_updated s l s' : updated s l = Ok s' -> keeps s s'.
Proof. intros [-> _]%updated_ok. apply keeps_changes. Qed.

Definition settled (p : Phase) (s : InvestigationState) : Prop :=
  terminal s <> None \/ phase s = p.

(** The phase a node leads to. *)
Definition phase_of (n : node) : Phase :=
  match n with
  | Triage => TRIAGED | Reserve => READS_RESERVED | Collect => EVIDENCE_COLLECTED
  | Rank => RANKED | Finish => FINISHED
  end.

(** Conditions under which the first two nodes let an investigation go on. *)
Definition in_scope (i : Incident) : Prop :=
  req_namespace (request i) = "payops-sandbox" /\ req_service (request i) ∈ SANDBOX_SERVICES.

Definition allowance (s : InvestigationState) : Prop :=
  20 <= max_tool_calls (st_budget s) /\
  required_reads (collection_profile s) <= max_backend_reads (st_budget s).

Definition gate (n : node) (s : InvestigationState) : Prop :=
  match n with
  | Triage => in_scope (st_incident s)
  | Reserve => allowance s
  | _ => True
  end.

Record node_post (n : node) (s s' : InvestigationState) : Prop := {
  post_keeps : keeps s s';
  post_valid : state_valid s' = true;
  post_settled : settled (phase_of n) s';
  post_gate : terminal s' = None -> gate n s;
  post_ranked : n = Rank -> terminal s' <> None;
  post_report : n = Finish -> phase s' = FINISHED /\
    exists trace, st_report s' = Some (final_report s trace) /\ grounded (final_report s trace);
}.

(** The values a change may put into a valid state *)
Definition change_valid (c : change) : bool :=
  match c with
  | CStop (Some r) => identifier_ok r
  | CReceipts l => len l <=? 20
  | CStepsUsed n => between 0 16 n
  | CTools n => between 0 40 n
  | CReads n => between 0 64 n
  | CEvidence l => forallb EvidenceItem_valid l
  | CHypotheses l => forallb RootCauseHypothesis_valid l
  | CSteps l => forallb (fun x => nonneg_finite (step_duration x)) l
  | CReport (Some r) => is_ok (IncidentReport_validate r)
  | _ => true
  end.

Lemma valid_changes s l :
  state_valid s = true -> forallb change_valid l = true -> state_valid (foldl apply_change s l) = true.
Proof.
  revert s. induction l as [|c l IH]; intros s Hs; cbn [foldl forallb]; [done|].
  intros [Hc Hl]%andb_true_iff. apply IH; [|done]. unfold state_valid in *. rewrite !andb_true_iff in *.
  destruct s, c as [| [?|] | | | | | | | | | | |[?|]]; cbn in *; tauto.
Qed.

Lemma state_valid_steps s : state_valid s = true -> 0 <= steps_used s <= 16 /\
  forallb (fun x => nonneg_finite (step_duration x)) (steps s) = true.
Proof. unfold state_valid, between. rewrite !andb_true_iff. intros. destruct_and!. split; [lia|done]. Qed.

Lemma state_valid_budget s :
  state_valid s = true ->
  max_steps (st_budget s) <= 16 /\ max_tool_calls (st_budget s) <= 40 /\ max_backend_reads (st_budget s) <= 64.
Proof. unfold state_valid, InvestigationBudget_valid, between. rewrite !andb_true_iff. intros. destruct_and!. lia. Qed.

Lemma state_valid_reserved s :
  state_valid s = true -> 0 <= tool_calls_reserved s /\ 0 <= backend_reads_reserved s.
Proof. unfold state_valid, between. rewrite !andb_true_iff. intros. destruct_and!. lia. Qed.

(** An answer a valid state can hold: a number of attempts, a ranking, the result of a loop *)
Definition fit (c : inv_call) : inv_answer c -> bool :=
  match c return inv_answer c -> bool with
  | ICountAttempts _ => fun n => n <=? 16
  | IRankEvidence _ _ => fun l => forallb RootCauseHypothesis_valid l
  | IRunReasoner _ _ => fun r => forallb EvidenceItem_valid (lr_evidence r) &&
      forallb RootCauseHypothesis_valid (lr_hypotheses r) && (len (receipt_sha256s r) <=? 20)
  | _ => fun _ => true
  end.

(** The charges of a loop are within its limits. *)
Definition charged_within (loop : Reasoner) (l : list Charge) : bool :=
  let reads := read_charges l in
  between 0 (lim_tool_calls (rz_limits loop)) (sum_of (fun c => len (requests c)) reads) &&
  between 0 (lim_backend_reads (rz_limits loop)) (sum_of backend_read_count reads).

(** What the report of a state is accepted for: no evidence item twice or of another incident, no
    cause twice, citations of this evidence only and none on both sides, digests for receipts, and
    durations with a sum *)
Record reportable (s : InvestigationState) : Prop := {
  rp_ids : NoDup (map evidence_id (st_evidence s));
  rp_scope : forall e, e ∈ st_evidence s -> ev_incident_id e = the_id s;
  rp_causes : NoDup (map cause_code (st_hypotheses s));
  rp_cited : forall h i, h ∈ st_hypotheses s -> i ∈ supporting_evidence_ids h ++ refuting_evidence_ids h ->
    exists e, e ∈ st_evidence s /\ evidence_id e = i;
  rp_disjoint : forall h i, h ∈ st_hypotheses s -> i ∈ supporting_evidence_ids h -> i ∉ refuting_evidence_ids h;
  rp_receipts : forallb digest_ok (reasoning_receipts s) = true;
  rp_duration : nonneg_finite (float_sum (map step_duration (steps s))) = true;
}.

Lemma reportable_accepted s trace :
  state_valid s = true -> reportable s -> is_ok (IncidentReport_validate (final_report s trace)) = true.
Proof.
  intros Hv [Hids Hscope Hcauses Hcited Hdis Hrec Hdur].
  assert (IncidentReport_validate (final_report s trace) = Ok (final_report s trace)) as ->; [|done].
  apply IncidentReport_validate_ok. split_and!; [done| |by split].
  unfold state_valid in Hv. rewrite !andb_true_iff in Hv. destruct_and!.
  unfold report_fields_ok. cbn. rewrite Hrec, Hdur. rewrite !andb_true_iff. split_and!; try done.
  unfold Incident_validate in *. unfold the_id.
  by destruct (identifier_ok (incident_id (st_incident s))).
Qed.

(** Where an exception comes from.  [answers] says what the world answered and [origin] which
    states a report may be made of; the exceptions of [error] include those of the world, and those of
    the validations, where they are owed to what the world answered. *)
Record explained (answers : forall c, result (inv_answer c) -> Prop) (origin : InvestigationState -> Prop)
  (error : exn -> Prop) : Prop := {
  acc_world : forall c e, answers c (Err e) -> error e;
  acc_step : forall a b, answers IPerf (Ok a) -> answers IPerf (Ok b) ->
    nonneg_finite (float_sub b a) = false -> error (ValueError "StepRecord");
  acc_unfit : forall c a, answers c (Ok a) -> fit c a = false -> error (ValueError "InvestigationState");
  acc_charges : forall s loop id l, answers (IReasoner s) (Ok loop) -> answers (ICharges id) (Ok l) ->
    charged_within loop l = false -> error (ValueError "InvestigationState");
  acc_report : forall s trace e, origin s -> ~ reportable s -> answers INewId (Ok trace) ->
    IncidentReport_validate (final_report s trace) = Err e -> error e;
  acc_origin : forall s, answers (ISave (the_id s) s (Some Finish)) (Ok tt) -> origin s;
}.

(** Every exception is accounted for when any will do. *)
Lemma explained_any answers : explained answers (fun _ => True) (fun _ => True).
Proof. by split. Qed.

Section node_wp.
Context `{ExceptionNames}.
(** [bound]: attempts allowed per incident.  [may_collect], [may_load]: whether the collector
    may be asked, whether a checkpoint may be read. *)
Context (bound : string -> Z) (may_collect may_load : Prop) (root : string) (reasoning : bool).
Context (answers : forall c, result (inv_answer c) -> Prop) (origin : InvestigationState -> Prop) (error : exn -> Prop).
Context (acc : explained answers origin error).

Definition saved_ok (id : string) (s : InvestigationState) : Prop :=
  the_id s = id /\ max_steps (st_budget s) <= bound id.

Definition inv_ok (c : inv_call) : Prop :=
  match c with
  | ICreateAttempt id n _ => 1 <= n <= bound id
  | ISave id s _ => saved_ok id s
  | ICollect _ => may_collect
  | ILoad _ => may_load
  | _ => True
  end.

Definition inv_plausible (c : inv_call) (r : result (inv_answer c)) : Prop :=
  answers c r /\
  match c return result (inv_answer c) -> Prop with
  | ILoad id => fun r => forall s n, r = Ok (Some (s, n)) -> saved_ok id s
  | _ => fun _ => True
  end r.

Abbreviation Wp := (wp inv_ok inv_plausible).

(** [m] ends in [Q], or raises an exception of [E]. *)
Definition ends {A} (E : exn -> Prop) (Q : A -> Prop) (out : result A) : Prop :=
  match out with inl e => E e | inr a => Q a end.

Lemma wp_ends_bind {A B} (m : prog inv_answer A) (f : A -> prog inv_answer B) E P Q :
  Wp m (ends E P) -> (forall a, P a -> Wp (f a) (ends E Q)) -> Wp (bind m f) (ends E Q).
Proof.
  intros Hm Hf. apply wp_bind. eapply wp_mono; [exact Hm|]. intros [e|a]; cbn; auto.
Qed.

Lemma wp_io_bind {B} c (f : inv_answer c -> prog inv_answer B) (E : exn -> Prop) Q :
  (forall e, error e -> E e) -> inv_ok c -> (forall a, inv_plausible c (Ok a) -> Wp (f a) (ends E Q)) ->
  Wp (bind (call (R:=inv_answer) c) f) (ends E Q).
Proof.
  intros HE Hc Hf. apply wp_bind_call; [done| |done]. intros e [He _]. by eapply HE, acc_world.
Qed.

Lemma wp_lift_bind {A B} (m : result A) (f : A -> prog inv_answer B) (E : exn -> Prop) Q :
  (forall e, m = Err e -> E e) -> (forall a, m = Ok a -> Wp (f a) (ends E Q)) ->
  Wp (bind (lift m) f) (ends E Q).
Proof. intros He Ha. by apply wp_bind_lift. Qed.

(** A change is refused for the values it puts into a valid state. *)
Lemma wp_updated s l (E : exn -> Prop) Q :
  state_valid s = true -> (forallb change_valid l = false -> E (ValueError "InvestigationState")) ->
  (state_valid (foldl apply_change s l) = true -> Q (foldl apply_change s l)) ->
  Wp (lift (updated s l)) (ends E Q).
Proof.
  intros Hv He HQ. apply wp_lift. unfold updated, InvestigationState_validate.
  destruct (state_valid (foldl _ _ _)) eqn:Hs; cbn; [by apply HQ|]. apply He.
  destruct (forallb change_valid l) eqn:Hl; [|done]. rewrite valid_changes in Hs; done.
Qed.

Lemma state_validate_ok s s' :
  InvestigationState_validate s = Ok s' -> s' = s /\ state_valid s = true.
Proof. unfold InvestigationState_validate. case_match; [|done]. by intros [= <-]. Qed.

Lemma state_validate_raises s e :
  InvestigationState_validate s = Err e -> e = ValueError "InvestigationState" /\ state_valid s = false.
Proof. unfold InvestigationState_validate. case_match; [done|]. by intros [= <-]. Qed.

Lemma StepRecord_ok r r' : StepRecord_validate r = Ok r' -> r' = r /\ nonneg_finite (step_duration r) = true.
Proof. unfold StepRecord_validate. case_match; [|done]. by intros [= <-]. Qed.

Lemma StepRecord_raises r e :
  StepRecord_validate r = Err e -> e = ValueError "StepRecord" /\ nonneg_finite (step_duration r) = false.
Proof. unfold StepRecord_validate. case_match; [done|]. by intros [= <-]. Qed.

Lemma reserve_attempt_wp s n :
  state_valid s = true -> max_steps (st_budget s) <= bound (the_id s) ->
  Wp (reserve_attempt s n) (ends error (fun s' => keeps s s' /\ state_valid s' = true)).
Proof.
  intros Hv Hb. pose proof (state_valid_steps s Hv) as [Hs _]. pose proof (state_valid_budget s Hv) as [Hm _].
  unfold reserve_attempt. apply wp_io_bind; [done|done|]. intros found [Hfound _]. cbv zeta.
  eapply (wp_ends_bind _ _ _ (fun late => late = false ->
    Z.max (steps_used s) found < max_steps (st_budget s))).
  - destruct (max_steps _ <=? _) eqn:Hmax; [done|]. apply Z.leb_gt in Hmax.
    apply wp_io_bind; [done|done|]. intros now _ _. exact Hmax.
  - intros [] Hlate.
    + apply wp_updated; [done| |intros ?; split; [apply (keeps_changes s [_; _])|done]].
      intros Hbad. apply (acc_unfit _ _ _ acc (ICountAttempts (the_id s)) found Hfound).
      cbn in Hbad |- *. unfold between in Hbad. apply Z.leb_gt. rewrite !andb_true_r, andb_false_iff, !Z.leb_gt in Hbad. lia.
    + specialize (Hlate eq_refl). apply wp_io_bind; [done|done|]. intros now _.
      apply wp_lift_bind; [by intros e [_ ?]%StepRecord_raises|]. intros r _.
      apply wp_io_bind; [done|cbn; lia|]. intros _ _.
      apply wp_updated; [done| |intros ?; split; [apply (keeps_changes s [_])|done]].
      cbn. unfold between. rewrite andb_true_r, andb_false_iff, !Z.leb_gt. lia.
Qed.

(** A node is right when its operation is. *)
Lemma in_step_wp s n op :
  n <> Finish -> (state_valid s = false -> error (ValueError "InvestigationState")) ->
  max_steps (st_budget s) <= bound (the_id s) ->
  (forall t, keeps s t -> state_valid t = true -> terminal t = None ->
     Wp (op t) (ends error (fun t' => keeps t t' /\ state_valid t' = true /\ settled (phase_of n) t' /\
                                (terminal t' = None -> gate n s) /\
                                (n = Rank -> terminal t' <> None)))) ->
  Wp (in_step s n op) (ends error (node_post n s)).
Proof.
  intros Hn He Hb Hop. unfold in_step.
  apply wp_lift_bind; [by intros e [-> Hv]%state_validate_raises; apply He|].
  intros s0 [-> Hv]%state_validate_ok. apply wp_io_bind; [done|done|]. intros started [Hstarted _].
  eapply wp_ends_bind; [by apply reserve_attempt_wp|]. intros t [Hkt Hvt].
  eapply (wp_ends_bind _ _ _ (fun t' => keeps s t' /\ state_valid t' = true /\ settled (phase_of n) t' /\
                                      (terminal t' = None -> gate n s) /\
                                      (n = Rank -> terminal t' <> None))).
  - destruct (terminal t) as [x|] eqn:Ht.
    + split_and!; [done|done|left; congruence|congruence|congruence].
    + eapply wp_mono; [by apply Hop|]. intros [e|t']; cbn; [done|].
      intros (Hk & Hv' & Hs & Hg & Hr). split_and!; [by etrans|done|done|done|done].
  - intros t' (Hk & Hv' & Hs & Hg & Hr). apply wp_io_bind; [done|done|]. intros now _.
    apply wp_io_bind; [done|done|]. intros ended [Hended _].
    apply wp_lift_bind. { intros e [-> Hd]%StepRecord_raises. exact (acc_step _ _ _ acc started ended Hstarted Hended Hd). }
    intros r [-> Hd]%StepRecord_ok.
    apply wp_updated; [done| |].
    + cbn [forallb change_valid]. rewrite forallb_app. cbn [forallb]. cbn in Hd. cbn [step_duration]. rewrite Hd.
      by destruct (state_valid_steps s Hv) as [_ ->].
    + intros Hvalid. split; [|done|..].
      * etrans; [exact Hk|]. apply (keeps_changes t' [_]).
      * destruct t'. exact Hs.
      * destruct t'. exact Hg.
      * destruct t'. exact Hr.
      * done.
Qed.

Lemma triage_wp s :
  (state_valid s = false -> error (ValueError "InvestigationState")) ->
  max_steps (st_budget s) <= bound (the_id s) -> Wp (triage s) (ends error (node_post Triage s)).
Proof.
  intros He Hb. apply (in_step_wp s Triage triage_op); [done..|]. intros t Hk Hv Ht. unfold triage_op. cbv zeta.
  apply wp_updated; [done|done|]. intros Hv'. split_and!; [apply (keeps_changes t [_; _])|done| | |done].
  - right. by destruct t.
  - clear Hv Hv'. destruct Hk as [Hi _]. cbn [gate]. rewrite <-Hi. unfold in_scope. destruct t; cbn.
    destruct (eqb_of _ _) eqn:Hns; cbn; [|done]. case_bool_decide; [|done].
    intros _. split; [by apply eqb_of_true|done].
Qed.

Lemma reserve_wp s :
  (state_valid s = false -> error (ValueError "InvestigationState")) ->
  max_steps (st_budget s) <= bound (the_id s) -> Wp (reserve_reads s) (ends error (node_post Reserve s)).
Proof.
  intros He Hb. apply (in_step_wp s Reserve reserve_op); [done..|]. intros t Hk Hv Ht. unfold reserve_op. cbv zeta.
  pose proof (state_valid_reserved t Hv). pose proof (state_valid_budget t Hv) as (_ & ? & ?).
  destruct (_ <? tool_calls_reserved t + 20) eqn:Htools;
    [|destruct (_ <? backend_reads_reserved t + _) eqn:Hreads].
  - apply wp_updated; [done|done|]. intros Hv'.
    split_and!; [apply (keeps_changes t [_])|done|left; by destruct t|by destruct t|done].
  - apply wp_updated; [done|done|]. intros Hv'.
    split_and!; [apply (keeps_changes t [_])|done|left; by destruct t|by destruct t|done].
  - apply Z.ltb_ge in Htools, Hreads. apply wp_updated; [done| |].
    + cbn. unfold between. rewrite andb_true_r, !andb_false_iff, !Z.leb_gt. unfold required_reads in *.
      destruct (collection_profile t); lia.
    + intros Hv'. split_and!; [apply (keeps_changes t [_; _; _])|done|right; by destruct t| |done].
      intros _. destruct Hk as (_ & Hbud & _ & Hp). unfold gate, allowance. rewrite <-Hbud, <-Hp. lia.
Qed.

(** The exceptions of the world, and those the code itself makes of failed integrity *)
Definition integrity (e : exn) : Prop := error e \/ is_EvidenceIntegrityError e = true.

Lemma verify_item_wp id e : Wp (verify_collected_item id e) (ends integrity (fun _ => True)).
Proof.
  unfold verify_collected_item. apply wp_catch, wp_call; [done|]. intros [x|[]] [Hx _]; cbn; [|done].
  destruct (is_ValueError x) eqn:He; cbn; [by right|]. left. by eapply acc_world.
Qed.

Lemma verify_each_wp check l :
  (forall e, Wp (check e) (ends integrity (fun _ => True))) ->
  Wp (verify_each check l) (ends integrity (fun _ => True)).
Proof.
  intros Hc. induction l as [|e l IH]; cbn; [done|]. by eapply wp_ends_bind.
Qed.

(** What [_collect] catches *)
Definition caught (e : exn) : Prop := error e \/ is_ValueError e = true.

Lemma integrity_caught e : integrity e -> caught e.
Proof. intros [?|He]; [by left|right]. by destruct e. Qed.

Lemma collected_wp s c :
  state_valid s = true ->
  Wp (collected s c) (ends caught (fun t => keeps s t /\ state_valid t = true /\ settled EVIDENCE_COLLECTED t)).
Proof.
  intros Hv. unfold collected. case_match; [by right|]. eapply (wp_ends_bind _ _ _ (fun _ => True)).
  - eapply wp_mono; [apply verify_each_wp|].
    + intros e. case_match; [by right|]. apply verify_item_wp.
    + intros [e|[]]; [apply integrity_caught|done].
  - intros _ _. apply wp_updated; [done|by right|]. intros Hv'. split_and!; [apply (keeps_changes s [_; _; _])|done|].
    right. by destruct s.
Qed.

Lemma collect_attempt_wp s :
  may_collect -> state_valid s = true ->
  Wp (collect_attempt s) (ends caught (fun t => keeps s t /\ state_valid t = true /\ settled EVIDENCE_COLLECTED t)).
Proof.
  intros Hmay Hv. assert (forall e, error e -> caught e) as Hc by (by left).
  unfold collect_attempt. apply wp_io_bind; [done|done|]. intros [] _.
  - apply wp_io_bind; [done|done|]. intros c _. by apply collected_wp.
  - apply wp_io_bind; [done|done|]. intros _ _. apply wp_io_bind; [done|done|]. intros c _.
    apply wp_io_bind; [done|done|]. intros _ _. by apply collected_wp.
Qed.

Lemma collect_wp s :
  may_collect -> (state_valid s = false -> error (ValueError "InvestigationState")) ->
  max_steps (st_budget s) <= bound (the_id s) -> Wp (collect_evidence s) (ends error (node_post Collect s)).
Proof.
  intros Hmay He Hb. apply (in_step_wp s Collect collect_op); [done..|]. intros t Hk Hv Ht. unfold collect_op. case_match.
  - apply wp_updated; [done|done|]. intros Hv'. split_and!; [apply (keeps_changes t [_])|done|left; by destruct t|done|done].
  - apply wp_catch. eapply wp_mono; [by apply collect_attempt_wp|].
    intros [e|t'] Hout; [|by destruct Hout as (? & ? & ?)].
    destruct (is_ValueError e || is_OSError e) eqn:Hcaught.
    + case_match; (apply wp_updated; [done|done|]); intros Hv';
        (split_and!; [apply (keeps_changes t)|done|left; by destruct t|done|done]).
    + apply orb_false_iff in Hcaught as [Hc _]. destruct Hout as [?|Hout]; [done|]. congruence.
Qed.

Lemma reason_model_wp s :
  state_valid s = true ->
  Wp (reason_model root s) (ends integrity (fun t => keeps s t /\ state_valid t = true /\ terminal t <> None)).
Proof.
  intros Hv. assert (forall e, error e -> integrity e) as Hc by (by left).
  unfold reason_model. apply wp_io_bind; [done|done|]. intros loop [Hloop _].
  destruct (_ || _) eqn:Hlimits; [by right|]. rewrite !orb_false_iff, !Z.ltb_ge in Hlimits. destruct Hlimits as [[_ Ht] Hr].
  apply wp_io_bind; [done|done|]. intros r [Hres _]. case_match; [by right|].
  apply wp_io_bind; [done|done|]. intros cs [Hcs _]. cbv zeta. apply wp_updated; [done| |].
  - intros Hbad. left. destruct (fit (IRunReasoner _ _) r) eqn:Hfit; [|exact (acc_unfit _ _ _ acc (IRunReasoner _ _) r Hres Hfit)].
    destruct (charged_within loop cs) eqn:Hch; [|exact (acc_charges _ _ _ acc _ loop _ cs Hloop Hcs Hch)].
    exfalso. cbn [fit] in Hfit. unfold charged_within in Hch. cbv zeta in Hch. cbn [forallb change_valid] in Hbad.
    pose proof (state_valid_reserved s Hv). pose proof (state_valid_budget s Hv) as (_ & ? & ?).
    rewrite !andb_true_iff in Hfit. destruct Hfit as [[He Hh] Hl]. rewrite He, Hh, Hl in Hbad.
    unfold between in *. rewrite !andb_true_iff, !Z.leb_le in Hch. destruct Hch as [[? ?] [? ?]].
    assert (identifier_ok (stop_name (stop_reason r)) = true) as Hstop by (by destruct (stop_reason r)).
    rewrite Hstop, !(proj2 (Z.leb_le _ _)) in Hbad by lia. done.
  - intros Hv'. split_and!; [apply (keeps_changes s)|done|]. by destruct s.
Qed.

Lemma rank_wp s :
  (state_valid s = false -> error (ValueError "InvestigationState")) ->
  max_steps (st_budget s) <= bound (the_id s) -> Wp (rank root reasoning s) (ends error (node_post Rank s)).
Proof.
  intros He Hb. apply (in_step_wp s Rank (rank_op root reasoning)); [done..|]. intros t Hk Hv Ht. unfold rank_op.
  eapply (wp_ends_bind _ _ _ (fun out : InvestigationState + list RootCauseHypothesis =>
    match out with
    | inl t' => keeps t t' /\ state_valid t' = true /\ terminal t' <> None
    | inr h => answers (IRankEvidence (the_id t) (st_evidence t)) (Ok h)
    end)).
  - apply wp_catch. eapply (wp_mono _ _ _ (ends integrity (fun out : InvestigationState + list RootCauseHypothesis =>
      match out with
      | inl t' => keeps t t' /\ state_valid t' = true /\ terminal t' <> None
      | inr h => answers (IRankEvidence (the_id t) (st_evidence t)) (Ok h)
      end))).
    + eapply wp_ends_bind; [apply verify_each_wp, verify_item_wp|]. intros _ _.
      destruct reasoning; [eapply wp_ends_bind; [by apply reason_model_wp|done]|].
      apply wp_io_bind; [by left|done|]. by intros h [Hh _].
    + intros [e|out] Hout; [|done]. destruct (is_EvidenceIntegrityError e) eqn:Hi.
      * eapply (wp_ends_bind _ _ _ (fun t' => keeps t t' /\ state_valid t' = true /\ terminal t' <> None)); [|done].
        apply wp_updated; [done|by destruct reasoning|]. intros Hv'. split_and!; [apply (keeps_changes t)|done|]. by destruct t.
      * destruct Hout as [?|?]; [done|congruence].
  - intros [t'|h]; cbn -[updated].
    + intros (? & ? & ?). split_and!; [done|done|by left|done|done].
    + intros Hh. apply wp_updated; [done| |].
      * intros Hbad. apply (acc_unfit _ _ _ acc (IRankEvidence _ _) h Hh). cbn in Hbad |- *.
        by destruct (forallb RootCauseHypothesis_valid h).
      * intros Hv'. split_and!; [apply (keeps_changes t)|done|..];
          destruct t, (is_nonempty h); cbn; unfold settled; cbn; auto.
Qed.

Lemma finish_wp s :
  (state_valid s = false -> error (ValueError "InvestigationState")) -> origin s ->
  Wp (finish_node s) (ends error (node_post Finish s)).
Proof.
  intros He Ho. unfold finish_node. apply wp_lift_bind; [by intros e [-> Hv]%state_validate_raises; apply He|].
  intros s0 [-> Hv]%state_validate_ok. apply wp_io_bind; [done|done|]. intros trace [Htrace _].
  apply wp_lift_bind.
  { intros e Hr. apply (acc_report _ _ _ acc s trace e Ho); [|done|done].
    intros Hok%(reportable_accepted s trace Hv). by rewrite Hr in Hok. }
  intros r Hr. pose proof Hr as (-> & _ & Hg)%IncidentReport_validate_ok. apply wp_updated; [done| |].
  - cbn. by rewrite Hr.
  - intros Hvalid. split.
    + apply (keeps_changes s [_; _]).
    + done.
    + right. by destruct s.
    + done.
    + done.
    + intros _. split; [by destruct s|]. exists trace. split; [by destruct s|done].
Qed.

Lemma run_node_wp n s :
  (state_valid s = false -> error (ValueError "InvestigationState")) -> (n = Finish -> origin s) ->
  max_steps (st_budget s) <= bound (the_id s) -> (n = Collect -> may_collect) ->
  Wp (run_node root reasoning n s) (ends error (node_post n s)).
Proof.
  intros He Ho Hb Hmay. destruct n; cbn [run_node]; auto using triage_wp, reserve_wp, collect_wp, rank_wp, finish_wp.
Qed.
(** ** The whole graph *)

(** Nodes left to run, the given one included. *)
Definition remaining (n : node) : nat :=
  match n with Triage => 5 | Reserve => 4 | Collect => 3 | Rank => 2 | Finish => 1 end.

Lemma state_valid_validate s : state_valid s = true -> InvestigationState_validate s = Ok s.
Proof. unfold InvestigationState_validate. by intros ->. Qed.

(** After a node, the graph goes on to a node with fewer nodes left. *)
Lemma successor_ok n s s' :
  node_post n s s' ->
  match successor n s' with
  | inl _ => False
  | inr None => n = Finish
  | inr (Some m) => (remaining m < remaining n)%nat /\
      (m = Rank -> terminal s' = None /\ phase s' = EVIDENCE_COLLECTED) /\
      (m = Reserve \/ m = Collect -> terminal s' = None) /\
      (m = Reserve -> n = Triage) /\ (m = Collect -> n = Reserve)
  end.
Proof.
  intros [_ Hv Hs _ _ _]. unfold successor, route. rewrite (state_valid_validate _ Hv).
  destruct n; cbn [rbind phase_of] in *.
  4: { cbn. split; [lia|naive_solver]. }
  4: { done. }
  all: destruct (terminal s') as [x|] eqn:Ht; [cbn; split; [lia|naive_solver]|].
  all: destruct Hs as [Hs|Hs]; [by rewrite Ht in Hs|]; rewrite Hs; cbn.
  all: split; [lia|naive_solver].
Qed.

(** A finished investigation has a grounded report of its own incident, whose terminal
    state is the one reached, or [UNRECOVERABLE] when none was. *)
Definition finished (s s' : InvestigationState) : Prop :=
  phase s' = FINISHED /\ exists rep, st_report s' = Some rep /\ grounded rep /\
    rep_incident_id rep = the_id s /\ rep_mode rep = st_mode s'.

Definition paused (s s' : InvestigationState) : Prop :=
  terminal s' = None /\ phase s' = EVIDENCE_COLLECTED.

Definition graph_post (pause : bool) (s s' : InvestigationState) : Prop :=
  keeps s s' /\ (finished s s' \/ (pause = true /\ paused s s')).

(** What is known of the state when a run is about to enter a node. *)
Definition entered (first : bool) (n : node) (s : InvestigationState) : Prop :=
  (first = false -> n = Rank -> terminal s = None /\ phase s = EVIDENCE_COLLECTED) /\
  (n = Reserve -> in_scope (st_incident s) \/ may_collect) /\ (n = Collect -> may_collect).

Lemma graph_run_wp pause first fuel n s :
  (state_valid s = false -> error (ValueError "InvestigationState")) -> (n = Finish -> origin s) ->
  (in_scope (st_incident s) -> allowance s -> may_collect) ->
  (remaining n <= fuel)%nat -> max_steps (st_budget s) <= bound (the_id s) ->
  entered first n s ->
  Wp (graph_run root reasoning pause first fuel n s) (ends error (graph_post pause s)).
Proof.
  revert first n s. induction fuel as [|fuel IH]; intros first n s He Ho Hmay Hfuel Hb (Hready & Hres & Hcol).
  { destruct n; cbn in Hfuel; lia. }
  cbn [graph_run]. destruct (pause && negb first && eqb_of n Rank) eqn:Hp.
  { rewrite !andb_true_iff, negb_true_iff, eqb_of_true in Hp. destruct Hp as [[-> ->] ->].
    split; [done|]. right. split; [done|]. by apply Hready. }
  eapply wp_ends_bind; [by apply run_node_wp|]. intros s' Hpost.
  pose proof (successor_ok n s s' Hpost) as Hsucc.
  destruct Hpost as [(Hi & Hbud & Hm & Hprof) Hv _ Hgate _ Hrep].
  assert (the_id s' = the_id s) as Hid by (unfold the_id; congruence).
  apply wp_lift_bind; [by intros e Hx; rewrite Hx in Hsucc|]. intros next Hnext.
  rewrite Hnext in Hsucc. apply wp_io_bind; [done|split; [done|by rewrite Hbud]|]. intros [] [Hsaved _].
  destruct next as [m|].
  - destruct Hsucc as (Hlt & Hrank & Hopen & HR & HC). eapply wp_mono.
    { apply (IH false m s').
      - by rewrite Hv.
      - intros ->. rewrite <-Hid in Hsaved. exact (acc_origin _ _ _ acc s' Hsaved).
      - unfold allowance. by rewrite Hi, Hbud, Hprof.
      - lia.
      - by rewrite Hbud, Hid.
      - split_and!; [auto| |].
        + intros ->. left. rewrite Hi. specialize (HR eq_refl) as ->. apply Hgate. auto.
        + intros ->. specialize (HC eq_refl) as ->. destruct (Hres eq_refl) as [Hscope|]; [|done].
          apply Hmay; [done|]. apply Hgate. auto. }
    intros [e|t]; cbn; [done|]. intros [Hk Hpost]. split; [by etrans; [split_and!|]|].
    unfold finished, paused in *. by rewrite Hid in Hpost.
  - destruct (Hrep Hsucc) as [Hph (trace & Hr & Hg)]. split; [done|]. left. split; [done|].
    eexists. split_and!; [exact Hr|exact Hg|done|]. by cbn.
Qed.

Lemma remaining_limit n : (remaining n <= recursion_limit)%nat.
Proof. unfold recursion_limit. destruct n; cbn; lia. Qed.
End node_wp.

(** *** The worker *)
Section worker_wp.
Context `{ExceptionNames}.
Context (bound : string -> Z) (may_collect may_load : Prop) (root : string) (reasoning : bool).
Context (Hmay : may_collect) (Hload : may_load).

Abbreviation careful m :=
  (wp (inv_ok bound may_collect may_load) (inv_plausible bound (fun _ _ => True)) m (fun _ => True)).

Lemma graph_run_careful pause fuel n s :
  (remaining n <= fuel)%nat -> max_steps (st_budget s) <= bound (the_id s) ->
  careful (graph_run root reasoning pause true fuel n s).
Proof.
  intros Hn Hb. eapply wp_mono; [|done].
  apply (graph_run_wp bound may_collect may_load root reasoning _ _ _ (explained_any (fun _ _ => True))); try done.
  by split_and!; auto.
Qed.

Lemma careful_call {B} c (f : inv_answer c -> prog inv_answer B) :
  inv_ok bound may_collect may_load c -> (forall a, inv_plausible bound (fun _ _ => True) c (Ok a) -> careful (f a)) ->
  careful (bind (call (R:=inv_answer) c) f).
Proof. intros Hc Hf. by apply wp_bind_call. Qed.

Lemma worker_invoke_wp w id initial :
  (forall i, initial = Some i -> saved_ok bound id i) -> careful (worker_invoke root reasoning w id initial).
Proof.
  intros Hinit. unfold worker_invoke. apply careful_call; [done|]. intros _ _.
  apply careful_call; [done|]. intros saved [_ Hsaved]. destruct saved as [[s next]|].
  - destruct (Hsaved s next eq_refl) as [Hid Hb].
    apply wp_bind_lift; [done|]. intros s0 [-> _]%state_validate_ok.
    do 4 (case_match; [done|]). destruct initial as [i|]; [by case_match|].
    case_match; [done|]. destruct next as [n|]; [|done].
    apply graph_run_careful; [apply remaining_limit|by rewrite Hid].
  - destruct initial as [i|]; [|done].
    destruct (Hinit i eq_refl) as [Hid Hb]. apply careful_call; [done|]. intros _ _.
    apply graph_run_careful; [apply remaining_limit|by rewrite Hid].
Qed.

Lemma worker_start_wp w i b :
  max_steps b <= bound (incident_id i) -> careful (worker_start root reasoning w i b).
Proof.
  intros Hb. unfold worker_start. apply careful_call; [done|]. intros now _.
  apply wp_bind_lift; [done|]. intros s [-> _]%state_validate_ok.
  apply worker_invoke_wp. by intros ? [= <-].
Qed.
End worker_wp.

(** ** Attempts *)

Section bounded.
Context `{ExceptionNames}.
Context (root : string) (bound : string -> Z).

(** Attempt files are numbered within the allowance, and so are the saved budgets. *)
Record inv_bounded (w : inv_world) : Prop := {
  bounded_attempts : forall id n, n ∈ attempts_of w id -> 1 <= n <= bound id;
  bounded_checkpoints : forall id s n, checkpoints w !! id = Some (s, n) -> saved_ok bound id s;
}.

Lemma files_exec_bounded w c r w' :
  files_exec w c = Some (r, w') -> inv_bounded w -> inv_ok bound True True c -> inv_bounded w'.
Proof.
  intros He [Ha Hc] Hok.
  destruct c as [id|id n x|id|id|id|i|id col|id e|id l|s|i l|run| | | |id|id|id s next]; try done; cbn in *.
  - by injection He as _ <-.
  - case_decide; injection He as _ <-; [by split|]. split; cbn; [|exact Hc].
    intros id' m. unfold attempts_of. cbn. destruct (decide (id = id')) as [<-|Hne].
    + rewrite lookup_insert_eq. cbn. intros [->%elem_of_singleton|Hm]%elem_of_union; [done|].
      by apply Ha.
    + rewrite lookup_insert_ne by done. apply Ha.
  - case_decide; injection He as _ <-; by split.
  - by injection He as _ <-.
  - injection He as _ <-. split; cbn; [exact Ha|]. intros id' s' n'.
    destruct (decide (id = id')) as [<-|Hne].
    + rewrite lookup_insert_eq. by intros [= <- <-].
    + rewrite lookup_insert_ne by done. apply Hc.
Qed.

Lemma inv_answers_bounded w c r w' :
  inv_answers w c r w' -> inv_bounded w -> inv_ok bound True True c ->
  inv_bounded w' /\ inv_plausible bound (fun _ _ => True) c r.
Proof.
  intros Ha Hw Hok. split.
  - destruct Ha; eauto using files_exec_bounded.
  - split; [done|]. destruct Ha as [c r w' He|c x e He|c r w' e He|c r He]; destruct c; try done.
    cbn in He. injection He as <- _. intros s n [= Hs]. by eapply bounded_checkpoints.
Qed.

Lemma inv_program_careful m :
  inv_program root bound m -> wp (inv_ok bound True True) (inv_plausible bound (fun _ _ => True)) m (fun _ => True).
Proof.
  intros Hm. destruct Hm; [by apply worker_start_wp|by apply worker_invoke_wp].
Qed.

Lemma inv_bounded_reachable x : inv_reachable root bound x -> inv_bounded (shared x).
Proof.
  intros Hx. refine (proj1 (wp_reachable (inv_ok bound True True) (inv_plausible bound (fun _ _ => True))
    inv_answers (inv_program root bound) inv_bounded inv_answers_bounded inv_program_careful
    empty_world x _ Hx)).
  split; [intros id n|intros id s n]; cbn.
  - unfold attempts_of. cbn. rewrite (lookup_empty (M:=gmap string)). cbn. set_solver.
  - by rewrite (lookup_empty (M:=gmap string)).
Qed.
End bounded.
