(* ===== verification/InvestigationTheorems.v ===== *)
(** * What the investigation lifecycle guarantees *)

From S2P Require Import Prelude Json Digest Contracts Effects Permits Reasoning Budget.
From S2P Require Import Investigation InvestigationSafety Walkthrough.

Open Scope string_scope.
Open Scope list_scope.
Open Scope Z_scope.
Open Scope result_scope.

(** ** A concrete worker *)

Definition worker : WorkerConfig :=
  {| wk_mode := local_kind; wk_profile := instant_v1; wk_ranking_profile := "deterministic-v1";
     wk_method := deterministic; wk_pause := false |}.

Definition small_budget : InvestigationBudget :=
  {| max_steps := 4; max_tool_calls := 20; max_backend_reads := 30;
     node_start_deadline := noon + seconds 600 |}.

Definition new_incident : Incident :=
  {| incident_id := "inc-1"; request := request crash_incident; created_at := noon; report := None |}.

Definition crash_collection : Collection :=
  {| col_incident_id := "inc-1"; col_evidence := [pod_evidence]; col_failures := [] |}.

#[local] Instance plain_names : ExceptionNames := fun e => match e with
  | ValueError _ => "ValueError"
  | EvidenceIntegrityError _ => "EvidenceIntegrityError"
  | OSError _ => "OSError"
  | _ => "Exception"
  end.

(** Files work, every artifact verifies, the clock stands still and the ranker answers. *)
Definition calm_inv (c : inv_call) (w : inv_world) : result (inv_answer c) * inv_world :=
  match files_exec w c with
  | Some x => x
  | None =>
      (match c return result (inv_answer c) with
       | IResultExists _ => Ok false
       | IReadResult _ | ICollect _ => Ok crash_collection
       | IRetain _ _ | IVerify _ _ | ILock _ => Ok tt
       | IRankEvidence _ _ => Ok (ranked_root_causes crash_report)
       | IClock => Ok noon
       | IPerf => Ok float_zero
       | INewId => Ok "trace-1"
       | _ => Err (OtherError "unused")
       end, w)
  end.

Definition inv_story : list (prog inv_answer InvestigationState) :=
  [worker_start "/runtime" false worker new_incident small_budget;
   worker_resume "/runtime" false worker "inc-1"].

Definition inv_played (ms : list (prog inv_answer InvestigationState)) :
    list (result InvestigationState) * inv_world * list (obs inv_answer) :=
  play_all calm_inv ms empty_world [].
Definition after_investigation : system inv_answer inv_world InvestigationState :=
  {| threads := []; shared := (inv_played inv_story).1.2; history := (inv_played inv_story).2 |}.

Definition four_steps (id : string) : Z := 4.

Lemma calm_inv_answers c w : inv_answers w c (calm_inv c w).1 (calm_inv c w).2.
Proof.
  unfold calm_inv. destruct (files_exec w c) as [[r w']|] eqn:He; cbn; [by apply files_done|].
  by apply elsewhere.
Qed.

Lemma after_investigation_reachable : inv_reachable "/runtime" four_steps after_investigation.
Proof.
  apply (play_all_reachable inv_answers (inv_program "/runtime" four_steps) calm_inv calm_inv_answers).
  repeat constructor. done.
Qed.

(** C6: the collector runs at most once per incident, however often the investigation is
    delivered, crashed, abandoned and resumed, by whatever workers, and even if the lock
    files and disks fail: an ambiguous collection is never repeated. *)
Theorem collected_once `{ExceptionNames} root bound x :
  inv_reachable root bound x ->
  NoDup (collections (history x)) /\
  forall id, id ∈ collections (history x) -> id ∈ dispatched (shared x).
Proof.
  intros Hx. destruct (spent_once inv_answers (inv_program root bound) any_call (fun _ => True)
    (fun w id => id ∈ dispatched w) inv_grant inv_spend (inv_program_guarded root bound)
    empty_world x I Hx) as (_ & Hnd & Hcl). by split.
Qed.

Lemma collected_once_witness :
  collections (history after_investigation) = ["inc-1"] /\
  NoDup (collections (history after_investigation)) /\
  forall id, id ∈ collections (history after_investigation) ->
    id ∈ dispatched (shared after_investigation).
Proof.
  split; [vm_compute; reflexivity|].
  apply (collected_once "/runtime" four_steps), after_investigation_reachable.
Defined.

Lemma subseteq_seqZ_size (X : gset Z) b :
  (forall n, n ∈ X -> 1 <= n <= b) -> Z.of_nat (size X) <= Z.max 0 b.
Proof.
  intros HX. assert (X ⊆ list_to_set (seqZ 1 b)) as Hsub.
  { intros n Hn. apply elem_of_list_to_set, elem_of_seqZ. specialize (HX n Hn). lia. }
  apply subseteq_size in Hsub. rewrite size_list_to_set in Hsub by apply NoDup_seqZ.
  rewrite length_seqZ in Hsub. lia.
Qed.

(** node attempts are bounded.  If no delivery of an incident allows more than
    [bound] steps, then at no moment, over all crashes and resumptions, do more than
    [bound] attempt files exist, and they are numbered from 1 to [bound]. *)
Theorem attempts_bounded `{ExceptionNames} root bound x id :
  inv_reachable root bound x ->
  Z.of_nat (size (attempts_of (shared x) id)) <= Z.max 0 (bound id) /\
  forall n, n ∈ attempts_of (shared x) id -> 1 <= n <= bound id.
Proof.
  intros [Ha _]%inv_bounded_reachable. split; [|apply Ha].
  apply subseteq_seqZ_size, Ha.
Qed.

Lemma attempts_bounded_witness :
  attempts_of (shared after_investigation) "inc-1" = {[1; 2; 3; 4]} /\
  Z.of_nat (size (attempts_of (shared after_investigation) "inc-1")) <= Z.max 0 (four_steps "inc-1") /\
  forall n, n ∈ attempts_of (shared after_investigation) "inc-1" -> 1 <= n <= four_steps "inc-1".
Proof.
  split; [apply (bool_decide_unpack _); vm_compute; exact I|].
  apply (attempts_bounded "/runtime" four_steps), after_investigation_reachable.
Defined.

(** ** Termination *)

Abbreviation inv_seen c r := (existT c r : obs inv_answer) (only parsing).

(** Some answer does not fit into a state: more than sixteen attempts, an invalid ranking, an
    invalid result of a loop, or charges of a loop beyond its limits. *)
Definition misfit (tr : list (obs inv_answer)) : Prop :=
  (exists c a, inv_seen c (Ok a) ∈ tr /\ fit c a = false) \/
  (exists t loop id l, inv_seen (IReasoner t) (Ok loop) ∈ tr /\ inv_seen (ICharges id) (Ok l) ∈ tr /\
     charged_within loop l = false).

(** The time between two readings of the performance counter is negative or no number. *)
Definition backwards (tr : list (obs inv_answer)) : Prop :=
  exists a b, inv_seen IPerf (Ok a) ∈ tr /\ inv_seen IPerf (Ok b) ∈ tr /\ nonneg_finite (float_sub b a) = false.

(** What a run from [s] may raise, and why *)
Definition failure (s : InvestigationState) (tr : list (obs inv_answer)) (e : exn) : Prop :=
  (exists c, inv_seen c (Err e) ∈ tr) \/
  e = ValueError "StepRecord" /\ backwards tr \/
  e = ValueError "InvestigationState" /\ (state_valid s = false \/ misfit tr) \/
  exists t trace, inv_seen (ISave (the_id t) t (Some Finish)) (Ok tt) ∈ tr /\ ~ reportable t /\
    inv_seen INewId (Ok trace) ∈ tr /\ IncidentReport_validate (final_report t trace) = Err e.

Lemma failures_explained s tr :
  explained (fun c r => inv_seen c r ∈ tr) (fun t => inv_seen (ISave (the_id t) t (Some Finish)) (Ok tt) ∈ tr) (failure s tr).
Proof.
  split.
  - intros c e Hin. left. by exists c.
  - intros a b Ha Hb Hd. right. left. split; [done|]. by exists a, b.
  - intros c a Hin Hf. right. right. left. split; [done|]. right. left. by exists c, a.
  - intros t loop id l Hloop Hl Hc. right. right. left. split; [done|]. right. right. by exists t, loop, id, l.
  - intros t trace e Ht Hbad Hid Hr. do 3 right. by exists t, trace.
  - done.
Qed.

(** C9: an investigation ends.  From its first node, whatever files, collector, verifier,
    ranker, reasoner and clock answer, a run of the graph never reaches the recursion limit and is
    never refused a transition.  It stops before ranking when it was configured to, or finishes
    with a grounded report of its own incident, and its incident, budget, mode and profile are
    then those it started with; or it raises an exception, which the world raised in this
    very run, or which the code raised for a reason found in the run: a performance counter
    that went backwards; an invalid start, or an answer that no state can hold; or a state saved
    for the last node whose evidence, hypotheses, receipts or durations no report may have.  So a
    run from a valid state in which nothing failed and every answer fits ends with such a state. *)
Theorem investigation_ends `{ExceptionNames} root reasoning pause s tr out :
  runs (graph_run root reasoning pause true recursion_limit Triage s) tr out ->
  match out with
  | inl e => failure s tr e
  | inr s' => graph_post pause s s'
  end.
Proof.
  intros Hr.
  pose proof (graph_run_wp (fun _ => max_steps (st_budget s)) True False root reasoning _ _ _ (failures_explained s tr)
    pause true recursion_limit Triage s) as Hwp.
  refine (wp_runs _ _ _ (fun out => match out with inl e => failure s tr e | inr s' => graph_post pause s s' end)
    tr out _ Hr _).
  - eapply wp_mono; [apply Hwp|by intros [e|s']].
    + intros Hv. do 2 right. left. by split; [|left].
    + done.
    + done.
    + apply remaining_limit.
    + lia.
    + by split_and!.
  - intros c r Hin Hc. split; [done|]. by destruct c.
Qed.

Definition first_state : InvestigationState :=
  initial_state worker new_incident small_budget noon.
Definition first_run : result InvestigationState * inv_world * list (obs inv_answer) :=
  play calm_inv (graph_run "/runtime" false false true recursion_limit Triage first_state)
    empty_world [].

(** The same run, of a worker whose performance counter jumps back at its second reading *)
Definition jumping_inv (c : inv_call) (w : inv_world * bool) : result (inv_answer c) * (inv_world * bool) :=
  match c return result (inv_answer c) -> result (inv_answer c) * (inv_world * bool) with
  | IPerf => fun _ => (Ok (if w.2 then float_zero else float_of_Z 1), (w.1, true))
  | _ => fun r => (r, ((calm_inv c w.1).2, w.2))
  end (calm_inv c w.1).1.
Definition jumping_run : result InvestigationState * (inv_world * bool) * list (obs inv_answer) :=
  play jumping_inv (graph_run "/runtime" false false true recursion_limit Triage first_state) (empty_world, false) [].

Lemma investigation_ends_witness :
  (exists s', first_run.1.1 = Ok s' /\ phase s' = FINISHED) /\
  match first_run.1.1 with inl e => failure first_state first_run.2 e | inr s' => graph_post false first_state s' end /\
  jumping_run.1.1 = Err (ValueError "StepRecord") /\ failure first_state jumping_run.2 (ValueError "StepRecord").
Proof.
  split; [eexists; split; vm_compute; reflexivity|].
  split; [|assert (jumping_run.1.1 = Err (ValueError "StepRecord")) as Hj by (vm_compute; reflexivity); split; [exact Hj|]].
  - apply (investigation_ends "/runtime" false false first_state first_run.2 first_run.1.1).
    exact (play_runs_nil calm_inv
      (graph_run "/runtime" false false true recursion_limit Triage first_state) empty_world).
  - apply (investigation_ends "/runtime" false false first_state jumping_run.2 (Err (ValueError "StepRecord"))).
    rewrite <-Hj. exact (play_runs_nil jumping_inv
      (graph_run "/runtime" false false true recursion_limit Triage first_state) (empty_world, false)).
Defined.

(** the collector is asked only when the incident lies in the sandbox and the budget
    the investigation was opened with covers its twenty tool calls and every backend read
    of its collection profile; other incidents are reported without any operational read. *)
Theorem collection_gated `{ExceptionNames} root reasoning pause s tr out i c :
  runs (graph_run root reasoning pause true recursion_limit Triage s) tr out ->
  (existT (ICollect i) c : obs inv_answer) ∈ tr ->
  in_scope (st_incident s) /\ allowance s.
Proof.
  intros Hr Hin.
  pose proof (graph_run_wp (fun _ => max_steps (st_budget s))
    (in_scope (st_incident s) /\ allowance s) False
    root reasoning _ _ _ (explained_any (fun _ _ => True)) pause true recursion_limit Triage s) as Hwp.
  refine (wp_requests _ _ _ _ tr out (Hwp _ _ _ _ _ _) Hr _ _ c Hin).
  - done.
  - done.
  - done.
  - apply remaining_limit.
  - lia.
  - by split_and!.
  - intros q r _ Hq. split; [done|]. by destruct q.
Qed.

Lemma collection_gated_witness :
  (existT (ICollect new_incident) (Ok crash_collection) : obs inv_answer) ∈ first_run.2 /\
  in_scope (st_incident first_state) /\ allowance first_state.
Proof.
  assert ((existT (ICollect new_incident) (Ok crash_collection) : obs inv_answer) ∈ first_run.2) as Hin.
  { apply (list_elem_of_lookup_2 _ 23). vm_compute. reflexivity. }
  split; [exact Hin|].
  apply (collection_gated "/runtime" false false first_state first_run.2 first_run.1.1 new_incident
           (Ok crash_collection)); [|exact Hin].
  exact (play_runs_nil calm_inv
    (graph_run "/runtime" false false true recursion_limit Triage first_state) empty_world).
Defined.
