(* ===== verification/Incidents.v ===== *)
(** * The incident store: [payops/memory/store.py]

    [IncidentStore] as programs over one SQL table with two unique keys.  Acknowledgements
    to callers are requests without effect, so that the history of a system shows what its
    callers were told. *)

From S2P Require Import Prelude Json Contracts Effects.

Open Scope string_scope.
Open Scope list_scope.
Open Scope Z_scope.
Open Scope result_scope.
Open Scope prog_scope.

(** The text column: [model_dump_json] and [json.loads].  Texts of older versions may
    decode too. *)
Class IncidentCodec : Type := {
  incident_text : Type;
  incident_text_eq_dec :: EqDecision incident_text;
  dump_incident : Incident -> incident_text;
  load_incident : incident_text -> option Incident;
  load_dump_incident i : load_incident (dump_incident i) = Some i;
}.

(** [{**incident.model_dump(), "report": report}] *)
Definition with_report (i : Incident) (r : IncidentReport) : Incident :=
  {| incident_id := incident_id i; request := request i; created_at := created_at i;
     report := Some r |}.

(** [IncidentRow] *)
Record IncidentRow `{IncidentCodec} : Type := {
  idempotency_key : option string;
  row_payload : incident_text;
}.

(** [incidents], by primary key *)
Abbreviation incident_table := (gmap string IncidentRow).

Section incidents.
Context `{IncidentCodec}.

Inductive inc_call : Type :=
  | INewIncident
  | INowCreated
  | SInsert (id : string) (row : IncidentRow)
  | SByKey (key : option string)
  | SGet (id : string)
  | SSetPayload (id : string) (old new : incident_text)
  | AckCreated (r : IncidentCreate) (key : option string) (i : Incident)
  | AckReport (r : IncidentReport) (i : Incident).

Definition inc_answer (c : inc_call) : Type :=
  match c with
  | INewIncident => string
  | INowCreated => datetime
  | SInsert _ _ => unit
  | SByKey _ => option (string * incident_text)
  | SGet _ => option incident_text
  | SSetPayload _ _ _ => bool
  | AckCreated _ _ _ | AckReport _ _ => unit
  end.

Abbreviation incprog := (prog inc_answer).
Abbreviation sqli := (call (R:=inc_answer)) (only parsing).

(** [IncidentStore._decode] *)
Definition decode_incident (id : string) (p : incident_text) : result Incident :=
  match load_incident p with
  | None => Err (ValueError "Incident")
  | Some i =>
      let! i := Incident_validate i in
      if eqb_of (incident_id i) id then Ok i else Err (ValueError "incident row identity mismatch")
  end.

(** [IncidentStore.create] *)
Definition incident_create (r : IncidentCreate) (key : option string) : incprog Incident :=
  let* id := sqli INewIncident in
  let* now := sqli INowCreated in
  let* i := lift (Incident_validate
    {| incident_id := id; request := r; created_at := now; report := None |}) in
  let* e := catch
    (do* sqli (SInsert (incident_id i) {| idempotency_key := key; row_payload := dump_incident i |}) in
     Ret None)
    (fun e => eqb_of e IntegrityError) (fun e => Ret (Some e)) in
  match e with
  | None => Ret i
  | Some e =>
      let* row := sqli (SByKey key) in
      match row with
      | None => Raise e
      | Some (id, p) =>
          let* previous := lift (decode_incident id p) in
          if negb (eqb_of (request previous) r) then
            Raise (IdempotencyConflict "idempotency key has a different payload")
          else Ret previous
      end
  end.

(** [IncidentStore.get] *)
Definition incident_get (id : string) : incprog (option Incident) :=
  let* row := sqli (SGet id) in
  match row with
  | Some p => let* i := lift (decode_incident id p) in Ret (Some i)
  | None => Ret None
  end.

(** [IncidentStore.save_report] *)
Definition save_report (r : IncidentReport) : incprog Incident :=
  let* row := sqli (SGet (rep_incident_id r)) in
  match row with
  | None => Raise (KeyError (rep_incident_id r))
  | Some p =>
      let* i := lift (decode_incident (rep_incident_id r) p) in
      match report i with
      | Some _ => Ret i
      | None =>
          let* updated := lift (Incident_validate (with_report i r)) in
          let* winner := sqli (SSetPayload (rep_incident_id r) p (dump_incident updated)) in
          if winner : bool then Ret updated
          else
            let* saved := incident_get (rep_incident_id r) in
            match saved with
            | None => Raise (RuntimeError "committed incident report is unavailable")
            | Some saved =>
                if eqb_of (report saved) None then
                  Raise (RuntimeError "committed incident report is unavailable")
                else Ret saved
            end
      end
  end.

(** ** The table *)

Definition key_taken (t : incident_table) (key : option string) : Prop :=
  exists k id row, key = Some k /\ t !! id = Some row /\ idempotency_key row = Some k.

(** What each statement may answer.  A [UNIQUE] column holds any number of [NULL]s, and
    [col == None] selects one of them. *)
Inductive sql_done (t : incident_table)
  : forall c : inc_call, result (inc_answer c) -> incident_table -> Prop :=
  | done_id id : sql_done t INewIncident (Ok id) t
  | done_now now : sql_done t INowCreated (Ok now) t
  | done_insert id row :
      t !! id = None -> ~ key_taken t (idempotency_key row) ->
      sql_done t (SInsert id row) (Ok tt) (<[id := row]> t)
  | done_refused id row :
      is_Some (t !! id) \/ key_taken t (idempotency_key row) ->
      sql_done t (SInsert id row) (Err IntegrityError) t
  | done_found key id row :
      t !! id = Some row -> idempotency_key row = key ->
      sql_done t (SByKey key) (Ok (Some (id, row_payload row))) t
  | done_absent key :
      (forall id row, t !! id = Some row -> idempotency_key row <> key) ->
      sql_done t (SByKey key) (Ok None) t
  | done_get id : sql_done t (SGet id) (Ok (row_payload <$> t !! id)) t
  | done_set id old new row :
      t !! id = Some row -> row_payload row = old ->
      sql_done t (SSetPayload id old new) (Ok true)
        (<[id := {| idempotency_key := idempotency_key row; row_payload := new |}]> t)
  | done_stale id old new :
      row_payload <$> t !! id <> Some old -> sql_done t (SSetPayload id old new) (Ok false) t
  | done_created r key i : sql_done t (AckCreated r key i) (Ok tt) t
  | done_report r i : sql_done t (AckReport r i) (Ok tt) t.

(** The statement's own result, or an error of the driver that leaves unknown whether it
    was committed. *)
Inductive sql_answers (t : incident_table)
  : forall c : inc_call, result (inc_answer c) -> incident_table -> Prop :=
  | sql_ok c r t' : sql_done t c r t' -> sql_answers t c r t'
  | sql_aborted c msg : sql_answers t c (Err (OtherError msg)) t
  | sql_uncertain c r msg t' : sql_done t c r t' -> sql_answers t c (Err (OtherError msg)) t'.

(** What workers run: the store's methods, whose result their caller acknowledges. *)
Definition serve_create (r : IncidentCreate) (key : option string) : incprog unit :=
  let* i := incident_create r key in sqli (AckCreated r key i).
Definition serve_report (r : IncidentReport) : incprog unit :=
  let* i := save_report r in sqli (AckReport r i).

Inductive inc_program : incprog unit -> Prop :=
  | program_create r key : inc_program (serve_create r key)
  | program_report r : inc_program (serve_report r)
  | program_get id : inc_program (bind (incident_get id) (fun _ => Ret tt)).

Definition inc_reachable : system inc_answer incident_table unit -> Prop :=
  reachable sql_answers inc_program ∅.
End incidents.
