(* ===== verification/IncidentsTheorems.v ===== *)
(** * What callers of the incident store may believe

    Whatever workers race for a key or for an incident, everybody acknowledged for the same
    idempotency key was given the same incident, and everybody acknowledged for the same
    incident was given the same report. *)

From S2P Require Import Prelude Json Contracts Effects Permits Incidents Walkthrough.

Open Scope string_scope.
Open Scope list_scope.
Open Scope Z_scope.
Open Scope result_scope.

Lemma Incident_validate_ok i j : Incident_validate i = Ok j -> j = i /\ Incident_validate i = Ok i.
Proof.
  intros Hv. assert (j = i) as ->; [|done]. revert Hv. unfold Incident_validate.
  case_match; [done|]. intros (? & _ & (? & _ & [= ->])%rbind_inr)%rbind_inr. done.
Qed.

Lemma Incident_validate_report i r :
  Incident_validate i = Ok i -> report i = Some r -> grounded r /\ rep_incident_id r = incident_id i.
Proof.
  unfold Incident_validate. intros Hv Hr. rewrite Hr in Hv. revert Hv. case_match; [done|].
  intros (_ & (r' & (-> & _ & Hg)%IncidentReport_validate_ok & _)%rbind_inr & ([] & Hs & _)%rbind_inr)%rbind_inr.
  split; [done|]. revert Hs. unfold validate_report_scope. rewrite Hr.
  destruct_eqb (rep_incident_id r) (incident_id i); done.
Qed.

Section safety.
Context `{IncidentCodec}.

(** ** The invariant and the facts *)

Record well_kept (t : incident_table) : Prop := {
  kept_rows : forall id row, t !! id = Some row -> exists i,
    load_incident (row_payload row) = Some i /\ incident_id i = id /\ Incident_validate i = Ok i;
  kept_keys : forall id1 id2 row1 row2 k, t !! id1 = Some row1 -> t !! id2 = Some row2 ->
    idempotency_key row1 = Some k -> idempotency_key row2 = Some k -> id1 = id2;
}.

Inductive fact : Type :=
  | Ingested (key : option string) (i : Incident)
  | Published (id : string) (r : IncidentReport).

(** The row of [id] carries [key] and holds an incident with property [P]. *)
Definition row_has (t : incident_table) (id : string) (P : option string -> Incident -> Prop) : Prop :=
  exists row i, t !! id = Some row /\ load_incident (row_payload row) = Some i /\ P (idempotency_key row) i.

Definition fact_holds (t : incident_table) (f : fact) : Prop :=
  match f with
  | Ingested key i => row_has t (incident_id i) (fun k j =>
      k = key /\ request j = request i /\ created_at j = created_at i)
  | Published id r => row_has t id (fun _ j => report j = Some r)
  end.

Definition published_in (id : string) (p : incident_text) (f : fact) : Prop :=
  exists i r, load_incident p = Some i /\ report i = Some r /\ f = Published id r.

Definition ingested_in (id : string) (key : option string) (p : incident_text) (f : fact) : Prop :=
  exists i, load_incident p = Some i /\ incident_id i = id /\ f = Ingested key i.

Definition inc_learns (c : inc_call) : result (inc_answer c) -> fact -> Prop :=
  match c return result (inc_answer c) -> fact -> Prop with
  | SInsert id row => fun r f =>
      r = Ok tt /\ ingested_in id (idempotency_key row) (row_payload row) f
  | SByKey key => fun r f => exists id p, r = Ok (Some (id, p)) /\ ingested_in id key p f
  | SGet id => fun r f => exists p, r = Ok (Some p) /\ published_in id p f
  | SSetPayload id old new => fun r f => r = Ok true /\ published_in id new f
  | _ => fun _ _ => False
  end.

Definition inc_needs (c : inc_call) (f : fact) : Prop :=
  match c with
  | AckCreated _ key i => f = Ingested key i
  | AckReport _ i => exists r, report i = Some r /\ f = Published (incident_id i) r
  | _ => False
  end.

Definition inc_ok (c : inc_call) : Prop :=
  match c with
  | SInsert id row => exists i,
      row_payload row = dump_incident i /\ incident_id i = id /\ Incident_validate i = Ok i
  | SSetPayload id old new => exists i r,
      load_incident old = Some i /\ report i = None /\ incident_id i = id /\
      new = dump_incident (with_report i r) /\ Incident_validate (with_report i r) = Ok (with_report i r)
  | AckCreated r _ i => request i = r
  | AckReport r i => incident_id i = rep_incident_id r /\ is_Some (report i)
  | _ => True
  end.

(** ** Statements *)

Lemma row_has_fun t id P Q :
  row_has t id P -> row_has t id Q -> row_has t id (fun k i => P k i /\ Q k i).
Proof. intros (row & i & ? & ? & ?) (row' & i' & ? & ? & ?). simplify_eq. by exists row, i. Qed.

Lemma well_kept_insert t id row :
  well_kept t -> t !! id = None -> ~ key_taken t (idempotency_key row) -> inc_ok (SInsert id row) ->
  well_kept (<[id := row]> t).
Proof.
  intros [Hr Hk] Hnone Hfree (i & Hp & Hi & Hv). split.
  - intros id' row' [[<- <-]|[Hne Hl]]%lookup_insert_Some; [|eauto].
    exists i. rewrite Hp, load_dump_incident. done.
  - intros id1 id2 row1 row2 k H1 H2 Hk1 Hk2.
    apply lookup_insert_Some in H1 as [[<- <-]|[Hne1 H1]];
      apply lookup_insert_Some in H2 as [[<- <-]|[Hne2 H2]]; [done| | |eauto].
    + destruct Hfree. exists k, id2, row2. done.
    + destruct Hfree. exists k, id1, row1. done.
Qed.

Lemma well_kept_set t id old new row :
  well_kept t -> t !! id = Some row -> inc_ok (SSetPayload id old new) ->
  well_kept (<[id := {| idempotency_key := idempotency_key row; row_payload := new |}]> t).
Proof.
  intros [Hr Hk] Hl (i & r & _ & _ & Hi & -> & Hv). split.
  - intros id' row' [[<- <-]|[Hne Hl']]%lookup_insert_Some; [|eauto].
    exists (with_report i r). cbn. rewrite load_dump_incident. done.
  - intros id1 id2 row1 row2 k H1 H2 Hk1 Hk2.
    apply lookup_insert_Some in H1 as [[<- <-]|[Hne1 H1]];
      apply lookup_insert_Some in H2 as [[<- <-]|[Hne2 H2]]; [done|eauto..].
Qed.

Lemma sql_done_kept t c r t' : sql_done t c r t' -> well_kept t -> inc_ok c -> well_kept t'.
Proof. destruct 1; intros Ht Hok; try done; [by apply well_kept_insert|by eapply well_kept_set]. Qed.

(** What is known of a row survives its update, if the update may only publish a report. *)
Lemma row_has_set t id old new row id' P :
  t !! id = Some row -> row_payload row = old -> inc_ok (SSetPayload id old new) ->
  (forall k i r, report i = None -> P k i -> P k (with_report i r)) -> row_has t id' P ->
  row_has (<[id := {| idempotency_key := idempotency_key row; row_payload := new |}]> t) id' P.
Proof.
  intros Hl Hp (i & r & Hload & Hrep & Hi & -> & _) HP (row' & j & Hl' & Hj & HPj). subst old.
  destruct (decide (id = id')) as [<-|Hne].
  - simplify_eq. eexists _, _. rewrite lookup_insert_eq. split_and!; [done|cbn; apply load_dump_incident|].
    cbn. by apply HP.
  - exists row', j. by rewrite lookup_insert_ne.
Qed.

Lemma sql_done_stable t c r t' f :
  sql_done t c r t' -> inc_ok c -> fact_holds t f -> fact_holds t' f.
Proof.
  destruct 1 as [| |id row Hnone _| | | | |id old new row Hl Hp| | |]; intros Hok Hf; try done.
  - assert (forall id' P, row_has t id' P -> row_has (<[id := row]> t) id' P) as Hkeep.
    { intros id' P (row' & i & Hl & ?). exists row', i. rewrite lookup_insert_ne; [done|].
      intros <-. congruence. }
    destruct f; by apply Hkeep.
  - destruct f as [key i|id' rep]; eapply row_has_set; eauto.
    cbn. intros _ j r Hnone Hrep. congruence.
Qed.

Lemma sql_done_learned t c r t' f :
  sql_done t c r t' -> well_kept t -> inc_ok c -> inc_learns c r f -> fact_holds t' f.
Proof.
  destruct 1 as [| |id row Hnone _| |key id row Hl Hk| |id|id old new row Hl Hp| | |];
    cbn; intros Hkept Hok Hf; try done.
  - destruct Hf as (_ & i & Hload & <- & ->). exists row, i. by rewrite lookup_insert_eq.
  - by destruct Hf as [[=] _].
  - destruct Hf as (id' & p & [= <- <-] & i & Hload & <- & ->). by exists row, i.
  - by destruct Hf as (? & ? & [=] & _).
  - destruct Hf as (p & [= Hp] & i & rep & Hload & Hrep & ->).
    apply fmap_Some in Hp as (row & Hl & ->). by exists row, i.
  - destruct Hf as (_ & i & rep & Hload & Hrep & ->). eexists _, i. rewrite lookup_insert_eq. done.
  - by destruct Hf as [[=] _].
Qed.

Lemma inc_learns_error c e f : inc_learns c (Err e) f -> False.
Proof. destruct c; cbn; naive_solver. Qed.

#[export] Instance incident_laws : FactLaws sql_answers inc_ok well_kept fact_holds inc_learns.
Proof.
  split.
  - intros t c r t' [] ? ?; eauto using sql_done_kept.
  - intros t c r t' f [] ? ? ?; eauto using sql_done_stable.
  - intros t c r t' f [c' r' t'' Hd|c' msg|c' r' msg t'' Hd] Hkept Hok Hf;
      [by eapply sql_done_learned|by apply inc_learns_error in Hf..].
Qed.

(** ** Programs *)

Abbreviation Informed := (informed inc_ok inc_learns inc_needs).

Lemma decode_ok id p i :
  decode_incident id p = Ok i ->
  load_incident p = Some i /\ incident_id i = id /\ Incident_validate i = Ok i.
Proof.
  unfold decode_incident. destruct (load_incident p) as [j|]; [|done].
  intros (j' & [-> Hv]%Incident_validate_ok & He)%rbind_inr. destruct_eqb (incident_id j) id; [|done].
  injection He as <-. done.
Qed.

Lemma incident_create_informed K r key :
  Informed K (incident_create r key) (fun K' out =>
    match out with inr i => request i = r /\ K' (Ingested key i) | inl _ => True end).
Proof.
  unfold incident_create. apply informed_bind_call; [done..|]. intros id.
  apply informed_bind_call; [done..|]. intros now.
  apply informed_bind_lift; [done|]. intros i [-> Hv]%Incident_validate_ok.
  apply informed_bind, informed_catch, informed_bind_call; [|done| |].
  - eexists. split_and!; [done|done|exact Hv].
  - intros e. destruct (eqb_of e IntegrityError); [|done]. cbn.
    split_and!; [done|done|]. intros [x|[[id' p]|]]; [done| |done].
    cbn. apply informed_bind_lift; [done|]. intros prev (Hl & Hid & _)%decode_ok.
    destruct_eqb (request prev) r; cbn; [|done]. split; [done|]. right. exists id', p.
    split; [done|]. by exists prev.
  - intros []. cbn. split; [done|]. right. split; [done|]. eexists. cbn.
    split_and!; [apply load_dump_incident|done|done].
Qed.

Lemma save_report_informed K r :
  Informed K (save_report r) (fun K' out =>
    match out with
    | inr i => incident_id i = rep_incident_id r /\
               exists rep, report i = Some rep /\ K' (Published (incident_id i) rep)
    | inl _ => True
    end).
Proof.
  unfold save_report. apply informed_bind_call; [done..|]. intros [p|]; [|done].
  apply informed_bind_lift; [done|]. intros i (Hl & Hid & Hv)%decode_ok.
  destruct (report i) as [rep|] eqn:Hrep.
  - cbn. split; [done|]. exists rep. split; [done|]. right. exists p. split; [done|].
    exists i, rep. by rewrite Hid.
  - apply informed_bind_lift; [done|]. intros u [-> Hvu]%Incident_validate_ok.
    apply informed_bind_call; [|done..|].
    { exists i, r. done. }
    intros [|].
    + cbn. split; [done|]. exists r. split; [done|]. right. split; [done|].
      exists (with_report i r), r. rewrite load_dump_incident. by rewrite Hid.
    + apply informed_bind, informed_bind_call; [done..|]. intros [q|]; [|done].
      apply informed_bind_lift; [done|]. intros s (Hls & Hids & _)%decode_ok. cbn.
      destruct (report s) as [rep|] eqn:Hreps; cbn; [|done].
      split; [done|]. exists rep. split; [done|]. right. exists q. split; [done|].
      exists s, rep. by rewrite Hids.
Qed.

Lemma inc_program_informed m : inc_program m -> Informed (fun _ => False) m (fun _ _ => True).
Proof.
  destruct 1 as [r key|r|id].
  - apply informed_bind. eapply informed_mono; [apply incident_create_informed|].
    intros K [e|i]; [done|]. intros [Hr HK].
    apply (informed_call inc_ok inc_learns inc_needs K (AckCreated r key i)); [done| |done]. by intros f ->.
  - apply informed_bind. eapply informed_mono; [apply save_report_informed|].
    intros K [e|i]; [done|]. intros (Hid & rep & Hrep & HK).
    apply (informed_call inc_ok inc_learns inc_needs K (AckReport r i)); [| |done].
    + split; [done|by eexists].
    + intros f (rep' & Hrep' & ->). congruence.
  - apply informed_bind, informed_bind_call; [done..|]. intros [p|]; [|done].
    apply informed_bind_lift; done.
Qed.

Lemma acknowledged x c r :
  inc_reachable x -> (existT c r : obs inc_answer) ∈ history x ->
  well_kept (shared x) /\ inc_ok c /\ forall f, inc_needs c f -> fact_holds (shared x) f.
Proof.
  intros Hx Hin. destruct (facts_reachable sql_answers inc_program inc_ok well_kept fact_holds
    inc_learns inc_needs inc_program_informed ∅ x) as [Hk Hp _]; [|done|split; [done|by eapply Hp]].
  split; intros *; rewrite lookup_empty; done.
Qed.
End safety.

(** ** What is acknowledged *)

(** C10: ingestion is idempotent.  However the store's methods of any number of workers
    interleave, with whatever driver errors and abandoned workers, everybody to whom an
    incident was acknowledged for the same idempotency key made the same request and was
    given the same incident, which the table holds under that key. *)
Theorem acknowledged_once `{IncidentCodec} x k r1 i1 a1 r2 i2 a2 :
  inc_reachable x ->
  (existT (AckCreated r1 (Some k) i1) a1 : obs inc_answer) ∈ history x ->
  (existT (AckCreated r2 (Some k) i2) a2 : obs inc_answer) ∈ history x ->
  r1 = r2 /\ incident_id i1 = incident_id i2 /\ created_at i1 = created_at i2 /\
  exists row, shared x !! incident_id i1 = Some row /\ idempotency_key row = Some k.
Proof.
  intros Hx H1 H2. destruct (acknowledged x _ _ Hx H1) as (Hk & Hr1 & Hf1).
  destruct (acknowledged x _ _ Hx H2) as (_ & Hr2 & Hf2).
  destruct (Hf1 _ eq_refl) as (row1 & j1 & Hl1 & Hj1 & Hk1 & Hq1 & Hc1).
  destruct (Hf2 _ eq_refl) as (row2 & j2 & Hl2 & Hj2 & Hk2 & Hq2 & Hc2).
  pose proof (kept_keys _ Hk _ _ _ _ _ Hl1 Hl2 Hk1 Hk2) as Hid. cbn in Hr1, Hr2.
  rewrite <-Hid in Hl2. split_and!; [congruence|done|congruence|by exists row1].
Qed.

(** C11: the first report wins.  Under the same interleavings, everybody to whom a saved
    report of an incident was acknowledged was given the same report; the table still
    holds it, and it is a grounded report of that incident. *)
Theorem first_report_wins `{IncidentCodec} x r1 i1 a1 r2 i2 a2 :
  inc_reachable x ->
  (existT (AckReport r1 i1) a1 : obs inc_answer) ∈ history x ->
  (existT (AckReport r2 i2) a2 : obs inc_answer) ∈ history x ->
  rep_incident_id r1 = rep_incident_id r2 ->
  exists rep row i, report i1 = Some rep /\ report i2 = Some rep /\
    shared x !! rep_incident_id r1 = Some row /\ load_incident (row_payload row) = Some i /\
    report i = Some rep /\ rep_incident_id rep = rep_incident_id r1 /\ grounded rep.
Proof.
  intros Hx H1 H2 Hsame. destruct (acknowledged x _ _ Hx H1) as (Hk & [Hi1 [rep1 Hr1]] & Hf1).
  destruct (acknowledged x _ _ Hx H2) as (_ & [Hi2 [rep2 Hr2]] & Hf2).
  pose proof (Hf1 _ (ex_intro _ rep1 (conj Hr1 eq_refl))) as Hp1.
  pose proof (Hf2 _ (ex_intro _ rep2 (conj Hr2 eq_refl))) as Hp2.
  cbn in Hp1, Hp2. rewrite Hi1 in Hp1. rewrite Hi2, <-Hsame in Hp2.
  destruct (row_has_fun _ _ _ _ Hp1 Hp2) as (row & i & Hl & Hload & Hrep & Hrep').
  destruct (kept_rows _ Hk _ _ Hl) as (i' & Hload' & Hid & Hv). simplify_eq.
  destruct (Incident_validate_report i rep1) as [Hg Hs]; [congruence..|].
  exists rep1, row, i. split_and!; congruence || done.
Qed.

(** ** A concrete installation *)

Section calm.
Context `{IncidentCodec}.

(** The row that carries a key. *)
Definition key_owner (t : incident_table) (key : option string) : option (string * IncidentRow) :=
  List.find (fun kv => eqb_of (idempotency_key kv.2) key) (map_to_list t).

Lemma key_owner_some t key id row :
  key_owner t key = Some (id, row) -> t !! id = Some row /\ idempotency_key row = key.
Proof.
  intros [Hin%list_elem_of_In Hk]%find_some. cbn in Hk. rewrite eqb_of_true in Hk.
  by apply elem_of_map_to_list in Hin.
Qed.

Lemma key_owner_none t key :
  key_owner t key = None -> forall id row, t !! id = Some row -> idempotency_key row <> key.
Proof.
  intros Hn id row Hl%elem_of_map_to_list%list_elem_of_In Hk.
  pose proof (find_none _ _ Hn _ Hl) as Hf. cbn in Hf. by rewrite Hk, eqb_of_refl in Hf.
Qed.

(** Every statement is committed; ids follow the number of rows. *)
Definition calm_sql (c : inc_call) (t : incident_table) : result (inc_answer c) * incident_table :=
  match c return result (inc_answer c) * incident_table with
  | INewIncident => (Ok (if decide (size t = 0%nat) then "inc-1" else "inc-2"), t)
  | INowCreated => (Ok noon, t)
  | SInsert id row =>
      match t !! id, key_owner t (idempotency_key row), idempotency_key row with
      | None, None, _ | None, _, None => (Ok tt, <[id := row]> t)
      | _, _, _ => (Err IntegrityError, t)
      end
  | SByKey key => (Ok ((fun kv => (kv.1, row_payload kv.2)) <$> key_owner t key), t)
  | SGet id => (Ok (row_payload <$> t !! id), t)
  | SSetPayload id old new =>
      match t !! id with
      | Some row =>
          if decide (row_payload row = old)
          then (Ok true, <[id := {| idempotency_key := idempotency_key row; row_payload := new |}]> t)
          else (Ok false, t)
      | None => (Ok false, t)
      end
  | AckCreated _ _ _ | AckReport _ _ => (Ok tt, t)
  end.

Lemma calm_sql_answers c t : sql_answers t c (calm_sql c t).1 (calm_sql c t).2.
Proof.
  apply sql_ok. destruct c as [| |id row|key|id|id old new|r key i|r i]; cbn; try constructor.
  - destruct (t !! id) as [row'|] eqn:Hl; [apply done_refused; left; by exists row'|].
    destruct (key_owner t _) as [[id' row']|] eqn:Ho; [destruct (idempotency_key row) as [k|] eqn:Hk|].
    + apply key_owner_some in Ho as [Hl' Hk']. apply done_refused. right. by exists k, id', row'.
    + apply done_insert; [done|]. intros (k & ? & ? & ? & _). congruence.
    + apply done_insert; [done|]. intros (k & id' & row' & Hk & Hl' & Hk').
      apply (key_owner_none _ _ Ho _ _ Hl'). congruence.
  - destruct (key_owner t key) as [[id row]|] eqn:Ho; cbn.
    + apply key_owner_some in Ho as [? ?]. by apply done_found.
    + apply done_absent. by apply key_owner_none.
  - destruct (t !! id) as [row|] eqn:Hl; [case_decide|]; cbn.
    + by apply done_set.
    + apply done_stale. rewrite Hl. cbn. congruence.
    + apply done_stale. by rewrite Hl.
Qed.

End calm.

#[local] Instance plain_text : IncidentCodec := {|
  incident_text := Incident; dump_incident := fun i => i; load_incident := Some;
  load_dump_incident := fun _ => eq_refl |}.

(** Two deliveries of one alert, and its report published twice. *)
Definition alert : IncidentCreate := request crash_incident.
Definition ingest_story : list (prog inc_answer unit) :=
  [serve_create alert (Some "alert-1"); serve_create alert (Some "alert-1");
   serve_report crash_report; serve_report crash_report].
Definition after_ingest : system inc_answer incident_table unit :=
  {| threads := [];
     shared := (play_all calm_sql ingest_story ∅ []).1.2;
     history := (play_all calm_sql ingest_story ∅ []).2 |}.

Lemma after_ingest_reachable : inc_reachable after_ingest.
Proof.
  apply (play_all_reachable sql_answers inc_program calm_sql calm_sql_answers).
  repeat constructor.
Qed.

Definition ingested_alert : Incident :=
  {| incident_id := "inc-1"; request := alert; created_at := noon; report := None |}.

Definition published_alert : Incident := with_report ingested_alert crash_report.

Lemma after_ingest_created :
  (existT (AckCreated alert (Some "alert-1") ingested_alert) (Ok tt) : obs inc_answer)
    ∈ history after_ingest.
Proof. apply (list_elem_of_lookup_2 _ 3). vm_compute. reflexivity. Qed.

Lemma after_ingest_published :
  (existT (AckReport crash_report published_alert) (Ok tt) : obs inc_answer) ∈ history after_ingest.
Proof. apply (list_elem_of_lookup_2 _ 11). vm_compute. reflexivity. Qed.

Lemma acknowledged_once_witness :
  alert = alert /\ incident_id ingested_alert = incident_id ingested_alert /\
  created_at ingested_alert = created_at ingested_alert /\
  exists row, shared after_ingest !! incident_id ingested_alert = Some row /\
    idempotency_key row = Some "alert-1".
Proof.
  apply (acknowledged_once after_ingest "alert-1" alert ingested_alert (Ok tt) alert ingested_alert
    (Ok tt)); [apply after_ingest_reachable|apply after_ingest_created..].
Defined.

Lemma first_report_wins_witness :
  exists rep row i, report published_alert = Some rep /\ report published_alert = Some rep /\
    shared after_ingest !! rep_incident_id crash_report = Some row /\
    load_incident (row_payload row) = Some i /\ report i = Some rep /\
    rep_incident_id rep = rep_incident_id crash_report /\ grounded rep.
Proof.
  apply (first_report_wins after_ingest crash_report published_alert (Ok tt) crash_report
    published_alert (Ok tt)); [apply after_ingest_reachable|apply after_ingest_published..|reflexivity].
Defined.
