(* ===== verification/Identity.v ===== *)
(** * Authentication: [payops/auth/identity.py] and [payops/auth/firebase.py]

    [IdentityService] over the protocol [IdentitySource], and [FirebaseIdentitySource],
    its implementation over two documented calls of the Admin SDK, which verify a token
    and read an account. *)

From S2P Require Import Prelude Json Contracts Effects Policy.

Open Scope string_scope.
Open Scope list_scope.
Open Scope Z_scope.
Open Scope result_scope.
Open Scope prog_scope.

Record IdentitySettings : Type := { project_id : string; set_tenant_id : option string }.

Record Account : Type := {
  acc_subject : string;
  disabled : bool;
  tenant_id : option string;
  tokens_valid_after : datetime;
  grants : list (string * json);
}.

Definition Account_validate (a : Account) : result Account :=
  if identifier_ok (acc_subject a) &&
     match tenant_id a with Some t => identifier_ok t | None => true end
  then Ok a else Err (ValueError "Account").

(** [Grants] *)
Record Grants : Type := { grant_roles : list Role; grant_namespaces : list string }.

Definition role_of_name (s : string) : option Role :=
  if decide (s = "viewer") then Some viewer
  else if decide (s = "responder") then Some responder
  else if decide (s = "approver") then Some approver
  else if decide (s = "executor") then Some executor
  else None.

Definition Grants_valid (g : Grants) : bool :=
  between 1 4 (len (grant_roles g)) && between 1 8 (len (grant_namespaces g)) &&
  forallb identifier_ok (grant_namespaces g).

(** [Grants.model_validate] *)
Definition Grants_validate (d : list (string * json)) : result Grants :=
  match (rs ← field_strings d "roles" ≫= mapM role_of_name;
         ns ← field_strings d "namespaces";
         Some {| grant_roles := rs; grant_namespaces := ns |}) with
  | Some g => if closed d ["roles"; "namespaces"] && Grants_valid g then Ok g
              else Err (ValueError "Grants")
  | None => Err (ValueError "Grants")
  end.

Record TokenClaims : Type := {
  sub : string;
  aud : string;
  iss : string;
  iat : Z;
  exp : Z;
  auth_time : Z;
  firebase : list (string * json);
}.

(** [Field(ge=0, le=4102444800, strict=True)] *)
Definition as_epoch (j : json) : option Z :=
  match j with JInt z => if between 0 4102444800 z then Some z else None | _ => None end.

(** [TokenClaims.model_validate]; other fields are ignored. *)
Definition TokenClaims_validate (d : list (string * json)) : result TokenClaims :=
  match (s ← field_str d "sub"; a ← field_str d "aud"; i ← field_str d "iss";
         t ← dict_find d "iat" ≫= as_epoch; e ← dict_find d "exp" ≫= as_epoch;
         h ← dict_find d "auth_time" ≫= as_epoch; f ← dict_find d "firebase" ≫= as_object;
         Some {| sub := s; aud := a; iss := i; iat := t; exp := e; auth_time := h; firebase := f |}) with
  | Some c => if identifier_ok (sub c) then Ok c else Err (ValueError "TokenClaims")
  | None => Err (ValueError "TokenClaims")
  end.

(** The constructor call of [_principal] *)
Definition Principal_validate (p : Principal) : result Principal :=
  if identifier_ok (subject p) && between 1 4 (len (roles p)) && between 1 8 (len (namespaces p)) &&
     forallb identifier_ok (namespaces p)
  then Ok p else Err (ValueError "Principal").

(** [SdkUser]: the properties of a [UserRecord] the code reads. *)
Record SdkUser : Type := {
  sdk_uid : string;
  sdk_disabled : bool;
  sdk_tenant_id : option string;
  tokens_valid_after_timestamp : Z;
  custom_claims : json;
}.

(** The environment switch of the SDK, the clock and the SDK's client. *)
Inductive auth_call : Type :=
  | AEmulator
  | AClock
  | AVerifyIdToken (id_token : string) (check_revoked : bool) (clock_skew_seconds : Z)
  | AGetUser (uid : string).

Definition auth_answer (c : auth_call) : Type :=
  match c with
  | AEmulator => option string
  | AClock => datetime
  | AVerifyIdToken _ _ _ => json
  | AGetUser _ => SdkUser
  end.

Abbreviation aprog := (prog auth_answer).
Abbreviation sdk := (call (R:=auth_answer)) (only parsing).

(** [IdentitySource] *)
Class IdentitySource : Type := {
  source_verify : string -> aprog (list (string * json));
  source_lookup : string -> aprog Account;
}.

(** [reject_emulator] *)
Definition reject_emulator : aprog unit :=
  let* host := sdk AEmulator in
  match host with
  | Some _ => Raise (ValueError "Identity Platform emulator is not an operational identity source")
  | None => Ret tt
  end.

(** ** [IdentityService] *)
Section service.
Context `{IdentitySource} (settings : IdentitySettings).

(** [_account] *)
Definition account_of (who : string) : aprog (Account * datetime) :=
  do* reject_emulator in
  let* started := sdk AClock in
  let* account := source_lookup who in
  if negb (eqb_of (acc_subject account) who) || disabled account
     || negb (eqb_of (tenant_id account) (set_tenant_id settings)) then
    Raise (ValueError "account unavailable")
  else
    let* now := sdk AClock in
    if negb (age_within now started 60) then Raise (ValueError "account unavailable")
    else Ret (account, started).

(** The check of the bearer text in [_claims] *)
Definition bearer_ok (token : string) : bool :=
  between 1 8192 (str_len token) && str_all (ascii_between 33 126) token.

(** [claims.firebase.get("tenant") != self.settings.tenant_id] *)
Definition tenant_json (t : option string) : json :=
  match t with Some t => JStr t | None => JNull end.

(** The scope check of [_claims] at [now].  [timestamp()] is compared with integral seconds
    below 2^32, where the nearest binary64 to a number of microseconds lies on the same
    side of every integer, so the comparison of the exact microseconds is the same. *)
Definition token_scope (c : TokenClaims) (now : datetime) : bool :=
  eqb_of (aud c) (project_id settings) &&
  eqb_of (iss c) ("https://securetoken.google.com/" +:+ project_id settings) &&
  eqb_of (dget (firebase c) "tenant") (tenant_json (set_tenant_id settings)) &&
  (auth_time c <=? iat c) && (seconds (iat c) <=? now) && (now <? seconds (exp c)) &&
  (exp c - iat c <=? 3600).

(** [_claims] *)
Definition claims_of (token : string) : aprog TokenClaims :=
  do* reject_emulator in
  if negb (bearer_ok token) then Raise (ValueError "malformed bearer")
  else
    let* verified := source_verify token in
    let* c := lift (TokenClaims_validate verified) in
    let* now := sdk AClock in
    if negb (token_scope c now) then Raise (ValueError "invalid token scope") else Ret c.

(** [_principal] *)
Definition principal_of (account : Account) (observed : datetime) (expiry : option datetime)
  : aprog Principal :=
  let* g := lift (Grants_validate (grants account)) in
  let* now := sdk AClock in
  let cutoff := observed + seconds 60 in
  let expires := match expiry with Some e => Z.min e cutoff | None => cutoff end in
  if expires <=? now then Raise (ValueError "identity expired")
  else lift (Principal_validate
    {| subject := acc_subject account; roles := grant_roles g; namespaces := grant_namespaces g;
       verified_at := observed; expires_at := expires; enabled := true |}).

(** The body of the [try] of [authenticate] *)
Definition authenticated (token : string) : aprog Principal :=
  let* claims := claims_of token in
  let* (account, observed) := account_of (sub claims) in
  if seconds (auth_time claims) <? tokens_valid_after account then
    Raise (ValueError "session revoked")
  else principal_of account observed (Some (seconds (exp claims))).

(** [authenticate] *)
Definition authenticate (token : string) : aprog Principal :=
  catch (authenticated token) (fun _ => true)
    (fun _ => Raise (AuthenticationDenied "AUTHENTICATION_DENIED")).

(** [principal] *)
Definition service_principal (who : string) : aprog (option Principal) :=
  catch (let* (account, observed) := account_of who in
         let* p := principal_of account observed None in Ret (Some p))
    (fun _ => true) (fun _ => Ret None).
End service.

(** ** [FirebaseIdentitySource] *)

(** [JSON_OBJECT.validate_python] *)
Definition JSON_OBJECT_validate (j : json) : result (list (string * json)) :=
  match as_object j with Some o => Ok o | None => Err (ValueError "JSON_OBJECT") end.

Definition firebase_verify (token : string) : aprog (list (string * json)) :=
  do* reject_emulator in
  let* claims := sdk (AVerifyIdToken token true 0) in
  lift (JSON_OBJECT_validate claims).

(** [lookup]; a revocation time is a number of milliseconds, exact in microseconds. *)
Definition firebase_lookup (who : string) : aprog Account :=
  do* reject_emulator in
  let* user := sdk (AGetUser who) in
  let* claims := lift (JSON_OBJECT_validate (custom_claims user)) in
  let* grants := lift (JSON_OBJECT_validate (dget claims "payops")) in
  lift (Account_validate
    {| acc_subject := sdk_uid user; disabled := sdk_disabled user; tenant_id := sdk_tenant_id user;
       tokens_valid_after := tokens_valid_after_timestamp user * 1000; grants := grants |}).

#[export] Instance firebase_source : IdentitySource := {|
  source_verify := firebase_verify;
  source_lookup := firebase_lookup;
|}.
