(* ===== verification/IdentityTheorems.v ===== *)
(** * Who is authenticated

    The runs of [authenticate] over the Firebase source are characterised exactly, and its
    principals are related to the policy's [identity_valid]. *)

From S2P Require Import Prelude Json Contracts Effects Policy Identity Walkthrough.

Open Scope string_scope.
Open Scope list_scope.
Open Scope Z_scope.
Open Scope result_scope.

Abbreviation seen_call c r := (existT c r : obs auth_answer) (only parsing).

(** ** Runs of the parts *)

Lemma reject_emulator_ok tr u : runs reject_emulator tr (Ok u) -> tr = [existT AEmulator (Ok None)].
Proof. unfold reject_emulator. intros Hr. by run_ok. Qed.

Lemma reject_emulator_run : runs reject_emulator [existT AEmulator (Ok None)] (Ok tt).
Proof. constructor. constructor. Qed.

Lemma JSON_OBJECT_ok j d : JSON_OBJECT_validate j = Ok d <-> j = JObj d.
Proof. destruct j; cbn; naive_solver. Qed.

(** The account [lookup] makes of a user whose custom claims hold the [payops] grants [d]. *)
Definition account_from (user : SdkUser) (d : list (string * json)) : Account :=
  {| acc_subject := sdk_uid user; disabled := sdk_disabled user; tenant_id := sdk_tenant_id user;
     tokens_valid_after := tokens_valid_after_timestamp user * 1000; grants := d |}.

(** A subject and a tenant the models accept *)
Definition identified (a : Account) : Prop :=
  identifier_ok (acc_subject a) = true /\ forall t, tenant_id a = Some t -> identifier_ok t = true.

Lemma Account_validate_ok a b : Account_validate a = Ok b <-> b = a /\ identified a.
Proof.
  unfold Account_validate, identified. destruct (tenant_id a) as [t|].
  - destruct (identifier_ok (acc_subject a)), (identifier_ok t) eqn:Ht; cbn; naive_solver congruence.
  - destruct (identifier_ok (acc_subject a)); cbn; naive_solver.
Qed.

Abbreviation emulator_off := (existT AEmulator (Ok None) : obs auth_answer) (only parsing).
Abbreviation clock_read t := (existT AClock (Ok t) : obs auth_answer) (only parsing).

(** ** What is read from the claims and the grants *)

Definition epoch (n : Z) : Prop := 0 <= n <= 4102444800.

Lemma as_epoch_ok j n : as_epoch j = Some n <-> j = JInt n /\ epoch n.
Proof.
  unfold as_epoch, epoch. destruct j; try (split; [done|intros [? _]; done]).
  unfold between. destruct (_ && _) eqn:Hb; pybool.
  - split; [intros [= ->]; done|intros [[= ->] _]; done].
  - split; [done|]. intros [[= ->] ?]. lia.
Qed.

(** The claims [c] of the object [d] *)
Record claims_read (d : list (string * json)) (c : TokenClaims) : Prop := {
  read_sub : dict_find d "sub" = Some (JStr (sub c));
  read_aud : dict_find d "aud" = Some (JStr (aud c));
  read_iss : dict_find d "iss" = Some (JStr (iss c));
  read_iat : dict_find d "iat" = Some (JInt (iat c)) /\ epoch (iat c);
  read_exp : dict_find d "exp" = Some (JInt (exp c)) /\ epoch (exp c);
  read_auth_time : dict_find d "auth_time" = Some (JInt (auth_time c)) /\ epoch (auth_time c);
  read_firebase : dict_find d "firebase" = Some (JObj (firebase c));
  read_subject : identifier_ok (sub c) = true;
}.

Lemma field_str_ok d k s : field_str d k = Some s <-> dict_find d k = Some (JStr s).
Proof. split; [apply field_str_inv|]. unfold field_str. by intros ->. Qed.

Lemma field_epoch_ok d k n : dict_find d k ≫= as_epoch = Some n <-> dict_find d k = Some (JInt n) /\ epoch n.
Proof.
  rewrite bind_Some. split.
  - by intros (j & -> & [-> ?]%as_epoch_ok).
  - intros [-> ?]. eexists. split; [done|]. by apply as_epoch_ok.
Qed.

Lemma field_object_ok d k o : dict_find d k ≫= as_object = Some o <-> dict_find d k = Some (JObj o).
Proof.
  rewrite bind_Some. split; [|by intros ->; eexists]. intros (j & -> & Hj). by destruct j; naive_solver.
Qed.

Lemma TokenClaims_validate_ok d c : TokenClaims_validate d = Ok c <-> claims_read d c.
Proof.
  unfold TokenClaims_validate. split.
  - destruct (field_str d "sub") as [s|] eqn:Hs; [|done]. destruct (field_str d "aud") as [a|] eqn:Ha; [|done].
    destruct (field_str d "iss") as [i|] eqn:Hi; [|done]. cbn [mbind option_bind].
    destruct (dict_find d "iat" ≫= as_epoch) as [t|] eqn:Ht; [|done].
    destruct (dict_find d "exp" ≫= as_epoch) as [e|] eqn:He; [|done].
    destruct (dict_find d "auth_time" ≫= as_epoch) as [h|] eqn:Hh; [|done].
    destruct (dict_find d "firebase" ≫= as_object) as [f|] eqn:Hf; [|done].
    cbn. destruct (identifier_ok s) eqn:Hid; [|done]. intros [= <-].
    apply field_str_ok in Hs, Ha, Hi. apply field_epoch_ok in Ht, He, Hh. apply field_object_ok in Hf. by split.
  - intros [Hs Ha Hi Ht He Hh Hf Hid]. apply field_str_ok in Hs, Ha, Hi. apply field_epoch_ok in Ht, He, Hh.
    apply field_object_ok in Hf. rewrite Hs, Ha, Hi. cbn [mbind option_bind]. rewrite Ht, He, Hh, Hf. cbn.
    rewrite Hid. by destruct c.
Qed.

(** The scope of the claims, at [now]: their project, issuer and tenant, and their lifetime *)
Record claims_scoped (settings : IdentitySettings) (c : TokenClaims) (now : datetime) : Prop := {
  scoped_audience : aud c = project_id settings;
  scoped_issuer : iss c = "https://securetoken.google.com/" +:+ project_id settings;
  scoped_tenant : match set_tenant_id settings with
                  | Some t => dget (firebase c) "tenant" = JStr t
                  | None => dget (firebase c) "tenant" = JNull
                  end;
  scoped_session : auth_time c <= iat c;
  scoped_lifetime : seconds (iat c) <= now < seconds (exp c);
  scoped_hour : exp c - iat c <= 3600;
}.

Lemma token_scope_ok settings c now : token_scope settings c now = true <-> claims_scoped settings c now.
Proof.
  unfold token_scope, tenant_json. split.
  - intros Hs. pybool. destruct_and!. split; try done. destruct (set_tenant_id settings); done.
  - intros []. pybool. split_and!; try done; [|lia..]. by destruct (set_tenant_id settings).
Qed.

(** A bearer text: 1 to 8192 printable characters, none of them a space *)
Definition bearer_text (token : string) : Prop :=
  1 <= str_len token <= 8192 /\
  forall c, c ∈ String.list_ascii_of_string token -> (33 <= Ascii.nat_of_ascii c <= 126)%nat.

Lemma str_all_ok (q : Ascii.ascii -> bool) s :
  str_all q s = true <-> forall c, c ∈ String.list_ascii_of_string s -> q c = true.
Proof.
  induction s as [|c s IH]; cbn; [split; [by intros _ ? ?%elem_of_nil|done]|].
  rewrite andb_true_iff, IH. setoid_rewrite elem_of_cons. naive_solver.
Qed.

Lemma bearer_ok_iff token : bearer_ok token = true <-> bearer_text token.
Proof.
  unfold bearer_ok, bearer_text, between. rewrite !andb_true_iff, !Z.leb_le, str_all_ok. unfold ascii_between.
  setoid_rewrite andb_true_iff. by setoid_rewrite Nat.leb_le.
Qed.

Definition role_name (r : Role) : string :=
  match r with viewer => "viewer" | responder => "responder" | approver => "approver" | executor => "executor" end.

Lemma role_of_name_ok s r : role_of_name s = Some r <-> s = role_name r.
Proof.
  unfold role_of_name. split; [|by intros ->; destruct r]. repeat (destruct (decide _) as [->|]; [by intros [= <-]|]).
  done.
Qed.

(** The grants [g] of the object [d]: nothing but 1 to 4 roles and 1 to 8 namespaces *)
Record grants_read (d : list (string * json)) (g : Grants) : Prop := {
  read_roles : dict_find d "roles" = Some (JList (map JStr (map role_name (grant_roles g))));
  read_namespaces : dict_find d "namespaces" = Some (JList (map JStr (grant_namespaces g)));
  read_counts : 1 <= len (grant_roles g) <= 4 /\ 1 <= len (grant_namespaces g) <= 8;
  read_identifiers : Forall (fun ns => identifier_ok ns = true) (grant_namespaces g);
  read_closed : Forall (fun kv => kv.1 = "roles" \/ kv.1 = "namespaces") d;
}.

Lemma field_strings_ok d k l : field_strings d k = Some l <-> dict_find d k = Some (JList (map JStr l)).
Proof. split; [apply field_strings_inv|]. unfold field_strings. intros ->. apply strings_of_map. Qed.

Lemma roles_of_names l rs : mapM role_of_name l = Some rs <-> l = map role_name rs.
Proof.
  rewrite mapM_Some. split.
  - induction 1 as [|s r l rs Hr _ IH]; [done|]. cbn. apply role_of_name_ok in Hr as ->. by rewrite IH.
  - intros ->. induction rs; constructor; [by apply role_of_name_ok|done].
Qed.

Lemma forallb_Forall {A} (q : A -> bool) l : forallb q l = true <-> Forall (fun x => q x = true) l.
Proof. induction l; cbn; [done|]. by rewrite andb_true_iff, Forall_cons, IHl. Qed.

Lemma grants_closed d :
  closed d ["roles"; "namespaces"] = true <-> Forall (fun kv => kv.1 = "roles" \/ kv.1 = "namespaces") d.
Proof.
  unfold closed. rewrite forallb_Forall. apply Forall_iff. intros kv.
  by rewrite bool_decide_eq_true, elem_of_cons, list_elem_of_singleton.
Qed.

Lemma Grants_valid_ok g :
  Grants_valid g = true <-> (1 <= len (grant_roles g) <= 4 /\ 1 <= len (grant_namespaces g) <= 8) /\
    Forall (fun ns => identifier_ok ns = true) (grant_namespaces g).
Proof.
  unfold Grants_valid, between. rewrite !andb_true_iff, !Z.leb_le, forallb_Forall. done.
Qed.

Lemma Grants_validate_ok d g : Grants_validate d = Ok g <-> grants_read d g.
Proof.
  unfold Grants_validate. split.
  - destruct (field_strings d "roles" ≫= mapM role_of_name) as [rs|] eqn:Hr; [|done].
    destruct (field_strings d "namespaces") as [ns|] eqn:Hn; [|done]. cbn.
    destruct (closed _ _) eqn:Hc; [|done]. destruct (Grants_valid _) eqn:Hg; [|done]. intros [= <-].
    apply grants_closed in Hc. apply Grants_valid_ok in Hg as [Hlen Hall].
    apply bind_Some in Hr as (l & Hl%field_strings_ok & ->%roles_of_names). apply field_strings_ok in Hn. by split.
  - intros [Hr Hn Hlen Hid Hc]. apply field_strings_ok in Hr, Hn. apply grants_closed in Hc. rewrite Hr, Hn.
    cbn [mbind option_bind]. rewrite (proj2 (roles_of_names _ (grant_roles g)) eq_refl). cbn. rewrite Hc.
    replace {| grant_roles := grant_roles g; grant_namespaces := grant_namespaces g |} with g by (by destruct g).
    by rewrite (proj2 (Grants_valid_ok g) (conj Hlen Hid)).
Qed.

(** The principal of an identified account and valid grants is valid. *)
Lemma Principal_validate_ok d g p q :
  grants_read d g -> roles p = grant_roles g -> namespaces p = grant_namespaces g ->
  Principal_validate p = Ok q <-> q = p /\ identifier_ok (subject p) = true.
Proof.
  intros [_ _ Hlen Hall _] Hr Hn. unfold Principal_validate. rewrite Hr, Hn, <-!andb_assoc.
  pose proof (proj2 (Grants_valid_ok g) (conj Hlen Hall)) as Hg. unfold Grants_valid in Hg. rewrite <-andb_assoc in Hg.
  rewrite Hg, andb_true_r. destruct (identifier_ok (subject p)); naive_solver.
Qed.

Section identity.
Context (settings : IdentitySettings).

Lemma claims_of_ok token tr c :
  runs (claims_of settings token) tr (Ok c) <-> exists d t1,
    tr = [emulator_off; emulator_off; existT (AVerifyIdToken token true 0) (Ok (JObj d)); clock_read t1] /\
    bearer_text token /\ claims_read d c /\ claims_scoped settings c t1.
Proof.
  split.
  - unfold claims_of, source_verify, firebase_source, firebase_verify. intros Hr. run_ok.
    repeat match goal with H : runs reject_emulator _ _ |- _ => apply reject_emulator_ok in H as -> end.
    apply JSON_OBJECT_ok in Hpure0 as ->. eexists _, _.
    split_and!; [reflexivity|by apply bearer_ok_iff, negb_false_iff|by apply TokenClaims_validate_ok|].
    by apply token_scope_ok, negb_false_iff.
  - intros (d & t1 & -> & Hb%bearer_ok_iff & Hc%TokenClaims_validate_ok & Hs%token_scope_ok). unfold claims_of.
    apply (runs_bind_intro reject_emulator _ [_] _ tt); [apply reject_emulator_run|].
    rewrite Hb. cbn [negb source_verify firebase_source].
    apply (runs_bind_intro (firebase_verify token) _ [_; _] _ d).
    + apply (runs_bind_intro reject_emulator _ [_] _ tt); [apply reject_emulator_run|].
      constructor. cbn beta iota. constructor.
    + eapply runs_pure; [exact Hc|]. constructor. cbn beta iota. rewrite Hs. constructor.
Qed.

(** What [_account] requires of the user it was given: one with [payops] grants, of the subject
    and the tenant, enabled, and read within a minute. *)
Definition current_account (who : string) (user : SdkUser) (d : list (string * json)) (t2 t3 : datetime) : Prop :=
  (exists cl, custom_claims user = JObj cl /\ dget cl "payops" = JObj d) /\
  identified (account_from user d) /\
  sdk_uid user = who /\ sdk_disabled user = false /\ sdk_tenant_id user = set_tenant_id settings /\
  t2 <= t3 <= t2 + seconds 60.

Lemma account_of_ok who tr acc t2 :
  runs (account_of settings who) tr (Ok (acc, t2)) <-> exists user d t3,
    tr = [emulator_off; clock_read t2; emulator_off; existT (AGetUser who) (Ok user); clock_read t3] /\
    acc = account_from user d /\ current_account who user d t2 t3.
Proof.
  split.
  - unfold account_of, source_lookup, firebase_source, firebase_lookup. intros Hr. run_ok.
    repeat match goal with H : runs reject_emulator _ _ |- _ => apply reject_emulator_ok in H as -> end.
    repeat match goal with H : JSON_OBJECT_validate _ = _ |- _ => apply JSON_OBJECT_ok in H end.
    match goal with H : Account_validate _ = _ |- _ => apply Account_validate_ok in H as [-> Hv] end.
    eexists _, _, _. split_and!; [reflexivity|reflexivity|].
    apply orb_false_iff in Heqb as [[Hs Hd]%orb_false_iff Ht].
    apply negb_false_iff, eqb_of_true_1 in Hs, Ht. apply negb_false_iff in Heqb0.
    apply age_within_spec in Heqb0.
    split_and!; [by eexists|exact Hv|exact Hs|exact Hd|exact Ht|lia|lia].
  - intros (user & d & t3 & -> & -> & (cl & Hcl & Hd) & Hv & Huid & Hdis & Hten & Hage). unfold account_of.
    apply (runs_bind_intro reject_emulator _ [_] _ tt); [apply reject_emulator_run|].
    constructor. cbn beta iota. cbn [source_lookup firebase_source].
    apply (runs_bind_intro (firebase_lookup who) _ [_; _] _ (account_from user d)).
    + apply (runs_bind_intro reject_emulator _ [_] _ tt); [apply reject_emulator_run|].
      constructor. cbn beta iota. eapply runs_pure; [by apply JSON_OBJECT_ok|].
      eapply runs_pure; [by apply JSON_OBJECT_ok|].
      unfold account_from in Hv. rewrite (proj2 (Account_validate_ok _ _) (conj eq_refl Hv)). constructor.
    + cbn. rewrite Huid, eqb_of_refl, Hdis, Hten, eqb_of_refl. cbn.
      constructor. cbn. rewrite (proj2 (age_within_spec _ _ _) Hage). constructor.
Qed.

(** What [_principal] grants. *)
Definition current_grants (acc : Account) (t2 : datetime) (expiry : option datetime) (t4 : datetime)
  (p : Principal) : Prop :=
  exists g, grants_read (grants acc) g /\ identifier_ok (subject p) = true /\
    p = {| subject := acc_subject acc; roles := grant_roles g; namespaces := grant_namespaces g;
           verified_at := t2; enabled := true;
           expires_at := match expiry with Some e => Z.min e (t2 + seconds 60) | None => t2 + seconds 60 end |} /\
    t4 < expires_at p.

Lemma principal_of_ok acc t2 expiry tr p :
  runs (principal_of acc t2 expiry) tr (Ok p) <->
  exists t4, tr = [clock_read t4] /\ current_grants acc t2 expiry t4 p.
Proof.
  split.
  - unfold principal_of. intros Hr. run_ok. eexists. split; [done|].
    match goal with H : Grants_validate _ = _ |- _ => apply Grants_validate_ok in H as Hg end.
    match goal with H : Principal_validate _ = _ |- _ => eapply (Principal_validate_ok _ _) in H as [-> Hv]; [|done..] end.
    eexists. split_and!; [eassumption|exact Hv|reflexivity|cbn; lia].
  - intros (t4 & -> & g & Hg & Hv & -> & Ht). unfold principal_of.
    eapply runs_pure; [by apply Grants_validate_ok|].
    constructor. cbn beta iota. cbn in Ht. rewrite (proj2 (Z.leb_gt _ _)) by lia.
    match goal with |- context [Principal_validate ?q] =>
      assert (Principal_validate q = Ok q) as -> by (by apply (Principal_validate_ok (grants acc) g)) end.
    constructor.
Qed.

(** Everything [authenticate] requires before it grants [p]: the verified claims [d] of the
    token, parsed as [c]; the current account [user], with its [payops] grants [gd]; the
    clock at [t1] (claims checked), [t2] (lookup started), [t3] (lookup ended) and [t4]
    (grants checked). *)
Record granted (token : string) (d : list (string * json)) (c : TokenClaims) (user : SdkUser)
  (gd : list (string * json)) (t1 t2 t3 t4 : datetime) (p : Principal) : Prop := {
  granted_text : bearer_text token;
  granted_claims : claims_read d c;
  granted_scope : claims_scoped settings c t1;
  granted_account : current_account (sub c) user gd t2 t3;
  granted_unrevoked : tokens_valid_after_timestamp user * 1000 <= seconds (auth_time c);
  granted_principal : current_grants (account_from user gd) t2 (Some (seconds (exp c))) t4 p;
}.

Definition session (token : string) (d : list (string * json)) (c : TokenClaims) (user : SdkUser)
  (t1 t2 t3 t4 : datetime) : list (obs auth_answer) :=
  [emulator_off; emulator_off; existT (AVerifyIdToken token true 0) (Ok (JObj d)); clock_read t1;
   emulator_off; clock_read t2; emulator_off; existT (AGetUser (sub c)) (Ok user); clock_read t3;
   clock_read t4].

Lemma authenticated_ok token tr p :
  runs (authenticated settings token) tr (Ok p) <-> exists d c user gd t1 t2 t3 t4,
    tr = session token d c user t1 t2 t3 t4 /\ granted token d c user gd t1 t2 t3 t4 p.
Proof.
  split.
  - unfold authenticated. intros Hr. run_ok.
    match goal with H : runs (let '(_, _) := ?x in _) _ _ |- _ => destruct x as [acc t2] end. run_ok.
    match goal with H : runs (claims_of _ _) _ _ |- _ =>
      apply claims_of_ok in H as (d & t1 & -> & ? & ? & ?) end.
    match goal with H : runs (account_of _ _) _ _ |- _ =>
      apply account_of_ok in H as (user & gd & t3 & -> & -> & ?) end.
    match goal with H : runs (principal_of _ _ _) _ _ |- _ =>
      apply principal_of_ok in H as (t4 & -> & ?) end.
    exists d, a, user, gd, t1, t2, t3, t4. split; [reflexivity|]. split; try done.
    cbn in Heqb. lia.
  - intros (d & c & user & gd & t1 & t2 & t3 & t4 & -> & []). unfold authenticated.
    apply (runs_bind_intro (claims_of settings token) _ [_; _; _; _] _ c); [apply claims_of_ok; eauto 10|].
    apply (runs_bind_intro (account_of settings (sub c)) _ [_; _; _; _; _] [_] (account_from user gd, t2));
      [apply account_of_ok; eauto 10|].
    cbn [tokens_valid_after account_from]. rewrite (proj2 (Z.ltb_ge _ _)) by done.
    apply principal_of_ok. eauto.
Qed.
End identity.

(** C12: authentication is exact.  Over the Firebase source, [authenticate] returns a
    principal exactly when the emulator switch was off at every use of the SDK; the bearer is 1
    to 8192 printable characters; the SDK verified it with revocation checking and no clock skew;
    its claims name the configured project as audience and issuer and the configured tenant, were
    issued after the session began and at most an hour before they expire, and are in force; the
    current account of the same subject is enabled, in the tenant, unrevoked since the session
    began and read within a minute; and its [payops] grants are those returned, valid for a minute
    from the lookup and never beyond the token.  Every other run raises [AuthenticationDenied]. *)
Theorem authenticate_exactly settings token :
  (forall tr p, runs (authenticate settings token) tr (Ok p) <->
     exists d c user gd t1 t2 t3 t4, tr = session token d c user t1 t2 t3 t4 /\
       granted settings token d c user gd t1 t2 t3 t4 p) /\
  (forall tr e, runs (authenticate settings token) tr (Err e) ->
     e = AuthenticationDenied "AUTHENTICATION_DENIED").
Proof.
  unfold authenticate. split.
  - intros tr p. rewrite <-authenticated_ok. split; [|by apply runs_catch_intro].
    intros [[Hr _]|(e & tr1 & tr2 & _ & _ & _ & [_ [=]]%runs_raise_inv)]%runs_catch. done.
  - intros tr e [[_ He]|(e' & tr1 & tr2 & _ & _ & _ & [_ [= ->]]%runs_raise_inv)]%runs_catch; [|done].
    by specialize (He e eq_refl).
Qed.

(** a refreshed principal authorizes what the current account grants, for a minute.
    What [principal] returns for [who] is about [who]; its roles and namespaces are the
    [payops] grants of an enabled account of the tenant read in this very run; and the
    policy accepts it for a role and namespace exactly when both are granted and less than
    a minute has passed since the lookup began. *)
Theorem principal_authority settings who tr p :
  runs (service_principal settings who) tr (Ok (Some p)) ->
  subject p = who /\
  exists user d g t3, (existT (AGetUser who) (Ok user) : obs auth_answer) ∈ tr /\
    current_account settings who user d (verified_at p) t3 /\ grants_read d g /\
    forall role ns now, identity_valid (Some p) role ns now = true <->
      role ∈ grant_roles g /\ ns ∈ grant_namespaces g /\
      verified_at p <= now < verified_at p + seconds 60.
Proof.
  unfold service_principal. intros [[Hr _]|(e & tr1 & tr2 & _ & _ & _ & [_ [=]]%runs_ret_inv)]%runs_catch.
  run_ok. match goal with H : runs (let '(_, _) := ?x in _) _ _ |- _ => destruct x as [acc t2] end. run_ok.
  match goal with H : runs (account_of _ _) _ _ |- _ =>
    apply account_of_ok in H as (user & d & t3 & -> & -> & Hacc) end.
  match goal with H : runs (principal_of _ _ _) _ _ |- _ =>
    apply principal_of_ok in H as (t4 & -> & g & Hg & _ & -> & _) end.
  split; [by destruct Hacc as (_ & _ & ? & _)|]. exists user, d, g, t3.
  split_and!; [|exact Hacc|exact Hg|].
  - apply elem_of_app. left. do 3 apply list_elem_of_further. apply list_elem_of_here.
  - intros role ns now. rewrite identity_valid_true. split.
    + intros (q & [= <-] & []). cbn in *. split_and!; try done; lia.
    + intros (? & ? & ?). eexists. split; [done|]. split; cbn; try done; cbn in *; lia.
Qed.

(** ** A concrete directory *)

Definition prod_settings : IdentitySettings := {| project_id := "payops-prod"; set_tenant_id := None |}.

Definition ada : SdkUser :=
  {| sdk_uid := "ada"; sdk_disabled := false; sdk_tenant_id := None;
     tokens_valid_after_timestamp := 1700000000000;
     custom_claims := JObj [("payops", JObj [("roles", JList [JStr "responder"]);
                                             ("namespaces", JList [JStr "payops-sandbox"])])] |}.

Definition ada_refreshed : Principal :=
  {| subject := "ada"; roles := [responder]; namespaces := ["payops-sandbox"];
     verified_at := seconds 1800000000; expires_at := seconds 1800000060; enabled := true |}.

Definition refresh_trace : list (obs auth_answer) :=
  [emulator_off; clock_read (seconds 1800000000); emulator_off; existT (AGetUser "ada") (Ok ada);
   clock_read (seconds 1800000001)] ++ [clock_read (seconds 1800000002)] ++ [].

Lemma refresh_runs : runs (service_principal prod_settings "ada") refresh_trace (Ok (Some ada_refreshed)).
Proof.
  apply runs_catch_intro.
  apply (runs_bind_intro (account_of prod_settings "ada") _ [_; _; _; _; _] _
    (account_from ada [("roles", JList [JStr "responder"]); ("namespaces", JList [JStr "payops-sandbox"])],
     seconds 1800000000)).
  - apply account_of_ok. eexists _, _, _. split_and!; [reflexivity|reflexivity|].
    split_and!; [eexists; by split|split; [vm_compute; reflexivity|done]|vm_compute; congruence..].
  - apply (runs_bind_intro (principal_of _ _ _) _ [_] _ ada_refreshed); [|constructor].
    apply principal_of_ok. eexists. split; [reflexivity|].
    exists {| grant_roles := [responder]; grant_namespaces := ["payops-sandbox"] |}.
    split_and!; [|vm_compute; reflexivity..]. by apply Grants_validate_ok.
Qed.

Lemma principal_authority_witness :
  subject ada_refreshed = "ada" /\
  exists user d g t3, (existT (AGetUser "ada") (Ok user) : obs auth_answer) ∈ refresh_trace /\
    current_account prod_settings "ada" user d (verified_at ada_refreshed) t3 /\ grants_read d g /\
    forall role ns now, identity_valid (Some ada_refreshed) role ns now = true <->
      role ∈ grant_roles g /\ ns ∈ grant_namespaces g /\
      verified_at ada_refreshed <= now < verified_at ada_refreshed + seconds 60.
Proof. apply (principal_authority prod_settings "ada" refresh_trace ada_refreshed), refresh_runs. Defined.
