(* ===== verification/Baseline.v ===== *)
(** * The deterministic ranker: [payops/orchestrator/baseline.py]

    Predicates over verified evidence, and the four rules that combine them. *)

From S2P Require Import Prelude Text Json Contracts Policy.

Open Scope string_scope.
Open Scope list_scope.
Open Scope Z_scope.
Open Scope result_scope.

(** [datetime.fromisoformat], with whether the result carries a time zone, and [str] of a
    value that is not a string. *)
Class PyText : Type := {
  fromisoformat : string -> option (datetime * bool);
  str_of : json -> string;
}.

Definition MAX_AGE_SECONDS : Z := 120.

Record Signal : Type := { item : EvidenceItem; payload_of : list (string * json) }.

(** [_object] *)
Definition object_or_empty (j : json) : list (string * json) :=
  match j with JObj o => o | _ => [] end.

(** [_objects] *)
Definition objects_of (j : json) : list (list (string * json)) :=
  match j with JList l => omap as_object l | _ => [] end.

(** The truth value of a decoded value *)
Definition truthy (j : json) : bool :=
  match j with
  | JNull => false
  | JBool b => b
  | JInt z => negb (z =? 0)
  | JFloat f => negb (SFeqb f float_zero)
  | JStr s => negb (eqb_of s EmptyString)
  | JList l => is_nonempty l
  | JObj o => is_nonempty o
  end.

(** [type(value) is int and p(value)] *)
Definition int_with (p : Z -> bool) (j : json) : bool := match j with JInt z => p z | _ => false end.

Definition max_of (l : list datetime) : option datetime :=
  match l with [] => None | t :: l => Some (foldl Z.max t l) end.

(** ** Predicates *)

Definition lower_or_digit (c : Ascii.ascii) : bool := ascii_between 97 122 c || is_digit c.
Definition pod_part (s : string) : bool := negb (eqb_of s EmptyString) && str_all lower_or_digit s.

(** [re.fullmatch(r"payments-api-[a-z0-9]+-[a-z0-9]+", name)] *)
Definition payment_pod_name (name : string) : bool :=
  match after_prefix "payments-api-" name with
  | Some rest =>
      match partition (Ascii.ascii_of_nat 45) rest with
      | Some (a, b) => pod_part a && pod_part b
      | None => false
      end
  | None => false
  end.

(** [_payment_pod] *)
Definition payment_pod (s : Signal) : bool :=
  eqb_of (source (item s)) KUBERNETES && is_str (dget (payload_of s) "kind") "Pod" &&
  payment_pod_name (resource (item s)).

Definition container_statuses (s : Signal) : list (list (string * json)) :=
  objects_of (dget (object_or_empty (dget (payload_of s) "status")) "containerStatuses").

(** [_crashed] *)
Definition crashed (s : Signal) : bool :=
  payment_pod s &&
  existsb (fun status =>
    let terminated := object_or_empty (dget (object_or_empty (dget status "lastState")) "terminated") in
    int_with (fun code => negb (code =? 0)) (dget terminated "exitCode") &&
    int_with (fun restarts => 0 <? restarts) (dget status "restartCount") &&
    negb (is_str (dget terminated "reason") "OOMKilled") && negb (is_true (dget status "ready")))
    (container_statuses s).

(** [_running_unready] *)
Definition running_unready (s : Signal) : bool :=
  payment_pod s &&
  existsb (fun status =>
    dhas (object_or_empty (dget status "state")) "running" && is_false (dget status "ready"))
    (container_statuses s).

(** [_degraded] *)
Definition degraded (s : Signal) : bool :=
  eqb_of (source (item s)) DEPLOYMENT && eqb_of (resource (item s)) "payments-api" &&
  let desired := dget (payload_of s) "replicas" in
  let status := object_or_empty (dget (payload_of s) "status") in
  let unavailable := existsb (fun c => is_str (dget c "type") "Available" && is_str (dget c "status") "False")
    (objects_of (dget status "conditions")) in
  is_str (dget (payload_of s) "kind") "Deployment" &&
  int_with (fun n => (0 <? n) && (int_with (fun a => a <? n) (dget status "availableReplicas") || unavailable))
    desired.

Section clocked.
Context `{PyText}.

(** [value.replace("Z", "+00:00")] *)
Fixpoint with_offset (s : string) : string :=
  match s with
  | EmptyString => EmptyString
  | String c s' => if decide (c = Ascii.ascii_of_nat 90) then "+00:00" +:+ with_offset s' else String c (with_offset s')
  end.

(** [_timestamp] *)
Definition timestamp (value : string) : option datetime :=
  '(t, aware) ← fromisoformat (with_offset value); if aware : bool then Some t else None.

(** [_log_lines] *)
Definition log_line (s : Signal) (line : string) : option string :=
  '(stamp, content) ← partition (Ascii.ascii_of_nat 32) line;
  observed ← timestamp stamp;
  if age_within (collected_at (item s)) observed MAX_AGE_SECONDS then Some content else None.
Definition log_lines (s : Signal) : list string :=
  if eqb_of (source (item s)) LOG && eqb_of (resource (item s)) "payments-api" then
    match dget (payload_of s) "lines" with
    | JStr raw => omap (log_line s) (splitlines raw)
    | _ => []
    end
  else [].

(** [CONFIG_HEADER.fullmatch] *)
Definition config_header (line : string) : bool :=
  match after_prefix "pydantic_core._pydantic_core.ValidationError: " line with
  | Some rest =>
      match partition (Ascii.ascii_of_nat 32) rest with
      | Some (n, tail) =>
          is_digits n && negb (starts_with "0" n) &&
          (eqb_of tail "validation error for SandboxConfig" ||
           eqb_of tail "validation errors for SandboxConfig")
      | None => false
      end
  | None => false
  end.

(** [CONFIG_DETAIL.match] *)
Definition config_detail (line : string) : bool :=
  starts_with "Value error, destination must be an approved synthetic service origin [type=value_error,"
    (lstrip line).

(** [_invalid_configuration] *)
Fixpoint invalid_in (lines : list string) : bool :=
  match lines with
  | [] => false
  | line :: rest => config_header line && existsb config_detail (take 3 rest) || invalid_in rest
  end.
Definition invalid_configuration (s : Signal) : bool := invalid_in (log_lines s).

(** [ACCESS_FAILURE.fullmatch]: white space, then a word whose last colon precedes digits,
    then the fixed text. *)
Definition dquote : string := String (Ascii.ascii_of_nat 34) EmptyString.
Definition access_tails : list string :=
  let head := " - " +:+ dquote +:+ "POST /simulate HTTP/1." in
  flat_map (fun v => [head +:+ v +:+ dquote +:+ " 503"; head +:+ v +:+ dquote +:+ " 503 Service Unavailable"])
    ["0"; "1"].
Definition access_failure (line : string) : bool :=
  match after_prefix "INFO:" line with
  | Some (String c rest) =>
      is_space c &&
      let '(peer, tail) := word (lstrip rest) in
      match rpartition (Ascii.ascii_of_nat 58) peer with
      | Some (host, port) => negb (eqb_of host EmptyString) && is_digits port && bool_decide (tail ∈ access_tails)
      | None => false
      end
  | _ => false
  end.

(** [str(value)] *)
Definition py_str (j : json) : string := match j with JStr s => s | _ => str_of j end.

(** [a or b] *)
Definition or_else (a b : json) : json := if truthy a then a else b.

(** [_readiness_event] *)
Definition readiness_event (pod_uids : list string) (s : Signal) : bool :=
  eqb_of (source (item s)) KUBERNETES && eqb_of (resource (item s)) "payments-api" &&
  let involved := object_or_empty (dget (payload_of s) "involvedObject") in
  let series := object_or_empty (dget (payload_of s) "series") in
  let event_time := or_else (or_else (dget series "lastObservedTime") (dget (payload_of s) "lastTimestamp"))
                      (dget (payload_of s) "eventTime") in
  let stamp := match event_time with JStr t => timestamp t | _ => None end in
  bool_decide (py_str (dget involved "uid") ∈ pod_uids) &&
  is_str (dget involved "namespace") "payops-sandbox" &&
  is_str (dget (payload_of s) "reason") "Unhealthy" && is_str (dget (payload_of s) "type") "Warning" &&
  is_str (dget (payload_of s) "message") "Readiness probe failed: HTTP probe failed with statuscode: 404" &&
  match stamp with Some t => Z.abs (observed_at (item s) - t) <=? seconds 1 | None => false end.

(** [_processor_absent] *)
Definition processor_absent (s : Signal) : bool :=
  eqb_of (source (item s)) DEPLOYMENT && eqb_of (resource (item s)) "processor-adapter" &&
  is_str (dget (payload_of s) "kind") "Deployment" &&
  int_with (fun n => n =? 0) (dget (payload_of s) "replicas").

(** [_no_processor_pods] *)
Definition no_processor_pods (s : Signal) : bool :=
  eqb_of (source (item s)) KUBERNETES && eqb_of (resource (item s)) "processor-adapter" &&
  eqb_of (query (item s)) "pods.count" && int_with (fun n => n =? 0) (dget (payload_of s) "pod_count").

Definition failed_access (s : Signal) : bool := existsb access_failure (log_lines s).

(** ** Ranking *)

Context `{ArtifactOps}.

(** The loop body of [_verified]; [None] is a signal that is not recent. *)
Definition verified_signal (latest : datetime) (st : artifact_store) (e : EvidenceItem)
  : result (option Signal) :=
  let! a := artifact_verify st e in
  match dget (object_or_empty a) "payload" with
  | JObj p =>
      Ok (if age_within latest (observed_at e) MAX_AGE_SECONDS && (observed_at e <=? collected_at e)
          then Some {| item := e; payload_of := p |} else None)
  | _ => Err (EvidenceIntegrityError "baseline artifact payload is not an object")
  end.

(** [_verified] *)
Definition verified (l : list EvidenceItem) (st : artifact_store) : result (list Signal) :=
  if existsb (fun e => existsb (fun e' => negb (eqb_of (ev_incident_id e) (ev_incident_id e'))) l) l then
    Err (EvidenceIntegrityError "baseline evidence crosses incidents")
  else if negb (distinct (map evidence_id l)) then
    Err (EvidenceIntegrityError "baseline evidence IDs are duplicated")
  else
    let! signals := rmap (verified_signal (default 0 (max_of (map collected_at l))) st) l in
    Ok (omap id signals).

(** [_hypothesis] *)
Definition hypothesis (code : string) (score : spec_float) (signals : list Signal)
  : result RootCauseHypothesis :=
  let h := {| cause_code := code; confidence := score;
              supporting_evidence_ids := from_keys (map (fun s => evidence_id (item s)) signals);
              refuting_evidence_ids := []; missing_evidence := [] |} in
  if RootCauseHypothesis_valid h then Ok h else Err (ValueError "RootCauseHypothesis").

(** The four rules of [rank_evidence], in order: code, score and the groups of signals that
    must all be present. *)
Record rule : Type := { code : string; score : spec_float; groups : list (list Signal) }.

Definition pod_uids (unready : list Signal) : list string :=
  omap (fun s => dict_find (payload_of s) "resource_uid" ≫= as_str) unready.

Definition rules (signals : list Signal) : list rule :=
  let degraded := List.filter degraded signals in
  let crashes := List.filter crashed signals in
  let config := List.filter invalid_configuration signals in
  let unready := List.filter running_unready signals in
  let probes := List.filter (readiness_event (pod_uids unready)) signals in
  let absent := List.filter processor_absent signals in
  let empty := List.filter no_processor_pods signals in
  let errors := List.filter failed_access signals in
  [{| code := "INVALID_CONFIGURATION"; score := float_lit 95 100; groups := [degraded; crashes; config] |};
   {| code := "READINESS_PROBE_FAILURE"; score := float_lit 90 100; groups := [degraded; unready; probes] |};
   {| code := "PROCESSOR_UNAVAILABLE"; score := float_lit 85 100; groups := [absent; empty; errors] |};
   {| code := "STARTUP_FAILURE"; score := float_lit 75 100; groups := [degraded; crashes] |}].

(** One [if ...: ranked.append(...)] *)
Definition fires (r : rule) : bool := forallb is_nonempty (groups r).
Definition fire (r : rule) : result RootCauseHypothesis := hypothesis (code r) (score r) (concat (groups r)).

(** [rank_evidence] *)
Definition rank_evidence (l : list EvidenceItem) (st : artifact_store) : result (list RootCauseHypothesis) :=
  let! signals := verified l st in
  rmap fire (List.filter fires (rules signals)).
End clocked.
