(* ===== verification/BaselineTheorems.v ===== *)
(** * What the deterministic ranker claims, and on what grounds *)

From S2P Require Import Prelude Text Json Contracts Policy Baseline Walkthrough.

Open Scope string_scope.
Open Scope list_scope.
Open Scope Z_scope.
Open Scope result_scope.

Lemma rmap_inr {A B} (f : A -> result B) l ys :
  rmap f l = Ok ys <-> Forall2 (fun x y => f x = Ok y) l ys.
Proof.
  revert ys. induction l as [|x l IH]; intros ys; cbn.
  - split; [intros [= <-]; constructor|by inversion 1].
  - rewrite rbind_inr. setoid_rewrite rbind_inr. split.
    + intros (y & Hy & ys' & Hys & [= <-]). constructor; [done|by apply IH].
    + inversion 1; subst. eexists. split; [done|]. eexists. split; [by apply IH|done].
Qed.

Section ranking.
Context `{PyText, ArtifactOps}.

(** A recent signal of the evidence [l]: the item, verified, with its payload. *)
Definition recent_signal (l : list EvidenceItem) (st : artifact_store) (s : Signal) : Prop :=
  item s ∈ l /\ (exists a, artifact_verify st (item s) = Ok a /\
                           dget (object_or_empty a) "payload" = JObj (payload_of s)) /\
  observed_at (item s) <= collected_at (item s) /\
  exists latest, max_of (map collected_at l) = Some latest /\
    observed_at (item s) <= latest <= observed_at (item s) + seconds MAX_AGE_SECONDS.

Lemma verified_signal_ok latest st e o :
  verified_signal latest st e = Ok o ->
  exists a p, artifact_verify st e = Ok a /\ dget (object_or_empty a) "payload" = JObj p /\
    o = if age_within latest (observed_at e) MAX_AGE_SECONDS && (observed_at e <=? collected_at e)
        then Some {| item := e; payload_of := p |} else None.
Proof.
  unfold verified_signal. intros (a & Ha & Hp)%rbind_inr. exists a.
  destruct (dget _ _) as [| | | | | |p] eqn:Hd; try done. injection Hp as <-. by exists p.
Qed.

Lemma verified_ok l st signals :
  verified l st = Ok signals ->
  NoDup (map evidence_id l) /\ (forall e e', e ∈ l -> e' ∈ l -> ev_incident_id e = ev_incident_id e') /\
  (forall e, e ∈ l -> exists a, artifact_verify st e = Ok a) /\
  (forall s, s ∈ signals <-> recent_signal l st s).
Proof.
  unfold verified. destruct (existsb _ l) eqn:Hinc; [done|].
  destruct (distinct _) eqn:Hd; cbn; [|done]. apply bool_decide_eq_true in Hd.
  intros (os & Hos & [= <-])%rbind_inr. rewrite rmap_inr in Hos.
  split_and!; [done| | |].
  - intros e e' He He'. apply eqb_of_true. destruct (eqb_of _ _) eqn:Heq; [done|]. exfalso.
    apply not_true_iff_false in Hinc. apply Hinc, existsb_exists. exists e.
    split; [by apply list_elem_of_In|]. apply existsb_exists. exists e'.
    split; [by apply list_elem_of_In|]. by rewrite Heq.
  - intros e He. apply list_elem_of_lookup in He as [i Hi].
    eapply Forall2_lookup_l in Hos as (o & _ & (a & _ & Ha & _)%verified_signal_ok); [|done]. eauto.
  - intros s. rewrite list_elem_of_omap. unfold recent_signal. split.
    + intros (o & [i Hi]%list_elem_of_lookup & Hs). cbn in Hs. subst o.
      pose proof (Forall2_lookup_r _ _ _ _ _ Hos Hi) as (e & He & (a & p & Ha & Hp & Ho)%verified_signal_ok).
      destruct (max_of (map collected_at l)) as [latest|] eqn:Hl; [|by destruct l].
      cbn in Ho. case_match eqn:Hage; [|done]. injection Ho as ->. cbn.
      rewrite andb_true_iff, age_within_spec, Z.leb_le in Hage.
      split_and!; [by eapply list_elem_of_lookup_2|by exists a|tauto|exists latest; tauto].
    + intros (Hin & (a & Ha & Hp) & Hle & latest & Hl & Hage).
      apply list_elem_of_lookup in Hin as [i Hi].
      pose proof (Forall2_lookup_l _ _ _ _ _ Hos Hi) as (o & Ho & (a' & p & Ha' & Hp' & ->)%verified_signal_ok).
      rewrite Hl in Ho. cbn in Ho. simplify_eq.
      eexists. split; [by eapply list_elem_of_lookup_2|]. cbn.
      assert (age_within latest (observed_at (item s)) MAX_AGE_SECONDS = true) as -> by by apply age_within_spec.
      assert ((observed_at (item s) <=? collected_at (item s)) = true) as -> by by apply Z.leb_le.
      cbn. destruct s; cbn in *. congruence.
Qed.

(** ** Rules *)

Lemma fire_ok r h :
  fire r = Ok h -> cause_code h = code r /\ refuting_evidence_ids h = [] /\
  forall i, i ∈ supporting_evidence_ids h <-> exists s g, g ∈ groups r /\ s ∈ g /\ evidence_id (item s) = i.
Proof.
  unfold fire, hypothesis. destruct (RootCauseHypothesis_valid _); [|done]. intros [= <-]. cbn.
  split_and!; [done..|]. intros i. rewrite from_keys_elem, list_elem_of_fmap.
  setoid_rewrite list_elem_of_In. setoid_rewrite in_concat. naive_solver.
Qed.

Lemma rank_evidence_ok l st hs :
  rank_evidence l st = Ok hs -> exists signals, verified l st = Ok signals /\
    Forall2 (fun r h => fire r = Ok h) (List.filter fires (rules signals)) hs.
Proof. intros (signals & Hs & Hr)%rbind_inr. exists signals. split; [done|]. by apply rmap_inr. Qed.

Lemma fired_codes rs hs :
  Forall2 (fun r h => fire r = Ok h) rs hs -> map cause_code hs = map code rs.
Proof.
  induction 1 as [|r h rs hs (Hc & _)%fire_ok _ IH]; cbn; [done|]. by rewrite Hc, IH.
Qed.

Lemma filter_sublist {A} (p : A -> bool) l : List.filter p l `sublist_of` l.
Proof. induction l as [|x l IH]; cbn; [constructor|]. destruct (p x); by constructor. Qed.

Lemma map_sublist {A B} (f : A -> B) l l' : l `sublist_of` l' -> map f l `sublist_of` map f l'.
Proof. induction 1; cbn; by constructor. Qed.

Lemma rules_signals signals r g s :
  r ∈ rules signals -> g ∈ groups r -> s ∈ g -> s ∈ signals.
Proof.
  unfold rules. intros Hr Hg Hs.
  assert (exists p, g = List.filter p signals) as [p ->].
  { apply list_elem_of_In in Hr, Hg. cbn in Hr.
    destruct Hr as [<-|[<-|[<-|[<-|[]]]]]; cbn in Hg; intuition (subst; eauto). }
  apply list_elem_of_In, filter_In in Hs as [Hs _]. by apply list_elem_of_In.
Qed.

Definition known_causes : list string :=
  ["INVALID_CONFIGURATION"; "READINESS_PROBE_FAILURE"; "PROCESSOR_UNAVAILABLE"; "STARTUP_FAILURE"].

Lemma rules_codes signals : map code (rules signals) = known_causes.
Proof. done. Qed.

Lemma ranked_sublist l st hs : rank_evidence l st = Ok hs -> map cause_code hs `sublist_of` known_causes.
Proof.
  intros (signals & _ & Hf)%rank_evidence_ok. rewrite (fired_codes _ _ Hf), <-(rules_codes signals).
  apply map_sublist, filter_sublist.
Qed.

Lemma filter_nonempty {A} (p : A -> bool) l :
  is_nonempty (List.filter p l) = true <-> exists x, x ∈ l /\ p x = true.
Proof.
  induction l as [|y l IH]; cbn.
  - split; [done|]. by intros (x & ?%elem_of_nil & _).
  - setoid_rewrite elem_of_cons. destruct (p y) eqn:Hp; cbn.
    + split; [eauto|done].
    + rewrite IH. split; [naive_solver|]. intros (x & [->|?] & ?); [congruence|eauto].
Qed.

(** A known cause is ranked exactly when the rule with its code fires. *)
Lemma fired_code signals r :
  r ∈ rules signals -> code r ∈ map code (List.filter fires (rules signals)) <-> fires r = true.
Proof.
  intros Hr. assert (forall r', r' ∈ rules signals -> code r' = code r -> r' = r) as Hinj.
  { apply list_elem_of_In in Hr. intros r' Hr'%list_elem_of_In. cbn in Hr, Hr'.
    destruct Hr as [<-|[<-|[<-|[<-|[]]]]], Hr' as [<-|[<-|[<-|[<-|[]]]]]; done. }
  rewrite list_elem_of_fmap. split.
  - intros (r' & Hc & [Hr' Hf]%list_elem_of_In%filter_In). apply list_elem_of_In in Hr'.
    by rewrite <-(Hinj r' Hr' (eq_sym Hc)).
  - intros Hf. exists r. split; [done|]. by apply list_elem_of_In, filter_In; rewrite <-list_elem_of_In.
Qed.

Lemma fired_at signals i r :
  rules signals !! i = Some r ->
  code r ∈ map code (List.filter fires (rules signals)) <->
  Forall (fun g => is_nonempty g = true) (groups r).
Proof.
  intros Hr%list_elem_of_lookup_2. rewrite (fired_code signals r Hr). unfold fires.
  rewrite forallb_forall, Forall_forall. by setoid_rewrite list_elem_of_In.
Qed.

Definition event_uid (s : Signal) : string :=
  py_str (dget (object_or_empty (dget (payload_of s) "involvedObject")) "uid").

Lemma readiness_event_uid uids s :
  readiness_event uids s = true <-> event_uid s ∈ uids /\ readiness_event [event_uid s] s = true.
Proof.
  unfold readiness_event, event_uid. cbv zeta.
  rewrite !andb_true_iff, !bool_decide_eq_true, list_elem_of_singleton. tauto.
Qed.

(** A probe event names one of the pods. *)
Lemma readiness_event_pod l s :
  readiness_event (pod_uids l) s = true <-> exists u, u ∈ l /\ readiness_event (pod_uids [u]) s = true.
Proof.
  rewrite readiness_event_uid. setoid_rewrite (readiness_event_uid (pod_uids [_]) s).
  unfold pod_uids. setoid_rewrite list_elem_of_omap. setoid_rewrite list_elem_of_singleton. naive_solver.
Qed.
End ranking.

(** the ranker's answer is grounded in verified evidence.  If [rank_evidence] returns,
    every artifact of the evidence verified, stale ones included; the causes are among the
    four known ones in their fixed order; each cites at least one item and refutes none;
    and a report that publishes them with that evidence, of one incident, is grounded. *)
Theorem ranking_grounded `{PyText, ArtifactOps} l st hs rep :
  rank_evidence l st = Ok hs -> rep_evidence rep = l -> ranked_root_causes rep = hs ->
  (forall e, e ∈ l -> ev_incident_id e = rep_incident_id rep) ->
  (forall e, e ∈ l -> exists a, artifact_verify st e = Ok a) /\
  map cause_code hs `sublist_of` known_causes /\
  (forall h, h ∈ hs -> supporting_evidence_ids h <> [] /\ refuting_evidence_ids h = []) /\
  grounded rep.
Proof.
  intros Hrank Hl Hhs Hinc. pose proof (ranked_sublist _ _ _ Hrank) as Hsub.
  destruct (rank_evidence_ok _ _ _ Hrank) as (signals & Hv & Hf).
  destruct (verified_ok _ _ _ Hv) as (Hnd & _ & Hver & Hsig).
  assert (forall h, h ∈ hs -> exists r, r ∈ rules signals /\ fires r = true /\ fire r = Ok h) as Hfired.
  { intros h [i Hi]%list_elem_of_lookup. destruct (Forall2_lookup_r _ _ _ _ _ Hf Hi) as (r & Hr & Hok).
    apply list_elem_of_lookup_2, list_elem_of_In, filter_In in Hr as [Hr Hfires].
    exists r. by rewrite list_elem_of_In. }
  assert (forall h, h ∈ hs -> refuting_evidence_ids h = []) as Hnone.
  { intros h (r & _ & _ & (_ & ? & _)%fire_ok)%Hfired. done. }
  split_and!; [done|done| |].
  - intros h Hh. split; [|by apply Hnone]. destruct (Hfired h Hh) as (r & Hr & Hfires & (_ & _ & Hs)%fire_ok).
    assert (exists s g, g ∈ groups r /\ s ∈ g) as (s & g & Hg & Hsg).
    { unfold fires in Hfires. rewrite forallb_forall in Hfires.
      assert (exists g, g ∈ groups r) as [g Hg].
      { apply list_elem_of_In in Hr. destruct Hr as [<-|[<-|[<-|[<-|[]]]]]; eexists; left. }
      apply list_elem_of_In in Hg as Hg'. apply Hfires in Hg'. destruct g as [|s g]; [done|].
      exists s, (s :: g). split; [done|left]. }
    intros Hnil. assert (evidence_id (item s) ∈ supporting_evidence_ids h) as Hin by (apply Hs; eauto).
    rewrite Hnil in Hin. by apply elem_of_nil in Hin.
  - split; rewrite ?Hl, ?Hhs; [done|done| | |].
    + eapply sublist_NoDup; [|exact Hsub]. apply (bool_decide_unpack _). by vm_compute.
    + intros h i Hh. rewrite (Hnone h Hh), app_nil_r. destruct (Hfired h Hh) as (r & Hr & _ & (_ & _ & Hs)%fire_ok).
      intros (s & g & Hg & Hsg & <-)%Hs. exists (item s). split; [|done].
      pose proof (rules_signals _ _ _ _ Hr Hg Hsg) as Hin. by apply Hsig in Hin as [? _].
    + intros h i Hh _. rewrite (Hnone h Hh). apply not_elem_of_nil.
Qed.

Definition some_signal `{PyText, ArtifactOps} (l : list EvidenceItem) (st : artifact_store)
  (p : Signal -> bool) : Prop := exists s, recent_signal l st s /\ p s = true.

(** C14: every cause is corroborated, and corroborated causes are reported.  If
    [rank_evidence] returns, it ranks a cause exactly when each kind of signal its rule asks
    for occurs among the verified, recent ones: a degraded deployment with a crashed
    container and a configuration error in the logs; with a running, unready container and
    a probe event of that same pod; no processor replica, no processor pod and failed
    accesses; or degradation with crashes alone. *)
Theorem ranking_corroborated `{PyText, ArtifactOps} l st hs :
  rank_evidence l st = Ok hs ->
  let some := some_signal l st in
  ("INVALID_CONFIGURATION" ∈ map cause_code hs <-> some degraded /\ some crashed /\ some invalid_configuration) /\
  ("READINESS_PROBE_FAILURE" ∈ map cause_code hs <->
     some degraded /\ exists u, recent_signal l st u /\ running_unready u = true /\
       some (readiness_event (pod_uids [u]))) /\
  ("PROCESSOR_UNAVAILABLE" ∈ map cause_code hs <->
     some processor_absent /\ some no_processor_pods /\ some failed_access) /\
  ("STARTUP_FAILURE" ∈ map cause_code hs <-> some degraded /\ some crashed).
Proof.
  intros (signals & Hv & Hf)%rank_evidence_ok. cbv zeta.
  destruct (verified_ok _ _ _ Hv) as (_ & _ & _ & Hsig). rewrite (fired_codes _ _ Hf).
  assert (forall p, is_nonempty (List.filter p signals) = true <-> some_signal l st p) as Hsome.
  { intros p. rewrite filter_nonempty. unfold some_signal. by setoid_rewrite Hsig. }
  split_and!.
  - rewrite (fired_at signals 0 _ eq_refl). cbn [groups]. rewrite !Forall_cons, !Hsome. naive_solver.
  - rewrite (fired_at signals 1 _ eq_refl). cbn [groups]. rewrite !Forall_cons, !Hsome. split.
    + intros (Hd & _ & (s & Hs & (u & [Hu Hrun]%list_elem_of_In%filter_In & He)%readiness_event_pod) & _).
      apply list_elem_of_In, Hsig in Hu. split; [done|]. exists u. split_and!; [done|done|by exists s].
    + intros (? & u & Hu & Hrun & s & ? & ?). split_and!; [done|by exists u| |constructor].
      exists s. split; [done|]. apply readiness_event_pod. exists u. split; [|done].
      apply list_elem_of_In, filter_In. split; [|done]. by apply list_elem_of_In, Hsig.
  - rewrite (fired_at signals 2 _ eq_refl). cbn [groups]. rewrite !Forall_cons, !Hsome. naive_solver.
  - rewrite (fired_at signals 3 _ eq_refl). cbn [groups]. rewrite !Forall_cons, !Hsome. naive_solver.
Qed.

(** ** A concrete crash loop *)

#[local] Instance no_clock_text : PyText := {| fromisoformat := fun _ => None; str_of := fun _ => "None" |}.

#[local] Instance filed_artifacts : ArtifactOps := {|
  artifact_store := list (string * list (string * json));
  artifact_verify st e :=
    match List.find (fun kv => eqb_of kv.1 (evidence_id e)) st with
    | Some kv => Ok (JObj [("payload", JObj kv.2)])
    | None => Err (EvidenceIntegrityError "artifact unavailable")
    end;
  window_complete _ _ := Ok false |}.

Definition crash_pod : EvidenceItem := {|
  evidence_id := "ev-pod"; ev_incident_id := "inc-1"; source := KUBERNETES;
  observed_at := noon; collected_at := noon; query := "pods.list"; resource := "payments-api-7d9-x2";
  artifact_uri := "sha256://"; artifact_sha256 := sha_of_nothing; summary := "pod" |}.
Definition short_deployment : EvidenceItem := {|
  evidence_id := "ev-dep"; ev_incident_id := "inc-1"; source := DEPLOYMENT;
  observed_at := noon; collected_at := noon; query := "deployments.get"; resource := "payments-api";
  artifact_uri := "sha256://"; artifact_sha256 := sha_of_nothing; summary := "deployment" |}.

Definition crash_files : @artifact_store filed_artifacts :=
  [("ev-pod", [("kind", JStr "Pod"); ("status", JObj [("containerStatuses", JList [JObj
     [("restartCount", JInt 4); ("ready", JBool false);
      ("lastState", JObj [("terminated", JObj [("exitCode", JInt 1)])])]])])]);
   ("ev-dep", [("kind", JStr "Deployment"); ("replicas", JInt 1);
     ("status", JObj [("availableReplicas", JInt 0)])])].

Definition startup_failure : RootCauseHypothesis :=
  {| cause_code := "STARTUP_FAILURE"; confidence := float_lit 75 100;
     supporting_evidence_ids := ["ev-dep"; "ev-pod"]; refuting_evidence_ids := []; missing_evidence := [] |}.

Definition startup_report : IncidentReport := {|
  rep_incident_id := "inc-1"; rep_evidence := [crash_pod; short_deployment];
  ranked_root_causes := [startup_failure]; terminal_state := ESCALATED; rep_mode := local_kind;
  duration_seconds := float_of_Z 3; rep_ranking_method := deterministic; rep_stop_reason := None;
  rep_receipts := []; trace_id := "trace-1" |}.

Lemma ranking_grounded_witness :
  (forall e, e ∈ [crash_pod; short_deployment] -> exists a, artifact_verify crash_files e = Ok a) /\
  map cause_code [startup_failure] `sublist_of` known_causes /\
  (forall h, h ∈ [startup_failure] -> supporting_evidence_ids h <> [] /\ refuting_evidence_ids h = []) /\
  grounded startup_report.
Proof.
  apply (ranking_grounded [crash_pod; short_deployment] crash_files [startup_failure] startup_report).
  - vm_compute. reflexivity.
  - reflexivity.
  - reflexivity.
  - apply (Forall_forall _ _). repeat constructor.
Defined.

Lemma ranking_corroborated_witness :
  let some := some_signal [crash_pod; short_deployment] crash_files in
  ("INVALID_CONFIGURATION" ∈ map cause_code [startup_failure] <->
     some degraded /\ some crashed /\ some invalid_configuration) /\
  ("READINESS_PROBE_FAILURE" ∈ map cause_code [startup_failure] <->
     some degraded /\ exists u, recent_signal [crash_pod; short_deployment] crash_files u /\
       running_unready u = true /\ some (readiness_event (pod_uids [u]))) /\
  ("PROCESSOR_UNAVAILABLE" ∈ map cause_code [startup_failure] <->
     some processor_absent /\ some no_processor_pods /\ some failed_access) /\
  ("STARTUP_FAILURE" ∈ map cause_code [startup_failure] <-> some degraded /\ some crashed).
Proof.
  apply (ranking_corroborated [crash_pod; short_deployment] crash_files [startup_failure]).
  vm_compute. reflexivity.
Defined.
