(* ===== verification/Deployment.v ===== *)
(** * Deployment plans and their executor: [payops/remediation/deployment.py] and
    [payops/remediation/local_executor.py]

    A plan is the old and the new spec of a Deployment; the executor submits it as one
    conditional patch and polls the rollout.  [kubectl] answers requests with the object it
    printed; the monotonic clock and [sleep] are requests too. *)

From S2P Require Import Prelude Text Json Contracts Effects Policy ActionStore Broker.

Open Scope string_scope.
Open Scope list_scope.
Open Scope Z_scope.
Open Scope result_scope.
Open Scope prog_scope.

(** [object_value], [object_items] of [scenarios/contracts.py] *)
Definition object_value (j : json) : result (list (string * json)) :=
  match j with JObj o => Ok o | _ => Err (ValueError "expected Kubernetes JSON object") end.
Definition object_items (j : json) : result (list (list (string * json))) :=
  match j with JList l => rmap object_value l | _ => Err (ValueError "expected Kubernetes JSON list") end.

(** A [Mapping[str, str]] as its items *)
Definition mapping_get (m : list (string * string)) (k : string) : option string :=
  snd <$> List.find (fun kv => eqb_of kv.1 k) m.

(** ** [deployment.py] *)

Record DeploymentPlan : Type := {
  plan_action : Action;
  spec_before : list (string * json);
  spec_after : list (string * json);
}.

(** [DeploymentPlan.patch] *)
Definition patch (p : DeploymentPlan) : list json :=
  let op name path v := JObj [("op", JStr name); ("path", JStr path); ("value", v)] in
  [op "test" "/metadata/uid" (JStr (resource_uid (plan_action p)));
   op "test" "/metadata/resourceVersion" (JStr (expected_version (plan_action p)));
   op "test" "/spec" (JObj (spec_before p));
   op "replace" "/spec" (JObj (spec_after p))].

(** [validate_target] *)
Definition validate_target (a : Action) (inventory : list (string * string)) : result unit :=
  let! _ := ACTION_validate (dump_action a) in
  if negb (eqb_of (act_mode a) local_kind)
     || negb (eqb_of (act_namespace a) "payops-sandbox")
     || negb (bool_decide (act_service a ∈ SERVICES))
     || negb (eqb_of (mapping_get inventory (act_service a)) (Some (resource_uid a)))
     || is_pause a
  then Err (PermissionError "EXECUTOR_TARGET_DENIED") else Ok tt.

(** [deployment_spec] *)
Definition deployment_spec (a : Action) (current : list (string * json))
  : result (list (string * json)) :=
  let! m := ditem current "metadata" in
  let! metadata := object_value m in
  let! labels := object_value (dget_or metadata "labels" (JObj [])) in
  if negb (is_str (dget current "kind") "Deployment")
     || negb (is_str (dget current "apiVersion") "apps/v1")
     || negb (is_str (dget metadata "namespace") (act_namespace a) &&
              is_str (dget metadata "name") (act_service a) &&
              is_str (dget metadata "uid") (resource_uid a) &&
              is_str (dget metadata "resourceVersion") (expected_version a))
     || negb (is_str (dget labels "app.kubernetes.io/part-of") "payops")
     || negb (is_none (dget metadata "deletionTimestamp"))
  then Err (PermissionError "EXECUTOR_PRECONDITION_FAILED")
  else
    let! spec := ditem current "spec" in
    object_value spec.

Definition alnum (c : Ascii.ascii) : bool :=
  ascii_between 97 122 c || ascii_between 65 90 c || is_digit c.
(** [[a-zA-Z0-9./:_-]] *)
Definition image_char (c : Ascii.ascii) : bool :=
  alnum c || ascii_between 45 47 c || ascii_between 58 58 c || ascii_between 95 95 c.

(** [re.fullmatch(r"[a-zA-Z0-9][a-zA-Z0-9./:_-]*@sha256:" + re.escape(revision), image)] *)
Definition image_ok (revision image : string) : bool :=
  match partition (Ascii.ascii_of_nat 64) image with
  | Some (String c name, tail) =>
      alnum c && str_all image_char name && eqb_of tail ("sha256:" +:+ revision)
  | _ => false
  end.

(** [rollback_image] *)
Definition rollback_image (revision : string) (revisions : list (string * string)) : result string :=
  let image := default EmptyString (mapping_get revisions revision) in
  if image_ok revision image then Ok image else Err (PermissionError "EXECUTOR_REVISION_DENIED").

(** The change of [plan_deployment] to the copied spec.  The code assigns into objects nested
    in the copy; here the enclosing objects are rebuilt around the assignment. *)
Definition scaled (spec : list (string * json)) (n : Z) : list (string * json) :=
  dset spec "replicas" (JInt n).

Definition rolled_back (spec : list (string * json)) (rev : string) (revisions : list (string * string))
  : result (list (string * json)) :=
  let! t := ditem spec "template" in
  let! template := object_value t in
  let! s := ditem template "spec" in
  let! pod := object_value s in
  let! cs := ditem pod "containers" in
  let! containers := object_items cs in
  match containers with
  | [container] =>
      if negb (is_str (dget container "name") "sandbox") then
        Err (PermissionError "EXECUTOR_CONTAINER_DENIED")
      else
        let! image := rollback_image rev revisions in
        let pod := dset pod "containers" (JList [JObj (dset container "image" (JStr image))]) in
        Ok (dset spec "template" (JObj (dset template "spec" (JObj pod))))
  | _ => Err (PermissionError "EXECUTOR_CONTAINER_DENIED")
  end.

Definition restart_marked (spec : list (string * json)) (key : string) : result (list (string * json)) :=
  let! t := ditem spec "template" in
  let! template := object_value t in
  let! m := ditem template "metadata" in
  let! metadata := object_value m in
  let! annotations := object_value (dget_or metadata "annotations" (JObj [])) in
  let annotations := dset annotations "payops.dev/remediation" (JStr key) in
  Ok (dset spec "template"
        (JObj (dset template "metadata" (JObj (dset metadata "annotations" (JObj annotations)))))).

(** [plan_deployment] *)
Definition plan_deployment (a : Action) (current : list (string * json)) (key : string)
  (inventory revisions : list (string * string)) : result DeploymentPlan :=
  let! _ := validate_target a inventory in
  if negb (eqb_of key (action_digest a)) then Err (PermissionError "EXECUTOR_DIGEST_MISMATCH")
  else
    let! spec := deployment_spec a current in
    let! changed := match a with
                    | ScaleAction _ n => Ok (scaled spec n)
                    | RollbackAction _ rev => rolled_back spec rev revisions
                    | _ => restart_marked spec key
                    end in
    Ok {| plan_action := a; spec_before := spec; spec_after := changed |}.

(** [rollout_ready] *)
Definition rollout_ready (p : DeploymentPlan) (current : list (string * json)) : result bool :=
  let! m := ditem current "metadata" in
  let! metadata := object_value m in
  if negb (is_str (dget metadata "uid") (resource_uid (plan_action p)))
     || negb (py_eq (dget current "spec") (JObj (spec_after p)))
  then Err (PermissionError "EXECUTOR_POSTCHECK_DRIFT")
  else if negb (is_none (dget metadata "deletionTimestamp")) then
    Err (PermissionError "EXECUTOR_POSTCHECK_DELETING")
  else
    let! status := object_value (dget_or current "status" (JObj [])) in
    Ok match dget_or (spec_after p) "replicas" (JInt 1), dget metadata "generation" with
       | JInt replicas, JInt generation =>
           (0 <? replicas) && py_eq (dget status "observedGeneration") (JInt generation) &&
           forallb (fun field => match dget status field with JInt n => n =? replicas | _ => false end)
             ["replicas"; "updatedReplicas"; "readyReplicas"; "availableReplicas"] &&
           py_eq (dget_or status "unavailableReplicas" (JInt 0)) (JInt 0)
       | _, _ => false
       end.

(** ** [local_executor.py] *)

Inductive exec_call : Type :=
  | XKubectl (args : list string)
  | XPatch (service : string) (ops : list json)
  | XMonotonic
  | XWait (seconds : spec_float)
  | XNow.

Definition exec_answer (c : exec_call) : Type :=
  match c with
  | XKubectl _ | XPatch _ _ => list (string * json)
  | XMonotonic => spec_float
  | XWait _ => unit
  | XNow => datetime
  end.

Abbreviation xprog := (prog exec_answer).
Abbreviation host := (call (R:=exec_answer)) (only parsing).

(** What the operator configures. *)
Record ExecutorConfig : Type := {
  namespace_uid : string;
  inventory : list (string * string);
  revisions : list (string * list (string * string));
  postcheck_seconds : spec_float;
}.

(** The check of [__init__] *)
Definition executor_valid (c : ExecutorConfig) : bool :=
  negb (eqb_of (namespace_uid c) EmptyString) && is_nonempty (inventory c) &&
  forallb (fun kv => bool_decide (kv.1 ∈ SERVICES)) (inventory c) &&
  forallb (fun kv => bool_decide (kv.1 ∈ map fst (inventory c))) (revisions c) &&
  SFleb (float_of_Z 1) (postcheck_seconds c) && SFleb (postcheck_seconds c) (float_of_Z 120).

Section executor.
Context (config : ExecutorConfig).

Definition service_revisions (service : string) : list (string * string) :=
  default [] (snd <$> List.find (fun kv => eqb_of kv.1 service) (revisions config)).

(** [_namespace] *)
Definition check_namespace : xprog unit :=
  let* current := host (XKubectl ["get"; "namespace"; "payops-sandbox"]) in
  let* m := lift (ditem current "metadata") in
  let* metadata := lift (object_value m) in
  if negb (is_str (dget metadata "uid") (namespace_uid config))
     || negb (is_str (dget metadata "name") "payops-sandbox")
     || negb (is_none (dget metadata "deletionTimestamp"))
  then Raise (PermissionError "EXECUTOR_NAMESPACE_CHANGED") else Ret tt.

(** [_read] *)
Definition read_deployment (service : string) : xprog (list (string * json)) :=
  if negb (bool_decide (is_Some (mapping_get (inventory config) service)))
     || negb (bool_decide (service ∈ SERVICES))
  then Raise (PermissionError "EXECUTOR_SERVICE_DENIED")
  else host (XKubectl ["get"; "deployment"; service]).

Definition field_of (metadata : list (string * json)) (str : json -> string) (k : string) : result string :=
  let! j := ditem metadata k in Ok (str j).

(** [ResourceSnapshot(...)] *)
Definition ResourceSnapshot_validate (r : ResourceSnapshot) : result ResourceSnapshot :=
  if identifier_ok (res_namespace r) && identifier_ok (res_service r) && identifier_ok (uid r) &&
     identifier_ok (version r) && between 0 100 (res_replicas r) &&
     forallb digest_ok (approved_revisions r) && operation_mode_ok (res_mode r)
  then Ok r else Err (ValueError "ResourceSnapshot").

(** [str(value)] of values that are no strings *)
Context (str_of : json -> string).
Definition text_of (j : json) : string := match j with JStr s => s | _ => str_of j end.

(** [snapshot] *)
Definition executor_snapshot (a : Action) : xprog ResourceSnapshot :=
  do* lift (validate_target a (inventory config)) in
  do* check_namespace in
  let* current := read_deployment (act_service a) in
  let* m := lift (ditem current "metadata") in
  let* metadata := lift (object_value m) in
  let* labels := lift (object_value (dget_or metadata "labels" (JObj []))) in
  let* s := lift (ditem current "spec") in
  let* spec := lift (object_value s) in
  match dget_or spec "replicas" (JInt 1) with
  | JInt replicas =>
      let* ns := lift (field_of metadata text_of "namespace") in
      let* name := lift (field_of metadata text_of "name") in
      let* u := lift (field_of metadata text_of "uid") in
      let* v := lift (field_of metadata text_of "resourceVersion") in
      let* now := host XNow in
      lift (ResourceSnapshot_validate
        {| res_namespace := ns; res_service := name; uid := u; version := v; res_observed_at := now;
           kind := Deployment;
           synthetic := is_str (dget labels "app.kubernetes.io/part-of") "payops"
                        && is_none (dget metadata "deletionTimestamp");
           res_replicas := replicas;
           approved_revisions := map fst (service_revisions (act_service a));
           res_mode := local_kind |})
  | _ => Raise (ValueError "invalid deployment replica count")
  end.

(** [_receipt] *)
Definition receipt (a : Action) (current : list (string * json)) (ready : bool) : result EffectReceipt :=
  let! m := ditem current "metadata" in
  let! metadata := object_value m in
  let! v := field_of metadata text_of "resourceVersion" in
  EffectReceipt_validate
    {| outcome := if ready then OUTCOME_SUCCEEDED else OUTCOME_FAILED; rcp_resource_uid := resource_uid a;
       previous_version := expected_version a; resulting_version := Some v |}.

(** [min(1, max(0, remaining))] *)
Definition pause_seconds (remaining : spec_float) : spec_float :=
  let positive := if SFltb float_zero remaining then remaining else float_zero in
  if SFltb positive (float_of_Z 1) then positive else float_of_Z 1.

Definition out_of_fuel : exn := OtherError "poll budget of the model".

(** The [while] loop of [execute], for at most [fuel] tests of its condition *)
Fixpoint poll (fuel : nat) (p : DeploymentPlan) (deadline : spec_float) (current : list (string * json))
  : xprog EffectReceipt :=
  match fuel with
  | O => Raise out_of_fuel
  | S fuel =>
      let* ready := lift (rollout_ready p current) in
      if ready : bool then
        let* now := host XMonotonic in
        lift (receipt (plan_action p) current (SFleb now deadline))
      else
        let* now := host XMonotonic in
        if SFleb deadline now then lift (receipt (plan_action p) current false)
        else
          let* now := host XMonotonic in
          do* host (XWait (pause_seconds (float_sub deadline now))) in
          do* check_namespace in
          let* current := read_deployment (act_service (plan_action p)) in
          poll fuel p deadline current
  end.

(** [execute] *)
Definition executor_execute (fuel : nat) (a : Action) (key : string) : xprog EffectReceipt :=
  do* lift (validate_target a (inventory config)) in
  do* check_namespace in
  let* read := read_deployment (act_service a) in
  let* p := lift (plan_deployment a read key (inventory config) (service_revisions (act_service a))) in
  let* current := host (XPatch (act_service a) (patch p)) in
  let* started := host XMonotonic in
  poll fuel p (float_add started (postcheck_seconds config)) current.
End executor.
