(* ===== verification/DeploymentTheorems.v ===== *)
(** * Closed plans, single conditional writes *)

From S2P Require Import Prelude Text Json Contracts Effects Policy ActionStore Broker Deployment Walkthrough.

Open Scope string_scope.
Open Scope list_scope.
Open Scope Z_scope.
Open Scope result_scope.

(** ** Positions in a value *)

Inductive step : Type := Key (k : string) | Index (n : nat).
#[export] Instance step_eq_dec : EqDecision step.
Proof. solve_decision. Defined.

Fixpoint at_path (p : list step) (j : json) : option json :=
  match p with
  | [] => Some j
  | Key k :: p => match j with JObj o => dict_find o k ≫= at_path p | _ => None end
  | Index n :: p => match j with JList l => l !! n ≫= at_path p | _ => None end
  end.

(** From [old] to [new], [w] was put at [path] and nothing else was touched. *)
Definition changed_at (path : list step) (old new : option json) (w : json) : Prop :=
  new ≫= at_path path = Some w /\
  forall q, ~ q `prefix_of` path -> ~ path `prefix_of` q -> new ≫= at_path q = old ≫= at_path q.

Lemma changed_here old w : changed_at [] old (Some w) w.
Proof. split; [done|]. intros q _ Hq. destruct Hq. apply prefix_nil. Qed.

Lemma changed_key k path o v w :
  changed_at path (dict_find o k) (Some v) w ->
  changed_at (Key k :: path) (Some (JObj o)) (Some (JObj (dset o k v))) w.
Proof.
  intros [Hw Hq]. cbn in Hw. split; [cbn; by rewrite dict_find_dset_eq|].
  intros [|[k'|n] q] H1 H2; [by destruct H1; apply prefix_nil| |done]. cbn.
  destruct (decide (k = k')) as [<-|Hne]; [|by rewrite dict_find_dset_ne].
  rewrite dict_find_dset_eq. apply Hq.
  - intros Hp. by apply H1, prefix_cons.
  - intros Hp. by apply H2, prefix_cons.
Qed.

Lemma changed_single path x v w :
  changed_at path (Some x) (Some v) w ->
  changed_at (Index 0 :: path) (Some (JList [x])) (Some (JList [v])) w.
Proof.
  intros [Hw Hq]. cbn in Hw. split; [done|].
  intros [|[k|[|n]] q] H1 H2; [by destruct H1; apply prefix_nil|done| |done]. cbn.
  apply Hq.
  - intros Hp. by apply H1, prefix_cons.
  - intros Hp. by apply H2, prefix_cons.
Qed.

(** An absent object may be created on the way. *)
Lemma changed_missing path new w :
  changed_at path (Some (JObj [])) new w -> path <> [] -> changed_at path None new w.
Proof.
  intros [Hw Hq] Hpath. split; [done|]. intros q H1 H2. rewrite (Hq q H1 H2).
  destruct q as [|[k|n] q]; [|done..]. by destruct H1; apply prefix_nil.
Qed.

(** ** Plans *)

(** The field an action may change *)
Definition target (a : Action) : list step :=
  match a with
  | ScaleAction _ _ => [Key "replicas"]
  | RollbackAction _ _ => [Key "template"; Key "spec"; Key "containers"; Index 0; Key "image"]
  | _ => [Key "template"; Key "metadata"; Key "annotations"; Key "payops.dev/remediation"]
  end.

(** What an action may put there *)
Definition approved_value (a : Action) (key : string) (revisions : list (string * string)) (w : json) : Prop :=
  match a with
  | ScaleAction _ n => w = JInt n
  | RollbackAction _ rev => exists image,
      w = JStr image /\ mapping_get revisions rev = Some image /\ image_ok rev image = true
  | _ => w = JStr key
  end.

Lemma object_value_ok j o : object_value j = Ok o -> j = JObj o.
Proof. destruct j; cbn; naive_solver. Qed.

Lemma ditem_ok d k j : ditem d k = Ok j -> dict_find d k = Some j.
Proof. unfold ditem. destruct (dict_find d k); naive_solver. Qed.

Lemma rollback_image_ok rev revisions image :
  rollback_image rev revisions = Ok image -> mapping_get revisions rev = Some image /\ image_ok rev image = true.
Proof.
  unfold rollback_image. destruct (image_ok rev _) eqn:Hok; [|done]. intros [= <-].
  destruct (mapping_get revisions rev); [done|]. by vm_compute in Hok.
Qed.

Lemma rolled_back_changed spec rev revisions changed :
  rolled_back spec rev revisions = Ok changed ->
  exists image, mapping_get revisions rev = Some image /\ image_ok rev image = true /\
    changed_at [Key "template"; Key "spec"; Key "containers"; Index 0; Key "image"]
      (Some (JObj spec)) (Some (JObj changed)) (JStr image).
Proof.
  unfold rolled_back.
  intros (t & Ht%ditem_ok & (template & ->%object_value_ok & (s & Hs%ditem_ok & (pod & ->%object_value_ok &
    (cs & Hcs%ditem_ok & (containers & Hc & Hrest)%rbind_inr)%rbind_inr)%rbind_inr)%rbind_inr)%rbind_inr)%rbind_inr.
  destruct containers as [|container [|? ?]]; try done.
  destruct (negb _); [done|]. apply rbind_inr in Hrest as (image & [Hm Hi]%rollback_image_ok & [= <-]).
  exists image. split_and!; [done|done|].
  assert (cs = JList [JObj container]) as ->.
  { destruct cs as [| | | | |l|]; try done. cbn in Hc. destruct l as [|x [|y l]]; cbn in Hc; [done| |].
    - apply rbind_inr in Hc as (c & ->%object_value_ok & [= <-]). done.
    - apply rbind_inr in Hc as (c & _ & (cs' & Hcs' & [= <- ->])%rbind_inr).
      apply rbind_inr in Hcs' as (? & _ & (? & _ & [=])%rbind_inr). }
  apply changed_key. rewrite Ht. apply changed_key. rewrite Hs. apply changed_key. rewrite Hcs.
  apply changed_single, changed_key, changed_here.
Qed.

Lemma restarted_changed spec key changed :
  restart_marked spec key = Ok changed ->
  changed_at [Key "template"; Key "metadata"; Key "annotations"; Key "payops.dev/remediation"]
    (Some (JObj spec)) (Some (JObj changed)) (JStr key).
Proof.
  unfold restart_marked.
  intros (t & Ht%ditem_ok & (template & ->%object_value_ok & (m & Hm%ditem_ok & (metadata & ->%object_value_ok &
    (annotations & Ha%object_value_ok & [= <-])%rbind_inr)%rbind_inr)%rbind_inr)%rbind_inr)%rbind_inr.
  apply changed_key. rewrite Ht. apply changed_key. rewrite Hm. apply changed_key.
  unfold dget_or in Ha. destruct (dict_find metadata "annotations"); cbn in Ha.
  - subst. apply changed_key, changed_here.
  - injection Ha as <-. apply changed_missing; [|done]. apply changed_key, changed_here.
Qed.

(** What the executor may act on: an action of the sandbox and of the local cluster, about a
    service of the inventory and the object there *)
Definition targeted (a : Action) (inventory : list (string * string)) : Prop :=
  act_mode a = local_kind /\ act_namespace a = "payops-sandbox" /\ act_service a ∈ SERVICES /\
  mapping_get inventory (act_service a) = Some (resource_uid a) /\ is_pause a = false.

(** The object is the deployment the action is about, at the version it was approved for. *)
Definition current_for (a : Action) (current : list (string * json)) : Prop :=
  dget current "kind" = JStr "Deployment" /\ dget current "apiVersion" = JStr "apps/v1" /\
  exists metadata labels, dict_find current "metadata" = Some (JObj metadata) /\
    dget metadata "namespace" = JStr (act_namespace a) /\ dget metadata "name" = JStr (act_service a) /\
    dget metadata "uid" = JStr (resource_uid a) /\
    dget metadata "resourceVersion" = JStr (expected_version a) /\
    dget metadata "deletionTimestamp" = JNull /\
    dget metadata "labels" = JObj labels /\ dget labels "app.kubernetes.io/part-of" = JStr "payops".

Lemma validate_target_ok a inventory u : validate_target a inventory = Ok u -> targeted a inventory.
Proof.
  unfold validate_target. intros (j & _ & Hr)%rbind_inr. destruct (_ || _) eqn:Hc in Hr; [done|].
  rewrite !orb_false_iff, !negb_false_iff, !eqb_of_true, bool_decide_eq_true in Hc. unfold targeted. tauto.
Qed.

Lemma is_none_true j : is_none j = true -> j = JNull.
Proof. by destruct j. Qed.

Lemma deployment_spec_ok a current spec :
  deployment_spec a current = Ok spec -> current_for a current /\ dict_find current "spec" = Some (JObj spec).
Proof.
  unfold deployment_spec. intros (m & Hm%ditem_ok & (md & ->%object_value_ok & (ls & Hls%object_value_ok & Hr)%rbind_inr)%rbind_inr)%rbind_inr.
  destruct (_ || _) eqn:Hc in Hr; [done|].
  rewrite !orb_false_iff, !negb_false_iff, !andb_true_iff, !is_str_true in Hc.
  destruct Hc as ((((Hk & Hv) & ((Hns & Hn) & Hu) & Hrv) & Hp) & Hdel%is_none_true).
  apply rbind_inr in Hr as (j & Hj%ditem_ok & ->%object_value_ok). split; [|done].
  split_and!; [done..|]. exists md, ls. split_and!; try done.
  unfold dget, dget_or in *. destruct (dict_find md "labels") as [l|]; [done|].
  cbn in Hls. injection Hls as <-. by vm_compute in Hp.
Qed.

Lemma plan_contents a current key inventory revisions p :
  plan_deployment a current key inventory revisions = Ok p ->
  targeted a inventory /\ key = action_digest a /\ plan_action p = a /\
  current_for a current /\ dict_find current "spec" = Some (JObj (spec_before p)) /\
  exists w, approved_value a key revisions w /\
    changed_at (target a) (Some (JObj (spec_before p))) (Some (JObj (spec_after p))) w.
Proof.
  unfold plan_deployment. intros (u & Hv%validate_target_ok & Hrest)%rbind_inr.
  destruct_eqb key (action_digest a); [|done].
  apply rbind_inr in Hrest as (spec & [Hcur Hs]%deployment_spec_ok & (changed & Hc & [= <-])%rbind_inr).
  cbn [plan_action spec_before spec_after]. split_and!; [done..|].
  destruct a as [b|b n|b rev|b]; cbn in *.
  - eexists. split; [done|]. by apply restarted_changed.
  - injection Hc as <-. eexists. split; [done|]. apply changed_key, changed_here.
  - apply rolled_back_changed in Hc as (image & ? & ? & ?). eauto 10.
  - eexists. split; [done|]. by apply restarted_changed.
Qed.

(** C15: a plan changes exactly the approved field.  If [plan_deployment] returns a plan, the
    action is valid, of the sandbox and the local cluster, and about the inventory's object; the
    key is the action's digest; the deployment read is that object at the version observed, and
    is not being deleted; the plan's old spec is the current one; and the new spec
    holds the approved replica count, restart mark or digest-pinned operator image at the
    one field the action may change, and agrees with the old spec everywhere else. *)
Theorem plan_exact a current key inventory revisions p :
  plan_deployment a current key inventory revisions = Ok p ->
  validate_target a inventory = Ok tt /\ targeted a inventory /\ key = action_digest a /\ plan_action p = a /\
  deployment_spec a current = Ok (spec_before p) /\ current_for a current /\
  dict_find current "spec" = Some (JObj (spec_before p)) /\
  exists w, approved_value a key revisions w /\
    changed_at (target a) (Some (JObj (spec_before p))) (Some (JObj (spec_after p))) w.
Proof.
  intros Hp. destruct (plan_contents _ _ _ _ _ _ Hp) as (Ht & Hk & Ha & Hc & Hs & Hw).
  revert Hp. unfold plan_deployment. intros ([] & Hv & Hrest)%rbind_inr. destruct (negb _); [done|].
  apply rbind_inr in Hrest as (spec & Hspec & (changed & _ & [= <-])%rbind_inr). by split_and!.
Qed.

Lemma plan_deployment_action a current key inv revs p :
  plan_deployment a current key inv revs = Ok p -> plan_action p = a /\ key = action_digest a.
Proof.
  unfold plan_deployment. intros (? & _ & Hp)%rbind_inr. revert Hp.
  destruct_eqb key (action_digest a); cbn [negb]; [|done].
  by intros (? & _ & (? & _ & [= <-])%rbind_inr)%rbind_inr.
Qed.

(** ** The executor *)

Definition is_patch (o : obs exec_answer) : bool :=
  match projT1 o with XPatch _ _ => true | _ => false end.

Definition reading (c : exec_call) : Prop := match c with XPatch _ _ => False | _ => True end.

Section executor.
Context (config : ExecutorConfig) (str_of : json -> string).

Ltac reads := repeat first
  [ apply issues_bind; [|intros ?] | apply issues_call; exact I | apply issues_lift | done
  | match goal with |- issues _ (if ?b then _ else _) => destruct b end ].

Lemma check_namespace_reads : issues reading (check_namespace config).
Proof. unfold check_namespace. reads. Qed.

Lemma read_deployment_reads s : issues reading (read_deployment config s).
Proof. unfold read_deployment. destruct (_ || _); [done|].
  by apply (issues_call (R:=exec_answer) reading (XKubectl _)). Qed.

Lemma poll_reads fuel p deadline current : issues reading (poll config str_of fuel p deadline current).
Proof.
  revert current. induction fuel as [|fuel IH]; intros current; cbn [poll]; [done|].
  apply issues_bind; [apply issues_lift|]. intros [|].
  - reads.
  - apply issues_bind; [by apply issues_call|]. intros now.
    destruct (SFleb deadline now); [apply issues_lift|].
    apply issues_bind; [by apply issues_call|]. intros now'.
    apply issues_bind; [by apply issues_call|]. intros _.
    apply issues_bind; [apply check_namespace_reads|]. intros _.
    apply issues_bind; [apply read_deployment_reads|]. intros c. apply IH.
Qed.

Lemma reading_no_patch tr : Forall (fun o : obs exec_answer => reading (projT1 o)) tr -> filter is_patch tr = [].
Proof.
  induction 1 as [|[c r] tr Hc _ IH]; [done|]. rewrite filter_cons. destruct c; by rewrite ?IH.
Qed.

Lemma reads_no_patch {A} (m : prog exec_answer A) tr out :
  issues reading m -> runs m tr out -> filter is_patch tr = [].
Proof. intros Hi Hr. apply reading_no_patch. by eapply runs_issues. Qed.

Lemma read_deployment_run s tr o :
  runs (read_deployment config s) tr (Ok o) -> tr = [existT (XKubectl ["get"; "deployment"; s]) (Ok o)].
Proof. unfold read_deployment. intros Hr. by run_ok. Qed.

(** A receipt speaks of the state it was made from. *)
Lemma poll_receipt fuel p deadline current tr r :
  runs (poll config str_of fuel p deadline current) tr (Ok r) ->
  rcp_resource_uid r = resource_uid (plan_action p) /\
  previous_version r = expected_version (plan_action p) /\
  (outcome r = OUTCOME_SUCCEEDED -> exists last now,
     rollout_ready p last = Ok true /\ SFleb now deadline = true /\
     (existT XMonotonic (Ok now) : obs exec_answer) ∈ tr /\
     (last = current \/ (existT (XKubectl ["get"; "deployment"; act_service (plan_action p)]) (Ok last) : obs exec_answer) ∈ tr)).
Proof.
  assert (forall cur b r', receipt str_of (plan_action p) cur b = Ok r' ->
    rcp_resource_uid r' = resource_uid (plan_action p) /\ previous_version r' = expected_version (plan_action p) /\
    outcome r' = if b then OUTCOME_SUCCEEDED else OUTCOME_FAILED) as Hreceipt.
  { intros cur b r'. unfold receipt, EffectReceipt_validate.
    intros (m & _ & (md & _ & (v & _ & Hr)%rbind_inr)%rbind_inr)%rbind_inr.
    revert Hr. destruct (EffectReceipt_valid _); [|done]. by intros [= <-]. }
  revert current tr. induction fuel as [|fuel IH]; intros current tr Hr; cbn [poll] in Hr; run_ok.
  - apply Hreceipt in Hpure0 as (Hu & Hp & Ho). split_and!; [done|done|]. intros Hs.
    exists current, a0. rewrite Ho in Hs. destruct (SFleb a0 deadline) eqn:Hle; [|done].
    split_and!; [done|done|left|by left].
  - apply Hreceipt in Hpure0 as (Hu & Hp & Ho). split_and!; [done|done|]. by rewrite Ho.
  - apply read_deployment_run in Hrun2 as ->. apply IH in Hrun4 as (Hu & Hp & Hs).
    split_and!; [done|done|]. intros (last & now & ? & ? & ? & Hlast)%Hs.
    exists last, now. rewrite !elem_of_app. split_and!; [done|done|tauto|]. right.
    destruct Hlast as [->|?]; [|tauto]. do 5 right. left. left.
Qed.

(** The part of [execute] after the write *)
Definition settle_rollout (fuel : nat) (p : DeploymentPlan) (current : list (string * json))
  : prog exec_answer EffectReceipt :=
  bind (call (R:=exec_answer) XMonotonic) (fun started =>
    poll config str_of fuel p (float_add started (postcheck_seconds config)) current).

(** What a run of the executor looks like: reads, at most one write of the plan made from
    the deployment read, then polling. *)
Lemma execute_run fuel a key tr out :
  runs (executor_execute config str_of fuel a key) tr out ->
  filter is_patch tr = [] /\ (forall r, out <> Ok r) \/
  exists read p r tr1 tr2, tr = tr1 ++ existT (XPatch (act_service a) (patch p)) r :: tr2 /\
    filter is_patch tr1 = [] /\
    (existT (XKubectl ["get"; "deployment"; act_service a]) (Ok read) : obs exec_answer) ∈ tr1 /\
    plan_deployment a read key (inventory config) (service_revisions config (act_service a)) = Ok p /\
    match r with
    | inl e => tr2 = [] /\ out = Err e
    | inr current => runs (settle_rollout fuel p current) tr2 out
    end.
Proof.
  unfold executor_execute. intros [(e & [-> _]%runs_lift & ->)|(u & t1 & t2 & -> & [-> _]%runs_lift & Hr)]%runs_bind;
    [by left|].
  apply runs_bind in Hr as [(e & Hns & ->)|(u2 & t3 & t4 & -> & Hns & Hr)];
    apply (reads_no_patch _ _ _ check_namespace_reads) in Hns as Hns'; [by left|].
  apply runs_bind in Hr as [(e & Hread & ->)|(read & t5 & t6 & -> & Hread & Hr)];
    apply (reads_no_patch _ _ _ (read_deployment_reads _)) in Hread as Hread'.
  { left. cbn [app]. by rewrite filter_app, Hns', Hread'. }
  apply runs_bind in Hr as [(e & [-> _]%runs_lift & ->)|(p & t7 & t8 & -> & [-> Hp]%runs_lift & Hr)].
  { left. cbn [app]. rewrite app_nil_r. by rewrite filter_app, Hns', Hread'. }
  right. apply read_deployment_run in Hread as Ht5. cbn [app].
  apply runs_bind in Hr as [(e & Hpatch & ->)|(cur & t9 & t10 & -> & Hpatch & Hr)];
    apply runs_call_out in Hpatch as (r & -> & Hr').
  - exists read, p, r, (t3 ++ t5), []. rewrite <-app_assoc, filter_app, Hns', Hread', <-Hr', Ht5.
    split_and!; [done|done|set_solver|done|done|done].
  - exists read, p, r, (t3 ++ t5), t10. rewrite <-app_assoc, filter_app, Hns', Hread', <-Hr', Ht5.
    split_and!; [done|done|set_solver|done|exact Hr].
Qed.

Lemma settle_rollout_reads fuel p current : issues reading (settle_rollout fuel p current).
Proof.
  unfold settle_rollout. apply issues_bind; [by apply issues_call|]. intros ?. apply poll_reads.
Qed.
End executor.

(** The conditional patch: three tests, then the write *)
Definition conditional_patch (object version : string) (old new : list (string * json)) : list json :=
  [JObj [("op", JStr "test"); ("path", JStr "/metadata/uid"); ("value", JStr object)];
   JObj [("op", JStr "test"); ("path", JStr "/metadata/resourceVersion"); ("value", JStr version)];
   JObj [("op", JStr "test"); ("path", JStr "/spec"); ("value", JObj old)];
   JObj [("op", JStr "replace"); ("path", JStr "/spec"); ("value", JObj new)]].

(** C16: the executor writes at most once, and only the plan.  In every run of [execute],
    with whatever answers of [kubectl] and the clock, either nothing is written and no
    receipt is returned, or exactly one patch is issued, to the service of the action.  It
    tests that the object has the uid of the action, the version the action expects and the spec
    of the deployment read in the same run, and then replaces that spec by the one that
    [plan_deployment] made of it for the action and the key, which differs from it at the one
    field the action may change, where it holds an approved value.  The patch is never retried; a
    receipt names the action's object and version, and says [SUCCEEDED] only if a state read
    after the write was ready with exactly the planned spec. *)
Theorem executor_applies_plan config str_of fuel a key tr out :
  runs (executor_execute config str_of fuel a key) tr out ->
  filter is_patch tr = [] /\ (forall rc, out <> Ok rc) \/
  exists read p old new w r tr1 tr2,
    tr = tr1 ++ existT (XPatch (act_service a)
                          (conditional_patch (resource_uid a) (expected_version a) old new)) r :: tr2 /\
    filter is_patch tr1 = [] /\ filter is_patch tr2 = [] /\
    (existT (XKubectl ["get"; "deployment"; act_service a]) (Ok read) : obs exec_answer) ∈ tr1 /\
    dict_find read "spec" = Some (JObj old) /\
    plan_deployment a read key (inventory config) (service_revisions config (act_service a)) = Ok p /\
    spec_before p = old /\ spec_after p = new /\
    approved_value a key (service_revisions config (act_service a)) w /\
    changed_at (target a) (Some (JObj old)) (Some (JObj new)) w /\
    forall rc, out = Ok rc ->
      rcp_resource_uid rc = resource_uid a /\ previous_version rc = expected_version a /\
      (outcome rc = OUTCOME_SUCCEEDED -> exists last, rollout_ready p last = Ok true /\
         (r = Ok last \/ (existT (XKubectl ["get"; "deployment"; act_service a]) (Ok last) : obs exec_answer) ∈ tr2)).
Proof.
  intros [?|(read & p & r & tr1 & tr2 & -> & H1 & Hread & Hp & Hr)]%execute_run; [by left|right].
  destruct (plan_contents _ _ _ _ _ _ Hp) as (_ & _ & Ha & _ & Hspec & w & Hw & Hch).
  exists read, p, (spec_before p), (spec_after p), w, r, tr1, tr2. split_and!; try done.
  - by rewrite <-Ha.
  - destruct r as [e|current]; [by destruct Hr as [-> _]|].
    by eapply reads_no_patch; [apply settle_rollout_reads|].
  - intros rc ->. destruct r as [e|current]; [by destruct Hr as [_ [=]]|].
    unfold settle_rollout in Hr. run_ok. match goal with H : runs (poll _ _ _ _ _ _) _ _ |- _ =>
      apply poll_receipt in H as (Hu & Hv & Hs) end.
    split_and!; [done|done|]. intros (last & now & Hready & _ & _ & Hlast)%Hs. exists last.
    split; [done|]. destruct Hlast as [->|?]; [by left|right; set_solver].
Qed.

(** ** Instants as exact quantities

    A double is a whole number of [2^-1074], the unit of [exact]. *)
Definition double (f : spec_float) : Prop :=
  valid_binary 53 1024 f = true /\ match f with S754_zero _ | S754_finite _ _ _ => True | _ => False end.

Definition exact (f : spec_float) : Z :=
  match f with S754_finite s m e => cond_Zopp s (Zpos m * 2 ^ (e + 1074)) | _ => 0 end.
Definition one_second : Z := 2 ^ 1074.

Lemma digits2_bounds m : 2 ^ (Zpos (digits2_pos m) - 1) <= Zpos m < 2 ^ Zpos (digits2_pos m).
Proof.
  induction m as [m IH|m IH|]; cbn [digits2_pos]; [| |by vm_compute].
  all: rewrite Pos2Z.inj_succ; unfold Z.succ; rewrite Z.add_simpl_r, Z.pow_add_r by lia;
    replace (Zpos (digits2_pos m)) with (Zpos (digits2_pos m) - 1 + 1) in |- * at 1 by lia;
    rewrite (Z.pow_add_r 2 (Zpos (digits2_pos m) - 1)) by lia; lia.
Qed.

Lemma canonical_ok m e :
  bounded 53 1024 m e = true -> -1074 <= e /\ Zpos m < 2 ^ 53 /\ (-1074 < e -> 2 ^ 52 <= Zpos m).
Proof.
  unfold bounded, canonical_mantissa, fexp, emin. intros [Hc%Z.eqb_eq _]%andb_prop.
  pose proof (digits2_bounds m) as [Hlo Hhi]. split_and!; [lia| |].
  - eapply Z.lt_le_trans; [exact Hhi|]. apply Z.pow_le_mono_r; lia.
  - intros He. etransitivity; [|exact Hlo]. apply Z.pow_le_mono_r; lia.
Qed.

Lemma finite_lt m1 e1 m2 e2 :
  bounded 53 1024 m1 e1 = true -> bounded 53 1024 m2 e2 = true -> e1 < e2 ->
  Zpos m1 * 2 ^ (e1 + 1074) < Zpos m2 * 2 ^ (e2 + 1074).
Proof.
  intros (Hl1 & Hm1 & _)%canonical_ok (_ & _ & Hm2)%canonical_ok He. assert (2 ^ 52 <= Zpos m2) as Hbig by (apply Hm2; lia). clear Hm2.
  assert (0 < 2 ^ (e1 + 1074)) by (apply Z.pow_pos_nonneg; lia).
  assert (2 * 2 ^ (e1 + 1074) <= 2 ^ (e2 + 1074)).
  { rewrite <-Z.pow_succ_r by lia. apply Z.pow_le_mono_r; lia. }
  change (2 ^ 53) with (2 * 2 ^ 52) in Hm1. nia.
Qed.

Lemma finite_compare m1 e1 m2 e2 :
  bounded 53 1024 m1 e1 = true -> bounded 53 1024 m2 e2 = true ->
  (Zpos m1 * 2 ^ (e1 + 1074) ?= Zpos m2 * 2 ^ (e2 + 1074)) =
  match e1 ?= e2 with Eq => Pos.compare_cont Eq m1 m2 | c => c end.
Proof.
  intros H1 H2. destruct (Z.compare_spec e1 e2) as [->|He|He].
  - assert (0 < 2 ^ (e2 + 1074)) by (apply canonical_ok in H2; apply Z.pow_pos_nonneg; lia).
    change (Pos.compare_cont Eq m1 m2) with (Z.pos m1 ?= Z.pos m2). symmetry.
    destruct (Z.compare_spec (Zpos m1) (Zpos m2)) as [->|Hm|Hm]; symmetry;
      [by apply Z.compare_eq_iff|apply Z.compare_lt_iff; nia|apply Z.compare_gt_iff; nia].
  - apply Z.compare_lt_iff. by apply finite_lt.
  - apply Z.compare_gt_iff. by apply finite_lt.
Qed.

(** Doubles compare as the quantities they are. *)
Lemma double_compare a b : double a -> double b -> SFcompare a b = Some (exact a ?= exact b).
Proof.
  intros [Ha Fa] [Hb Fb]. assert (forall (m : positive) e, bounded 53 1024 m e = true -> 0 < Zpos m * 2 ^ (e + 1074)) as Hpos.
  { intros m e (He & _)%canonical_ok. apply Z.mul_pos_pos; [lia|]. apply Z.pow_pos_nonneg; lia. }
  destruct a as [|?| |[] m1 e1], b as [|?| |[] m2 e2]; try done; cbn [SFcompare exact cond_Zopp valid_binary] in *;
    try pose proof (Hpos _ _ Ha); try pose proof (Hpos _ _ Hb); f_equal; symmetry;
    try (by apply Z.compare_lt_iff; lia); try (by apply Z.compare_gt_iff; lia).
  - rewrite Z.compare_opp, Z.compare_antisym, finite_compare by done.
    by destruct (e1 ?= e2).
  - rewrite finite_compare by done. by destruct (e1 ?= e2).
Qed.

Lemma double_le a b : double a -> double b -> SFleb a b = true <-> exact a <= exact b.
Proof.
  intros Ha Hb. unfold SFleb. rewrite double_compare by done. unfold Z.le. by destruct (exact a ?= exact b).
Qed.

(** ** Termination of the loop *)

Definition fuel_error (e : exn) : bool := eqb_of e out_of_fuel.

Lemma ditem_raises d k e : ditem d k = Err e -> fuel_error e = false.
Proof. unfold ditem. destruct (dict_find d k); [done|]. by intros [= <-]. Qed.
Lemma object_value_raises j e : object_value j = Err e -> fuel_error e = false.
Proof. destruct j; by intros [= <-]. Qed.

Lemma rbind_inl {A B} (m : result A) (f : A -> result B) e :
  rbind m f = Err e <-> m = Err e \/ exists a, m = Ok a /\ f a = Err e.
Proof. destruct m; cbn; naive_solver. Qed.

Lemma rollout_ready_raises p c e : rollout_ready p c = Err e -> fuel_error e = false.
Proof.
  unfold rollout_ready. intros [?%ditem_raises|(m & _ & [?%object_value_raises|(md & _ & Hr)]%rbind_inl)]%rbind_inl;
    [done..|]. revert Hr. destruct (_ || _); [by intros [= <-]|]. destruct (negb _); [by intros [= <-]|].
  intros [?%object_value_raises|(s & _ & [=])]%rbind_inl. done.
Qed.

Lemma receipt_raises str_of a c b e : receipt str_of a c b = Err e -> fuel_error e = false.
Proof.
  unfold receipt, field_of, EffectReceipt_validate.
  intros [?%ditem_raises|(m & _ & [?%object_value_raises|(md & _ & Hr)]%rbind_inl)]%rbind_inl; [done..|].
  apply rbind_inl in Hr as [[?%ditem_raises|(j & _ & [=])]%rbind_inl|(v & _ & Hv)]; [done|].
  revert Hv. destruct (EffectReceipt_valid _); [done|]. by intros [= <-].
Qed.

Definition fuel_honest (tr : list (obs exec_answer)) : Prop :=
  forall c, (existT c (Err out_of_fuel) : obs exec_answer) ∉ tr.

Lemma fuel_honest_app tr1 tr2 : fuel_honest (tr1 ++ tr2) <-> fuel_honest tr1 /\ fuel_honest tr2.
Proof.
  split.
  - intros Hh. split; intros c Hin; apply (Hh c), elem_of_app; auto.
  - intros [H1 H2] c [?|?]%elem_of_app; [by apply (H1 c)|by apply (H2 c)].
Qed.

Lemma honest_call c tr e :
  runs (call (R:=exec_answer) c) tr (Err e) -> fuel_honest tr -> fuel_error e = false.
Proof.
  intros (r & -> & Hr)%runs_call_out Hh. apply eqb_of_false. intros ->. apply (Hh c). rewrite Hr. left.
Qed.

Lemma honest_lift {A} (m : result A) tr e :
  runs (lift (R:=exec_answer) m) tr (Err e) -> m = Err e.
Proof. by intros [_ <-]%runs_lift. Qed.

Lemma honest_namespace config tr e :
  runs (check_namespace config) tr (Err e) -> fuel_honest tr -> fuel_error e = false.
Proof.
  unfold check_namespace. intros [(e' & Hr & [= ->])|(cur & t1 & t2 & -> & _ & Hr)]%runs_bind Hh;
    [by eapply honest_call|].
  apply runs_bind in Hr as [(e' & Hr%honest_lift & [= ->])|(m & t3 & t4 & -> & _ & Hr)]; [by eapply ditem_raises|].
  apply runs_bind in Hr as [(e' & Hr%honest_lift & [= ->])|(md & t5 & t6 & -> & _ & Hr)];
    [by eapply object_value_raises|].
  revert Hr. destruct (_ || _); [by intros [_ [= ->]]%runs_raise_inv|by intros [_ [=]]%runs_ret_inv].
Qed.

Lemma honest_read config s tr e :
  runs (read_deployment config s) tr (Err e) -> fuel_honest tr -> fuel_error e = false.
Proof.
  unfold read_deployment. destruct (_ || _); [by intros [_ [= ->]]%runs_raise_inv|].
  apply (honest_call (XKubectl _)).
Qed.

(** ** The loop and the clock *)

Abbreviation clock now := (existT XMonotonic (Ok now) : obs exec_answer) (only parsing).
Abbreviation slept s := (existT (XWait s) (Ok tt) : obs exec_answer) (only parsing).

(** What remains to the deadline, if anything does *)
Definition rest (deadline now : spec_float) : spec_float :=
  let remaining := float_sub deadline now in if SFltb float_zero remaining then remaining else float_zero.

(** The monotonic clock answers doubles and never goes back; and [sleep] does not return before
    the time asked has passed: a second is a second on the clock, and after all that remained to
    the deadline it shows the deadline. *)
Record clock_advances (deadline : spec_float) (tr : list (obs exec_answer)) : Prop := {
  clock_doubles : forall i now, tr !! i = Some (clock now) -> double now;
  clock_monotone : forall i j a b,
    (i < j)%nat -> tr !! i = Some (clock a) -> tr !! j = Some (clock b) -> exact a <= exact b;
  slept_second : forall i j a b, (S i < j)%nat ->
    tr !! i = Some (clock a) -> tr !! S i = Some (slept (float_of_Z 1)) -> tr !! j = Some (clock b) ->
    exact a + one_second <= exact b;
  slept_rest : forall i j a b, (S i < j)%nat ->
    tr !! i = Some (clock a) -> tr !! S i = Some (slept (rest deadline a)) -> tr !! j = Some (clock b) ->
    exact deadline <= exact b;
}.

Lemma clock_advances_app deadline t1 t2 : clock_advances deadline (t1 ++ t2) -> clock_advances deadline t2.
Proof.
  assert (forall i o, t2 !! i = Some o -> (t1 ++ t2) !! (length t1 + i)%nat = Some o) as Hin.
  { intros i o Hi. rewrite lookup_app_r by lia. by replace (length t1 + i - length t1)%nat with i by lia. }
  intros [Hd Hm Hs Hr]. split.
  - intros i now Hi. by eapply Hd, Hin.
  - intros i j a b Hij Hi Hj. eapply (Hm (length t1 + i)%nat (length t1 + j)%nat); [lia|by apply Hin..].
  - intros i j a b Hij Hi Hw Hj. eapply (Hs (length t1 + i)%nat (length t1 + j)%nat); [lia|by apply Hin| |by apply Hin].
    rewrite <-Nat.add_succ_r. by apply Hin.
  - intros i j a b Hij Hi Hw Hj. eapply (Hr (length t1 + i)%nat (length t1 + j)%nat); [lia|by apply Hin| |by apply Hin].
    rewrite <-Nat.add_succ_r. by apply Hin.
Qed.

(** Enough for the loop: a test for every second from each reading to the deadline, and the last *)
Definition enough (n : nat) (deadline : spec_float) (tr : list (obs exec_answer)) : Prop :=
  forall now, clock now ∈ tr -> exact deadline <= exact now + Z.of_nat n * one_second.

(** One round that neither ended the loop nor failed *)
Lemma round_gains n deadline now now' t :
  double deadline ->
  clock_advances deadline (clock now :: clock now' :: slept (pause_seconds (float_sub deadline now')) :: t) ->
  enough (S n) deadline (clock now :: clock now' :: slept (pause_seconds (float_sub deadline now')) :: t) ->
  enough n deadline t.
Proof.
  intros Hd Hc He b [j Hb]%list_elem_of_lookup_1.
  specialize (He now ltac:(apply list_elem_of_here)).
  pose proof (clock_monotone _ _ Hc 0 1 now now' ltac:(lia) eq_refl eq_refl) as Hmono.
  unfold pause_seconds in Hc.
  change (if SFltb float_zero (float_sub deadline now') then float_sub deadline now' else float_zero)
    with (rest deadline now') in Hc.
  destruct (SFltb _ (float_of_Z 1)).
  - pose proof (slept_rest _ _ Hc 1 (3 + j)%nat now' b ltac:(lia) eq_refl eq_refl Hb).
    pose proof (Z.pow_pos_nonneg 2 1074). unfold one_second. nia.
  - pose proof (slept_second _ _ Hc 1 (3 + j)%nat now' b ltac:(lia) eq_refl eq_refl Hb). lia.
Qed.

(** The first reading *)
Definition clock_free (t : list (obs exec_answer)) : Prop := forall now, clock now ∉ t.

Definition reading_of (o : obs exec_answer) : option spec_float :=
  match o with existT XMonotonic (inr a) => Some a | _ => None end.

Lemma reading_of_clock o a : reading_of o = Some a <-> o = clock a.
Proof.
  split; [|by intros ->]. destruct o as [c r]. destruct c; try done. by destruct r as [e|b]; [|intros [= ->]].
Qed.

Lemma first_clock tr now :
  clock now ∈ tr -> exists t1 first t2, tr = t1 ++ clock first :: t2 /\ clock_free t1 /\ (first = now \/ clock now ∈ t2).
Proof.
  induction tr as [|o tr IH]; [by intros ?%elem_of_nil|]. intros Hin.
  destruct (reading_of o) as [a|] eqn:Ho.
  - apply reading_of_clock in Ho as ->. exists [], a, tr. split_and!; [done|by intros b ?%elem_of_nil|].
    apply elem_of_cons in Hin as [Hin|?]; [left|by right]. symmetry in Hin. apply reading_of_clock in Hin. by injection Hin.
  - assert (forall b, clock b <> o) as Hne by (intros b Hb; symmetry in Hb; apply reading_of_clock in Hb; congruence).
    apply elem_of_cons in Hin as [Hin|Hin]; [by destruct (Hne now)|]. destruct (IH Hin) as (t1 & first & t2 & -> & Hf & Hl).
    exists (o :: t1), first, t2. split_and!; [done| |done]. intros b [Hb|Hb]%elem_of_cons; [by destruct (Hne b)|by apply (Hf b)].
Qed.

(** A program that goes on where another gives up runs like it otherwise. *)
Lemma runs_bind_extend {C} {R : C -> Type} {A B} e (m : prog R A) (f g : A -> prog R B) tr out :
  (forall a tr out, out <> Err e -> runs (f a) tr out -> runs (g a) tr out) ->
  out <> Err e -> runs (bind m f) tr out -> runs (bind m g) tr out.
Proof.
  intros Hfg Ho. revert tr. induction m as [a|e'|c k IH]; cbn; intros tr Hr; [by apply Hfg|done|].
  apply runs_call_inv in Hr as (r & tr' & -> & Hr). constructor. by apply IH.
Qed.

Lemma poll_more config str_of fuel more p deadline current tr out :
  out <> Err out_of_fuel -> runs (poll config str_of fuel p deadline current) tr out ->
  runs (poll config str_of (fuel + more) p deadline current) tr out.
Proof.
  revert current tr out. induction fuel as [|fuel IH]; intros current tr out Ho; cbn [poll plus].
  { intros [-> ->]%runs_raise_inv. done. }
  apply (runs_bind_extend out_of_fuel); [|done]. clear tr out Ho. intros ready tr out Ho. destruct ready; [done|].
  apply (runs_bind_extend out_of_fuel); [|done]. clear tr out Ho. intros now tr out Ho. destruct (SFleb deadline now); [done|].
  do 3 (apply (runs_bind_extend out_of_fuel); [|done]; clear tr out Ho; intros ? tr out Ho).
  apply (runs_bind_extend out_of_fuel); [|done]. apply IH.
Qed.

(** A round that is early leaves the rest to the rounds after it. *)
Lemma poll_in_time config str_of fuel n p deadline current tr :
  runs (poll config str_of fuel p deadline current) tr (Err out_of_fuel) -> fuel_honest tr -> (n < fuel)%nat ->
  double deadline -> clock_advances deadline tr -> enough n deadline tr -> False.
Proof.
  revert n current tr. induction fuel as [|fuel IH]; intros n current tr Hr Hh Hn Hd Hc He; [lia|]. cbn [poll] in Hr.
  apply runs_bind in Hr as [(e & Hr%honest_lift & [= <-])|(ready & t1 & t2 & -> & [-> _]%runs_lift & Hr)];
    [by apply rollout_ready_raises in Hr|]. destruct ready.
  { apply runs_bind in Hr as [(e & Hr & [= <-])|(now & t3 & t4 & -> & _ & Hr)];
      [by apply honest_call in Hr|by apply honest_lift, receipt_raises in Hr]. }
  apply runs_bind in Hr as [(e & Hr & [= <-])|(now & t3 & t4 & -> & Hw & Hr)];
    [by apply honest_call in Hr|apply (runs_call_ok (R:=exec_answer) XMonotonic) in Hw as ->].
  pose proof (clock_doubles _ _ Hc 0 now eq_refl) as Hnow.
  destruct (SFleb deadline now) eqn:Hlate; [by apply honest_lift, receipt_raises in Hr|].
  destruct n as [|n].
  { specialize (He now ltac:(apply list_elem_of_here)). rewrite Z.mul_0_l, Z.add_0_r in He.
    apply double_le in He; [congruence|done|done]. }
  cbn [app] in Hh, Hc, He. change (clock now :: t4) with ([clock now] ++ t4) in Hh. apply fuel_honest_app in Hh as [_ Hh].
  apply runs_bind in Hr as [(e & Hr & [= <-])|(now' & t5 & t6 & -> & Hw & Hr)]; [by apply honest_call in Hr|].
  apply (runs_call_ok (R:=exec_answer) XMonotonic) in Hw as ->. apply fuel_honest_app in Hh as [_ Hh].
  apply runs_bind in Hr as [(e & Hr & [= <-])|([] & t7 & t8 & -> & Hs & Hr)]; [by apply honest_call in Hr|].
  apply (runs_call_ok (R:=exec_answer) (XWait _)) in Hs as ->. apply fuel_honest_app in Hh as [_ Hh].
  pose proof (round_gains _ _ _ _ _ Hd Hc He) as He'.
  apply runs_bind in Hr as [(e & Hr & [= <-])|(u2 & t9 & t10 & -> & _ & Hr)]; [by apply honest_namespace in Hr|].
  apply fuel_honest_app in Hh as [_ Hh].
  apply runs_bind in Hr as [(e & Hr & [= <-])|(c & t11 & t12 & -> & _ & Hr)]; [by apply honest_read in Hr|].
  apply fuel_honest_app in Hh as [_ Hh]. apply (IH n c t12 Hr Hh ltac:(lia) Hd).
  - apply (clock_advances_app deadline ([clock now; clock now'; slept (pause_seconds (float_sub deadline now'))] ++ t9 ++ t11)).
    by rewrite <-!app_assoc.
  - intros b Hb. apply He'. rewrite !elem_of_app. tauto.
Qed.

(** C17: polling ends.  Where the monotonic clock advances as [sleep] promises and no request
    raises the error of the model, the loop of [execute] tests its condition at most once for
    every second from its first reading to the deadline, rounded up, and once more: with that
    many tests allowed, a run never ends for want of more, and it is a run whatever
    number of further tests is allowed, so that it is a run of the loop of the code. *)
Theorem polling_ends config str_of n p deadline current tr out :
  runs (poll config str_of (S n) p deadline current) tr out -> fuel_honest tr ->
  double deadline -> clock_advances deadline tr ->
  (forall t1 first t2, tr = t1 ++ clock first :: t2 -> clock_free t1 ->
     exact deadline <= exact first + Z.of_nat n * one_second) ->
  out <> Err out_of_fuel /\
  forall more, runs (poll config str_of (S n + more) p deadline current) tr out.
Proof.
  intros Hr Hh Hd Hc Hfirst. assert (enough n deadline tr) as He.
  { intros now Hin. destruct (first_clock tr now Hin) as (t1 & first & t2 & -> & Hfree & Hlater).
    specialize (Hfirst t1 first t2 eq_refl Hfree). destruct Hlater as [->|[j Hj]%list_elem_of_lookup_1]; [done|].
    enough (exact first <= exact now) by lia.
    apply (clock_monotone _ _ Hc (length t1) (length t1 + S j)%nat); [lia|by rewrite list_lookup_middle|].
    rewrite lookup_app_r by lia. by replace (length t1 + S j - length t1)%nat with (S j) by lia. }
  assert (out <> Err out_of_fuel) as Ho by (intros ->; eapply poll_in_time; eauto).
  split; [done|]. intros more. by apply poll_more.
Qed.

(** ** A concrete rollout *)

Definition payments_spec (marks : list (string * json)) : list (string * json) :=
  [("replicas", JInt 1);
   ("template", JObj [("metadata", JObj [("labels", JObj []); ("annotations", JObj marks)]);
                      ("spec", JObj [("containers", JList [JObj [("name", JStr "sandbox")]])])])].

Definition deployment_object (v : string) (marks : list (string * json)) (status : list (string * json))
  : list (string * json) :=
  [("kind", JStr "Deployment"); ("apiVersion", JStr "apps/v1");
   ("metadata", JObj [("namespace", JStr "payops-sandbox"); ("name", JStr "payments-api");
      ("uid", JStr "uid-1"); ("resourceVersion", JStr v); ("generation", JInt 7);
      ("labels", JObj [("app.kubernetes.io/part-of", JStr "payops")])]);
   ("spec", JObj (payments_spec marks)); ("status", JObj status)].

Definition ready_status : list (string * json) :=
  [("observedGeneration", JInt 7); ("replicas", JInt 1); ("updatedReplicas", JInt 1);
   ("readyReplicas", JInt 1); ("availableReplicas", JInt 1)].

Definition kind_host : ExecutorConfig :=
  {| namespace_uid := "ns-1"; inventory := [("payments-api", "uid-1")]; revisions := [];
     postcheck_seconds := float_of_Z 60 |}.

Definition restart_key : string := action_digest restart_payments.
Definition restart_mark : list (string * json) := [("payops.dev/remediation", JStr restart_key)].
Definition no_text (j : json) : string := EmptyString.

(** The patched object is not ready yet, the next read is; the clock stands still. *)
Definition kind_answers (c : exec_call) (s : unit) : result (exec_answer c) * unit :=
  (match c return result (exec_answer c) with
   | XKubectl args =>
       Ok (if bool_decide ("namespace" ∈ args)
           then [("metadata", JObj [("uid", JStr "ns-1"); ("name", JStr "payops-sandbox")])]
           else deployment_object "41" [] [])
   | XPatch _ _ => Ok (deployment_object "42" restart_mark ready_status)
   | XMonotonic => Ok float_zero
   | XWait _ => Ok tt
   | XNow => Ok noon
   end, tt).

Definition restart_run : result EffectReceipt * unit * list (obs exec_answer) :=
  play kind_answers (executor_execute kind_host no_text 3 restart_payments restart_key) tt [].

Definition restart_receipt : EffectReceipt :=
  {| outcome := OUTCOME_SUCCEEDED; rcp_resource_uid := "uid-1"; previous_version := "41";
     resulting_version := Some "42" |}.

Definition restart_plan : DeploymentPlan :=
  {| plan_action := restart_payments; spec_before := payments_spec [];
     spec_after := payments_spec restart_mark |}.

Lemma plan_exact_witness :
  validate_target restart_payments (inventory kind_host) = Ok tt /\
  targeted restart_payments (inventory kind_host) /\ restart_key = action_digest restart_payments /\ plan_action restart_plan = restart_payments /\
  deployment_spec restart_payments (deployment_object "41" [] []) = Ok (spec_before restart_plan) /\
  current_for restart_payments (deployment_object "41" [] []) /\
  dict_find (deployment_object "41" [] []) "spec" = Some (JObj (spec_before restart_plan)) /\
  exists w, approved_value restart_payments restart_key [] w /\
    changed_at (target restart_payments) (Some (JObj (spec_before restart_plan)))
      (Some (JObj (spec_after restart_plan))) w.
Proof.
  apply (plan_exact restart_payments (deployment_object "41" [] []) restart_key (inventory kind_host) []
    restart_plan).
  vm_compute. reflexivity.
Defined.

Lemma executor_applies_plan_witness :
  restart_run.1.1 = Ok restart_receipt /\
  exists read p old new w r tr1 tr2,
    restart_run.2 = tr1 ++ existT (XPatch "payments-api" (conditional_patch "uid-1" "41" old new)) r :: tr2 /\
    filter is_patch tr1 = [] /\ filter is_patch tr2 = [] /\
    (existT (XKubectl ["get"; "deployment"; "payments-api"]) (Ok read) : obs exec_answer) ∈ tr1 /\
    dict_find read "spec" = Some (JObj old) /\
    plan_deployment restart_payments read restart_key (inventory kind_host)
      (service_revisions kind_host (act_service restart_payments)) = Ok p /\
    spec_before p = old /\ spec_after p = new /\
    approved_value restart_payments restart_key (service_revisions kind_host (act_service restart_payments)) w /\
    changed_at (target restart_payments) (Some (JObj old)) (Some (JObj new)) w.
Proof.
  split; [vm_compute; reflexivity|].
  destruct (executor_applies_plan kind_host no_text 3 restart_payments restart_key restart_run.2 restart_run.1.1)
    as [[_ Hno]|(read & p & old & new & w & r & tr1 & tr2 & Htr & H1 & H2 & H3 & H4 & H5 & H6 & H7 & H8 & H9 & _)].
  - exact (play_runs_nil kind_answers (executor_execute kind_host no_text 3 restart_payments restart_key) tt).
  - destruct (Hno restart_receipt). vm_compute. reflexivity.
  - exists read, p, old, new, w, r, tr1, tr2. split_and!; [exact Htr|exact H1|exact H2|exact H3|exact H4|exact H5|exact H6|exact H7|exact H8|exact H9].
Defined.

(** A rollout that is never ready; the clock shows what was slept. *)
Definition slow_answers (c : exec_call) (t : Z) : result (exec_answer c) * Z :=
  match c return result (exec_answer c) * Z with
  | XKubectl args =>
      (Ok (if bool_decide ("namespace" ∈ args)
           then [("metadata", JObj [("uid", JStr "ns-1"); ("name", JStr "payops-sandbox")])]
           else deployment_object "42" restart_mark []), t)
  | XPatch _ _ => (Ok (deployment_object "42" restart_mark []), t)
  | XMonotonic => (Ok (float_of_Z t), t)
  | XWait _ => (Ok tt, t + 1)
  | XNow => (Ok noon, t)
  end.

Definition slow_poll : result EffectReceipt * Z * list (obs exec_answer) :=
  play slow_answers (poll kind_host no_text 2 restart_plan (float_of_Z 6) (deployment_object "42" restart_mark [])) 5 [].

Definition slow_trace : list (obs exec_answer) :=
  [clock (float_of_Z 5); clock (float_of_Z 5); slept (float_of_Z 1);
   existT (XKubectl ["get"; "namespace"; "payops-sandbox"])
     (Ok [("metadata", JObj [("uid", JStr "ns-1"); ("name", JStr "payops-sandbox")])]) : obs exec_answer;
   existT (XKubectl ["get"; "deployment"; "payments-api"]) (Ok (deployment_object "42" restart_mark [])) : obs exec_answer;
   clock (float_of_Z 6)].

(** The readings of [slow_trace], by their positions *)
Lemma slow_readings i a :
  slow_trace !! i = Some (clock a) ->
  ((i < 2)%nat /\ a = float_of_Z 5) \/ (i = 5%nat /\ a = float_of_Z 6).
Proof.
  intros Hi. assert (reading_of <$> slow_trace !! i = Some (Some a)) as Hr by (by rewrite Hi).
  do 6 (destruct i as [|i]; [cbn in Hr; try done; injection Hr as <-; (left; split; [lia|done]) || (right; done)|]).
  done.
Qed.

Lemma slow_clock_advances : clock_advances (float_of_Z 6) slow_trace.
Proof.
  assert (exact (float_of_Z 5) + one_second = exact (float_of_Z 6)) as Hgain by (vm_compute; reflexivity).
  assert (0 < one_second) as Hpos by (vm_compute; reflexivity).
  split.
  - intros i now [[_ ->]|[_ ->]]%slow_readings; by vm_compute.
  - intros i j a b Hij [[? ->]|[-> ->]]%slow_readings [[? ->]|[-> ->]]%slow_readings; lia.
  - intros i j a b Hij [[? ->]|[-> ->]]%slow_readings Hw [[? ->]|[-> ->]]%slow_readings; lia.
  - intros i j a b Hij [[? ->]|[-> ->]]%slow_readings Hw [[? ->]|[-> ->]]%slow_readings; lia.
Qed.

Lemma polling_ends_witness :
  slow_poll.1.1 = Ok {| outcome := OUTCOME_FAILED; rcp_resource_uid := "uid-1"; previous_version := "41";
     resulting_version := Some "42" |} /\ slow_poll.1.1 <> Err out_of_fuel /\
  forall more, runs (poll kind_host no_text (2 + more) restart_plan (float_of_Z 6)
    (deployment_object "42" restart_mark [])) slow_trace slow_poll.1.1.
Proof.
  split; [vm_compute; reflexivity|].
  assert (slow_poll.2 = slow_trace) as <- by (vm_compute; reflexivity).
  apply (polling_ends kind_host no_text 1 restart_plan (float_of_Z 6) (deployment_object "42" restart_mark [])).
  - exact (play_runs_nil slow_answers (poll kind_host no_text 2 restart_plan (float_of_Z 6)
      (deployment_object "42" restart_mark [])) 5).
  - intros c Hin. assert (Forall (fun o : obs exec_answer =>
      match projT2 o with inl e => e <> out_of_fuel | inr _ => True end) slow_poll.2) as Hall
      by (vm_compute; repeat constructor).
    rewrite Forall_forall in Hall. exact (Hall _ Hin eq_refl).
  - by vm_compute.
  - assert (slow_poll.2 = slow_trace) as -> by (vm_compute; reflexivity). exact slow_clock_advances.
  - assert (slow_poll.2 = slow_trace) as -> by (vm_compute; reflexivity). intros t1 first t2 Ht _.
    assert (slow_trace !! length t1 = Some (clock first)) as Hf by (by rewrite Ht, list_lookup_middle).
    apply slow_readings in Hf as [[_ ->]|[_ ->]]; vm_compute; congruence.
Defined.
