(* ===== verification/Traffic.v ===== *)
(** * Admission of synthetic traffic: [payops/remediation/traffic_control.py] and
    [payops/remediation/managed_traffic.py]

    One SQL row per managed traffic source.  Admission and pause are conditional updates of
    that row, so the database orders them; the driver asks for admission before each
    attempt.  Acknowledgements to callers are requests without effect. *)

From S2P Require Import Prelude Json Contracts Effects Policy ActionStore Broker Deployment.
From stdpp Require Import pretty.

Open Scope string_scope.
Open Scope list_scope.
Open Scope Z_scope.
Open Scope result_scope.
Open Scope prog_scope.

(** [TrafficRow] *)
Record TrafficRow : Type := {
  traffic_service : string;
  traffic_mode : Mode;
  traffic_version : Z;
  paused : bool;
  traffic_admitted : Z;
}.
#[export] Instance TrafficRow_eq_dec : EqDecision TrafficRow.
Proof. solve_decision. Defined.

(** [synthetic_traffic_control], by primary key *)
Abbreviation traffic_table := (gmap string TrafficRow).

Inductive traffic_call : Type :=
  | TNewUid
  | TNow
  | TInsert (uid : string) (row : TrafficRow)
  | TGet (uid : string)
  | TAdmit (uid service : string) (mode : Mode)
  | TPause (uid service : string) (mode : Mode) (version : string)
  | AckPaused (a : Action) (key : string) (r : EffectReceipt)
  | AckAdmitted (uid : string).

Definition traffic_answer (c : traffic_call) : Type :=
  match c with
  | TNewUid => string
  | TNow => datetime
  | TInsert _ _ => unit
  | TGet _ => option TrafficRow
  | TAdmit _ _ _ => bool
  | TPause _ _ _ _ => option Z
  | AckPaused _ _ _ | AckAdmitted _ => unit
  end.

Abbreviation tprog := (prog traffic_answer).
Abbreviation sqlt := (call (R:=traffic_answer)) (only parsing).

(** [service in {...} and mode in {...}] *)
Definition TrafficService_ok (s : string) : bool := bool_decide (s ∈ ["payments-api"; "webhook-sim"]).
Definition TrafficMode_ok (m : Mode) : bool := bool_decide (m ∈ [local_kind; fixture_replay]).

(** [TrafficControl.register] *)
Definition traffic_register (service : string) (mode : Mode) : tprog string :=
  if negb (TrafficService_ok service) || negb (TrafficMode_ok mode) then
    Raise (PermissionError "TRAFFIC_SCOPE_DENIED")
  else
    let* uid := sqlt TNewUid in
    do* sqlt (TInsert uid {| traffic_service := service; traffic_mode := mode; traffic_version := 0;
                             paused := false; traffic_admitted := 0 |}) in
    Ret uid.

(** [TrafficControl.snapshot] *)
Definition traffic_snapshot (a : Action) : tprog ResourceSnapshot :=
  let* checked := lift (ACTION_validate (dump_action a)) in
  if negb (is_pause checked) then Raise (PermissionError "TRAFFIC_ACTION_DENIED")
  else
    let* row := sqlt (TGet (resource_uid a)) in
    match row with
    | None => Raise (PermissionError "TRAFFIC_SCOPE_DENIED")
    | Some row =>
        if negb (eqb_of (traffic_service row) (act_service a))
           || negb (eqb_of (traffic_mode row) (act_mode a))
           || negb (eqb_of (act_namespace a) "payops-sandbox")
        then Raise (PermissionError "TRAFFIC_SCOPE_DENIED")
        else
          let* now := sqlt TNow in
          lift (ResourceSnapshot_validate
            {| res_namespace := "payops-sandbox"; res_service := traffic_service row;
               uid := resource_uid a; version := pretty (traffic_version row);
               res_observed_at := now; kind := Traffic; synthetic := true;
               res_replicas := if paused row then 0 else 1; approved_revisions := [];
               res_mode := act_mode a |})
    end.

(** [TrafficControl.admit] *)
Definition traffic_admit (uid service : string) (mode : Mode) : tprog bool :=
  if negb (TrafficService_ok service) || negb (TrafficMode_ok mode) then
    Raise (PermissionError "TRAFFIC_SCOPE_DENIED")
  else sqlt (TAdmit uid service mode).

(** [TrafficControl.pause] *)
Definition traffic_pause (a : Action) (key : string) : tprog EffectReceipt :=
  do* traffic_snapshot a in
  if negb (eqb_of key (action_digest a)) then Raise (PermissionError "TRAFFIC_DIGEST_MISMATCH")
  else
    let* changed := sqlt (TPause (resource_uid a) (act_service a) (act_mode a) (expected_version a)) in
    match changed with
    | None => Raise (PermissionError "TRAFFIC_PRECONDITION_FAILED")
    | Some v =>
        lift (EffectReceipt_validate
          {| outcome := OUTCOME_SUCCEEDED; rcp_resource_uid := resource_uid a;
             previous_version := expected_version a; resulting_version := Some (pretty v) |})
    end.

(** ** [ManagedTrafficDriver] *)

Record DriverScope : Type := {
  control_uid : string;
  driver_service : string;
  driver_mode : Mode;
}.

(** The check of [__init__]; [fixture] says that a transport was passed in *)
Definition driver_scope_ok (d : DriverScope) (fixture : bool) : bool :=
  eqb_of (driver_mode d) (if fixture then fixture_replay else local_kind) &&
  TrafficService_ok (driver_service d).

(** [_admit] *)
Definition driver_admit (d : DriverScope) (role : string) : tprog bool :=
  let expected := if decide (role = "payments") then Some "payments-api"
                  else if decide (role = "webhook") then Some "webhook-sim" else None in
  if negb (eqb_of expected (Some (driver_service d))) then
    Raise (PermissionError "TRAFFIC_DRIVER_ROLE_DENIED")
  else traffic_admit (control_uid d) (driver_service d) (driver_mode d).

(** [plan_metadata] *)
Definition plan_metadata (d : DriverScope) : list (string * json) :=
  [("traffic_control_uid", JStr (control_uid d)); ("traffic_control_mode", JStr (mode_name (driver_mode d)))].

(** ** The table *)

(** The row an update may change, with the [WHERE] clause common to both *)
Definition open_row (t : traffic_table) (uid service : string) (mode : Mode) : option TrafficRow :=
  match t !! uid with
  | Some row =>
      if eqb_of (traffic_service row) service && eqb_of (traffic_mode row) mode && negb (paused row)
      then Some row else None
  | None => None
  end.

Definition counted (row : TrafficRow) : TrafficRow := {|
  traffic_service := traffic_service row; traffic_mode := traffic_mode row;
  traffic_version := traffic_version row; paused := paused row;
  traffic_admitted := traffic_admitted row + 1 |}.

Definition closed_row (row : TrafficRow) : TrafficRow := {|
  traffic_service := traffic_service row; traffic_mode := traffic_mode row;
  traffic_version := traffic_version row + 1; paused := true;
  traffic_admitted := traffic_admitted row |}.

Inductive traffic_done (t : traffic_table)
  : forall c : traffic_call, result (traffic_answer c) -> traffic_table -> Prop :=
  | done_uid uid : traffic_done t TNewUid (Ok uid) t
  | done_time now : traffic_done t TNow (Ok now) t
  | done_register uid row :
      t !! uid = None -> traffic_done t (TInsert uid row) (Ok tt) (<[uid := row]> t)
  | done_taken uid row :
      is_Some (t !! uid) -> traffic_done t (TInsert uid row) (Err IntegrityError) t
  | done_row uid : traffic_done t (TGet uid) (Ok (t !! uid)) t
  | done_admitted uid service mode row :
      open_row t uid service mode = Some row ->
      traffic_done t (TAdmit uid service mode) (Ok true) (<[uid := counted row]> t)
  | done_held uid service mode :
      open_row t uid service mode = None -> traffic_done t (TAdmit uid service mode) (Ok false) t
  | done_paused uid service mode v row :
      open_row t uid service mode = Some row -> pretty (traffic_version row) = v ->
      traffic_done t (TPause uid service mode v) (Ok (Some (traffic_version row + 1)))
        (<[uid := closed_row row]> t)
  | done_unpaused uid service mode v :
      (forall row, open_row t uid service mode = Some row -> pretty (traffic_version row) <> v) ->
      traffic_done t (TPause uid service mode v) (Ok None) t
  | done_ack_paused a key r : traffic_done t (AckPaused a key r) (Ok tt) t
  | done_ack_admitted uid : traffic_done t (AckAdmitted uid) (Ok tt) t.

(** A driver error leaves unknown whether the statement was committed. *)
Inductive traffic_answers (t : traffic_table)
  : forall c : traffic_call, result (traffic_answer c) -> traffic_table -> Prop :=
  | traffic_ok c r t' : traffic_done t c r t' -> traffic_answers t c r t'
  | traffic_aborted c msg : traffic_answers t c (Err (OtherError msg)) t
  | traffic_uncertain c r msg t' : traffic_done t c r t' -> traffic_answers t c (Err (OtherError msg)) t'.

(** What hosts and traffic workers run *)
Definition serve_pause (a : Action) (key : string) : tprog unit :=
  let* r := traffic_pause a key in sqlt (AckPaused a key r).
Definition serve_attempt (d : DriverScope) (role : string) : tprog unit :=
  let* ok := driver_admit d role in
  if ok : bool then sqlt (AckAdmitted (control_uid d)) else Ret tt.

Inductive traffic_program : tprog unit -> Prop :=
  | program_register service mode : traffic_program (bind (traffic_register service mode) (fun _ => Ret tt))
  | program_snapshot a : traffic_program (bind (traffic_snapshot a) (fun _ => Ret tt))
  | program_attempt d role : traffic_program (serve_attempt d role)
  | program_pause a key : traffic_program (serve_pause a key).

Definition traffic_reachable : system traffic_answer traffic_table unit -> Prop :=
  reachable traffic_answers traffic_program ∅.
