(* ===== verification/TrafficTheorems.v ===== *)
(** * A pause is final

    Admission and pause are ordered by the database: once a pause of a traffic source is
    acknowledged, no worker is admitted to it again, and its row never changes. *)

From S2P Require Import Prelude Json Digest Contracts Effects Permits Policy ActionStore Broker.
From S2P Require Import Deployment Traffic Walkthrough.
From stdpp Require Import pretty.

Open Scope string_scope.
Open Scope list_scope.
Open Scope Z_scope.
Open Scope result_scope.

(** ** Rows *)

(** A source starts open at version 0; its one pause leaves it closed at version 1. *)
Definition row_ok (row : TrafficRow) : Prop :=
  traffic_version row = (if paused row then 1 else 0) /\ 0 <= traffic_admitted row.

Definition rows_ok (t : traffic_table) : Prop := forall uid row, t !! uid = Some row -> row_ok row.

(** The source [uid] of this scope is closed. *)
Definition closed_source (t : traffic_table) (uid service : string) (mode : Mode) : Prop :=
  exists row, t !! uid = Some row /\ paused row = true /\
    traffic_service row = service /\ traffic_mode row = mode.

(** A pause that changed its row: what it named, and the version it answered *)
Record closing : Type := {
  cl_uid : string;
  cl_service : string;
  cl_mode : Mode;
  cl_version : string;
  cl_result : Z;
}.

Definition traffic_wf (c : traffic_call) : Prop :=
  match c with
  | TInsert _ row => row_ok row /\ paused row = false
  | AckPaused a key r =>
      is_pause a = true /\ key = action_digest a /\ outcome r = OUTCOME_SUCCEEDED /\
      rcp_resource_uid r = resource_uid a /\ previous_version r = expected_version a /\
      exists n : Z, resulting_version r = Some (pretty n)
  | _ => True
  end.

Definition closes (c : traffic_call) : result (traffic_answer c) -> closing -> Prop :=
  match c return result (traffic_answer c) -> closing -> Prop with
  | TPause uid service mode v => fun r f =>
      r = Ok (Some (cl_result f)) /\ cl_uid f = uid /\ cl_service f = service /\ cl_mode f = mode /\
      cl_version f = v
  | _ => fun _ _ => False
  end.

Definition relies (c : traffic_call) (f : closing) : Prop :=
  match c with
  | AckPaused a _ r =>
      cl_uid f = resource_uid a /\ cl_service f = act_service a /\ cl_mode f = act_mode a /\
      cl_version f = expected_version a /\ resulting_version r = Some (pretty (cl_result f))
  | _ => False
  end.

(** Closed by a pause that named version 0 and answered version 1 *)
Definition closed_at (t : traffic_table) (f : closing) : Prop :=
  closed_source t (cl_uid f) (cl_service f) (cl_mode f) /\ cl_version f = "0" /\ cl_result f = 1.

Lemma open_row_some t uid service mode row :
  open_row t uid service mode = Some row ->
  t !! uid = Some row /\ traffic_service row = service /\ traffic_mode row = mode /\ paused row = false.
Proof.
  unfold open_row. destruct (t !! uid) as [row'|]; [|done].
  destruct_eqb (traffic_service row') service; [|done].
  destruct_eqb (traffic_mode row') mode; [|done]. cbn. destruct (paused row') eqn:Hp; [done|].
  by intros [= <-].
Qed.

Lemma traffic_done_ok t c r t' : traffic_done t c r t' -> rows_ok t -> traffic_wf c -> rows_ok t'.
Proof.
  destruct 1 as [| |u row Hn| | |u s m row Ho| |u s m v row Ho _| | |]; intros Ht Hc; try done;
    try apply open_row_some in Ho as (Hl & _ & _ & Hp);
    intros u' row' [[<- <-]|[Hne Hl']]%lookup_insert_Some; try (by eapply Ht).
  - apply Hc.
  - destruct (Ht _ _ Hl). split; cbn; [done|lia].
  - destruct (Ht _ _ Hl) as [Hv ?]. rewrite Hp in Hv. split; cbn; lia.
Qed.

Lemma traffic_done_stable t c r t' f :
  traffic_done t c r t' -> closed_at t f -> closed_at t' f.
Proof.
  destruct 1 as [| |u row Hn| | |u s m row Ho| |u s m v row Ho _| | |];
    intros [(row' & Hl' & Hp' & Hs) Hf]; try (by split; [exists row'|]);
    (split; [|done]); exists row'; (rewrite lookup_insert_ne; [done|]);
    intros ->; try congruence; apply open_row_some in Ho as (Hl & _ & _ & Hp); congruence.
Qed.

Lemma traffic_done_learned t c r t' f :
  traffic_done t c r t' -> rows_ok t -> closes c r f -> closed_at t' f.
Proof.
  destruct 1 as [| |u row Hn| | |u s m row Ho| |u s m v row Ho Hv| | |]; intros Ht; try done; cbn.
  - intros ([= Hn] & <- & <- & <- & <-). apply open_row_some in Ho as (Hl & Hs & Hm & Hp).
    destruct (Ht _ _ Hl) as [Hver _]. rewrite Hp in Hver. rewrite Hver in Hv, Hn. split_and!.
    + exists (closed_row row). by rewrite lookup_insert_eq.
    + by rewrite <-Hv.
    + lia.
  - by intros [[=] _].
Qed.

Lemma closes_error c e f : closes c (Err e) f -> False.
Proof. destruct c; cbn; naive_solver. Qed.

#[export] Instance traffic_laws : FactLaws traffic_answers traffic_wf rows_ok closed_at closes.
Proof.
  split.
  - intros t c r t' [] ? ?; eauto using traffic_done_ok.
  - intros t c r t' f [] ? ? ?; eauto using traffic_done_stable.
  - intros t c r t' f [c' r' t'' Hd|c' msg|c' r' msg t'' Hd] Ht Hok Hf;
      [by eapply traffic_done_learned|by apply closes_error in Hf..].
Qed.

(** ** Programs *)

Abbreviation Informed := (informed traffic_wf closes relies).

Lemma traffic_snapshot_informed K a :
  Informed K (traffic_snapshot a) (fun K' out => (forall f, K f -> K' f) /\ (is_pause a = false -> exists e, out = Err e)).
Proof.
  unfold traffic_snapshot. apply informed_bind_lift; [by eauto|].
  intros a' ->%ACTION_validate_dump. destruct (is_pause a); cbn; [|by eauto].
  split_and!; [done|done|]. intros [e|[row|]]; cbn; [by split; [left|]| |by split; [left|]].
  destruct (_ || _); cbn; [by split; [left|]|]. split_and!; [done|done|].
  intros [e|now]; cbn; [by split; [intros; left; left|]|].
  destruct (ResourceSnapshot_validate _); cbn; by split; [intros; left; left|].
Qed.

Lemma traffic_pause_informed K a key :
  Informed K (traffic_pause a key) (fun K' out =>
    match out with
    | inr r => traffic_wf (AckPaused a key r) /\ forall f, relies (AckPaused a key r) f -> K' f
    | inl _ => True
    end).
Proof.
  unfold traffic_pause. apply informed_bind. eapply informed_mono; [apply traffic_snapshot_informed|].
  intros K' [e|s] [_ Hp]; [done|]. destruct (is_pause a) eqn:Ha; [|by destruct (Hp eq_refl)].
  destruct_eqb key (action_digest a); cbn; [|done]. split_and!; [done|done|].
  intros [e|[n|]]; cbn; [done| |done]. unfold EffectReceipt_validate.
  destruct (EffectReceipt_valid _); cbn; [|done]. split; [split_and!; try done; by exists n|].
  intros f (Hu & Hs & Hm & Hv & [= Hn]). right. apply (inj pretty) in Hn.
  by rewrite Hn.
Qed.

Lemma traffic_program_informed m : traffic_program m -> Informed (fun _ => False) m (fun _ _ => True).
Proof.
  destruct 1 as [s m|a|d role|a key].
  - apply informed_bind. unfold traffic_register. destruct (_ || _); [done|].
    apply informed_bind_call; [done..|]. intros u. apply informed_bind_call; [|done..]. done.
  - apply informed_bind. eapply informed_mono; [apply traffic_snapshot_informed|]. by intros ? [].
  - unfold serve_attempt. apply informed_bind. unfold driver_admit. cbv zeta.
    destruct (negb _); [done|]. unfold traffic_admit. destruct (_ || _); [done|].
    apply (informed_call traffic_wf closes relies); [done..|]. intros [e|[|]]; [done| |done].
    apply (informed_call traffic_wf closes relies); done.
  - unfold serve_pause. apply informed_bind. eapply informed_mono; [apply traffic_pause_informed|].
    intros K [e|r]; [done|]. intros [Hwf HK].
    by apply (informed_call traffic_wf closes relies K (AckPaused a key r)).
Qed.

Lemma traffic_facts x : traffic_reachable x ->
  facts_inv traffic_wf rows_ok closed_at closes relies x.
Proof.
  apply (facts_reachable traffic_answers traffic_program traffic_wf rows_ok closed_at closes relies
    traffic_program_informed). by intros ? ? [=].
Qed.

(** ** Order *)

Lemma admitted_open t u s m (o : obs traffic_answer) t' :
  traffic_answers t (projT1 o) (projT2 o) t' -> existT (TAdmit u s m) (Ok true) = o -> exists row, t !! u = Some row /\ paused row = false.
Proof.
  intros Ha <-.
  refine (match Ha in traffic_answers _ c r t' return
    match c return result (traffic_answer c) -> Prop with
    | TAdmit u s m => fun r => r = Ok true -> exists row, t !! u = Some row /\ paused row = false
    | _ => fun _ => True end r with
    | traffic_ok _ c r t' Hd => _ | traffic_aborted _ c msg => _ | traffic_uncertain _ c r msg t' Hd => _ end eq_refl).
  - destruct Hd as [| | | | |u0 s0 m0 row Ho| | | | |]; try done. intros _.
    apply open_row_some in Ho as (? & _ & _ & ?). by exists row.
  - by destruct c.
  - by destruct c.
Qed.

(** After a closing acknowledgement nobody is admitted. *)
Definition shut (h : list (obs traffic_answer)) : Prop :=
  forall a key rc ans h1 h2 service mode,
    h = h1 ++ (existT (AckPaused a key rc) ans : obs traffic_answer) :: h2 ->
    (existT (TAdmit (resource_uid a) service mode) (Ok true) : obs traffic_answer) ∉ h2.

Lemma acknowledged_closed x a key rc ans :
  traffic_reachable x -> (existT (AckPaused a key rc) ans : obs traffic_answer) ∈ history x ->
  traffic_wf (AckPaused a key rc) /\ exists f, relies (AckPaused a key rc) f /\ closed_at (shared x) f.
Proof.
  intros Hx Hin. destruct (traffic_facts x Hx) as [_ Hp _]. destruct (Hp _ _ Hin) as [Hwf Hr].
  split; [done|]. destruct Hwf as (_ & _ & _ & _ & _ & n & Hn).
  exists {| cl_uid := resource_uid a; cl_service := act_service a; cl_mode := act_mode a;
            cl_version := expected_version a; cl_result := n |}. split; [done|]. by apply Hr.
Qed.

Lemma shut_reachable x : traffic_reachable x -> shut (history x).
Proof.
  apply (reachable_ind traffic_answers traffic_program ∅ (fun x => shut (history x))).
  - intros a key rc ans h1 h2 s m Heq. by destruct h1.
  - intros y z Hy IH Hstep. destruct Hstep as [l s h m Hm|l1 c k l2 s h r s' Ha|l1 m l2 s h]; cbn in *;
      [done| |done].
    intros a key rc ans h1 h2 sv mo Heq Hin.
    destruct h2 as [|o h2 _] using rev_ind; [by apply elem_of_nil in Hin|].
    rewrite app_comm_cons, app_assoc in Heq. apply app_inj_tail in Heq as [-> <-].
    apply elem_of_app in Hin as [Hin|Hin%list_elem_of_singleton]; [by eapply IH|].
    assert ((existT (AckPaused a key rc) ans : obs traffic_answer)
      ∈ h1 ++ existT (AckPaused a key rc) ans :: h2) as Hack by set_solver.
    destruct (acknowledged_closed _ _ _ _ _ Hy Hack) as (_ & f & (Hu & _) & (row & Hl & Hpaused & _) & _).
    cbn in Hl. rewrite Hu in Hl. 
    destruct (admitted_open _ _ _ _ (existT c r) _ Ha Hin) as (row' & Hl' & Hp'). congruence.
Qed.

(** C20: a pause is final.  However hosts and traffic workers interleave, with whatever
    database errors and abandoned workers, a pause is acknowledged only for the proposal
    whose digest was passed, as the change of its source from version 0 to version 1; that
    source is closed for good, and no attempt is admitted to it, under any scope, by a
    statement after the acknowledgement. *)
Theorem pause_final x h1 a key rc ans h2 :
  traffic_reachable x ->
  history x = h1 ++ (existT (AckPaused a key rc) ans : obs traffic_answer) :: h2 ->
  is_pause a = true /\ key = action_digest a /\
  rc = {| outcome := OUTCOME_SUCCEEDED; rcp_resource_uid := resource_uid a;
          previous_version := "0"; resulting_version := Some "1" |} /\
  expected_version a = "0" /\
  (exists row, shared x !! resource_uid a = Some row /\ paused row = true /\
     traffic_version row = 1 /\ traffic_service row = act_service a /\ traffic_mode row = act_mode a) /\
  forall service mode,
    (existT (TAdmit (resource_uid a) service mode) (Ok true) : obs traffic_answer) ∉ h2.
Proof.
  intros Hx Hh.
  assert ((existT (AckPaused a key rc) ans : obs traffic_answer) ∈ history x) as Hin
    by (rewrite Hh; set_solver).
  destruct (acknowledged_closed x a key rc ans Hx Hin)
    as ((Hp & Hk & Ho & Hu & Hv & _) & f & (Hfu & Hfs & Hfm & Hfv & Hfr) & (row & Hl & Hpaused & Hs & Hm) & Hf0 & Hf1).
  destruct (facts_state _ _ _ _ _ _ (traffic_facts x Hx) _ _ Hl) as [Hver _].
  split_and!; [done|done| |congruence| |].
  - destruct rc. cbn in *. subst. rewrite Hf1. rewrite Hf0 in Hfv. by rewrite <-Hfv.
  - exists row. rewrite Hpaused in Hver. rewrite <-Hfu. split_and!; congruence.
  - intros service mode. by eapply (shut_reachable x Hx).
Qed.

(** ** A concrete run *)

Definition calm_traffic (c : traffic_call) (t : traffic_table) : result (traffic_answer c) * traffic_table :=
  match c return result (traffic_answer c) * traffic_table with
  | TNewUid => (Ok "src-1", t)
  | TNow => (Ok noon, t)
  | TInsert uid row =>
      match t !! uid with None => (Ok tt, <[uid := row]> t) | Some _ => (Err IntegrityError, t) end
  | TGet uid => (Ok (t !! uid), t)
  | TAdmit uid service mode =>
      match open_row t uid service mode with
      | Some row => (Ok true, <[uid := counted row]> t)
      | None => (Ok false, t)
      end
  | TPause uid service mode v =>
      match open_row t uid service mode with
      | Some row =>
          if decide (pretty (traffic_version row) = v)
          then (Ok (Some (traffic_version row + 1)), <[uid := closed_row row]> t) else (Ok None, t)
      | None => (Ok None, t)
      end
  | AckPaused _ _ _ | AckAdmitted _ => (Ok tt, t)
  end.

Lemma calm_traffic_answers c t : traffic_answers t c (calm_traffic c t).1 (calm_traffic c t).2.
Proof.
  apply traffic_ok. destruct c as [| |u row|u|u s m|u s m v|a key r|u]; cbn; try constructor.
  - destruct (t !! u) eqn:Hl; [by apply done_taken|by apply done_register].
  - destruct (open_row t u s m) eqn:Ho; [by apply done_admitted|by apply done_held].
  - destruct (open_row t u s m) eqn:Ho; [case_decide|]; cbn.
    + by apply done_paused.
    + apply done_unpaused. rewrite Ho. by intros ? [= <-].
    + apply done_unpaused. by rewrite Ho.
Qed.

(** A source is registered, used, paused, and refused. *)
Definition pause_webhook : Action := PauseAction {|
  act_incident_id := "inc-1"; act_namespace := "payops-sandbox"; act_service := "webhook-sim";
  resource_uid := "src-1"; expected_version := "0"; evidence_ids := ["ev-pod"];
  act_mode := local_kind |}.
Definition webhook_driver : DriverScope :=
  {| control_uid := "src-1"; driver_service := "webhook-sim"; driver_mode := local_kind |}.
Definition pause_story : list (prog traffic_answer unit) :=
  [bind (traffic_register "webhook-sim" local_kind) (fun _ => Ret tt);
   serve_attempt webhook_driver "webhook";
   serve_pause pause_webhook (action_digest pause_webhook);
   serve_attempt webhook_driver "webhook"].
Definition after_pause : system traffic_answer traffic_table unit :=
  {| threads := [];
     shared := (play_all calm_traffic pause_story ∅ []).1.2;
     history := (play_all calm_traffic pause_story ∅ []).2 |}.

Lemma after_pause_reachable : traffic_reachable after_pause.
Proof.
  apply (play_all_reachable traffic_answers traffic_program calm_traffic calm_traffic_answers).
  repeat constructor.
Qed.

Definition paused_receipt : EffectReceipt :=
  {| outcome := OUTCOME_SUCCEEDED; rcp_resource_uid := "src-1"; previous_version := "0";
     resulting_version := Some "1" |}.

Lemma pause_final_witness :
  (existT (TAdmit "src-1" "webhook-sim" local_kind) (Ok true) : obs traffic_answer) ∈ history after_pause /\
  is_pause pause_webhook = true /\ action_digest pause_webhook = action_digest pause_webhook /\
  paused_receipt = paused_receipt /\ expected_version pause_webhook = "0" /\
  (exists row, shared after_pause !! "src-1" = Some row /\ paused row = true /\
     traffic_version row = 1 /\ traffic_service row = "webhook-sim" /\ traffic_mode row = local_kind) /\
  forall service mode,
    (existT (TAdmit "src-1" service mode) (Ok true) : obs traffic_answer) ∉ drop 8 (history after_pause).
Proof.
  split; [apply (list_elem_of_lookup_2 _ 2); vm_compute; reflexivity|].
  apply (pause_final after_pause (take 7 (history after_pause)) pause_webhook
    (action_digest pause_webhook) paused_receipt (Ok tt) (drop 8 (history after_pause))).
  - apply after_pause_reachable.
  - vm_compute. reflexivity.
Defined.
