(* ===== verification/Host.v ===== *)
(** * The composed host: [payops/remediation/backend.py]

    [OperationalBackend] answers the broker's requests out of the identity service, the
    incident store, the Deployment executor and the traffic control.  [implement] is that
    backend as a program for each request of the broker, and [link] puts it under the
    broker's methods.  A request to the executor or to the traffic control is recorded with
    the idempotency key it is made for, if any: the key is a label of the history that the
    other side does not see. *)

From S2P Require Import Prelude Json Contracts Effects Policy ActionStore Broker Incidents Identity.
From S2P Require Import Deployment Traffic Investigation.

Open Scope string_scope.
Open Scope list_scope.
Open Scope Z_scope.
Open Scope prog_scope.

Section host.
Context `{ActionCodec, ArtifactOps, IncidentCodec}.

(** Every collaborator of the host: its databases, the identity SDK, [kubectl], the clocks,
    the investigators, the queue's SDK and the Slack webhook, which answers a status and a
    body, or nothing when the transport failed with an [httpx.HTTPError]. *)
Inductive host_call : Type :=
  | HStore (q : store_call)
  | HAuth (c : auth_call)
  | HIncident (c : inc_call)
  | HExec (for_key : option string) (c : exec_call)
  | HTraffic (for_key : option string) (c : traffic_call)
  | HClock
  | HNow
  | HInvestigate (i : Incident)
  | HSlack (webhook : string) (payload : list (string * json))
  | HWorkerPrincipal
  | HStart (i : Incident)
  | HResume (id : string)
  | HAck
  | HNack.

Definition host_answer (c : host_call) : Type :=
  match c with
  | HStore q => store_answer q
  | HAuth c => auth_answer c
  | HIncident c => inc_answer c
  | HExec _ c => exec_answer c
  | HTraffic _ c => traffic_answer c
  | HClock | HNow => datetime
  | HInvestigate _ => IncidentReport
  | HSlack _ _ => option (Z * string)
  | HWorkerPrincipal => option Principal
  | HStart _ | HResume _ => InvestigationState
  | HAck | HNack => unit
  end.

Abbreviation hprog := (prog host_answer).
Abbreviation ask := (call (R:=host_answer)) (only parsing).

Definition on_actions {A} (m : prog store_answer A) : hprog A :=
  embed (Q:=host_answer) HStore (fun _ r => r) m.
Definition on_auth {A} (m : prog auth_answer A) : hprog A :=
  embed (Q:=host_answer) HAuth (fun _ r => r) m.
Definition on_incidents {A} (m : prog inc_answer A) : hprog A :=
  embed (Q:=host_answer) HIncident (fun _ r => r) m.
Definition on_executor {A} (k : option string) (m : prog exec_answer A) : hprog A :=
  embed (Q:=host_answer) (HExec k) (fun _ r => r) m.
Definition on_traffic {A} (k : option string) (m : prog traffic_answer A) : hprog A :=
  embed (Q:=host_answer) (HTraffic k) (fun _ r => r) m.

(** What [OperationalBackend.__init__] is given.  [str_of] is [str] of JSON values that are
    no strings, [poll_fuel] bounds the executor's postchecks. *)
Record HostConfig : Type := {
  identity_settings : IdentitySettings;
  executor_config : ExecutorConfig;
  has_traffic : bool;
  artifacts : artifact_store;
  str_of : json -> string;
  poll_fuel : nat;
}.

Context (host : HostConfig).

(** [OperationalBackend.principal], wired to [IdentityService.principal] *)
Definition backend_principal (who : string) : hprog (option Principal) :=
  on_auth (service_principal (identity_settings host) who).

(** [OperationalBackend.context] *)
Definition backend_context (a : Action) (who : string) : hprog PolicyContext :=
  let* found := on_incidents (incident_get (act_incident_id a)) in
  match found with
  | None => Raise (PermissionError "INCIDENT_NOT_FOUND")
  | Some i =>
      let* resource :=
        (if is_pause a then
           if negb (has_traffic host) then Raise (PermissionError "TRAFFIC_BACKEND_UNAVAILABLE")
           else on_traffic None (traffic_snapshot a)
         else on_executor None (executor_snapshot (executor_config host) (str_of host) a)) in
      let* p := backend_principal who in
      Ret {| principal := p; incident := i; ctx_resource := resource; store := artifacts host |}
  end.

(** [OperationalBackend.execute] *)
Definition backend_execute (a : Action) (key : string) : hprog EffectReceipt :=
  if is_pause a then
    if negb (has_traffic host) then Raise (PermissionError "TRAFFIC_BACKEND_UNAVAILABLE")
    else on_traffic (Some key) (traffic_pause a key)
  else on_executor (Some key)
         (executor_execute (executor_config host) (str_of host) (poll_fuel host) a key).

(** The backend under the broker *)
Definition implement (c : broker_call) : hprog (broker_answer c) :=
  match c with
  | KStore q => ask (HStore q)
  | KPrincipal who => backend_principal who
  | KContext a who => backend_context a who
  | KExecute a key => backend_execute a key
  | KClock => ask HClock
  | KPolicyNow => ask HNow
  end.

Definition host_propose (mode : Mode) (value : list (string * json)) (who : string) : hprog ActionRecord :=
  link implement (propose mode value who).
Definition host_approve (mode : Mode) (id who : string) : hprog ActionRecord :=
  link implement (approve mode id who).
Definition host_execute (mode : Mode) (id who : string) : hprog ActionRecord :=
  link implement (execute mode id who).

(** ** The world *)

(** The action store answers as [db_answers]; everybody else answers anything. *)
Inductive host_answers (d : db) : forall c : host_call, result (host_answer c) -> db -> Prop :=
  | host_db q r d' : db_answers d q r d' -> host_answers d (HStore q) r d'
  | host_world c r : (forall q, c <> HStore q) -> host_answers d c r d.
End host.
