(* ===== verification/Api.v ===== *)
(** * The authenticated surface: [payops/protected_api.py], [payops/remediation/api.py],
    [payops/slack_notifications.py], [payops/graphql_api.py] and [payops/pubsub_worker.py]

    Every handler as a program of the composed host: authentication, scope, the operation,
    and the checks after it.  FastAPI hands a handler its parsed arguments and turns an
    [HTTPException] into a response. *)

From S2P Require Import Prelude Text Json Contracts Effects Policy ActionStore Broker Incidents Identity.
From S2P Require Import Deployment Traffic Investigation Host.

Open Scope string_scope.
Open Scope list_scope.
Open Scope Z_scope.
Open Scope result_scope.
Open Scope prog_scope.

(** [HTTPAuthorizationCredentials] *)
Record Credential : Type := {
  scheme : string;
  credentials : string;
}.

Section api.
Context `{ActionCodec, ArtifactOps, IncidentCodec}.
Context (host : HostConfig).

Abbreviation hprog := (prog host_answer).
Abbreviation ask := (call (R:=host_answer)) (only parsing).

(** ** [protected_api.py] *)

Definition is_AuthenticationDenied (e : exn) : bool :=
  match e with AuthenticationDenied _ => true | _ => false end.

(** [actor] *)
Definition actor (bearer : option Credential) : hprog Principal :=
  match bearer with
  | None => Raise (HTTPException 401 "AUTHENTICATION_REQUIRED")
  | Some c =>
      if negb (eqb_of (lower (scheme c)) "bearer") then Raise (HTTPException 401 "AUTHENTICATION_REQUIRED")
      else
        catch
          (let* p := on_auth (authenticate (identity_settings host) (credentials c)) in
           if negb (enabled p) then Raise (AuthenticationDenied "AUTHENTICATION_DENIED")
           else
             let* now := ask HNow in
             if expires_at p <=? now then Raise (AuthenticationDenied "AUTHENTICATION_DENIED")
             else Ret p)
          is_AuthenticationDenied (fun _ => Raise (HTTPException 401 "AUTHENTICATION_DENIED"))
  end.

(** [any(identity_valid(principal, role, namespace, utc_now()) for role in roles)] *)
Fixpoint any_role (p : Principal) (ns : string) (rs : list Role) : hprog bool :=
  match rs with
  | [] => Ret false
  | r :: rs =>
      let* now := ask HNow in
      if identity_valid (Some p) r ns now then Ret true else any_role p ns rs
  end.

(** [authorize] *)
Definition authorize (p : Principal) (ns : string) (write : bool) : hprog unit :=
  let roles := if write then [responder] else [viewer; responder; approver; executor] in
  if negb (eqb_of ns "payops-sandbox") then Raise (HTTPException 403 "SCOPE_DENIED")
  else
    let* ok := any_role p ns roles in
    if negb ok then Raise (HTTPException 403 "SCOPE_DENIED") else Ret tt.

(** [scoped_incident] *)
Definition scoped_incident (id : string) (p : Principal) : hprog Incident :=
  let* found := on_incidents (incident_get id) in
  match found with
  | None => Raise (HTTPException 404 "INCIDENT_NOT_FOUND")
  | Some i =>
      if negb (bool_decide (req_namespace (request i) ∈ namespaces p)) then
        Raise (HTTPException 404 "INCIDENT_NOT_FOUND")
      else
        do* authorize p (req_namespace (request i)) false in
        if negb (bool_decide (req_service (request i) ∈ SANDBOX_SERVICES)) then
          Raise (HTTPException 403 "SERVICE_DENIED")
        else Ret i
  end.

(** The check of [attach_remediation], and of [create_protected_app] *)
Definition app_valid (mode : Mode) (remediation : option Mode) : result unit :=
  if negb (operation_mode_ok mode) then Err (ValueError "Operational mode must be explicitly configured")
  else match remediation with
       | Some m => if negb (eqb_of m mode) then Err (ValueError "Remediation mode must match operational mode")
                   else Ok tt
       | None => Ok tt
       end.

Definition is_IdempotencyConflict (e : exn) : bool :=
  match e with IdempotencyConflict _ => true | _ => false end.

(** [POST /api/incidents] *)
Definition api_create (r : IncidentCreate) (key : option string) (bearer : option Credential)
  : hprog Incident :=
  let* p := actor bearer in
  do* authorize p (req_namespace r) true in
  if negb (bool_decide (req_service r ∈ SANDBOX_SERVICES)) then Raise (HTTPException 403 "SERVICE_DENIED")
  else catch (on_incidents (incident_create r key)) is_IdempotencyConflict
         (fun _ => Raise (HTTPException 409 "IDEMPOTENCY_CONFLICT")).

(** [GET /api/incidents/{incident_id}] *)
Definition api_get (id : string) (bearer : option Credential) : hprog Incident :=
  let* p := actor bearer in scoped_incident id p.

(** [POST /api/incidents/{incident_id}/investigate], in an app of mode [mode] *)
Definition api_investigate (mode : Mode) (id : string) (bearer : option Credential) : hprog IncidentReport :=
  let* p := actor bearer in
  let* i := scoped_incident id p in
  do* authorize p (req_namespace (request i)) true in
  let* rep := match report i with Some rep => Ret rep | None => ask (HInvestigate i) end in
  if negb (eqb_of (rep_incident_id rep) id) || negb (eqb_of (rep_mode rep) mode) then
    Raise (HTTPException 502 "INVESTIGATOR_SCOPE_MISMATCH")
  else
    let* again := actor bearer in
    do* authorize again (req_namespace (request i)) true in
    let* saved := on_incidents (save_report rep) in
    match report saved with
    | Some rep => if eqb_of (rep_mode rep) mode then Ret rep else Raise (HTTPException 409 "REPORT_MODE_MISMATCH")
    | None => Raise (HTTPException 409 "REPORT_MODE_MISMATCH")
    end.

(** ** [remediation/api.py], in front of a broker of mode [mode] *)

Definition is_TransitionConflict (e : exn) : bool :=
  match e with TransitionConflict _ => true | _ => false end.

Definition action_error (e : exn) : bool := is_PermissionError e || is_KeyError e || is_TransitionConflict e.

(** [dispatch] *)
Definition api_dispatch {A} (m : hprog A) : hprog A :=
  catch m action_error (fun e =>
    if is_PermissionError e then Raise (HTTPException 403 "ACTION_DENIED")
    else if is_KeyError e then Raise (HTTPException 404 "ACTION_NOT_FOUND")
    else Raise (HTTPException 409 "ACTION_CHANGED")).

(** [scoped] *)
Definition scoped_action (mode : Mode) (id action_id : string) (bearer : option Credential)
  : hprog ActionRecord :=
  let* p := actor bearer in
  let* i := scoped_incident id p in
  let* r := api_dispatch (on_actions (store_get action_id)) in
  let a := rec_proposal r in
  if negb (eqb_of (act_incident_id a) id && eqb_of (act_namespace a) (req_namespace (request i)) &&
           eqb_of (act_service a) (req_service (request i)) && eqb_of (act_mode a) mode)
  then Raise (HTTPException 404 "ACTION_NOT_FOUND") else Ret r.

(** [propose] *)
Definition api_propose (mode : Mode) (id : string) (value : list (string * json))
  (bearer : option Credential) : hprog ActionRecord :=
  let* p := actor bearer in
  let* i := scoped_incident id p in
  do* authorize p (req_namespace (request i)) true in
  if negb (is_str (dget value "incident_id") id && is_str (dget value "namespace") (req_namespace (request i)) &&
           is_str (dget value "service") (req_service (request i)))
  then Raise (HTTPException 403 "ACTION_SCOPE_MISMATCH")
  else
    let* r := api_dispatch (host_propose host mode value (subject p)) in
    scoped_action mode id (action_id r) bearer.

(** [get] *)
Definition api_action (mode : Mode) (id action_id : string) (bearer : option Credential) : hprog ActionRecord :=
  scoped_action mode id action_id bearer.

(** [audit] *)
Definition api_audit (mode : Mode) (id action_id : string) (bearer : option Credential)
  : hprog (list AuditEvent) :=
  do* scoped_action mode id action_id bearer in
  let* events := on_actions (store_audit action_id) in
  do* scoped_action mode id action_id bearer in
  Ret events.

(** [approve] *)
Definition api_approve (mode : Mode) (id action_id : string) (bearer : option Credential)
  : hprog ActionRecord :=
  do* scoped_action mode id action_id bearer in
  let* p := actor bearer in
  do* api_dispatch (host_approve host mode action_id (subject p)) in
  scoped_action mode id action_id bearer.

(** [execute] *)
Definition api_execute (mode : Mode) (id action_id : string) (bearer : option Credential)
  : hprog ActionRecord :=
  do* scoped_action mode id action_id bearer in
  let* p := actor bearer in
  do* api_dispatch (host_execute host mode action_id (subject p)) in
  scoped_action mode id action_id bearer.

(** ** [slack_notifications.py] *)

(** What [SlackNotifier.__init__] keeps: the webhook and the origin without final slash *)
Record SlackConfig : Type := {
  webhook : string;
  origin : string;
}.

(** [[A-Za-z0-9_-]{1,128}] *)
Definition slack_reference (id : string) : bool :=
  between 1 128 (str_len id) &&
  str_all (fun c => ascii_between 97 122 c || ascii_between 65 90 c || is_digit c ||
                    ascii_between 95 95 c || ascii_between 45 45 c) id.

(** The fixed message of [send] *)
Definition slack_payload (c : SlackConfig) (id : string) : list (string * json) :=
  let url := origin c +:+ "/api/incidents/" +:+ id in
  [("text", JStr ("PayOps incident " +:+ id +:+ ": " +:+ url));
   ("unfurl_links", JBool false); ("unfurl_media", JBool false);
   ("blocks", JList [JObj
      [("type", JStr "section");
       ("text", JObj
          [("type", JStr "plain_text");
           ("text", JStr ("PayOps incident " +:+ id +:+ ". Review: " +:+ url +:+ ". " +:+
                          "Approval and execution require backend authorization."))])]])].

(** [bytes(body).strip()]: bytes strip fewer characters than [str.strip] *)
Definition byte_space (c : Ascii.ascii) : bool := ascii_between 9 13 c || ascii_between 32 32 c.
Fixpoint byte_lstrip (s : string) : string :=
  match s with
  | String c s' => if byte_space c then byte_lstrip s' else s
  | EmptyString => EmptyString
  end.
Definition delivered (status : Z) (body : string) : bool :=
  (status =? 200) && (str_len body <=? 1024) &&
  match after_prefix "ok" (byte_lstrip body) with
  | Some rest => eqb_of (byte_lstrip rest) EmptyString
  | None => false
  end.

(** [SlackNotifier.send] *)
Definition slack_send (c : SlackConfig) (id : string) : hprog unit :=
  if negb (slack_reference id) then Raise (ValueError "invalid incident reference")
  else
    catch (let* response := ask (HSlack (webhook c) (slack_payload c id)) in
           match response with
           | Some (status, body) =>
               if delivered status body then Ret tt else Raise (ValueError "notification rejected")
           | None => Raise (RuntimeError "SLACK_DELIVERY_UNCONFIRMED")
           end)
      is_ValueError (fun _ => Raise (RuntimeError "SLACK_DELIVERY_UNCONFIRMED")).

Definition is_RuntimeError (e : exn) : bool := match e with RuntimeError _ => true | _ => false end.

(** [notify] *)
Definition api_notify (c : SlackConfig) (id : string) (bearer : option Credential)
  : hprog (list (string * string)) :=
  let* p := actor bearer in
  let* i := scoped_incident id p in
  do* authorize p (req_namespace (request i)) true in
  do* catch (slack_send c (incident_id i)) is_RuntimeError
        (fun _ => Raise (HTTPException 502 "SLACK_DELIVERY_UNCONFIRMED")) in
  Ret [("status", "delivered"); ("incident_id", incident_id i)].
End api.

(** ** Other consumers of incidents: [graphql_api.py] and [pubsub_worker.py]

    The GraphQL parser and engine are a library: a document is the part of its syntax tree
    the bounds look at (or the parser's rejection), and the engine is an argument.
    The queue worker processes one delivery at a time. *)

(** ** [graphql_api.py] *)

(** A [SelectionNode]: a field with its selection set, or a fragment *)
Inductive selection : Type :=
  | FieldNode (name : string) (set : option (list selection))
  | FragmentNode.

Inductive definition : Type :=
  | QueryNode (set : list selection)
  | OtherNode.

(** The loop of [selections] over the items of one set, of cost [item] each *)
Section items.
Context (item : selection -> result Z).
Fixpoint selections_loop (count : Z) (l : list selection) : result Z :=
  match l with
  | [] => Ok count
  | s :: l =>
      let! k := item s in
      if 50 <? count + k then Err (ValueError "query complexity exceeded")
      else selections_loop (count + k) l
  end.
End items.

(** The cost of one item of a set at [depth] *)
Fixpoint selection_cost (depth : Z) (s : selection) {struct s} : result Z :=
  match s with
  | FragmentNode => Err (ValueError "unsupported selection")
  | FieldNode name set =>
      if starts_with "__" name then Err (ValueError "unsupported selection")
      else match set with
           | None => Ok 1
           | Some l =>
               if 5 <? depth + 1 then Err (ValueError "query depth exceeded")
               else let! n := selections_loop (selection_cost (depth + 1)) 0 l in Ok (1 + n)
           end
  end.

(** [selections] *)
Definition selections (depth : Z) (l : list selection) : result Z :=
  if 5 <? depth then Err (ValueError "query depth exceeded")
  else selections_loop (selection_cost depth) 0 l.

(** [check_query] of a parsed document *)
Definition check_query (document : list definition) : result unit :=
  match document with
  | [QueryNode l] => let! _ := selections 1 l in Ok tt
  | [OtherNode] => Err (ValueError "read-only query required")
  | _ => Err (ValueError "one query required")
  end.

(** The [evidence] resolver of an incident *)
Definition evidence_page (rep : option IncidentReport) (offset limit : Z)
  : result (list (list (string * string))) :=
  if negb (between 0 10000 offset) || negb (between 1 50 limit) then Err (ValueError "invalid pagination")
  else
    let rows := match rep with Some r => rep_evidence r | None => [] end in
    Ok (map (fun row => [("id", evidence_id row); ("source", source_name (source row)); ("summary", summary row)])
          (take (Z.to_nat limit) (drop (Z.to_nat offset) rows))).

(** The projection the [incident] resolver returns, its [evidence] resolver apart *)
Definition incident_view (i : Incident) : list (string * json) :=
  [("id", JStr (incident_id i)); ("title", JStr (title (request i)));
   ("service", JStr (req_service (request i))); ("namespace", JStr (req_namespace (request i)));
   ("report",
    match report i with
    | None => JNull
    | Some r => JObj
        [("terminalState", JStr (terminal_name (terminal_state r))); ("mode", JStr (mode_name (rep_mode r)));
         ("durationSeconds", JFloat (duration_seconds r));
         ("causes", JList (map (fun h => JObj
            [("code", JStr (cause_code h)); ("confidence", JFloat (confidence h));
             ("supportingEvidenceIds", JList (map JStr (supporting_evidence_ids h)))])
            (take 3 (ranked_root_causes r))))]
    end)].

Section consumers.
Context `{ActionCodec, ArtifactOps, IncidentCodec}.
Context (host : HostConfig).

Abbreviation hprog := (prog host_answer).
Abbreviation ask := (call (R:=host_answer)) (only parsing).

(** The [incident] resolver *)
Definition resolve_incident (bearer : option Credential) (id : string) : hprog Incident :=
  let* p := actor host bearer in scoped_incident id p.

(** [query]; [graphql_sync] executes the request with that resolver and answers the data,
    or nothing when there were errors. *)
Definition api_query (graphql_sync : (string -> hprog Incident) -> hprog (option json))
  (document : result (list definition)) (bearer : option Credential) : hprog (option json) :=
  do* actor host bearer in
  match rbind document check_query with
  | inl _ => Raise (HTTPException 400 "GRAPHQL_QUERY_REJECTED")
  | inr _ =>
      let* data := graphql_sync (resolve_incident bearer) in
      match data with
      | None => Ret None
      | Some data => do* actor host bearer in Ret (Some data)
      end
  end.

(** ** [pubsub_worker.py] *)

(** [InvestigationRequest.model_validate_json] of decoded data *)
Definition InvestigationRequest_validate (d : result json) : result string :=
  let! j := d in
  match as_object j with
  | Some d =>
      match field_str d "incident_id" with
      | Some id => if closed d ["incident_id"] && identifier_ok id then Ok id
                   else Err (ValueError "InvestigationRequest")
      | None => Err (ValueError "InvestigationRequest")
      end
  | None => Err (ValueError "InvestigationRequest")
  end.

(** A delivery: the size of its data, and the data as JSON or the decoder's error *)
Record Message : Type := {
  data_length : Z;
  data_json : result json;
}.

(** [_authorized] *)
Definition worker_authorized (id : string) : hprog Incident :=
  let* p := ask HWorkerPrincipal in
  match p with
  | None => Raise (PermissionError "worker authority unavailable")
  | Some p =>
      let* i := scoped_incident id p in
      do* authorize p (req_namespace (request i)) true in
      Ret i
  end.

Definition finished (s : InvestigationState) : bool := eqb_of (phase s) FINISHED.

(** [process] in a worker of mode [mode] *)
Definition worker_process (mode : Mode) (m : Message) : hprog unit :=
  if 1024 <? data_length m then Raise (ValueError "queue request exceeds byte budget")
  else
    let* id := lift (InvestigationRequest_validate (data_json m)) in
    let* i := worker_authorized id in
    let* rep :=
      match report i with
      | Some rep => Ret (Some rep)
      | None =>
          let* s := ask (HStart i) in
          let* s := (if finished s then Ret s else ask (HResume (incident_id i))) in
          if negb (finished s) || negb (eqb_of (st_incident s) i) then
            Raise (ValueError "investigation is unfinished or has different inputs")
          else Ret (st_report s)
      end in
    match rep with
    | None => Raise (ValueError "investigator report scope mismatch")
    | Some rep =>
        if negb (eqb_of (rep_incident_id rep) (incident_id i)) || negb (eqb_of (rep_mode rep) mode) then
          Raise (ValueError "investigator report scope mismatch")
        else
          do* worker_authorized (incident_id i) in
          let* saved := on_incidents (save_report rep) in
          match report saved with
          | Some rep => if eqb_of (rep_mode rep) mode then Ret tt
                        else Raise (ValueError "stored report mode mismatch")
          | None => Raise (ValueError "stored report mode mismatch")
          end
    end.

(** [handle] *)
Definition worker_handle (mode : Mode) (m : Message) : hprog unit :=
  let* ok := catch (do* worker_process mode m in Ret true) (fun _ => true)
               (fun _ => do* ask HNack in Ret false) in
  if ok : bool then ask HAck else Ret tt.
End consumers.
