(* ===== verification/HostSafety.v ===== *)
(** * At most one write per action, through every layer

    The protocol of [Permits] for the composed host: the claim is still the committed
    transition into [EXECUTING], and the effect is now the request that changes something
    outside: a patch of a Deployment, a pause of a traffic source. *)

From S2P Require Import Prelude Text Json Digest Contracts Effects Permits Policy ActionStore Broker.
From S2P Require Import BrokerSafety Incidents Identity Deployment DeploymentTheorems Traffic Investigation Host Api Walkthrough.

Open Scope string_scope.
Open Scope list_scope.
Open Scope Z_scope.
Open Scope result_scope.
Open Scope prog_scope.

Lemma guarded_ok {C} {R : C -> Type} {K A} (ok : C -> Prop) (grant : forall c : C, result (R c) -> option K)
  (spend : C -> option K) perm (m : prog R A) :
  guarded ok grant spend perm m -> issues ok m.
Proof. revert perm. induction m; intros perm; cbn; [done|done|]. intros (? & ? & ?). split; eauto. Qed.

Section safety.
Context `{ActionCodec, ArtifactOps, IncidentCodec}.
Context (host : HostConfig).

(** The patch of the plan of an action *)
Definition patch_for (a : Action) (key service : string) (ops : list json) : Prop :=
  is_pause a = false /\ service = act_service a /\
  exists read p, ops = patch p /\
    plan_deployment a read key (inventory (executor_config host))
      (service_revisions (executor_config host) service) = Ok p.

(** The write that [a] asks for, recorded under its digest *)
Definition write_for (a : Action) (key : string) (c : host_call) : Prop :=
  key = action_digest a /\
  match c with
  | HExec k (XPatch s ops) => k = Some key /\ patch_for a key s ops
  | HTraffic k (TPause u s m v) =>
      k = Some key /\ is_pause a = true /\ u = resource_uid a /\ s = act_service a /\
      m = act_mode a /\ v = expected_version a
  | _ => False
  end.

(** The requests that change something outside *)
Definition is_write (c : host_call) : bool :=
  match c with
  | HExec _ (XPatch _ _) | HTraffic _ (TPause _ _ _ _) => true
  | _ => false
  end.

Definition host_ok (c : host_call) : Prop :=
  match c with
  | HStore q => request_ok q
  | _ => is_write c = true -> exists a key, write_for a key c
  end.

Lemma host_ok_write c : host_ok c -> is_write c = true -> exists a key, write_for a key c.
Proof. destruct c; cbn; auto; done. Qed.

Definition host_grant (c : host_call) : result (host_answer c) -> option string :=
  match c return result (host_answer c) -> option string with
  | HStore q => store_grant q
  | _ => fun _ => None
  end.

Definition host_spend (c : host_call) : option string :=
  match c with
  | HExec k (XPatch _ _) | HTraffic k (TPause _ _ _ _) => k
  | _ => None
  end.

Abbreviation Guarded := (guarded host_ok host_grant host_spend).
Abbreviation Quiet := (issues (quiet host_ok host_grant host_spend)).

Lemma quiet_other c : (forall q, c <> HStore q) -> is_write c = false -> quiet host_ok host_grant host_spend c.
Proof.
  intros Hne Hw. split_and!.
  - destruct c as [q| | | | | | | | | | | | |]; cbn in *; try congruence. by destruct (Hne q).
  - destruct c as [q| | |k c|k c| | | | | | | | |]; try done; by destruct c.
  - destruct c as [q| | | | | | | | | | | | |]; try done. by destruct (Hne q).
Qed.

Lemma quiet_call c : (forall q, c <> HStore q) -> is_write c = false -> Quiet (call (R:=host_answer) c).
Proof. intros ? ?. apply (issues_call (R:=host_answer)). by apply quiet_other. Qed.

(** Authentication and scope only ask who is there, what incident it is, and the time. *)
Definition checking (c : host_call) : Prop :=
  match c with HAuth _ | HIncident (SGet _) | HNow => True | _ => False end.

Lemma checking_quiet c : checking c -> quiet host_ok host_grant host_spend c.
Proof. intros Hc. apply quiet_other; by destruct c. Qed.

Lemma asked_incident_checks id : issues checking (on_incidents (incident_get id)).
Proof.
  apply (issues_embed _ _ (fun c => match c with SGet _ => True | _ => False end)); [by intros []|].
  unfold incident_get. apply issues_bind; [by apply issues_call|]. intros [q|]; [|done].
  apply issues_bind; [apply issues_lift|done].
Qed.

Lemma on_auth_checks {A} (m : prog auth_answer A) : issues checking (on_auth m).
Proof. by apply (issues_embed _ _ (fun _ => True)); [|apply issues_any]. Qed.

Lemma now_checks : issues checking (call (R:=host_answer) HNow).
Proof. by apply issues_call. Qed.

Lemma on_auth_quiet {A} (m : prog auth_answer A) : Quiet (on_auth m).
Proof. eapply issues_weaken; [apply checking_quiet|apply on_auth_checks]. Qed.
Lemma on_incidents_quiet {A} (m : prog inc_answer A) : Quiet (on_incidents m).
Proof. apply (issues_embed _ _ (fun _ => True)); [|apply issues_any]. intros c _. by apply quiet_other. Qed.

Lemma on_actions_quiet {A} (m : prog store_answer A) : issues unclaiming m -> Quiet (on_actions m).
Proof.
  apply issues_embed. intros q [Hq Hn]. split_and!; [done|done|]. intros r. destruct q; try done. cbn in *.
  by destruct r as [|[]].
Qed.

Lemma store_audit_unclaiming id : issues unclaiming (store_audit id).
Proof.
  unfold store_audit. apply issues_bind; [by apply issues_call|]. intros rows. apply issues_lift.
Qed.

(** ** The backend *)

Lemma traffic_snapshot_quiet a :
  issues (fun c => match c with TPause _ _ _ _ => False | _ => True end) (traffic_snapshot a).
Proof.
  unfold traffic_snapshot. apply issues_bind; [apply issues_lift|]. intros a'. destruct (negb _); [done|].
  apply issues_bind; [by apply issues_call|]. intros [row|]; [|done]. destruct (_ || _); [done|].
  apply issues_bind; [by apply issues_call|]. intros now. apply issues_lift.
Qed.

Lemma executor_snapshot_reads config str_of a : issues reading (executor_snapshot config str_of a).
Proof.
  unfold executor_snapshot. apply issues_bind; [apply issues_lift|]. intros _.
  apply issues_bind; [apply check_namespace_reads|]. intros _.
  apply issues_bind; [apply read_deployment_reads|]. intros current.
  do 4 (apply issues_bind; [apply issues_lift|]; intros ?).
  apply issues_bind; [apply issues_lift|]. intros spec.
  destruct (dget_or spec "replicas" (JInt 1)); try done.
  do 4 (apply issues_bind; [apply issues_lift|]; intros ?).
  apply issues_bind; [by apply issues_call|]. intros now. apply issues_lift.
Qed.

Lemma on_traffic_quiet k {A} (m : prog traffic_answer A) :
  issues (fun c => match c with TPause _ _ _ _ => False | _ => True end) m -> Quiet (on_traffic k m).
Proof. apply issues_embed. intros c Hc. apply quiet_other; [done|]. by destruct c. Qed.

Lemma on_executor_quiet k {A} (m : prog exec_answer A) :
  issues reading m -> Quiet (on_executor k m).
Proof. apply issues_embed. intros c Hc. apply quiet_other; [done|]. by destruct c. Qed.

Lemma backend_principal_quiet who : Quiet (backend_principal host who).
Proof. apply on_auth_quiet. Qed.

Lemma backend_context_quiet a who : Quiet (backend_context host a who).
Proof.
  unfold backend_context. apply issues_bind; [apply on_incidents_quiet|]. intros [i|]; [|done].
  apply issues_bind.
  - destruct (is_pause a); [destruct (negb _); [done|]|].
    + apply on_traffic_quiet, traffic_snapshot_quiet.
    + apply on_executor_quiet, executor_snapshot_reads.
  - intros s. apply issues_bind; [apply backend_principal_quiet|done].
Qed.

(** The protocol inside the executor and the traffic control, under the key of the call *)
Section keyed.
Context (a : Action) (key : string).

Definition exec_ok (c : exec_call) : Prop :=
  match c with XPatch s ops => key = action_digest a /\ patch_for a key s ops | _ => True end.
Definition exec_spend (c : exec_call) : option string :=
  match c with XPatch _ _ => Some key | _ => None end.
Definition pause_ok (c : traffic_call) : Prop :=
  match c with
  | TPause u s m v => key = action_digest a /\ is_pause a = true /\ u = resource_uid a /\
      s = act_service a /\ m = act_mode a /\ v = expected_version a
  | _ => True
  end.
Definition pause_spend (c : traffic_call) : option string :=
  match c with TPause _ _ _ _ => Some key | _ => None end.

Lemma traffic_pause_keyed :
  is_pause a = true ->
  guarded (R:=traffic_answer) pause_ok (fun _ _ => None) pause_spend (Some key) (traffic_pause a key).
Proof.
  intros Ha. unfold traffic_pause. apply guarded_bind.
  { eapply issues_weaken; [|apply traffic_snapshot_quiet]. by intros []. }
  intros s. destruct_eqb key (action_digest a); cbn [negb]; [|done].
  apply guarded_spend; [done|done|]. intros [e|[v|]]; [done| |done]. apply issues_lift.
Qed.

Lemma executor_execute_keyed :
  is_pause a = false ->
  guarded (R:=exec_answer) exec_ok (fun _ _ => None) exec_spend (Some key)
    (executor_execute (executor_config host) (str_of host) (poll_fuel host) a key).
Proof.
  intros Ha.
  assert (forall B (m : prog exec_answer B),
    issues reading m -> issues (quiet (R:=exec_answer) (K:=string) exec_ok (fun _ _ => None) exec_spend) m) as Hq
    by (intros B m; apply issues_weaken; by intros []).
  unfold executor_execute. apply guarded_bind; [apply issues_lift|]. intros _.
  apply guarded_bind; [apply Hq, check_namespace_reads|]. intros _.
  apply guarded_bind; [apply Hq, read_deployment_reads|]. intros read.
  destruct (plan_deployment _ _ _ _ _) as [e|p] eqn:Hp; cbn [lift bind]; [done|].
  destruct (plan_deployment_action _ _ _ _ _ _ Hp) as [_ Hkey].
  apply guarded_spend; [split; [done|]; split_and!; [done|done|by exists read, p]|done|].
  intros [e|current]; [done|].
  apply issues_bind; [apply Hq; by apply issues_call|]. intros started. apply Hq, poll_reads.
Qed.

Lemma backend_execute_guarded : Guarded (Some key) (backend_execute host a key).
Proof.
  unfold backend_execute. destruct (is_pause a) eqn:Ha; [destruct (negb _); [done|]|].
  - apply (guarded_embed pause_ok (fun _ _ => None) pause_spend); [|by intros []..|by apply traffic_pause_keyed].
    intros c Hc Hw. destruct c; try done. exists a, key. by destruct Hc.
  - apply (guarded_embed exec_ok (fun _ _ => None) exec_spend); [|by intros []..|by apply executor_execute_keyed].
    intros c Hc Hw. destruct c; try done. exists a, key. by destruct Hc.
Qed.

(** Every write of the backend is the one its action asks for. *)
Lemma backend_execute_writes : issues (fun c => is_write c = true -> write_for a key c) (backend_execute host a key).
Proof.
  unfold backend_execute. destruct (is_pause a) eqn:Ha; [destruct (negb _); [done|]|].
  - apply (issues_embed _ _ pause_ok); [|by eapply guarded_ok, traffic_pause_keyed].
    intros c Hc Hw. destruct c; try done. by destruct Hc.
  - apply (issues_embed _ _ exec_ok); [|by eapply guarded_ok, executor_execute_keyed].
    intros c Hc Hw. destruct c; try done. by destruct Hc.
Qed.
End keyed.

(** Only the broker's effect makes the backend write. *)
Lemma implement_quiet c :
  (forall q, c <> KStore q) -> (forall a key, c <> KExecute a key) -> Quiet (implement host c).
Proof.
  intros Hs He. destruct c as [q|who|a who|a key| |]; cbn [implement].
  - by destruct (Hs q).
  - apply backend_principal_quiet.
  - apply backend_context_quiet.
  - by destruct (He a key).
  - by apply quiet_call.
  - by apply quiet_call.
Qed.

Lemma implement_guarded {A} perm (m : prog broker_answer A) :
  guarded broker_ok broker_grant broker_spend perm m -> Guarded perm (link (implement host) m).
Proof.
  apply guarded_link.
  - intros c key _ Hs. destruct c; try done. injection Hs as ->.
    apply guarded_attempt, backend_execute_guarded.
  - intros c Hok Hs. destruct c as [q|who|a who|a key| |]; try done;
      try (right; split; [by apply implement_quiet|done]).
    left. exists (HStore q), (fun r => r). split_and!; done.
Qed.

(** ** The surface *)

Lemma actor_checks bearer : issues checking (actor host bearer).
Proof.
  unfold actor. destruct bearer as [c|]; [|done]. destruct (negb _); [done|].
  apply issues_catch; [|done]. apply issues_bind; [apply on_auth_checks|]. intros p.
  destruct (negb _); [done|]. apply issues_bind; [apply now_checks|]. intros now. by destruct (_ <=? _).
Qed.

Lemma any_role_checks p ns rs : issues checking (any_role p ns rs).
Proof.
  induction rs as [|r rs IH]; cbn [any_role]; [done|].
  apply issues_bind; [apply now_checks|]. intros now. by destruct (identity_valid _ _ _ _).
Qed.

Lemma authorize_checks p ns w : issues checking (authorize p ns w).
Proof.
  unfold authorize. cbv zeta. destruct (negb _); [done|].
  apply issues_bind; [apply any_role_checks|]. by intros [].
Qed.

Lemma scoped_incident_checks id p : issues checking (scoped_incident id p).
Proof.
  unfold scoped_incident. apply issues_bind; [apply asked_incident_checks|]. intros [i|]; [|done].
  destruct (negb _); [done|]. apply issues_bind; [apply authorize_checks|]. intros _. by destruct (negb _).
Qed.

Lemma checks_quiet {A} (m : prog host_answer A) : issues checking m -> Quiet m.
Proof. apply issues_weaken, checking_quiet. Qed.

Lemma actor_quiet bearer : Quiet (actor host bearer).
Proof. apply checks_quiet, actor_checks. Qed.
Lemma authorize_quiet p ns w : Quiet (authorize p ns w).
Proof. apply checks_quiet, authorize_checks. Qed.
Lemma scoped_incident_quiet id p : Quiet (scoped_incident id p).
Proof. apply checks_quiet, scoped_incident_checks. Qed.

Lemma api_dispatch_quiet {A} (m : prog host_answer A) : Quiet m -> Quiet (api_dispatch m).
Proof. intros Hm. apply issues_catch; [done|]. intros e. by repeat case_match. Qed.

Lemma scoped_action_quiet mode id aid bearer : Quiet (scoped_action host mode id aid bearer).
Proof.
  unfold scoped_action. apply issues_bind; [apply actor_quiet|]. intros p.
  apply issues_bind; [apply scoped_incident_quiet|]. intros i.
  apply issues_bind; [apply api_dispatch_quiet, on_actions_quiet, get_quiet|]. intros r. cbv zeta.
  by destruct (negb _).
Qed.

Hint Resolve actor_quiet authorize_quiet scoped_incident_quiet scoped_action_quiet on_auth_quiet
  on_incidents_quiet : effects.

Lemma api_create_quiet r key bearer : Quiet (api_create host r key bearer).
Proof.
  unfold api_create. apply issues_bind; [auto with effects|]. intros p.
  apply issues_bind; [auto with effects|]. intros _. destruct (negb _); [done|].
  by apply issues_catch; [auto with effects|].
Qed.

Lemma api_get_quiet id bearer : Quiet (api_get host id bearer).
Proof. unfold api_get. apply issues_bind; auto with effects. Qed.

Lemma api_investigate_quiet mode id bearer : Quiet (api_investigate host mode id bearer).
Proof.
  unfold api_investigate. apply issues_bind; [auto with effects|]. intros p.
  apply issues_bind; [auto with effects|]. intros i. apply issues_bind; [auto with effects|]. intros _.
  apply issues_bind; [destruct (report i); [done|by apply quiet_call]|]. intros rep.
  destruct (_ || _); [done|]. apply issues_bind; [auto with effects|]. intros again.
  apply issues_bind; [auto with effects|]. intros _. apply issues_bind; [auto with effects|]. intros saved.
  by repeat case_match.
Qed.

Lemma api_audit_quiet mode id aid bearer : Quiet (api_audit host mode id aid bearer).
Proof.
  unfold api_audit. apply issues_bind; [auto with effects|]. intros _.
  apply issues_bind; [apply on_actions_quiet, store_audit_unclaiming|]. intros events.
  apply issues_bind; [auto with effects|done].
Qed.

Lemma api_notify_quiet c id bearer : Quiet (api_notify host c id bearer).
Proof.
  unfold api_notify. apply issues_bind; [auto with effects|]. intros p.
  apply issues_bind; [auto with effects|]. intros i. apply issues_bind; [auto with effects|]. intros _.
  apply issues_bind; [|done]. apply issues_catch; [|done]. unfold slack_send. destruct (negb _); [done|].
  apply issues_catch; [|done]. apply issues_bind; [by apply quiet_call|].
  intros [[status body]|]; [|done]. by destruct (delivered _ _).
Qed.

Lemma worker_authorized_quiet id : Quiet (worker_authorized id).
Proof.
  unfold worker_authorized. apply issues_bind; [by apply quiet_call|]. intros [p|]; [|done].
  apply issues_bind; [auto with effects|]. intros i. apply issues_bind; [auto with effects|done].
Qed.

Lemma worker_process_quiet mode m : Quiet (worker_process mode m).
Proof.
  unfold worker_process. destruct (_ <? _); [done|]. apply issues_bind; [apply issues_lift|]. intros id.
  apply issues_bind; [apply worker_authorized_quiet|]. intros i. apply issues_bind.
  - destruct (report i); [done|]. apply issues_bind; [by apply quiet_call|]. intros s.
    apply issues_bind; [destruct (finished s); [done|by apply (quiet_call (HResume (incident_id i)))]|]. intros s'. by destruct (_ || _).
  - intros [rep|]; [|done]. destruct (_ || _); [done|].
    apply issues_bind; [apply worker_authorized_quiet|]. intros _.
    apply issues_bind; [auto with effects|]. intros saved. by repeat case_match.
Qed.

Lemma worker_handle_quiet mode m : Quiet (worker_handle mode m).
Proof.
  unfold worker_handle. apply issues_bind.
  - apply issues_catch.
    + apply issues_bind; [apply worker_process_quiet|done].
    + intros _. apply issues_bind; [by apply quiet_call|done].
  - intros [|]; [by apply quiet_call|done].
Qed.

(** A GraphQL engine has no access to the world but its resolver. *)
Definition engine_ok (engine : (string -> prog host_answer Incident) -> prog host_answer (option json)) : Prop :=
  forall (P : host_call -> Prop) r, (forall id, issues P (r id)) -> issues P (engine r).

Lemma api_query_quiet engine document bearer :
  engine_ok engine -> Quiet (api_query host engine document bearer).
Proof.
  intros He. unfold api_query. apply issues_bind; [auto with effects|]. intros _.
  destruct (rbind _ _); [done|]. apply issues_bind.
  - apply He. intros id. unfold resolve_incident. apply issues_bind; auto with effects.
  - intros [data|]; [|done]. apply issues_bind; [auto with effects|done].
Qed.

Lemma broker_request_guarded {A} (m : prog broker_answer A) (f : A -> prog host_answer A) :
  guarded broker_ok broker_grant broker_spend None m -> (forall a, Quiet (f a)) ->
  Guarded None (bind (api_dispatch (link (implement host) m)) f).
Proof.
  intros Hm Hf. apply guarded_bind_none; [|intros a; by apply guarded_quiet].
  apply guarded_catch; [by apply implement_guarded|]. intros e. by repeat case_match.
Qed.

Lemma api_propose_guarded mode id value bearer : Guarded None (api_propose host mode id value bearer).
Proof.
  unfold api_propose. apply guarded_bind; [auto with effects|]. intros p.
  apply guarded_bind; [auto with effects|]. intros i. apply guarded_bind; [auto with effects|]. intros _.
  destruct (negb _); [done|]. apply broker_request_guarded; [apply propose_guarded|auto with effects].
Qed.

Lemma api_approve_guarded mode id aid bearer : Guarded None (api_approve host mode id aid bearer).
Proof.
  unfold api_approve. apply guarded_bind; [auto with effects|]. intros _.
  apply guarded_bind; [auto with effects|]. intros p.
  apply broker_request_guarded; [apply approve_guarded|auto with effects].
Qed.

Lemma api_execute_guarded mode id aid bearer : Guarded None (api_execute host mode id aid bearer).
Proof.
  unfold api_execute. apply guarded_bind; [auto with effects|]. intros _.
  apply guarded_bind; [auto with effects|]. intros p.
  apply broker_request_guarded; [apply execute_guarded|auto with effects].
Qed.

(** ** The pool *)

(** What the host starts: a handler for each request, whose response is not looked at. *)
Inductive host_program : prog host_answer unit -> Prop :=
  | serve_api_create r key bearer : host_program (bind (api_create host r key bearer) (fun _ => Ret tt))
  | serve_api_get id bearer : host_program (bind (api_get host id bearer) (fun _ => Ret tt))
  | serve_investigate mode id bearer : host_program (bind (api_investigate host mode id bearer) (fun _ => Ret tt))
  | serve_propose mode id value bearer : host_program (bind (api_propose host mode id value bearer) (fun _ => Ret tt))
  | serve_action mode id aid bearer : host_program (bind (api_action host mode id aid bearer) (fun _ => Ret tt))
  | serve_audit mode id aid bearer : host_program (bind (api_audit host mode id aid bearer) (fun _ => Ret tt))
  | serve_approve mode id aid bearer : host_program (bind (api_approve host mode id aid bearer) (fun _ => Ret tt))
  | serve_execute mode id aid bearer : host_program (bind (api_execute host mode id aid bearer) (fun _ => Ret tt))
  | serve_notify c id bearer : host_program (bind (api_notify host c id bearer) (fun _ => Ret tt))
  | serve_query engine document bearer :
      engine_ok engine -> host_program (bind (api_query host engine document bearer) (fun _ => Ret tt))
  | serve_message mode m : host_program (worker_handle mode m).

Lemma host_program_guarded m : host_program m -> Guarded None m.
Proof.
  destruct 1; try (apply guarded_bind_none; [|done]);
    auto using guarded_quiet, api_create_quiet, api_get_quiet, api_investigate_quiet, api_audit_quiet,
      api_notify_quiet, api_query_quiet, worker_handle_quiet, scoped_action_quiet, api_propose_guarded,
      api_approve_guarded, api_execute_guarded.
Qed.

#[export] Instance host_laws :
  PermitLaws host_answers host_ok store_inv claimed host_grant host_spend.
Proof.
  split.
  - intros d c r d' Ha Hd Hc. destruct Ha as [q r d' Hq|c r Hne]; [|done]. by eapply db_answers_inv.
  - intros d c r d' key Ha Hd Hc Hk. destruct Ha as [q r d' Hq|c r Hne]; [|done].
    destruct Hq; auto using claimed_exec.
  - intros d c r d' key Ha Hd Hc. destruct Ha as [q r d' Hq|c r Hne].
    + by apply granted_db_answers.
    + destruct c; try done. by destruct (Hne q).
  - by intros [].
Qed.

Definition host_reachable : system host_answer db unit -> Prop :=
  reachable host_answers host_program empty_db.

(** The actions written for so far *)
Definition written (h : list (obs host_answer)) : list string := spent host_spend h.

Lemma host_reachable_inv x :
  host_reachable x ->
  store_inv (shared x) /\ NoDup (written (history x)) /\
  (forall key, key ∈ written (history x) -> claimed (shared x) key) /\
  Forall (fun o : obs host_answer => host_ok (projT1 o)) (history x).
Proof.
  intros Hx. destruct (spent_once host_answers host_program host_ok store_inv claimed host_grant host_spend
    host_program_guarded empty_db x empty_db_inv Hx) as (? & ? & ?).
  split_and!; [done..|].
  exact (requests_ok host_answers host_program host_ok store_inv claimed host_grant host_spend
    host_program_guarded empty_db x empty_db_inv Hx).
Qed.
End safety.

(** ** A concrete host

    The scenario of [Walkthrough] through the composed host: bearer tokens name their
    holders, the Firebase directory grants [alice], [bob] and [exec] one role each, one
    incident is stored, and one Deployment of the kind cluster is ready after its patch. *)

Definition incident_values : IncidentCodec := {|
  incident_text := Incident; dump_incident := fun i => i; load_incident := Some;
  load_dump_incident := fun _ => eq_refl |}.
#[local] Existing Instance incident_values.

Definition local_settings : IdentitySettings := {| project_id := "payops-dev"; set_tenant_id := None |}.

Definition local_host : HostConfig := {|
  identity_settings := local_settings; executor_config := kind_host; has_traffic := false;
  artifacts := ["ev-pod"]; str_of := no_text; poll_fuel := 3 |}.

Definition role_of (who : string) : string :=
  if decide (who = "alice") then "responder" else if decide (who = "bob") then "approver" else "executor".

Definition token_of (who : string) : json := JObj
  [("sub", JStr who); ("aud", JStr "payops-dev"); ("iss", JStr "https://securetoken.google.com/payops-dev");
   ("iat", JInt 1749999000); ("exp", JInt 1750002000); ("auth_time", JInt 1749999000); ("firebase", JObj [])].

Definition user_of (who : string) : SdkUser :=
  {| sdk_uid := who; sdk_disabled := false; sdk_tenant_id := None; tokens_valid_after_timestamp := 0;
     custom_claims := JObj [("payops", JObj [("roles", JList [JStr (role_of who)]);
                                             ("namespaces", JList [JStr "payops-sandbox"])])] |}.

Definition auth_of (c : auth_call) : auth_answer c :=
  match c return auth_answer c with
  | AEmulator => None
  | AClock => noon
  | AVerifyIdToken t _ _ => token_of t
  | AGetUser who => user_of who
  end.

(** The incident under investigation carries no report yet. *)
Definition open_incident : Incident := {|
  incident_id := "inc-2"; request := request crash_incident; created_at := created_at crash_incident;
  report := None |}.
Definition local_report : IncidentReport := {|
  rep_incident_id := "inc-2"; rep_evidence := []; ranked_root_causes := [];
  terminal_state := EVIDENCE_INSUFFICIENT; rep_mode := local_kind; duration_seconds := float_of_Z 3;
  rep_ranking_method := deterministic; rep_stop_reason := None; rep_receipts := []; trace_id := "trace-2" |}.

Definition incidents_of (c : inc_call) : result (inc_answer c) :=
  match c return result (inc_answer c) with
  | INewIncident => Ok "inc-3"
  | INowCreated => Ok noon
  | SByKey _ => Ok None
  | SGet id => Ok (if decide (id = "inc-1") then Some crash_incident
                   else if decide (id = "inc-2") then Some open_incident else None)
  | SInsert _ _ => Ok tt
  | SSetPayload _ _ _ => Ok true
  | AckCreated _ _ _ | AckReport _ _ => Ok tt
  end.

Definition finished_state (i : Incident) : InvestigationState := {|
  st_incident := i;
  st_budget := {| max_steps := 8; max_tool_calls := 8; max_backend_reads := 16;
                  node_start_deadline := noon |};
  st_mode := local_kind; collection_profile := instant_v1; ranking_profile := "deterministic";
  ranking_method := deterministic; reasoning_stop_reason := None; reasoning_receipts := [];
  phase := FINISHED; started_at := noon; steps_used := 0; tool_calls_reserved := 0;
  backend_reads_reserved := 0; st_evidence := []; st_failures := []; st_hypotheses := [];
  terminal := Some EVIDENCE_INSUFFICIENT; steps := []; st_report := Some local_report |}.

Definition calm_host (c : host_call) (d : db) : result (host_answer c) * db :=
  match c return result (host_answer c) * db with
  | HStore q => calm_store q d
  | HAuth c => (Ok (auth_of c), d)
  | HIncident c => (incidents_of c, d)
  | HExec _ c => ((kind_answers c tt).1, d)
  | HTraffic _ c => (Err (OtherError "no traffic control"), d)
  | HClock | HNow => (Ok noon, d)
  | HInvestigate _ => (Ok local_report, d)
  | HSlack _ _ => (Ok (Some (200, "ok")), d)
  | HWorkerPrincipal => (Ok (directory "alice"), d)
  | HStart i => (Ok (finished_state i), d)
  | HResume _ => (Ok (finished_state open_incident), d)
  | HAck | HNack => (Ok tt, d)
  end.

Lemma calm_host_answers c d : host_answers d c (calm_host c d).1 (calm_host c d).2.
Proof.
  destruct c as [q| | | | | | | | | | | | |]; cbn; try by apply (host_world d).
  constructor. destruct q; cbn; try by apply (answers_exec d). apply answers_clock.
Qed.

Definition bearer_of (who : string) : option Credential :=
  Some {| scheme := "Bearer"; credentials := who |}.

(** Proposal, approval, execution and a second execution, over the API. *)
Definition host_story : list (prog host_answer unit) :=
  [bind (api_propose local_host local_kind "inc-1" (dump_action restart_payments) (bearer_of "alice")) (fun _ => Ret tt);
   bind (api_approve local_host local_kind "inc-1" restart_id (bearer_of "bob")) (fun _ => Ret tt);
   bind (api_execute local_host local_kind "inc-1" restart_id (bearer_of "exec")) (fun _ => Ret tt);
   bind (api_execute local_host local_kind "inc-1" restart_id (bearer_of "exec")) (fun _ => Ret tt)].

Definition after_host : system host_answer db unit :=
  {| threads := []; shared := (play_all calm_host host_story empty_db []).1.2;
     history := (play_all calm_host host_story empty_db []).2 |}.

Lemma after_host_reachable : host_reachable local_host after_host.
Proof.
  apply (play_all_reachable host_answers (host_program local_host) calm_host calm_host_answers).
  repeat constructor.
Qed.

Example host_story_results :
  (play_all calm_host host_story empty_db []).1.1 = [Ok tt; Ok tt; Ok tt; Ok tt] /\
  written (history after_host) = [restart_id].
Proof. vm_compute. split; reflexivity. Qed.
