(* ===== verification/HostTheorems.v ===== *)
(** * What the composed host guarantees

    At-most-once and four-eyes for writes to the cluster and to traffic control, whatever
    requests the surface receives; and what a single request must have gone through before
    it writes. *)

From S2P Require Import Prelude Text Json Digest Contracts Effects Permits Policy ActionStore Broker.
From S2P Require Import BrokerSafety BrokerAuthority BrokerTheorems Incidents IncidentsTheorems Identity Deployment DeploymentTheorems.
From S2P Require Import Traffic Investigation Host Api HostSafety Walkthrough.

Open Scope string_scope.
Open Scope list_scope.
Open Scope Z_scope.
Open Scope result_scope.

(** C18: at most one write per approved action, end to end.  However API requests and queue
    deliveries interleave, whatever identity provider, incident store, cluster, traffic
    control and clocks answer, with database errors and abandoned workers: no two patches or
    pauses are ever sent for the same action; each one sent is exactly the write its action
    asks for, and the stored record of that action has left [APPROVED] through a committed
    claim and carries the approval of somebody who did not propose it. *)
Theorem writes_once `{ActionCodec, ArtifactOps, IncidentCodec} host x :
  host_reachable host x ->
  NoDup (written (history x)) /\
  forall c r, (existT c r : obs host_answer) ∈ history x -> is_write c = true ->
    exists a key rec apr, write_for host a key c /\ key ∈ written (history x) /\
      remediation_actions (shared x) !! key = Some (dump_record rec) /\
      state rec ∈ [EXECUTING; SUCCEEDED; FAILED; UNKNOWN] /\
      action_digest (rec_proposal rec) = action_digest a /\
      approval rec = Some apr /\ apr_subject apr <> proposer rec /\ apr_digest apr = key.
Proof.
  intros (Hd & Hnd & Hcl & Hok)%host_reachable_inv. split; [done|]. intros c r Hin Hw.
  rewrite Forall_forall in Hok. destruct (host_ok_write host c (Hok _ Hin) Hw) as (a & key & Ha).
  assert (key ∈ written (history x)) as Hkey.
  { apply list_elem_of_omap. exists (existT c r). split; [done|].
    destruct Ha as [_ Ha]. destruct c as [| | |k c|k c| | | | | | | | |]; try done;
      destruct c; try done; by destruct Ha as [-> _]. }
  destruct (Hcl key Hkey) as (rec & Hrec & Hst).
  destruct (approved_by_other _ _ _ Hd Hrec) as (apr & Happ & Hne & Hdig & Hid);
    [by intros Hp; rewrite Hp in Hst; repeat (apply elem_of_cons in Hst as [[=]|Hst]);
        apply elem_of_nil in Hst|].
  exists a, key, rec, apr. pose proof (proj1 Ha). split_and!; try done; congruence.
Qed.

(** ** One request *)

Section request.
Context `{ActionCodec, ArtifactOps, IncidentCodec}.
Context (host : HostConfig).

(** [t] is a run of the backend for the requests [past] of the broker. *)
Definition implements (past : list (obs broker_answer)) (t : list (obs host_answer)) : Prop :=
  exists segs : list (obs broker_answer * list (obs host_answer)),
    past = segs.*1 /\ t = concat segs.*2 /\
    forall s, s ∈ segs -> runs (implement host (projT1 s.1)) s.2 (projT2 s.1).

Abbreviation writes := (fun o : obs host_answer => is_write (projT1 o) = true).

Lemma quiet_no_write c : quiet (host_ok host) host_grant host_spend c -> is_write c = false.
Proof.
  intros (Hok & Hs & _). destruct (is_write c) eqn:Hw; [|done]. exfalso.
  destruct (host_ok_write host c Hok Hw) as (a & key & _ & Ha).
  destruct c as [| | |k c|k c| | | | | | | | |]; try done; destruct c; try done;
    destruct Ha as [Hk _]; cbn in Hs; congruence.
Qed.

Lemma quiet_run {A} (m : prog host_answer A) tr out o :
  issues (quiet (host_ok host) host_grant host_spend) m -> runs m tr out -> o ∈ tr -> ~ writes o.
Proof.
  intros Hq Hr Hin. pose proof (runs_issues _ _ _ _ Hq Hr) as Hall. rewrite Forall_forall in Hall.
  by rewrite (quiet_no_write _ (Hall _ Hin)).
Qed.

(** A write found after a part without writes, or before one *)
Lemma skip_left {A} (P : A -> Prop) l1 l2 k1 x k2 :
  l1 ++ l2 = k1 ++ x :: k2 -> P x -> (forall y, y ∈ l1 -> ~ P y) ->
  exists k, k1 = l1 ++ k /\ l2 = k ++ x :: k2.
Proof.
  intros Heq Hx Hl. apply app_eq_inv in Heq as [(k & -> & Hk)|(k & -> & Hk)].
  - destruct k as [|y k].
    + exists []. rewrite !app_nil_r. by split.
    + injection Hk as -> ->. destruct (Hl y); [apply elem_of_app; right; apply list_elem_of_here|done].
  - by exists k.
Qed.

Lemma skip_right {A} (P : A -> Prop) l1 l2 k1 x k2 :
  l1 ++ l2 = k1 ++ x :: k2 -> P x -> (forall y, y ∈ l2 -> ~ P y) ->
  exists k, l1 = k1 ++ x :: k /\ k2 = k ++ l2.
Proof.
  intros Heq Hx Hl. apply app_eq_inv in Heq as [(k & -> & Hk)|(k & -> & ->)].
  - destruct k as [|y k].
    + cbn in Hk. destruct (Hl x); [rewrite <-Hk; apply list_elem_of_here|done].
    + injection Hk as -> ->. by exists k.
  - destruct (Hl x); [apply elem_of_app; right; apply list_elem_of_here|done].
Qed.

Lemma concat_split {A} (ls : list (list A)) k1 x k2 :
  concat ls = k1 ++ x :: k2 ->
  exists i l u1 u2, ls !! i = Some l /\ l = u1 ++ x :: u2 /\ k1 = concat (take i ls) ++ u1.
Proof.
  revert k1. induction ls as [|l ls IH]; intros k1; cbn; [by destruct k1|].
  intros [(k & -> & Hk)|(k & -> & Hk)]%app_eq_inv.
  - destruct k as [|y k].
    + cbn in Hk. destruct (IH [] (eq_sym Hk)) as (i & l' & u1 & u2 & ? & ? & Hn).
      exists (S i), l', u1, u2. cbn. rewrite app_nil_r, <-app_assoc, <-Hn, app_nil_r. done.
    + injection Hk as -> ->. exists 0%nat, (k1 ++ y :: k), k1, k. done.
  - destruct (IH k Hk) as (i & l' & u1 & u2 & ? & ? & ->).
    exists (S i), l', u1, u2. cbn. by rewrite app_assoc.
Qed.

(** A write of a broker method is the effect of one of its [KExecute] requests. *)
Lemma link_write {A} (m : prog broker_answer A) tr out tr1 c r tr2 :
  runs (link (implement host) m) tr out -> tr = tr1 ++ (existT c r : obs host_answer) :: tr2 ->
  is_write c = true ->
  exists past a key ans rest t u, runs m (past ++ (existT (KExecute a key) ans : obs broker_answer) :: rest) out /\
    tr1 = t ++ u /\ implements past t /\ write_for host a key c.
Proof.
  intros (segs & -> & Hm & Hs)%runs_link Hsplit Hw.
  destruct (concat_split _ _ _ _ Hsplit) as (i & l & u1 & u2 & Hi & -> & ->).
  rewrite list_lookup_fmap in Hi. apply fmap_Some in Hi as ([[q ans] l] & Hi & Hl). cbn in Hl.
  pose proof (Hs _ (list_elem_of_lookup_2 _ _ _ Hi)) as Hq. cbn in Hq. subst l.
  assert ((existT c r : obs host_answer) ∈ u1 ++ existT c r :: u2) as Hin
    by (apply elem_of_app; right; apply list_elem_of_here).
  assert (exists a key, q = KExecute a key) as (a & key & ->).
  { destruct q as [q|who|a who|a key| |]; [exfalso|exfalso|exfalso|by exists a, key|exfalso|exfalso];
      [|refine (quiet_run _ _ _ _ _ Hq Hin Hw); by apply implement_quiet..].
    change (implement host (KStore q)) with (call (R:=host_answer) (HStore q)) in Hq.
    destruct (runs_call_out (R:=host_answer) (HStore q) _ _ Hq) as (r' & Hq' & _).
    assert ((existT c r : obs host_answer) ∈ [existT (HStore q) r' : obs host_answer]) as Hin'
      by exact (eq_ind _ (fun l => (existT c r : obs host_answer) ∈ l) Hin _ Hq'). clear Hin. rename Hin' into Hin. apply list_elem_of_singleton in Hin.
    apply (f_equal (@projT1 _ _)) in Hin. cbn in Hin. by subst c. }
  pose proof (runs_issues _ _ _ _ (backend_execute_writes host a key) Hq) as Hall.
  rewrite Forall_forall in Hall. pose proof (Hall _ Hin Hw) as Hwrite.
  rewrite <-(take_drop_middle _ _ _ Hi), fmap_app, fmap_cons in Hm. cbn [fst] in Hm.
  exists (take i segs).*1, a, key, ans, (drop (S i) segs).*1, (concat (take i segs.*2)), u1.
  split_and!; [done|done| |done]. exists (take i segs). split_and!; [done|by rewrite fmap_take|].
  intros s (j & Hj & _)%elem_of_take. apply Hs. by eapply list_elem_of_lookup_2.
Qed.

(** ** What the checks of the surface establish *)

(** Somebody the identity service vouched for *)
Definition vouched (bearer : option Credential) (p : Principal) : Prop :=
  exists c t, bearer = Some c /\ runs (authenticate (identity_settings host) (credentials c)) t (Ok p) /\
    enabled p = true.

(** [p] holds a role that allows reading, or writing, in the sandbox. *)
Definition may (p : Principal) (ns : string) (write : bool) : Prop :=
  ns = "payops-sandbox" /\ exists role now,
    role ∈ (if write then [responder] else [viewer; responder; approver; executor]) /\
    identity_valid (Some p) role ns now = true.

Record in_scope (id : string) (p : Principal) (i : Incident) : Prop := {
  scope_id : incident_id i = id;
  scope_valid : Incident_validate i = Ok i;
  scope_member : req_namespace (request i) ∈ namespaces p;
  scope_may : may p (req_namespace (request i)) false;
  scope_service : req_service (request i) ∈ SANDBOX_SERVICES;
}.

Lemma actor_ok bearer t p : runs (actor host bearer) t (Ok p) -> vouched bearer p.
Proof.
  unfold actor. destruct bearer as [c|]; [|by intros ?%runs_raise_ok].
  destruct (negb _); [by intros ?%runs_raise_ok|].
  intros [[Hr _]|(e & t1 & t2 & _ & _ & _ & Hr)]%runs_catch; [|by apply runs_raise_ok in Hr].
  run_ok. apply runs_embed in Hrun as (t0 & Hrun & _). exists c, t0.
  split_and!; [done|done|]. by apply negb_false_iff.
Qed.

Lemma any_role_ok p ns rs t :
  runs (any_role p ns rs) t (Ok true) -> exists role now, role ∈ rs /\ identity_valid (Some p) role ns now = true.
Proof.
  revert t. induction rs as [|r rs IH]; intros t; cbn [any_role]; intros Hr; run_ok; [done|..].
  - eexists _, _. split; [apply list_elem_of_here|eassumption].
  - destruct (IH _ Hrun0) as (role & now & ? & ?). exists role, now.
    split; [by apply list_elem_of_further|done].
Qed.

Lemma authorize_ok p ns w t u : runs (authorize p ns w) t (Ok u) -> may p ns w.
Proof.
  unfold authorize. cbv zeta. destruct_eqb ns "payops-sandbox"; cbn [negb]; [|by intros ?%runs_raise_ok].
  intros Hr. apply runs_bind_ok in Hr as ([|] & t1 & t2 & -> & Hr & H2); cbn in H2; [|by apply runs_raise_ok in H2].
  split; [done|]. by eapply any_role_ok.
Qed.

Lemma incident_get_ok id t i :
  runs (incident_get id) t (Ok (Some i)) -> incident_id i = id /\ Incident_validate i = Ok i.
Proof.
  unfold incident_get. intros Hr. run_ok. destruct a as [q|]; run_ok; [|done].
  by apply decode_ok in Hpure as (_ & ? & ?).
Qed.

Lemma scoped_incident_ok id p t i : runs (scoped_incident id p) t (Ok i) -> in_scope id p i.
Proof.
  unfold scoped_incident. intros Hr. run_ok. destruct a as [j|]; run_ok.
  apply runs_embed in Hrun as (t0 & [Hid Hv]%incident_get_ok & _). apply authorize_ok in Hrun1.
  split; [done|done| |done|].
  - by apply negb_false_iff, bool_decide_eq_true in Heqb.
  - by apply negb_false_iff, bool_decide_eq_true in Heqb0.
Qed.

(** The record an action route found for its caller *)
Record scoped_record (mode : Mode) (id : string) (bearer : option Credential) (r : ActionRecord) : Prop := {
  record_scope : exists p i, vouched bearer p /\ in_scope id p i /\
    act_namespace (rec_proposal r) = req_namespace (request i) /\
    act_service (rec_proposal r) = req_service (request i);
  record_incident : act_incident_id (rec_proposal r) = id;
  record_mode : act_mode (rec_proposal r) = mode;
}.

Lemma api_dispatch_ok {A} (m : prog host_answer A) t a : runs (api_dispatch m) t (Ok a) -> runs m t (Ok a).
Proof.
  intros [[Hr _]|(e & t1 & t2 & -> & _ & _ & Hr)]%runs_catch; [done|].
  repeat case_match; by apply runs_raise_ok in Hr.
Qed.

Lemma scoped_action_ok mode id aid bearer t r :
  runs (scoped_action host mode id aid bearer) t (Ok r) ->
  scoped_record mode id bearer r /\ action_id r = aid.
Proof.
  unfold scoped_action. intros (p & t1 & t2 & -> & Hp%actor_ok & Hr)%runs_bind_ok.
  apply runs_bind_ok in Hr as (i & t3 & t4 & -> & Hi%scoped_incident_ok & Hr).
  apply runs_bind_ok in Hr as (r' & t5 & t6 & -> & Hget%api_dispatch_ok & Hr). cbv zeta in Hr.
  destruct (negb _) eqn:Hscope in Hr; [by apply runs_raise_ok in Hr|].
  apply runs_ret_ok in Hr as [-> ->].
  apply negb_false_iff in Hscope. rewrite !andb_true_iff, !eqb_of_true in Hscope.
  destruct Hscope as [[[? ?] ?] ?]. split; [split; [|done|done]; by exists p, i|].
  apply runs_embed in Hget as (t0 & Hget & _). unfold store_get in Hget.
  apply runs_bind_ok in Hget as ([q|] & t7 & t8 & -> & _ & Hget); [|by apply runs_raise_ok in Hget].
  apply runs_bind_ok in Hget as (r'' & t9 & t10 & -> & _ & Hget).
  destruct_eqb (action_id r'') aid; [|by apply runs_raise_ok in Hget].
  by apply runs_ret_ok in Hget as [_ <-].
Qed.

(** ** Writes *)

Lemma no_write_in {A} (m : prog host_answer A) tr out :
  issues (quiet (host_ok host) host_grant host_spend) m -> runs m tr out ->
  forall o : obs host_answer, o ∈ tr -> ~ writes o.
Proof. intros Hq Hr o Ho. by eapply quiet_run. Qed.

(** A write within the wrapper of the action routes is one of the operation. *)
Lemma api_dispatch_write {A} (m : prog host_answer A) tr out tr1 c r tr2 :
  runs (api_dispatch m) tr out -> tr = tr1 ++ (existT c r : obs host_answer) :: tr2 ->
  exists out' tr', runs m tr' out' /\ tr' = tr1 ++ (existT c r : obs host_answer) :: tr2.
Proof.
  intros [[Hr _]|(e & t1 & t2 & -> & Hr & _ & Hh)]%runs_catch Htr; [by eauto|].
  assert (t2 = []) as -> by (repeat case_match; by apply runs_raise_inv in Hh as [-> _]).
  rewrite app_nil_r in Htr. eauto.
Qed.
End request.

(** C19: what a request goes through before it writes.  In every run of the [execute] route,
    whatever everybody answers, before a patch or a pause is sent: somebody vouched for by
    the identity service was found to belong to the namespace of the incident of the URL,
    with a role in the sandbox, and the action named in the URL was found to belong to that
    incident, its namespace and service, and the broker's mode; the same bearer was then
    authenticated again, as [p]; and the broker, acting for [p] over the operational backend,
    reached the moment at which its effect may be requested (its own claim committed, policy,
    approval and all three authorities refreshed).  The write is the one the broker's action
    asks for. *)
Theorem write_authority `{ActionCodec, ArtifactOps, IncidentCodec} host mode id aid bearer tr out tr1 c r tr2 :
  runs (api_execute host mode id aid bearer) tr out ->
  tr = tr1 ++ (existT c r : obs host_answer) :: tr2 -> is_write c = true ->
  exists rec p past a key t0 t1 t2 t3, tr1 = t0 ++ t1 ++ t2 ++ t3 /\
    runs (scoped_action host mode id aid bearer) t0 (Ok rec) /\
    scoped_record host mode id bearer rec /\ action_id rec = aid /\
    runs (actor host bearer) t1 (Ok p) /\ vouched host bearer p /\
    implements host past t2 /\ dispatch_ready mode (subject p) past a key /\ write_for host a key c.
Proof.
  intros Hr Htr Hw. unfold api_execute in Hr.
  apply runs_bind in Hr as [(e & Hr & ->)|(rec & t0 & t1 & -> & Hfirst & Hr)].
  { destruct (no_write_in host _ _ _ (scoped_action_quiet host mode id aid bearer) Hr (existT c r)); [|done].
    rewrite Htr. apply elem_of_app. right. apply list_elem_of_here. }
  apply (skip_left (fun o : obs host_answer => is_write (projT1 o) = true)) in Htr as (k & -> & Htr);
    [|done|by eapply no_write_in; [apply scoped_action_quiet|]].
  apply runs_bind in Hr as [(e & Hr & ->)|(p & t2 & t3 & -> & Hagain & Hr)].
  { destruct (no_write_in host _ _ _ (actor_quiet host bearer) Hr (existT c r)); [|done].
    rewrite Htr. apply elem_of_app. right. apply list_elem_of_here. }
  apply (skip_left (fun o : obs host_answer => is_write (projT1 o) = true)) in Htr as (k' & -> & Htr);
    [|done|by eapply no_write_in; [apply actor_quiet|]].
  assert (exists out' tr', runs (link (implement host) (execute mode aid (subject p))) tr' out' /\
    exists tr2', tr' = k' ++ (existT c r : obs host_answer) :: tr2') as (out' & tr' & Hx & tr2' & Htr').
  { apply runs_bind in Hr as [(e & Hr & ->)|(r' & t4 & t5 & -> & Hop & Hr)].
    - destruct (api_dispatch_write _ _ _ _ _ _ _ Hr Htr) as (o & t & Ho & Ht). by exists o, t; eauto.
    - apply (skip_right (fun o : obs host_answer => is_write (projT1 o) = true)) in Htr as (k2 & Htr & _);
        [|done|by eapply no_write_in; [apply scoped_action_quiet|]].
      destruct (api_dispatch_write _ _ _ _ _ _ _ Hop Htr) as (o & t & Ho & Ht). by exists o, t; eauto. }
  destruct (link_write host _ _ _ _ _ _ _ Hx Htr' Hw) as (past & a & key & ans & rest & t & u & Hm & -> & Hi & Hwr).
  destruct (hoare_sound _ _ [] _ _ _ (execute_spec mode (subject p) aid [] eq_refl) Hm) as [_ HI].
  specialize (HI past _ _ rest eq_refl). cbn in HI.
  destruct (scoped_action_ok host _ _ _ _ _ _ Hfirst) as [Hs Hid].
  exists rec, p, past, a, key, t0, t2, t, u.
  split_and!; try done; [by eapply actor_ok].
Qed.

(** ** In the concrete host *)

Definition execute_run : result ActionRecord * db * list (obs host_answer) :=
  play calm_host (api_execute local_host local_kind "inc-1" restart_id (bearer_of "exec"))
    (play_all calm_host (take 2 host_story) empty_db []).1.2 [].

(** Where the run writes *)
Definition write_at : nat :=
  Eval vm_compute in default 0%nat (fst <$> list_find (fun o : obs host_answer => is_write (projT1 o) = true) execute_run.2).

#[local] Existing Instance incident_values.

Definition the_write : host_call := HExec (Some restart_id) (XPatch "payments-api" (patch restart_plan)).
Definition written_object : result (list (string * json)) :=
  Ok (deployment_object "42" restart_mark ready_status).

Lemma execute_run_write : execute_run.2 !! write_at = Some (existT the_write written_object : obs host_answer).
Proof. vm_compute. reflexivity. Qed.

Lemma writes_once_witness :
  written (history after_host) = [restart_id] /\ NoDup (written (history after_host)) /\
  forall c r, (existT c r : obs host_answer) ∈ history after_host -> is_write c = true ->
    exists a key rec apr, write_for local_host a key c /\ key ∈ written (history after_host) /\
      remediation_actions (shared after_host) !! key = Some (dump_record rec) /\
      state rec ∈ [EXECUTING; SUCCEEDED; FAILED; UNKNOWN] /\
      action_digest (rec_proposal rec) = action_digest a /\
      approval rec = Some apr /\ apr_subject apr <> proposer rec /\ apr_digest apr = key.
Proof.
  split; [apply host_story_results|]. apply writes_once, after_host_reachable.
Defined.

Lemma write_authority_witness :
  exists rec p past a key t0 t1 t2 t3, take write_at execute_run.2 = t0 ++ t1 ++ t2 ++ t3 /\
    runs (scoped_action local_host local_kind "inc-1" restart_id (bearer_of "exec")) t0 (Ok rec) /\
    scoped_record local_host local_kind "inc-1" (bearer_of "exec") rec /\ action_id rec = restart_id /\
    runs (actor local_host (bearer_of "exec")) t1 (Ok p) /\ vouched local_host (bearer_of "exec") p /\
    implements local_host past t2 /\ dispatch_ready local_kind (subject p) past a key /\
    write_for local_host a key the_write.
Proof.
  apply (write_authority local_host local_kind "inc-1" restart_id (bearer_of "exec") execute_run.2
    execute_run.1.1 (take write_at execute_run.2) the_write written_object (drop (S write_at) execute_run.2)).
  - exact (play_runs_nil calm_host
      (api_execute local_host local_kind "inc-1" restart_id (bearer_of "exec"))
      (play_all calm_host (take 2 host_story) empty_db []).1.2).
  - symmetry. apply take_drop_middle, execute_run_write.
  - reflexivity.
Defined.
