(* ===== verification/SurfaceTheorems.v ===== *)
(** * Publication and acknowledgement

    What a caller of the investigation route, and the queue, may conclude from an answer. *)

From S2P Require Import Prelude Text Json Digest Contracts Effects Policy ActionStore Broker.
From S2P Require Import Incidents IncidentsTheorems Identity Deployment Traffic Investigation.
From S2P Require Import Host Api HostSafety HostTheorems Walkthrough.

Open Scope string_scope.
Open Scope list_scope.
Open Scope Z_scope.
Open Scope result_scope.

Lemma save_report_ok `{IncidentCodec} r t i :
  runs (save_report r) t (Ok i) ->
  incident_id i = rep_incident_id r /\ Incident_validate i = Ok i /\
  forall rep, report i = Some rep -> grounded rep /\ rep_incident_id rep = rep_incident_id r.
Proof.
  intros Hr. assert (incident_id i = rep_incident_id r /\ Incident_validate i = Ok i) as [Hid Hv].
  { revert Hr. unfold save_report. intros ([p|] & t1 & t2 & -> & _ & Hr)%runs_bind_ok;
      [|by apply runs_raise_ok in Hr].
    apply runs_bind_ok in Hr as (j & t3 & t4 & -> & [_ (_ & Hid & Hv)%decode_ok]%runs_lift_ok & Hr).
    destruct (report j); [by apply runs_ret_ok in Hr as [_ <-]|].
    apply runs_bind_ok in Hr as (u & t5 & t6 & -> & [_ [-> Hu]%Incident_validate_ok]%runs_lift_ok & Hr).
    apply runs_bind_ok in Hr as ([|] & t7 & t8 & -> & _ & Hr); [by apply runs_ret_ok in Hr as [_ <-]|].
    apply runs_bind_ok in Hr as ([s|] & t9 & t10 & -> & Hget & Hr); [|by apply runs_raise_ok in Hr].
    apply incident_get_ok in Hget as [Hs Hvs].
    destruct (eqb_of _ _); [by apply runs_raise_ok in Hr|]. by apply runs_ret_ok in Hr as [_ <-]. }
  split_and!; [done..|]. intros rep Hrep.
  destruct (Incident_validate_report i rep Hv Hrep) as [? ?]. split; congruence.
Qed.

Section surface.
Context `{ActionCodec, ArtifactOps, IncidentCodec}.
Context (host : HostConfig).

(** The report [rep] of [i]: stored there already, or what one investigation, all that was
    asked within [t], found *)
Definition report_of (i : Incident) (rep : IncidentReport) (t : list (obs host_answer)) : Prop :=
  report i = Some rep /\ t = [] \/
  report i = None /\ t = [existT (HInvestigate i) (Ok rep) : obs host_answer].

Abbreviation row_read id p := (existT (HIncident (SGet id)) (Ok (Some p)) : obs host_answer) (only parsing).
Abbreviation row_replaced id p i won :=
  (existT (HIncident (SSetPayload id p (dump_incident i))) (Ok won) : obs host_answer) (only parsing).

(** The requests of [t], in order, offered [rep] to the store, which then held [saved] as the
    report of its incident.  Either the row read had that report already; or it had none and was
    replaced by itself with [rep]; or another offer had replaced it, and the row read again
    has the report of the other. *)
Definition stored (rep saved : IncidentReport) (t : list (obs host_answer)) : Prop :=
  exists p i, decode_incident (rep_incident_id rep) p = Ok i /\
    (t = [row_read (rep_incident_id rep) p] /\ report i = Some saved \/
     report i = None /\
       (t = [row_read (rep_incident_id rep) p; row_replaced (rep_incident_id rep) p (with_report i rep) true] /\
          saved = rep \/
        exists p' i', decode_incident (rep_incident_id rep) p' = Ok i' /\ report i' = Some saved /\
          t = [row_read (rep_incident_id rep) p; row_replaced (rep_incident_id rep) p (with_report i rep) false;
               row_read (rep_incident_id rep) p'])).

(** What the incident store was asked, as the host records it *)
Definition asked_of_incidents (o : obs inc_answer) : obs host_answer :=
  match o with existT c r => existT (HIncident c) r end.

Lemma on_incidents_runs {A} (m : prog inc_answer A) tr out :
  runs (on_incidents m) tr out ->
  exists t, runs m t out /\ tr = map asked_of_incidents t.
Proof.
  intros (t & Hr & Ht)%runs_embed. exists t. split; [done|]. clear Hr.
  induction Ht as [|[c r0] o t tr (r & -> & Hr) _ IH]; cbn; [done|]. cbn in Hr. by rewrite IH, Hr.
Qed.

Lemma incident_get_runs id t i :
  runs (incident_get id) t (Ok (Some i)) ->
  exists p, t = [existT (SGet id) (Ok (Some p)) : obs inc_answer] /\ decode_incident id p = Ok i.
Proof.
  unfold incident_get. intros (found & t1 & t2 & -> & Hg & Hr)%runs_bind_ok.
  apply (runs_call_ok (R:=inc_answer) (SGet id)) in Hg as ->. destruct found as [p|]; [|by apply runs_ret_ok in Hr as [_ ?]].
  apply runs_bind_ok in Hr as (j & t3 & t4 & -> & [-> Hj]%runs_lift_ok & Hr). apply runs_ret_ok in Hr as [-> [= ->]].
  by exists p.
Qed.

Lemma save_report_stored rep tr i saved :
  runs (on_incidents (save_report rep)) tr (Ok i) -> report i = Some saved -> stored rep saved tr.
Proof.
  intros (t & Hr & ->)%on_incidents_runs Hi. unfold save_report in Hr.
  apply runs_bind_ok in Hr as (row & t1 & t2 & -> & Hg & Hr). apply (runs_call_ok (R:=inc_answer) (SGet _)) in Hg as ->.
  destruct row as [p|]; [|by apply runs_raise_ok in Hr].
  apply runs_bind_ok in Hr as (j & t3 & t4 & -> & [-> Hj]%runs_lift_ok & Hr). exists p, j. split; [done|].
  destruct (report j) as [r|] eqn:Hrj.
  { apply runs_ret_ok in Hr as [-> ->]. left. split; [done|congruence]. }
  apply runs_bind_ok in Hr as (u & t5 & t6 & -> & [-> [-> _]%Incident_validate_ok]%runs_lift_ok & Hr).
  apply runs_bind_ok in Hr as (won & t7 & t8 & -> & Hs & Hr).
  apply (runs_call_ok (R:=inc_answer) (SSetPayload _ _ _)) in Hs as ->. right. split; [done|]. destruct won.
  { apply runs_ret_ok in Hr as [-> <-]. left. injection Hi as <-. done. }
  right. apply runs_bind_ok in Hr as ([s|] & t9 & t10 & -> & Hget & Hr); [|by apply runs_raise_ok in Hr].
  apply incident_get_runs in Hget as (p' & -> & Hd). destruct (eqb_of _ _); [by apply runs_raise_ok in Hr|].
  apply runs_ret_ok in Hr as [-> <-]. by exists p', s.
Qed.

Lemma save_report_grounded rep tr i saved :
  runs (on_incidents (save_report rep)) tr (Ok i) -> report i = Some saved ->
  grounded saved /\ rep_incident_id saved = rep_incident_id rep.
Proof. intros (t & (_ & _ & Hi)%save_report_ok & _)%on_incidents_runs. apply Hi. Qed.

Lemma runs_checks {A} (m : prog host_answer A) t out :
  issues checking m -> runs m t out -> Forall (fun o => checking (projT1 o)) t.
Proof. apply runs_issues. Qed.
End surface.

(** C21: publication.  When the investigation route answers with a report, whatever everybody
    answered, the report is a grounded one of the incident of the URL, in the mode of the
    app, and the requests of the run were these, in this order.  First the bearer was
    authenticated as a member of the incident's namespace with a responder role.  Then a report of
    that incident and mode was found there or by one investigation.  Then the bearer was
    authenticated anew and still held the role.  And last that report was offered to the store:
    the report of the answer is the one the store then held.  Until then the store was only
    read. *)
Theorem published_authorized `{ActionCodec, ArtifactOps, IncidentCodec} host mode id bearer tr saved :
  runs (api_investigate host mode id bearer) tr (Ok saved) ->
  rep_incident_id saved = id /\ rep_mode saved = mode /\ grounded saved /\
  exists p i rep q t1 t2 t3 t4, tr = t1 ++ t2 ++ t3 ++ t4 /\
    vouched host bearer p /\ in_scope id p i /\ may p (req_namespace (request i)) true /\
    report_of i rep t2 /\ Forall (fun o => checking (projT1 o)) (t1 ++ t3) /\
    rep_incident_id rep = id /\ rep_mode rep = mode /\
    runs (bind (actor host bearer) (fun q => bind (authorize q (req_namespace (request i)) true)
                                               (fun _ => Ret q))) t3 (Ok q) /\
    vouched host bearer q /\ may q (req_namespace (request i)) true /\ stored rep saved t4.
Proof.
  unfold api_investigate. intros (p & t1 & t2 & -> & Hp & Hr)%runs_bind_ok.
  apply runs_bind_ok in Hr as (i & t3 & t4 & -> & Hi & Hr).
  apply runs_bind_ok in Hr as ([] & t5 & t6 & -> & Hmay & Hr).
  apply runs_bind_ok in Hr as (rep & t7 & t8 & -> & Hrep & Hr).
  destruct (negb _ || negb _) eqn:Hscope in Hr; [by apply runs_raise_ok in Hr|].
  apply orb_false_iff in Hscope as [Hid%negb_false_iff%eqb_of_true_1 Hmode%negb_false_iff%eqb_of_true_1].
  apply runs_bind_ok in Hr as (q & t9 & t10 & -> & Hq & Hr).
  apply runs_bind_ok in Hr as ([] & t11 & t12 & -> & Hagain & Hr).
  apply runs_bind_ok in Hr as (j & t13 & t14 & -> & Hsave & Hr).
  destruct (report j) as [rep'|] eqn:Hj; [|by apply runs_raise_ok in Hr].
  destruct_eqb (rep_mode rep') mode; [|by apply runs_raise_ok in Hr].
  apply runs_ret_ok in Hr as [-> ->]. rewrite app_nil_r.
  destruct (save_report_grounded rep t13 j saved Hsave Hj) as [Hg Hsid].
  split_and!; [congruence|done|done|].
  exists p, i, rep, q, (t1 ++ t3 ++ t5), t7, (t9 ++ t11), t13. split_and!.
  - by rewrite <-!app_assoc.
  - by eapply actor_ok.
  - by eapply scoped_incident_ok.
  - by eapply authorize_ok.
  - destruct (report i) as [r|] eqn:Hri.
    + apply runs_ret_ok in Hrep as [-> ->]. by left.
    + right. split; [done|]. exact (runs_call_ok (R:=host_answer) (HInvestigate i) _ _ Hrep).
  - rewrite !Forall_app. split_and!;
      (eapply runs_checks; [|eassumption]); auto using actor_checks, scoped_incident_checks, authorize_checks.
  - done.
  - done.
  - rewrite <-(app_nil_r t11). apply (runs_bind_intro _ _ _ _ _ _ Hq), (runs_bind_intro _ _ _ _ _ _ Hagain).
    constructor.
  - by eapply actor_ok.
  - by eapply authorize_ok.
  - by eapply save_report_stored.
Qed.

(** ** The queue worker *)

Section worker.
Context `{ActionCodec, ArtifactOps, IncidentCodec}.

Definition unsettled (c : host_call) : Prop := match c with HAck | HNack => False | _ => True end.

Lemma checks_unsettled {A} (m : prog host_answer A) : issues checking m -> issues unsettled m.
Proof. apply issues_weaken. by intros []. Qed.

Lemma unsettled_call c : unsettled c -> issues unsettled (call (R:=host_answer) c).
Proof. by apply issues_call. Qed.

Lemma worker_authorized_unsettled id : issues unsettled (worker_authorized id).
Proof.
  unfold worker_authorized. apply issues_bind; [by apply unsettled_call|]. intros [p|]; [|done].
  apply issues_bind; [apply checks_unsettled, scoped_incident_checks|]. intros i.
  apply issues_bind; [apply checks_unsettled, authorize_checks|done].
Qed.

Lemma worker_process_unsettled mode m : issues unsettled (worker_process mode m).
Proof.
  unfold worker_process. destruct (_ <? _); [done|]. apply issues_bind; [apply issues_lift|]. intros id.
  apply issues_bind; [apply worker_authorized_unsettled|]. intros i. apply issues_bind.
  - destruct (report i); [done|]. apply issues_bind; [by apply unsettled_call|]. intros s.
    apply issues_bind; [destruct (finished s); [done|by apply (unsettled_call (HResume (incident_id i)))]|].
    intros s'. by destruct (_ || _).
  - intros [rep|]; [|done]. destruct (_ || _); [done|].
    apply issues_bind; [apply worker_authorized_unsettled|]. intros _.
    apply issues_bind; [by apply (issues_embed _ _ (fun _ => True)); [|apply issues_any]|].
    intros saved. by repeat case_match.
Qed.

(** All that was asked within [t] was who the worker is, what incident it is, and the time; and
    the worker's principal may write in the scope of the incident. *)
Definition worker_may (id : string) (i : Incident) (t : list (obs host_answer)) : Prop :=
  Forall (fun o => checking (projT1 o) \/ projT1 o = HWorkerPrincipal) t /\
  exists p, (existT HWorkerPrincipal (Ok (Some p)) : obs host_answer) ∈ t /\
    in_scope id p i /\ may p (req_namespace (request i)) true.

Lemma worker_authorized_ok id t i : runs (worker_authorized id) t (Ok i) -> worker_may id i t.
Proof.
  unfold worker_authorized. intros (found & t1 & t2 & -> & Hp & Hr)%runs_bind_ok.
  pose proof (runs_call_ok (R:=host_answer) HWorkerPrincipal _ _ Hp) as ->.
  destruct found as [p|]; [|by apply runs_raise_ok in Hr].
  apply runs_bind_ok in Hr as (j & t3 & t4 & -> & Hi & Hr).
  apply runs_bind_ok in Hr as ([] & t5 & t6 & -> & Hmay & Hr).
  apply runs_ret_ok in Hr as [-> ->]. split.
  - constructor; [by right|]. rewrite app_nil_r. apply Forall_app. split.
    + eapply Forall_impl; [exact (runs_checks _ _ _ (scoped_incident_checks _ _) Hi)|]. by left.
    + eapply Forall_impl; [exact (runs_checks _ _ _ (authorize_checks _ _ _) Hmay)|]. by left.
  - apply scoped_incident_ok in Hi. apply authorize_ok in Hmay.
    exists p. split_and!; [apply list_elem_of_here|done|done].
Qed.

(** The report [rep] of [i]: stored there already, or that of its investigation, which was started
    within [t] or resumed there, and is finished *)
Definition investigated (i : Incident) (rep : IncidentReport) (t : list (obs host_answer)) : Prop :=
  report i = Some rep /\ t = [] \/
  report i = None /\ exists s, phase s = FINISHED /\ st_incident s = i /\ st_report s = Some rep /\
    (t = [existT (HStart i) (Ok s) : obs host_answer] \/
     exists s0, phase s0 <> FINISHED /\
       t = [existT (HStart i) (Ok s0) : obs host_answer; existT (HResume (incident_id i)) (Ok s) : obs host_answer]).

(** Why a delivery was processed *)
Definition processed (mode : Mode) (m : Message) (id : string) (tr : list (obs host_answer)) : Prop :=
  data_length m <= 1024 /\ InvestigationRequest_validate (data_json m) = Ok id /\
  exists i t1 t2 t3 t4 rep saved again, tr = t1 ++ t2 ++ t3 ++ t4 /\
    worker_may id i t1 /\ investigated i rep t2 /\ rep_incident_id rep = id /\ rep_mode rep = mode /\
    worker_may id again t3 /\ stored rep saved t4 /\
    rep_incident_id saved = id /\ rep_mode saved = mode /\ grounded saved.

Lemma finished_true s : finished s = true <-> phase s = FINISHED.
Proof. apply eqb_of_true. Qed.

Lemma worker_process_ok mode m tr u :
  runs (worker_process mode m) tr (Ok u) -> exists id, processed mode m id tr.
Proof.
  unfold worker_process. destruct (1024 <? data_length m) eqn:Hlen; [by intros ?%runs_raise_ok|].
  intros (id & t1 & t2 & -> & [-> Hid]%runs_lift_ok & Hr)%runs_bind_ok.
  apply runs_bind_ok in Hr as (i & t3 & t4 & -> & Hmay%worker_authorized_ok & Hr).
  apply runs_bind_ok in Hr as ([rep|] & t5 & t6 & -> & Hrep & Hr); [|by apply runs_raise_ok in Hr].
  destruct (negb _ || negb _) eqn:Hscope in Hr; [by apply runs_raise_ok in Hr|].
  apply orb_false_iff in Hscope as [Hrid%negb_false_iff%eqb_of_true_1 Hmode%negb_false_iff%eqb_of_true_1].
  apply runs_bind_ok in Hr as (again & t7 & t8 & -> & Hagain%worker_authorized_ok & Hr).
  apply runs_bind_ok in Hr as (j & t9 & t10 & -> & Hsave & Hr).
  destruct (report j) as [saved|] eqn:Hj; [|by apply runs_raise_ok in Hr].
  destruct_eqb (rep_mode saved) mode; [|by apply runs_raise_ok in Hr].
  apply runs_ret_ok in Hr as [-> _]. rewrite app_nil_r.
  destruct (save_report_grounded rep t9 j saved Hsave Hj) as [Hg Hsid].
  assert (incident_id i = id) as Hii by (destruct Hmay as (_ & p & _ & [? _ _ _ _] & _); done).
  rewrite Hii in *.
  exists id. split_and!; [lia|done|]. exists i, t3, t5, t7, t9, rep, saved, again.
  split_and!; try done; [|by eapply save_report_stored|congruence].
  unfold investigated. destruct (report i) as [r|].
  { apply runs_ret_ok in Hrep as [-> [= ->]]. by left. }
  right. split; [done|]. apply runs_bind_ok in Hrep as (s0 & t11 & t12 & -> & Hs & Hrep).
  pose proof (runs_call_ok (R:=host_answer) (HStart i) _ _ Hs) as ->.
  apply runs_bind_ok in Hrep as (s & t13 & t14 & -> & Hs' & Hrep).
  destruct (negb _ || negb _) eqn:Hdone in Hrep; [by apply runs_raise_ok in Hrep|].
  apply orb_false_iff in Hdone as [Hfin%negb_false_iff%finished_true Hsi%negb_false_iff%eqb_of_true_1].
  apply runs_ret_ok in Hrep as [-> Hrep]. exists s. split_and!; [done..|].
  destruct (finished s0) eqn:Hf.
  - apply runs_ret_ok in Hs' as [-> ->]. by left.
  - pose proof (runs_call_ok (R:=host_answer) (HResume _) _ _ Hs') as ->. right. exists s0. split; [|by rewrite Hii].
    intros Hp%finished_true. congruence.
Qed.
End worker.

(** C22: a delivery is settled once.  Every run of the queue's callback ends with exactly one
    of an acknowledgement and a rejection, whatever happens before.  It acknowledges only
    when the message is a well-formed reference of bounded size and, before the acknowledgement
    and in this order: the worker's principal held the responder role in the incident's scope; a
    report of that incident in the worker's mode was found there or by its finished investigation;
    the principal held the role again; and that report was offered to the store, which then held
    a grounded report of that incident in that mode. *)
Theorem acknowledged_published `{ActionCodec, ArtifactOps, IncidentCodec} mode m tr out :
  runs (worker_handle mode m) tr out ->
  exists tr0, Forall (fun o : obs host_answer => unsettled (projT1 o)) tr0 /\
    ((exists r, tr = tr0 ++ [existT HNack r : obs host_answer]) \/
     (exists r id, tr = tr0 ++ [existT HAck r : obs host_answer] /\ processed mode m id tr0)).
Proof.
  unfold worker_handle. intros Hr.
  apply runs_bind in Hr as [(e & Hr & ->)|(ok & t1 & t2 & -> & Hr & Hack)].
  - apply runs_catch in Hr as [[_ Hn]|(e' & t1 & t2 & -> & Hp & _ & Hr)]; [by specialize (Hn _ eq_refl)|].
    apply runs_bind in Hp as [(e'' & Hp & [= ->])|(u & t3 & t4 & -> & _ & Hp)]; [|by apply runs_ret_inv in Hp as [_ [=]]].
    apply runs_bind in Hr as [(e3 & Hn & _)|(u & t5 & t6 & -> & _ & Hr)]; [|by apply runs_ret_inv in Hr as [_ [=]]].
    destruct (runs_call_out (R:=host_answer) HNack _ _ Hn) as (r & -> & _).
    exists t1. split; [by eapply runs_issues; [apply worker_process_unsettled|]|]. left. by exists r.
  - apply runs_catch in Hr as [[Hp _]|(e' & t3 & t4 & -> & Hp & _ & Hr)].
    + apply runs_bind_ok in Hp as ([] & t3 & t4 & -> & Hp & Hr). apply runs_ret_ok in Hr as [-> <-].
      rewrite app_nil_r. destruct (runs_call_out (R:=host_answer) HAck _ _ Hack) as (r & -> & _).
      exists t3. split; [by eapply runs_issues; [apply worker_process_unsettled|]|].
      right. apply worker_process_ok in Hp as (id & Hp). by exists r, id.
    + apply runs_bind in Hp as [(e'' & Hp & [= ->])|(u & t5 & t6 & -> & _ & Hp)]; [|by apply runs_ret_inv in Hp as [_ [=]]].
      apply runs_bind_ok in Hr as (u & t5 & t6 & -> & Hn & Hr). apply runs_ret_ok in Hr as [-> <-].
      pose proof (runs_call_ok (R:=host_answer) HNack _ _ Hn) as ->.
      apply runs_ret_inv in Hack as [-> _]. rewrite !app_nil_r.
      exists t3. split; [by eapply runs_issues; [apply worker_process_unsettled|]|]. left. by eexists.
Qed.

(** ** In the concrete host *)

#[local] Existing Instance incident_values.

Definition publish_run : result IncidentReport * db * list (obs host_answer) :=
  play calm_host (api_investigate local_host local_kind "inc-2" (bearer_of "alice")) empty_db [].

Definition delivery : Message :=
  {| data_length := 24; data_json := Ok (JObj [("incident_id", JStr "inc-2")]) |}.
Definition delivery_run : result unit * db * list (obs host_answer) :=
  play calm_host (worker_handle local_kind delivery) empty_db [].

Lemma published_authorized_witness :
  rep_incident_id local_report = "inc-2" /\ rep_mode local_report = local_kind /\ grounded local_report /\
  exists p i rep q t1 t2 t3 t4, publish_run.2 = t1 ++ t2 ++ t3 ++ t4 /\
    vouched local_host (bearer_of "alice") p /\ in_scope "inc-2" p i /\ may p (req_namespace (request i)) true /\
    report_of i rep t2 /\ Forall (fun o => checking (projT1 o)) (t1 ++ t3) /\
    rep_incident_id rep = "inc-2" /\ rep_mode rep = local_kind /\
    runs (bind (actor local_host (bearer_of "alice"))
            (fun q => bind (authorize q (req_namespace (request i)) true) (fun _ => Ret q))) t3 (Ok q) /\
    vouched local_host (bearer_of "alice") q /\ may q (req_namespace (request i)) true /\ stored rep local_report t4.
Proof.
  apply (published_authorized local_host local_kind "inc-2" (bearer_of "alice") publish_run.2 local_report).
  assert (publish_run.1.1 = Ok local_report) as <- by (vm_compute; reflexivity).
  exact (play_runs_nil calm_host (api_investigate local_host local_kind "inc-2" (bearer_of "alice")) empty_db).
Defined.

Lemma acknowledged_published_witness :
  list.last (map (@projT1 _ _) delivery_run.2) = Some HAck /\
  exists tr0, Forall (fun o : obs host_answer => unsettled (projT1 o)) tr0 /\
    ((exists r, delivery_run.2 = tr0 ++ [existT HNack r : obs host_answer]) \/
     (exists r id, delivery_run.2 = tr0 ++ [existT HAck r : obs host_answer] /\
        processed local_kind delivery id tr0)).
Proof.
  split; [vm_compute; reflexivity|].
  apply (acknowledged_published local_kind delivery delivery_run.2 delivery_run.1.1).
  exact (play_runs_nil calm_host (worker_handle local_kind delivery) empty_db).
Defined.
