(* ===== verification/Diagnostics.v ===== *)
(** * Diagnostic predicates: [payops/evidence/diagnostics.py], [diagnostic_slices.py],
    [diagnostic_http.py] and [diagnostic_support.py]

    Which mechanisms the raw fields of an observation support.  Integers beyond binary64,
    and digit texts longer than Python converts, make the code raise: the predicates that
    convert numbers return a [result].  Sets of causes are [gset string]s. *)

From S2P Require Import Prelude Text Json Contracts Policy Baseline.

Open Scope string_scope.
Open Scope list_scope.
Open Scope Z_scope.
Open Scope result_scope.

Abbreviation Object := (list (string * json)) (only parsing).

(** ** Loops that may raise *)

(** [any(f(x) for x in l)] *)
Fixpoint rany {A} (f : A -> result bool) (l : list A) : result bool :=
  match l with
  | [] => Ok false
  | x :: l => let! b := f x in if b : bool then Ok true else rany f l
  end.

(** [[x for x in l if f(x)]] *)
Fixpoint rfilter {A} (f : A -> result bool) (l : list A) : result (list A) :=
  match l with
  | [] => Ok []
  | x :: l => let! b := f x in let! l := rfilter f l in Ok (if b : bool then x :: l else l)
  end.

Definition add_if (b : bool) (cause : string) : gset string := if b then {[cause]} else ∅.

(** [combinations(l, 2)] *)
Fixpoint pairs {A} (l : list A) : list (A * A) :=
  match l with [] => [] | x :: l => map (pair x) l ++ pairs l end.

(** ** [diagnostics.py] *)

(** [objects] *)
Fixpoint objects (j : json) : list Object :=
  match j with
  | JObj o =>
      if is_true (dget o "archived") then []
      else o :: (fix go (o : list (string * json)) : list Object :=
                   match o with [] => [] | (_, v) :: o => objects v ++ go o end) o
  | JList l =>
      (fix go (l : list json) : list Object :=
         match l with [] => [] | v :: l => objects v ++ go l end) l
  | _ => []
  end.

(** [number] *)
Definition number (j : json) : result (option spec_float) :=
  match j with
  | JInt z => let f := float_of_Z z in
              if is_finite f then Ok (Some f) else Err (OtherError "OverflowError")
  | JFloat f => Ok (Some f)
  | _ => Ok None
  end.

(** [int(s)] of a text of digits *)
Definition int_of (s : string) : result Z :=
  if 4300 <? str_len s then Err (ValueError "Exceeds the limit (4300 digits)") else Ok (digits_value s).

(** [(number(value) or 0) > 0] and [(number(value) or 0) <= 0] *)
Definition positive (j : json) : result bool :=
  let! n := number j in Ok match n with Some f => SFltb float_zero f | None => false end.
Definition not_positive (j : json) : result bool :=
  let! n := number j in Ok match n with Some f => SFleb f float_zero | None => true end.

Section diagnostics.
Context `{PyText}.

(** [duration], in microseconds *)
Definition duration (row : Object) : option Z :=
  start ← as_str (dget row "startedAt");
  finish ← as_str (dget row "finishedAt");
  '(t, aware) ← fromisoformat start;
  '(u, aware') ← fromisoformat finish;
  if aware && aware' : bool then Some (u - t) else None.

(** [direct] *)
Definition direct (row : Object) (res : string) : gset string :=
  add_if (is_str (dget row "dependency") "postgres" && is_str (dget row "sqlstate") "53300")
    "DATABASE_CONNECTION_EXHAUSTION" ∪
  add_if (is_str (dget row "dependency") "redis" && is_str (dget row "outcome") "unavailable")
    "CACHE_UNAVAILABLE" ∪
  add_if (is_str (dget row "kind") "Deployment" && int_with (fun n => n =? 0) (dget row "replicas") &&
          is_str (dget_or row "resource" (JStr res)) "processor-adapter")
    "PROCESSOR_UNAVAILABLE" ∪
  add_if (is_str (dget row "type") "ScalingLimited" && is_str (dget row "status") "True" &&
          is_str (dget row "reason") "TooManyReplicas")
    "AUTOSCALING_MAX_REPLICAS" ∪
  add_if (py_eq (dget row "exitCode") (JInt 1) &&
          match duration row with Some d => between 0 (seconds 5) d | None => false end)
    "STARTUP_FAILURE".

(** [running_unready] *)
Definition running_unready (row : Object) : bool :=
  is_false (dget row "ready") && py_eq (dget row "restartCount") (JInt 0) &&
  match dget row "state" with JObj state => dhas state "running" | _ => false end.

(** [events] *)
Definition event_causes (pending running pressure : bool) (row : Object) : gset string :=
  match dget row "message" with
  | JStr message =>
      add_if (pending && is_str (dget row "reason") "FailedScheduling" &&
              str_contains "Insufficient cpu" message) "INSUFFICIENT_CPU_REQUEST_CAPACITY" ∪
      add_if (pending && is_str (dget row "reason") "FailedScheduling" &&
              str_contains "Insufficient memory" message) "INSUFFICIENT_MEMORY_REQUEST_CAPACITY" ∪
      add_if (running && is_str (dget row "reason") "Unhealthy" &&
              starts_with "Readiness probe failed:" message) "READINESS_PROBE_FAILURE" ∪
      add_if (pressure && is_str (dget row "reason") "Evicted" && str_contains "memory" message)
        "NODE_PRESSURE_EVICTION"
  | _ => ∅
  end.

Definition events (rows : list Object) : gset string :=
  let pending := existsb (fun row => is_str (dget row "phase") "Pending") rows in
  let running := existsb running_unready rows in
  let pressure := existsb (fun row => is_str (dget row "type") "MemoryPressure" &&
                                      is_str (dget row "status") "True") rows in
  ⋃ map (event_causes pending running pressure) rows.

(** [growth] of the values of the field *)
Fixpoint ascending (l : list spec_float) : bool :=
  match l with
  | a :: (b :: _) as l' => SFleb a b && ascending l'
  | _ => true
  end.

Definition growth (rows : list Object) (field : string) : result bool :=
  let! values := rmap (fun row => number (dget row field)) (List.filter (fun row => dhas row field) rows) in
  Ok ((3 <=? len values) &&
      match mapM id values with
      | Some (first :: rest) =>
          ascending (first :: rest) && SFltb first (List.last rest first)
      | _ => false
      end).

(** [memory] *)
Definition memory (rows : list Object) : result (gset string) :=
  let! leak := growth rows "retained_bytes" in
  let! active := growth rows "active" in
  let! concurrency := (if active : bool then growth rows "cgroup_current_bytes" else Ok false) in
  Ok (add_if leak "MEMORY_LEAK" ∪ add_if concurrency "CONCURRENCY_MEMORY_PRESSURE" ∪
      add_if (existsb (fun row => is_str (dget row "reason") "OOMKilled") rows)
        "MEMORY_LIMIT_BELOW_WORKING_SET").

(** [cpu_counter] *)
Definition counter_of (words : list string) : option string :=
  match words with
  | [name; value] => if decide (name = "throttled_usec") then Some value else None
  | _ => None
  end.

Definition cpu_counter (j : json) : result (option Z) :=
  match j with
  | JStr text =>
      match omap (fun line => counter_of (split_words line)) (splitlines text) with
      | [value] => if is_digits value then let! n := int_of value in Ok (Some n) else Ok None
      | _ => Ok None
      end
  | _ => Ok None
  end.

(** [part.isdigit() and int(part) > 0] *)
Definition positive_digits (part : string) : result bool :=
  if is_digits part then let! n := int_of part in Ok (0 <? n) else Ok false.

(** [throttled] *)
Definition throttled (row : Object) : result bool :=
  match dget row "before", dget row "after" with
  | JObj before, JObj after =>
      match dget before "cpu_max" with
      | JStr quota =>
          if negb (is_str (dget after "cpu_max") quota) then Ok false
          else match split_words quota with
               | [a; b] =>
                   let! first_ok := positive_digits a in
                   let! both_ok := (if first_ok : bool then positive_digits b else Ok false) in
                   if negb both_ok then Ok false
                   else
                     let! first := cpu_counter (dget before "cpu_stat") in
                     let! last := cpu_counter (dget after "cpu_stat") in
                     Ok match first, last with Some m, Some n => m <? n | _, _ => false end
               | _ => Ok false
               end
      | _ => Ok false
      end
  | _, _ => Ok false
  end.

(** [supported_causes] *)
Definition supported_causes (value : json) (res : string) : result (gset string) :=
  let rows := objects value in
  let! found := memory rows in
  let! slow := rany throttled rows in
  Ok (⋃ map (fun row => direct row res) rows ∪ events rows ∪ found ∪ add_if slow "CPU_THROTTLING").

(** ** [diagnostic_slices.py] *)

(** [labels] *)
Fixpoint labels_loop (found : list (string * string)) (raw : list json) : option (list (string * string)) :=
  match raw with
  | [] => Some found
  | JList [JStr k; JStr v] :: raw =>
      if bool_decide (k ∈ found.*1) then None else labels_loop (found ++ [(k, v)]) raw
  | _ :: _ => None
  end.
Definition labels (row : Object) : list (string * string) :=
  match dget row "labels" with JList raw => default [] (labels_loop [] raw) | _ => [] end.

(** [a[k]] of labels *)
Definition label (l : list (string * string)) (k : string) : option string :=
  snd <$> List.find (fun kv => eqb_of kv.1 k) l.

Definition keys_are (l : list (string * string)) (keys : list string) : bool :=
  bool_decide (list_to_set (C:=gset string) l.*1 = list_to_set keys).

Definition slice_keys : list string := ["processor"; "region"; "payment_method"; "status"].

(** One pair of [declines] *)
Definition contrast (left right : Object) : gset string :=
  let a := labels left in
  let b := labels right in
  if negb (keys_are a slice_keys) || negb (keys_are b slice_keys) then ∅
  else if negb (bool_decide ({[label a "status"; label b "status"]} =@{gset (option string)}
                             {[Some "accepted"; Some "declined"]})) then ∅
  else
    let changed := List.filter (fun k => negb (eqb_of (label a k) (label b k)))
                     ["processor"; "region"; "payment_method"] in
    add_if (eqb_of changed ["processor"]) "PROCESSOR_SPECIFIC_DECLINES" ∪
    add_if (eqb_of changed ["payment_method"]) "METHOD_SPECIFIC_DECLINES".

(** [declines] *)
Definition declines (rows : list Object) : result (gset string) :=
  let! counts := rfilter (fun row =>
    if is_str (dget row "metric") "payment_requests_total" then positive (dget row "value") else Ok false)
    rows in
  Ok (⋃ map (fun p => contrast p.1 p.2) (pairs counts)).

(** The sums and counts of one processor and region *)
Record Sample : Type := { sample_sum : option spec_float; sample_count : option spec_float }.
Abbreviation samples := (gmap (string * string) Sample).

Definition no_sample : Sample := {| sample_sum := None; sample_count := None |}.

(** One row of the loop of [region_latency] *)
Definition sampled (row : Object) (values : samples) : result samples :=
  let l := labels row in
  let! value := number (dget row "value") in
  match value, label l "processor", label l "region" with
  | Some v, Some p, Some r =>
      if negb (keys_are l ["processor"; "region"]) || SFleb v float_zero then Ok values
      else
        let old := default no_sample (values !! (p, r)) in
        if is_str (dget row "metric") "payment_authorization_latency_seconds_count"
        then Ok (<[(p, r) := {| sample_sum := sample_sum old; sample_count := Some v |}]> values)
        else if is_str (dget row "metric") "payment_authorization_latency_seconds_sum"
        then Ok (<[(p, r) := {| sample_sum := Some v; sample_count := sample_count old |}]> values)
        else Ok values
  | _, _, _ => Ok values
  end.

Fixpoint sample_rows (rows : list Object) (values : samples) : result samples :=
  match rows with
  | [] => Ok values
  | row :: rows => let! values := sampled row values in sample_rows rows values
  end.

(** The mean of a region with at least five requests *)
Definition mean (s : Sample) : option spec_float :=
  match sample_sum s, sample_count s with
  | Some total, Some n => if SFleb (float_of_Z 5) n then Some (float_div total n) else None
  | _, _ => None
  end.

Definition float_max (x y : spec_float) : spec_float := if SFltb x y then y else x.
Definition float_min (x y : spec_float) : spec_float := if SFltb y x then y else x.

Definition slower_region (a b : (string * string) * spec_float) : bool :=
  eqb_of a.1.1 b.1.1 && negb (eqb_of a.1.2 b.1.2) &&
  SFleb (float_mul (float_of_Z 2) (float_min a.2 b.2)) (float_max a.2 b.2).

(** [region_latency] *)
Definition region_latency (rows : list Object) : result bool :=
  let! values := sample_rows rows ∅ in
  Ok (existsb (fun p => slower_region p.1 p.2) (pairs (map_to_list (omap mean values)))).

(** [re.fullmatch] of a span sample: its callee and its microseconds *)
Definition span_sample (s : string) : option (string * string) :=
  rest ← after_prefix "sandbox.call." s;
  '(callee, tail) ← partition (Ascii.ascii_of_nat 58) rest;
  tail ← after_prefix " " tail;
  '(digits, tail) ← partition (Ascii.ascii_of_nat 32) tail;
  tail ← after_prefix "us; status " tail;
  '(status, tail) ← partition (Ascii.ascii_of_nat 59) tail;
  if bool_decide (callee ∈ ["processor"; "risk"; "ledger"; "webhook"]) && is_digits digits &&
     negb (eqb_of status EmptyString) && str_all is_word status && eqb_of tail " bounded sample"
  then Some (callee, digits) else None.

Definition row_spans (row : Object) : list (string * string) :=
  match dget row "spans" with
  | JList l => omap (fun j => as_str j ≫= span_sample) l
  | _ => []
  end.

(** [processor_latency] *)
Definition processor_latency (rows : list Object) : result bool :=
  let! durations := rmap (fun s => let! n := int_of s.2 in Ok (s.1, n)) (flat_map row_spans rows) in
  let processor := map snd (List.filter (fun s => eqb_of s.1 "processor") durations) in
  let peers := map snd (List.filter (fun s => negb (eqb_of s.1 "processor")) durations) in
  Ok match processor, peers with
     | p :: (_ :: _) as ps, q :: (_ :: _) as qs => 3 * foldl Z.max q qs <? foldl Z.min p ps
     | _, _ => false
     end.

(** [slice_causes] *)
Definition slice_causes (value : json) : result (gset string) :=
  let rows := objects value in
  let! found := declines rows in
  let! regional := region_latency rows in
  let! slow := processor_latency rows in
  Ok (found ∪ add_if regional "REGION_SPECIFIC_LATENCY" ∪ add_if slow "PROCESSOR_LATENCY").

(** ** [diagnostic_http.py] *)

(** [matched_control] *)
Definition matched_control (rejected accepted : Object) : bool :=
  py_eq (dget accepted "http_status") (JInt 200) &&
  forallb (fun row => forallb (fun key =>
      match dget row key with JStr s => negb (eqb_of s EmptyString) | _ => false end)
    ["processor"; "region"; "payment_method"]) [rejected; accepted] &&
  negb (py_eq (dget rejected "processor") (dget accepted "processor")) &&
  py_eq (dget rejected "region") (dget accepted "region") &&
  py_eq (dget rejected "payment_method") (dget accepted "payment_method").

(** [http_causes] *)
Definition rate_limited (rows : list Object) (rejected : Object) : result bool :=
  if negb (py_eq (dget rejected "http_status") (JInt 429)) then Ok false
  else
    let! none := not_positive (dget rejected "latency_seconds") in
    Ok (negb none && existsb (matched_control rejected) rows).

Definition envelope_causes (envelope : Object) : result (gset string) :=
  match dget envelope "attempts" with
  | JList attempts =>
      let rows := omap as_object attempts in
      let conflict := is_str (dget envelope "role") "webhook" &&
        existsb (fun row => py_eq (dget row "http_status") (JInt 409) &&
                            is_true (dget row "idempotency_conflict")) rows in
      if negb (is_str (dget envelope "role") "payments")
      then Ok (add_if conflict "WEBHOOK_IDEMPOTENCY_CONFLICT")
      else
        let! limited := rmap (rate_limited rows) rows in
        Ok (add_if conflict "WEBHOOK_IDEMPOTENCY_CONFLICT" ∪
            add_if (existsb id limited) "PROCESSOR_LATENCY_RATE_LIMIT")
  | _ => Ok ∅
  end.

Definition http_causes (value : json) : result (gset string) :=
  let! found := rmap envelope_causes (objects value) in Ok (⋃ found).

(** ** [diagnostic_support.py] *)

(** [sorted(l)] of strings *)
Fixpoint insert_string (s : string) (l : list string) : list string :=
  match l with
  | [] => [s]
  | s' :: l' => if String.leb s s' then s :: l else s' :: insert_string s l'
  end.
Definition sort_strings (l : list string) : list string := foldr insert_string [] l.

Definition observed_causes (value : json) (res : string) : result (gset string) :=
  let! a := supported_causes value res in
  let! b := slice_causes value in
  let! c := http_causes value in
  Ok (a ∪ b ∪ c).

(** [result.setdefault(cause, []).append(identifier)] for the causes of one observation *)
Definition add_support (id : string) (m : gmap string (list string)) (cause : string)
  : gmap string (list string) := <[cause := default [] (m !! cause) ++ [id]]> m.

Fixpoint support_loop (m : gmap string (list string)) (observations : list (string * string * json))
  : result (gmap string (list string)) :=
  match observations with
  | [] => Ok m
  | (id, res, value) :: observations =>
      let! causes := observed_causes value res in
      support_loop (foldl (add_support id) m (sort_strings (elements causes))) observations
  end.

(** [support_index]: its items, in their order *)
Definition support_index (observations : list (string * string * json))
  : result (list (string * list string)) :=
  let! m := support_loop ∅ observations in
  let m := if bool_decide (is_Some (m !! "MEMORY_LEAK")) ||
              bool_decide (is_Some (m !! "CONCURRENCY_MEMORY_PRESSURE"))
           then delete "MEMORY_LIMIT_BELOW_WORKING_SET" m else m in
  Ok (map (fun cause => (cause, from_keys (default [] (m !! cause)))) (sort_strings (elements (dom m)))).
End diagnostics.
