(* ===== verification/SandboxModels.v ===== *)
(** * Bounded synthetic inputs: [payops/sandbox/models.py]

    Samples, results, the trusted fault state and the configuration of one role, with the
    network destinations it may use. *)

From S2P Require Import Prelude Text Json Digest.

Open Scope string_scope.
Open Scope list_scope.
Open Scope Z_scope.
Open Scope result_scope.

Inductive Peer : Type := payments | risk | processor | ledger | webhook.
Inductive Processor : Type := proc_a | proc_b.
Inductive Region : Type := us | eu.
Inductive Method : Type := credit | debit.
Inductive RiskProtocol : Type := risk_v1 | risk_v2.
Inductive Dependency : Type := no_dependency | postgres | redis.
Inductive TelemetryCondition : Type := normal_telemetry | archived_error | delayed_metrics.

#[export] Instance Peer_eq_dec : EqDecision Peer.
Proof. solve_decision. Defined.
#[export] Instance Processor_eq_dec : EqDecision Processor.
Proof. solve_decision. Defined.
#[export] Instance Region_eq_dec : EqDecision Region.
Proof. solve_decision. Defined.
#[export] Instance Method_eq_dec : EqDecision Method.
Proof. solve_decision. Defined.
#[export] Instance RiskProtocol_eq_dec : EqDecision RiskProtocol.
Proof. solve_decision. Defined.
#[export] Instance Dependency_eq_dec : EqDecision Dependency.
Proof. solve_decision. Defined.
#[export] Instance TelemetryCondition_eq_dec : EqDecision TelemetryCondition.
Proof. solve_decision. Defined.

Definition peer_name (r : Peer) : string :=
  match r with
  | payments => "payments" | risk => "risk" | processor => "processor" | ledger => "ledger"
  | webhook => "webhook"
  end.
Definition processor_name (p : Processor) : string := match p with proc_a => "A" | proc_b => "B" end.
Definition region_name (r : Region) : string := match r with us => "us" | eu => "eu" end.
Definition method_name (m : Method) : string := match m with credit => "credit" | debit => "debit" end.

(** ** Samples *)

Record Sample : Type := {
  sample_id : string;
  sample_processor : Processor;
  sample_region : Region;
  sample_method : Method;
}.
#[export] Instance Sample_eq_dec : EqDecision Sample.
Proof. solve_decision. Defined.

(** [^synthetic-[a-zA-Z0-9-]{1,64}$] *)
Definition sample_char (c : Ascii.ascii) : bool :=
  ascii_between 97 122 c || ascii_between 65 90 c || is_digit c || ascii_between 45 45 c.
Definition sample_id_ok (s : string) : bool :=
  match after_prefix "synthetic-" s with
  | Some rest => between 1 64 (str_len rest) && str_all sample_char rest
  | None => false
  end.

Definition Sample_validate (s : Sample) : result Sample :=
  if sample_id_ok (sample_id s) then Ok s else Err (ValueError "Sample").

(** [Sample(sample_id=...)] *)
Definition default_sample (id : string) : Sample :=
  {| sample_id := id; sample_processor := proc_a; sample_region := us; sample_method := credit |}.

Definition dump_sample (s : Sample) : json :=
  JObj [("sample_id", JStr (sample_id s)); ("processor", JStr (processor_name (sample_processor s)));
        ("region", JStr (region_name (sample_region s)));
        ("payment_method", JStr (method_name (sample_method s)))].

(** [sha256(sample.model_dump_json().encode()).hexdigest()] *)
Definition fingerprint (s : Sample) : string :=
  sha256_hex (default EmptyString (print_json false (dump_sample s))).

(** [RiskSampleV2]: its [protocol] is a constant. *)
Inductive Payload : Type := Plain (s : Sample) | Enveloped (s : Sample).

Definition dump_payload (p : Payload) : json :=
  match p with
  | Plain s => dump_sample s
  | Enveloped s => JObj [("protocol", JStr "payops-risk-v2"); ("sample", dump_sample s)]
  end.

(** [accepted] or declined; [synthetic] is the constant [True]. *)
Record SimulationResult : Type := {
  res_sample_id : string;
  res_role : Peer;
  res_accepted : bool;
}.
#[export] Instance SimulationResult_eq_dec : EqDecision SimulationResult.
Proof. solve_decision. Defined.

(** *** Reading a result *)

Definition peer_of_name (s : string) : option Peer :=
  List.find (fun r => eqb_of (peer_name r) s) [payments; risk; processor; ledger; webhook].

Definition status_of_name (s : string) : option bool :=
  if decide (s = "accepted") then Some true else if decide (s = "declined") then Some false else None.

(** [SimulationResult.model_validate] of decoded JSON *)
Definition parse_result (j : json) : option SimulationResult :=
  d ← as_object j;
  id ← field_str d "sample_id";
  r ← field_str d "role" ≫= peer_of_name;
  s ← field_str d "status" ≫= status_of_name;
  if closed d ["sample_id"; "role"; "status"; "synthetic"] && is_true (dget_or d "synthetic" (JBool true))
  then Some {| res_sample_id := id; res_role := r; res_accepted := s |} else None.

(** Pydantic's JSON parser; a text it does not parse raises a [ValidationError]. *)
Class ModelText : Type := model_json : string -> option json.

Definition SimulationResult_of_text `{ModelText} (text : string) : result SimulationResult :=
  match model_json text ≫= parse_result with
  | Some r => Ok r
  | None => Err (ValueError "SimulationResult")
  end.

(** ** Faults *)

Record FaultConfig : Type := {
  unavailable : bool;
  delay_ms : Z;
  rate_limit_every : Z;
  decline_every : Z;
  fault_processor : option Processor;
  fault_region : option Region;
  fault_method : option Method;
  fault_seed : Z;
}.

Definition FaultConfig_valid (f : FaultConfig) : bool :=
  between 0 5000 (delay_ms f) && between 0 1000 (rate_limit_every f) &&
  between 0 1000 (decline_every f) && between 0 (2 ^ 31 - 1) (fault_seed f).

Definition no_fault : FaultConfig := {|
  unavailable := false; delay_ms := 0; rate_limit_every := 0; decline_every := 0;
  fault_processor := None; fault_region := None; fault_method := None; fault_seed := 0 |}.

(** [selected is None or selected == actual] *)
Definition selected {A} `{EqDecision A} (sel : option A) (actual : A) : bool :=
  match sel with None => true | Some s => eqb_of s actual end.

(** [FaultConfig.matches] *)
Definition fault_matches (f : FaultConfig) (s : Sample) : bool :=
  selected (fault_processor f) (sample_processor s) && selected (fault_region f) (sample_region s) &&
  selected (fault_method f) (sample_method s).

Definition dump_option {A} (f : A -> string) (x : option A) : json :=
  match x with Some x => JStr (f x) | None => JNull end.

Definition dump_fault (f : FaultConfig) : json :=
  JObj [("unavailable", JBool (unavailable f)); ("delay_ms", JInt (delay_ms f));
        ("rate_limit_every", JInt (rate_limit_every f)); ("decline_every", JInt (decline_every f));
        ("processor", dump_option processor_name (fault_processor f));
        ("region", dump_option region_name (fault_region f));
        ("payment_method", dump_option method_name (fault_method f)); ("seed", JInt (fault_seed f))].

(** [FaultConfig.model_dump_json] *)
Definition fault_text (f : FaultConfig) : string := default EmptyString (print_json false (dump_fault f)).

(** ** Destinations *)

(** [urllib.parse.urlsplit] and [ipaddress.ip_address(host).is_loopback], whose [ValueError]
    is [None]; reading the port may raise. *)
Record url : Type := {
  url_scheme : string;
  url_hostname : option string;
  url_port : result (option Z);
  url_username : option string;
  url_password : option string;
  url_path : string;
  url_query : string;
  url_fragment : string;
}.

Class UrlText : Type := {
  urlsplit : string -> result url;
  is_loopback : string -> option bool;
}.

Definition set_text (s : option string) : bool :=
  match s with Some s => negb (eqb_of s EmptyString) | None => false end.

(** [s.endswith(suffix)] *)
Fixpoint ends_with (suffix s : string) : bool :=
  eqb_of s suffix || match s with EmptyString => false | String _ s => ends_with suffix s end.

Section destinations.
Context `{UrlText}.

(** [allowed_destination] *)
Definition allowed_destination (url : string) (explicit_hosts : list string) : result bool :=
  let! parsed := urlsplit url in
  let! port := url_port parsed in
  if match port with Some p => negb (between 1 65535 p) | None => false end then Ok false
  else if negb (bool_decide (url_scheme parsed ∈ ["http"; "https"])) || negb (set_text (url_hostname parsed))
  then Ok false
  else if set_text (url_username parsed) || set_text (url_password parsed)
          || set_text (Some (url_query parsed)) || set_text (Some (url_fragment parsed)) then Ok false
  else if negb (bool_decide (url_path parsed ∈ [EmptyString; "/"])) || str_contains (chr 92) url then Ok false
  else
    let host := default EmptyString (url_hostname parsed) in
    if eqb_of host "localhost" || ends_with ".svc.cluster.local" host then Ok true
    else match is_loopback host with
         | Some b => Ok b
         | None => Ok (eqb_of (url_scheme parsed) "https" && bool_decide (host ∈ explicit_hosts))
         end.

(** ** Configuration *)

Record SandboxConfig : Type := {
  risk_url : string;
  processor_url : string;
  ledger_url : string;
  webhook_url : string;
  explicit_synthetic_hosts : list string;
  sandbox_timeout : spec_float;
  idempotency_capacity : Z;
  risk_protocol : RiskProtocol;
  cpu_rounds : Z;
  cpu_capture : bool;
  concurrency_memory : bool;
  dependency : Dependency;
  telemetry_condition : TelemetryCondition;
}.

Definition default_config : SandboxConfig := {|
  risk_url := "http://127.0.0.1:8101"; processor_url := "http://127.0.0.1:8102";
  ledger_url := "http://127.0.0.1:8103"; webhook_url := "http://127.0.0.1:8104";
  explicit_synthetic_hosts := []; sandbox_timeout := float_of_Z 2; idempotency_capacity := 10000;
  risk_protocol := risk_v1; cpu_rounds := 0; cpu_capture := false; concurrency_memory := false;
  dependency := no_dependency; telemetry_condition := normal_telemetry |}.

Definition config_fields_ok (c : SandboxConfig) : bool :=
  SFltb float_zero (sandbox_timeout c) && SFleb (sandbox_timeout c) (float_of_Z 10) &&
  between 1 100000 (idempotency_capacity c) && between 0 200000 (cpu_rounds c).

(** The loop over the four origins *)
Definition origin_ok (c : SandboxConfig) (url : string) : result unit :=
  let! ok := allowed_destination url (explicit_synthetic_hosts c) in
  if ok then Ok tt else Err (ValueError "destination must be an approved synthetic service origin").

(** [SandboxConfig.validate_origins] *)
Definition SandboxConfig_validate (c : SandboxConfig) : result SandboxConfig :=
  let positive_rounds := negb (cpu_rounds c =? 0) in
  if negb (config_fields_ok c) then Err (ValueError "SandboxConfig")
  else if eqb_of (telemetry_condition c) archived_error && negb (eqb_of (dependency c) redis)
          || eqb_of (telemetry_condition c) delayed_metrics && negb (eqb_of (dependency c) postgres) then
    Err (ValueError "observation condition requires its fixed dependency profile")
  else if negb (eqb_of (dependency c) no_dependency) && (positive_rounds || concurrency_memory c) then
    Err (ValueError "dependency and CPU/memory fault profiles must be isolated")
  else if concurrency_memory c && positive_rounds then
    Err (ValueError "CPU and concurrent-memory experiments must be isolated")
  else if cpu_capture c && negb positive_rounds then
    Err (ValueError "CPU capture requires enabled work")
  else
    let! _ := rforeach (origin_ok c) [risk_url c; processor_url c; ledger_url c; webhook_url c] in
    Ok c.

(** [SandboxConfig.destination]: the payments role has none. *)
Definition destination (c : SandboxConfig) (r : Peer) : result string :=
  match r with
  | risk => Ok (risk_url c)
  | processor => Ok (processor_url c)
  | ledger => Ok (ledger_url c)
  | webhook => Ok (webhook_url c)
  | payments => Err (KeyError "payments")
  end.
End destinations.

(** ** Reading a configuration *)

(** A field of decoded JSON, by default [v]; [None] when it has another type. *)
Definition field_or {A} (d : list (string * json)) (k : string) (v : A) (read : json -> option A) : option A :=
  match dict_find d k with Some j => read j | None => Some v end.

Definition as_bool (j : json) : option bool := match j with JBool b => Some b | _ => None end.
Definition as_strings (j : json) : option (list string) :=
  match j with JList l => strings_of l | _ => None end.
Definition as_float (j : json) : option spec_float :=
  match j with JFloat f => Some f | JInt z => Some (float_of_Z z) | _ => None end.
Definition named {A} (l : list (string * A)) (j : json) : option A :=
  s ← as_str j; snd <$> List.find (fun kv => eqb_of kv.1 s) l.

Definition config_keys : list string :=
  ["risk_url"; "processor_url"; "ledger_url"; "webhook_url"; "explicit_synthetic_hosts"; "timeout_seconds";
   "idempotency_capacity"; "risk_protocol"; "cpu_rounds"; "cpu_capture"; "concurrency_memory"; "dependency";
   "telemetry_condition"].

Definition parse_config (j : json) : option SandboxConfig :=
  d ← as_object j;
  let c := default_config in
  u1 ← field_or d "risk_url" (risk_url c) as_str;
  u2 ← field_or d "processor_url" (processor_url c) as_str;
  u3 ← field_or d "ledger_url" (ledger_url c) as_str;
  u4 ← field_or d "webhook_url" (webhook_url c) as_str;
  hosts ← field_or d "explicit_synthetic_hosts" [] as_strings;
  timeout ← field_or d "timeout_seconds" (sandbox_timeout c) as_float;
  capacity ← field_or d "idempotency_capacity" (idempotency_capacity c) as_int;
  protocol ← field_or d "risk_protocol" risk_v1 (named [("v1", risk_v1); ("v2", risk_v2)]);
  rounds ← field_or d "cpu_rounds" 0 as_int;
  capture ← field_or d "cpu_capture" false as_bool;
  memory ← field_or d "concurrency_memory" false as_bool;
  dep ← field_or d "dependency" no_dependency
    (named [("none", no_dependency); ("postgres", postgres); ("redis", redis)]);
  condition ← field_or d "telemetry_condition" normal_telemetry
    (named [("normal", normal_telemetry); ("archived_error", archived_error); ("delayed_metrics", delayed_metrics)]);
  if closed d config_keys then Some {|
    risk_url := u1; processor_url := u2; ledger_url := u3; webhook_url := u4;
    explicit_synthetic_hosts := hosts; sandbox_timeout := timeout; idempotency_capacity := capacity;
    risk_protocol := protocol; cpu_rounds := rounds; cpu_capture := capture; concurrency_memory := memory;
    dependency := dep; telemetry_condition := condition |} else None.

(** [SandboxConfig.model_validate_json] *)
Definition SandboxConfig_of_text `{ModelText, UrlText} (text : string) : result SandboxConfig :=
  match model_json text ≫= parse_config with
  | Some c => SandboxConfig_validate c
  | None => Err (ValueError "SandboxConfig")
  end.
