(* ===== verification/Sandbox.v ===== *)
(** * The synthetic service: [payops/sandbox/service.py], [runtime.py], [client.py], [cpu.py],
    [concurrency_memory.py] and [dependencies.py]

    One role's handler as a program over its process: the sample store, the fault state, the
    admissions of CPU and memory work, its peers over HTTP, and its clock.  What the event
    loop or a lock keeps together is one request; tracing attributes are left out. *)

From stdpp Require Import pretty.
From S2P Require Import Prelude Json Digest Effects Diagnostics SandboxModels.

Open Scope string_scope.
Open Scope list_scope.
Open Scope Z_scope.
Open Scope result_scope.
Open Scope prog_scope.

(** ** The state of a process *)

Definition MAX_ACTIVE : Z := 8.

(** [SampleStore._entries], [ConcurrentMemory] and [CpuWork]; [mem_active] counts the
    admitted allocations. *)
Record process : Type := {
  entries : gmap string (string * option SimulationResult);
  mem_closed : bool;
  mem_active : Z;
  cpu_closed : bool;
  cpu_busy : bool;
}.

Definition set_entries (p : process) (e : gmap string (string * option SimulationResult)) : process :=
  {| entries := e; mem_closed := mem_closed p; mem_active := mem_active p;
     cpu_closed := cpu_closed p; cpu_busy := cpu_busy p |}.
Definition set_memory (p : process) (closed : bool) (active : Z) : process :=
  {| entries := entries p; mem_closed := closed; mem_active := active;
     cpu_closed := cpu_closed p; cpu_busy := cpu_busy p |}.
Definition set_cpu (p : process) (closed busy : bool) : process :=
  {| entries := entries p; mem_closed := mem_closed p; mem_active := mem_active p;
     cpu_closed := closed; cpu_busy := busy |}.

Definition new_process : process :=
  {| entries := ∅; mem_closed := false; mem_active := 0; cpu_closed := false; cpu_busy := false |}.

(** [SampleStore.reserve] *)
Definition store_reserve (capacity : Z) (s : Sample) (p : process) : result (option SimulationResult) * process :=
  match entries p !! sample_id s with
  | Some (print, outcome) =>
      match outcome with
      | Some r => if eqb_of print (fingerprint s) then (Ok (Some r), p)
                  else (Err (HTTPException 409 "synthetic idempotency conflict"), p)
      | None => (Err (HTTPException 409 "synthetic idempotency conflict"), p)
      end
  | None =>
      if capacity <=? Z.of_nat (size (entries p))
      then (Err (HTTPException 503 "synthetic sample store at capacity"), p)
      else (Ok None, set_entries p (<[sample_id s := (fingerprint s, None)]> (entries p)))
  end.

(** [SampleStore.complete] *)
Definition store_complete (id : string) (r : SimulationResult) (p : process) : result unit * process :=
  match entries p !! id with
  | Some (print, _) => (Ok tt, set_entries p (<[id := (print, Some r)]> (entries p)))
  | None => (Err (KeyError id), p)
  end.

(** [SampleStore.abandon] *)
Definition store_abandon (id : string) (p : process) : result unit * process :=
  (Ok tt, set_entries p (delete id (entries p))).

(** [ConcurrentMemory.run] up to its increment; [container] is what [validate_container] does. *)
Definition memory_admit (enabled : bool) (id : string) (container : result unit) (p : process)
  : result bool * process :=
  if mem_closed p then (Err (HTTPException 503 "synthetic memory admission closed"), p)
  else if negb enabled then (Ok false, p)
  else if negb (sample_id_ok id) then (Err (ValueError "Sample"), p)
  else if MAX_ACTIVE <=? mem_active p then (Err (HTTPException 503 "synthetic memory admission full"), p)
  else match container with
       | inl e => (Err e, p)
       | inr _ => (Ok true, set_memory p (mem_closed p) (mem_active p + 1))
       end.
Definition memory_leave (p : process) : result unit * process :=
  (Ok tt, set_memory p (mem_closed p) (mem_active p - 1)).

(** [CpuWork.run] under its lock; [submitted] is what [pool.submit] does. *)
Definition cpu_admit (rounds : Z) (submitted : result unit) (p : process) : result bool * process :=
  if cpu_closed p || cpu_busy p then (Err (HTTPException 503 "synthetic CPU worker unavailable"), p)
  else if rounds =? 0 then (Ok false, p)
  else match submitted with
       | inl e => (Err e, p)
       | inr _ => (Ok true, set_cpu p (cpu_closed p) true)
       end.
Definition cpu_free (p : process) : result unit * process := (Ok tt, set_cpu p (cpu_closed p) false).

(** [ConcurrentMemory.close] and [CpuWork.close] *)
Definition memory_close (p : process) : process := set_memory p true (mem_active p).
Definition cpu_close (p : process) : process := set_cpu p true (cpu_busy p).

(** ** What a handler asks for *)

Record http_reply : Type := { reply_status : Z; reply_text : string }.

Inductive probe_outcome : Type := po_ok | po_unavailable | po_cancelled | po_exhausted.

(** [BPeer role url payload] is a POST of [call_peer]; [BSelect] and [BPing] are what the two
    dependencies answer over a fresh connection; [BHash n] hashes up to round [n] and reads
    the clock. *)
Inductive box_call : Type :=
  | BReserve (s : Sample)
  | BComplete (id : string) (r : SimulationResult)
  | BAbandon (id : string)
  | BFaults
  | BSleep (milliseconds : Z)
  | BMemAdmit (id : string)
  | BMemRecord (id phase : string)
  | BAllocate
  | BMemLeave
  | BCpuAdmit (id : string)
  | BCpuAwait
  | BCpuFree
  | BMonotonic
  | BThreadTime
  | BSnapshot
  | BWorkRecord (id : string) (rounds : Z)
  | BSlotTake
  | BSlotGive
  | BSelect
  | BPing
  | BProbeRecord (id : string) (outcome : probe_outcome) (sqlstate : option string)
  | BPeer (role : Peer) (url : string) (payload : Payload)
  | BPerfCounter
  | BConflict
  | BMetric (s : Sample) (status : string) (duration : spec_float)
  | BArchived
  | BClose.

Definition box_answer (c : box_call) : Type :=
  match c with
  | BReserve _ => option SimulationResult
  | BFaults => FaultConfig
  | BMemAdmit _ | BCpuAdmit _ | BPing => bool
  | BCpuAwait | BMonotonic | BThreadTime | BPerfCounter => spec_float
  | BSelect => json
  | BPeer _ _ _ => http_reply
  | _ => unit
  end.

Abbreviation bprog := (prog box_answer).
Abbreviation bask := (call (R:=box_answer)) (only parsing).

(** What the drivers' exceptions are: an [OperationalError] with its SQLSTATE and its text, a
    [RedisError], a [CancelledError]; and httpx's two families. *)
Class DriverErrors : Type := {
  operational : exn -> option (option string * string);
  is_redis_error : exn -> bool;
  is_cancelled : exn -> bool;
  is_http_timeout : exn -> bool;
  is_request_error : exn -> bool;
}.

Section sandbox.
Context `{ModelText, UrlText, DriverErrors}.

(** ** [FaultState.apply] *)

(** [int.from_bytes(sha256(f"{seed}:{id}".encode()).digest()[:8])] *)
Definition fault_bucket (seed : Z) (id : string) : Z :=
  match sha256 (string_bytes (pretty seed +:+ ":" +:+ id)) with
  | w0 :: w1 :: _ => w0 * 2 ^ 32 + w1
  | _ => 0
  end.

(** [every and bucket % every == 0] *)
Definition hit (every bucket : Z) : bool := negb (every =? 0) && (bucket mod every =? 0).

Definition fault_apply (s : Sample) : bprog bool :=
  let* config := bask BFaults in
  if negb (fault_matches config s) then Ret false
  else if unavailable config then Raise (HTTPException 503 "synthetic dependency unavailable")
  else
    do* (if delay_ms config =? 0 then Ret tt else bask (BSleep (delay_ms config))) in
    let bucket := fault_bucket (fault_seed config) (sample_id s) in
    if hit (rate_limit_every config) bucket then Raise (HTTPException 429 "synthetic rate limit")
    else Ret (hit (decline_every config) bucket).

(** ** [ConcurrentMemory.run] *)
Definition memory_run (id : string) : bprog unit :=
  let* admitted := bask (BMemAdmit id) in
  if negb admitted then Ret tt
  else
    let* started := bask BMonotonic in
    finally
      (do* bask (BMemRecord id "admitted") in
       do* bask BAllocate in
       do* bask (BMemRecord id "allocated") in
       let* now := bask BMonotonic in
       if SFleb (float_of_Z 2) (float_sub now started)
       then Raise (HTTPException 504 "synthetic memory allocation deadline exceeded")
       else bask (BSleep 1000))
      (do* bask BMemLeave in bask (BMemRecord id "released")).

(** ** [CpuWork] *)

(** [hash_work]: the clock is read before every 128th round; the hashes themselves are only
    the work. *)
Fixpoint hash_rounds (n : nat) (index : Z) (started : spec_float) : bprog unit :=
  match n with
  | O => Ret tt
  | S n =>
      let* late := (if index mod 128 =? 0
                    then let* now := bask BMonotonic in
                         Ret (SFleb (float_of_Z 5) (float_sub now started))
                    else Ret false) in
      if late : bool then Raise (HTTPException 504 "synthetic CPU work deadline exceeded")
      else hash_rounds n (index + 1) started
  end.

Definition hash_work (rounds : Z) : bprog spec_float :=
  let* started := bask BMonotonic in
  let* cpu_started := bask BThreadTime in
  do* hash_rounds (Z.to_nat rounds) 0 started in
  let* now := bask BThreadTime in
  Ret (float_sub now cpu_started).

(** [observed_work] of [cpu_observation.py] *)
Definition observed_work (id : string) (rounds : Z) : bprog spec_float :=
  let* s := lift (Sample_validate (default_sample id)) in
  do* bask BSnapshot in
  let* started := bask BMonotonic in
  let* consumed := hash_work rounds in
  let* ended := bask BMonotonic in
  do* bask BSnapshot in
  do* bask (BWorkRecord (sample_id s) rounds) in
  Ret consumed.

(** [CpuWork._execute], the worker *)
Definition cpu_execute (config : SandboxConfig) (id : option string) : bprog spec_float :=
  finally
    (if cpu_capture config then
       match id with
       | None => Raise (ValueError "CPU capture requires a sample identity")
       | Some id => observed_work id (cpu_rounds config)
       end
     else hash_work (cpu_rounds config))
    (bask BCpuFree).

(** [CpuWork.run] *)
Definition cpu_run (id : string) : bprog spec_float :=
  let* submitted := bask (BCpuAdmit id) in
  if submitted : bool then bask BCpuAwait else Ret float_zero.

(** ** [DependencyGate.check] *)

Definition probe (kind : Dependency) : bprog unit :=
  do* bask BSlotTake in
  finally
    (match kind with
     | postgres =>
         let* row := bask BSelect in
         if py_eq row (JList [JInt 1]) then Ret tt else Raise (ValueError "unexpected synthetic database response")
     | _ =>
         let* pong := bask BPing in
         if pong : bool then Ret tt else Raise (ValueError "unexpected synthetic cache response")
     end)
    (bask BSlotGive).

Definition exhausted (sqlstate : option string) (text : string) : bool :=
  eqb_of sqlstate (Some "53300") ||
  str_contains ("too many connections for role " +:+ chr 34 +:+ "payops_synthetic" +:+ chr 34) text.

(** The outcome the handlers assign, with the exception they leave *)
Definition probe_failure (e : exn) : probe_outcome * option string * exn :=
  let refused := HTTPException 503 "synthetic dependency unavailable" in
  if is_cancelled e then (po_cancelled, None, e)
  else match operational e with
       | Some (sqlstate, text) =>
           if exhausted sqlstate text then (po_exhausted, Some "53300", refused)
           else (po_unavailable, None, refused)
       | None => if is_TimeoutError e || is_redis_error e || is_ValueError e
                 then (po_unavailable, None, refused) else (po_unavailable, None, e)
       end.

Definition dependency_check (kind : Dependency) (id : string) : bprog unit :=
  if eqb_of kind no_dependency then Ret tt
  else
    let* out := attempt (probe kind) in
    match out with
    | inr _ => bask (BProbeRecord id po_ok None)
    | inl e =>
        let '(outcome, sqlstate, e) := probe_failure e in
        do* bask (BProbeRecord id outcome sqlstate) in Raise e
    end.

(** ** [call_peer] *)

(** [validate_peer] *)
Definition validate_peer (reply : http_reply) (r : Peer) (id : string) : result SimulationResult :=
  let said what := "synthetic " +:+ peer_name r +:+ what in
  if negb (reply_status reply =? 200) then
    Err (HTTPException (if bool_decide (reply_status reply ∈ [409; 429; 503; 504]) then reply_status reply else 502)
           (said (" returned " +:+ pretty (reply_status reply))))
  else match SimulationResult_of_text (reply_text reply) with
       | inl _ => Err (HTTPException 502 (said " invalid response"))
       | inr res => if negb (eqb_of (res_sample_id res) id) || negb (eqb_of (res_role res) r)
                    then Err (HTTPException 502 (said " mismatched response")) else Ok res
       end.

(** [url.rstrip("/")] *)
Fixpoint rstrip_slash (s : string) : string :=
  match s with
  | EmptyString => EmptyString
  | String c s =>
      let s := rstrip_slash s in
      if eqb_of s EmptyString && eqb_of c (Ascii.ascii_of_nat 47) then EmptyString else String c s
  end.

Definition call_peer (r : Peer) (s : Sample) (config : SandboxConfig) : bprog SimulationResult :=
  let said what := "synthetic " +:+ peer_name r +:+ what in
  let payload := if eqb_of r risk && eqb_of (risk_protocol config) risk_v2 then Enveloped s else Plain s in
  let* url := lift (destination config r) in
  let* reply := catch (bask (BPeer r (rstrip_slash url +:+ "/simulate") payload))
    (fun e => is_http_timeout e || is_request_error e)
    (fun e => Raise (if is_http_timeout e then HTTPException 504 (said " timeout")
                     else HTTPException 503 (said " unreachable"))) in
  lift (validate_peer reply r (sample_id s)).

(** ** The service *)

(** [decode_sample] *)
Definition decode_sample (payload : Payload) (r : Peer) (config : SandboxConfig) : result Sample :=
  let mismatch := HTTPException 422 "synthetic request protocol mismatch" in
  if eqb_of r risk && eqb_of (risk_protocol config) risk_v2 then
    match payload with Enveloped s => Ok s | Plain _ => Err mismatch end
  else match payload with Plain s => Ok s | Enveloped _ => Err mismatch end.

(** [payment_path] *)
Fixpoint payment_loop (roles : list Peer) (s : Sample) (config : SandboxConfig) : bprog SimulationResult :=
  let outcome b := {| res_sample_id := sample_id s; res_role := payments; res_accepted := b |} in
  match roles with
  | [] => Ret (outcome true)
  | r :: roles =>
      let* res := call_peer r s config in
      if res_accepted res then payment_loop roles s config else Ret (outcome false)
  end.
Definition payment_roles : list Peer := [risk; processor; ledger; webhook].
Definition payment_path (s : Sample) (config : SandboxConfig) : bprog SimulationResult :=
  payment_loop payment_roles s config.

(** [execute_sample] *)
Definition execute_sample (r : Peer) (s : Sample) (config : SandboxConfig) : bprog SimulationResult :=
  let* declined := fault_apply s in
  do* (if negb declined && concurrency_memory config then memory_run (sample_id s) else Ret tt) in
  do* (if negb declined && negb (cpu_rounds config =? 0)
       then do* cpu_run (sample_id s) in Ret tt else Ret tt) in
  if eqb_of r payments && negb declined then
    do* dependency_check (dependency config) (sample_id s) in
    payment_path s config
  else Ret {| res_sample_id := sample_id s; res_role := r; res_accepted := negb declined |}.

(** [process_sample] *)
Definition process_sample (r : Peer) (s : Sample) (config : SandboxConfig) : bprog SimulationResult :=
  let* cached := bask (BReserve s) in
  match cached with
  | Some res => Ret res
  | None =>
      catch
        (let* res := execute_sample r s config in
         do* bask (BComplete (sample_id s) res) in
         Ret res)
        (fun _ => true)
        (fun e => do* bask (BAbandon (sample_id s)) in Raise e)
  end.

Definition is_conflict (e : exn) : bool := match e with HTTPException 409 _ => true | _ => false end.

(** [simulate]; the status is the one the last assignment gave before the metric is written. *)
Definition simulate (r : Peer) (payload : Payload) (config : SandboxConfig) : bprog SimulationResult :=
  let* s := lift (decode_sample payload r config) in
  let* started := bask BPerfCounter in
  let* out := attempt (catch (process_sample r s config) is_conflict
                         (fun e => do* bask BConflict in Raise e)) in
  let* now := bask BPerfCounter in
  do* bask (BMetric s (match out with
                       | inr res => if res_accepted res then "accepted" else "declined"
                       | inl _ => "error" end) (float_sub now started)) in
  lift out.

(** [validate_profile] and the other checks of [create_service]; [container] is what
    [validate_container] does, [credentials] what the files of a dependency hold. *)
Definition validate_profile (r : Peer) (config : SandboxConfig) : result unit :=
  if negb (eqb_of r payments) && (concurrency_memory config || negb (eqb_of (dependency config) no_dependency))
  then Err (ValueError "dependency/memory profile requires payments role") else Ok tt.

Definition credentials_ok (password_bytes : Z) (has_ca : bool) : result unit :=
  if negb (between 16 256 password_bytes) || negb has_ca
  then Err (ValueError "dependency requires bounded credentials and explicit CA") else Ok tt.

Definition create_service (role : string) (config : SandboxConfig) (container credentials : result unit)
  : result Peer :=
  match peer_of_name role with
  | None => Err (ValueError "unknown synthetic service role")
  | Some r =>
      let! _ := validate_profile r config in
      let! _ := (if concurrency_memory config then container else Ok tt) in
      let! _ := (if eqb_of (dependency config) no_dependency then Ok tt else credentials) in
      Ok r
  end.

(** [lifespan], around the requests the application serves *)
Definition lifespan (config : SandboxConfig) (serve : bprog unit) : bprog unit :=
  finally
    (do* (if eqb_of (telemetry_condition config) archived_error then bask BArchived else Ret tt) in serve)
    (bask BClose).
End sandbox.

(** ** The process behind the requests

    [box_done config p c p' r]: what a request on the state of the process does to it.  Every
    other request leaves the process alone. *)
Inductive box_done (config : SandboxConfig) (p : process) : forall c : box_call, result (box_answer c) -> process -> Prop :=
  | done_reserve s r p' :
      store_reserve (idempotency_capacity config) s p = (r, p') -> box_done config p (BReserve s) r p'
  | done_complete id res r p' : store_complete id res p = (r, p') -> box_done config p (BComplete id res) r p'
  | done_abandon id r p' : store_abandon id p = (r, p') -> box_done config p (BAbandon id) r p'
  | done_mem_admit id container r p' :
      memory_admit (concurrency_memory config) id container p = (r, p') -> box_done config p (BMemAdmit id) r p'
  | done_mem_leave r p' : memory_leave p = (r, p') -> box_done config p BMemLeave r p'
  | done_cpu_admit id submitted r p' :
      cpu_admit (cpu_rounds config) submitted p = (r, p') -> box_done config p (BCpuAdmit id) r p'
  | done_cpu_free r p' : cpu_free p = (r, p') -> box_done config p BCpuFree r p'
  | done_close r : box_done config p BClose r (memory_close (cpu_close p))
  | done_other c r :
      match c with
      | BReserve _ | BComplete _ _ | BAbandon _ | BMemAdmit _ | BMemLeave | BCpuAdmit _ | BCpuFree | BClose => False
      | _ => True
      end -> box_done config p c r p.
