(* ===== verification/Recipes.v ===== *)
(** * Reviewed mutations: [payops/scenarios/contracts.py] and [recipes.py]

    The closed case identifiers, the Deployment each case touches, the spec a fault or its
    control replaces the captured one by, and what counts as its activation. *)

From S2P Require Import Prelude Text Json Digest Baseline Deployment Diagnostics SandboxModels.

Open Scope string_scope.
Open Scope list_scope.
Open Scope Z_scope.
Open Scope result_scope.

(** [CaseId] *)
Inductive CaseId : Type :=
  | SCHED_01 | SCHED_02 | SCHED_03 | SCHED_04 | TELEM_01 | TELEM_02 | TELEM_03 | TELEM_04
  | DEP_01 | DEP_02 | DEP_03 | DEP_04 | OOM_01 | OOM_02 | OOM_03 | OOM_04
  | ROLLOUT_01 | ROLLOUT_02 | ROLLOUT_03 | ROLLOUT_04 | PAY_01 | PAY_02 | PAY_03 | PAY_04.
#[export] Instance CaseId_eq_dec : EqDecision CaseId.
Proof. solve_decision. Defined.

(** [VARIANTS] *)
Definition VARIANTS (c : CaseId) : string :=
  match c with
  | SCHED_04 => "isolated kubelet memory eviction under calibrated reserve; no host exhaustion"
  | TELEM_01 => "processor outage and recovery while independent measured CPU noise persists"
  | DEP_03 => "real read-only PostgreSQL role connection exhaustion and recovery"
  | DEP_04 => "real Redis endpoint outage and recovery with TLS PING payment gate"
  | TELEM_02 => "Redis outage with explicitly archived synthetic PostgreSQL error distractor"
  | TELEM_04 => "PostgreSQL role exhaustion with a retained 60-second metrics snapshot"
  | SCHED_03 => "sustained CPU demand at HPA cap one versus two owned replicas and recovery"
  | OOM_04 => "eight parallel versus serial payments at fixed 256Mi with owned OOM and recovery"
  | OOM_02 => "risk retained allocations versus release control at fixed 256Mi; repeated OOM"
  | SCHED_02 => "admitted 16Gi memory request exceeds both local node capacities"
  | OOM_03 => "fixed CPU work at 100m versus 500m with kernel counters and recovery controls"
  | ROLLOUT_04 => "risk v2 rejects a real v1 request; matching v2 caller restores compatibility"
  | TELEM_03 => "processor latency, actual sampler suppression and restored-sampling control"
  | SCHED_01 => "local oversized CPU request cannot fit node; not CPU utilization saturation"
  | OOM_01 => "same bounded payments working set survives 256Mi control and OOMKills at 128Mi"
  | ROLLOUT_01 => "local fixed bad image exits during Python startup"
  | ROLLOUT_02 => "invalid PAYOPS_SANDBOX_CONFIG processor origin; not missing PROCESSOR_URL"
  | ROLLOUT_03 => "readiness path mismatch on a running sandbox process"
  | DEP_01 => "local processor replicas zero; not an AWS Lightsail outage"
  | DEP_02 => "local processor B adds 400ms delay and returns 429; not Lightsail"
  | PAY_01 => "local processor B declines every selected synthetic sample"
  | PAY_02 => "local processor adds 600ms only to the eu synthetic region"
  | PAY_03 => "local processor declines every debit synthetic sample"
  | PAY_04 => "webhook exact replay succeeds; changed-payload retry conflicts; no pod mutation"
  end.

(** The cases with a harness of their own, which the runner and [fault_spec] refuse *)
Definition specialized : list CaseId :=
  [SCHED_04; TELEM_01; DEP_03; DEP_04; TELEM_02; TELEM_04; OOM_02; OOM_03; OOM_04; SCHED_01; SCHED_02;
   SCHED_03; TELEM_03; ROLLOUT_04].

Definition PACKAGE_A_CASES : list CaseId := [DEP_02; PAY_01; PAY_02; PAY_03; PAY_04].

(** [PACKAGE_A_FAULTS] *)
Definition package_a_fault (c : CaseId) : option FaultConfig :=
  let fault p delay limit decline r m := Some {|
    unavailable := false; delay_ms := delay; rate_limit_every := limit; decline_every := decline;
    fault_processor := p; fault_region := r; fault_method := m; fault_seed := 0 |} in
  match c with
  | DEP_02 => fault (Some proc_b) 400 1 0 None None
  | PAY_01 => fault (Some proc_b) 0 0 1 None None
  | PAY_02 => fault None 600 0 0 (Some eu) None
  | PAY_03 => fault None 0 0 1 None (Some debit)
  | _ => None
  end.

(** [target]: the name of the Deployment *)
Definition target (c : CaseId) : string :=
  match c with
  | PAY_04 => "webhook-sim"
  | ROLLOUT_04 | OOM_02 => "risk-sim"
  | DEP_01 | TELEM_03 | DEP_02 | PAY_01 | PAY_02 | PAY_03 => "processor-adapter"
  | _ => "payments-api"
  end.

(** ** Specs *)

(** [container], and the spec after its one container was changed *)
Definition the_container (spec : list (string * json))
  : result (list (string * json) * list (string * json) * list (string * json)) :=
  let! t := ditem spec "template" in
  let! template := object_value t in
  let! p := ditem template "spec" in
  let! pod := object_value p in
  let! c := ditem pod "containers" in
  let! containers := object_items c in
  match containers with
  | [item] => if is_str (dget item "name") "sandbox" then Ok (template, pod, item)
              else Err (ValueError "expected one sandbox container")
  | _ => Err (ValueError "expected one sandbox container")
  end.

Definition container (spec : list (string * json)) : result (list (string * json)) :=
  let! (template, pod, item) := the_container spec in Ok item.

Definition in_container (spec : list (string * json))
  (change : list (string * json) -> result (list (string * json))) : result (list (string * json)) :=
  let! (template, pod, item) := the_container spec in
  let! item := change item in
  Ok (dset spec "template" (JObj (dset template "spec" (JObj (dset pod "containers" (JList [JObj item])))))).

(** [validate_baseline] *)
Section baseline.
Context `{PyText, ModelText, UrlText}.

Definition allowed_env : list string := ["PAYOPS_SANDBOX_ROLE"; "PAYOPS_SANDBOX_CONFIG"].

(** The body of the loop over the environment *)
Definition env_item_ok (item : list (string * json)) : result unit :=
  if is_str (dget item "name") "PAYOPS_SANDBOX_CONFIG" then
    let! settings := SandboxConfig_of_text (py_str (dget item "value")) in
    if negb (cpu_rounds settings =? 0) || concurrency_memory settings
       || negb (eqb_of (dependency settings) no_dependency) then
      Err (ValueError "active CPU, memory or dependency workload cannot become a healthy baseline")
    else Ok tt
  else Ok tt.

(** [item.get("name") not in allowed_env]: a list or a dict cannot be hashed. *)
Definition foreign_env (item : list (string * json)) : result bool :=
  match dget item "name" with
  | JStr n => Ok (negb (bool_decide (n ∈ allowed_env)))
  | JList _ | JObj _ => Err (OtherError "TypeError")
  | _ => Ok true
  end.

Definition validate_baseline (document : list (string * json)) (name : string) : result (list (string * json)) :=
  let! m := ditem document "metadata" in
  let! metadata := object_value m in
  if negb (is_str (dget metadata "name") name) || negb (is_str (dget metadata "namespace") "payops-sandbox")
  then Err (ValueError "Deployment outside sandbox scope")
  else
    let! labels := object_value (dget_or metadata "labels" (JObj [])) in
    if negb (is_str (dget labels "app.kubernetes.io/part-of") "payops")
    then Err (ValueError "Deployment is not owned by PayOps")
    else
      let! s := ditem document "spec" in
      let! spec := object_value s in
      let! item := container spec in
      if negb (is_str (dget item "image") "payops-sandbox:local") || negb (py_eq (dget spec "replicas") (JInt 1))
      then Err (ValueError "baseline must use one healthy local sandbox replica")
      else
        let! env := object_items (dget_or item "env" (JList [])) in
        let! foreign := (if truthy (dget item "envFrom") then Ok true else rany foreign_env env) in
        if foreign : bool then Err (ValueError "unexpected environment or active fault in baseline")
        else if existsb (fun i => dhas i "valueFrom") env
        then Err (ValueError "indirect environment is outside this local harness")
        else
          let! _ := rforeach env_item_ok env in
          Ok spec.
End baseline.

(** [{"type": "Recreate"}] *)
Definition recreate : json := JObj [("type", JStr "Recreate")].

(** [env.append({"name": name, "value": value}); item["env"] = list(env)] *)
Definition with_env (name value : string) (item : list (string * json)) : result (list (string * json)) :=
  let! e := ditem item "env" in
  let! env := object_items e in
  Ok (dset item "env" (JList (map JObj env ++ [JObj [("name", JStr name); ("value", JStr value)]]))).

(** [memory_control_spec] *)
Definition memory_control_spec (original : list (string * json)) : result (list (string * json)) :=
  let! spec := in_container original (fun item =>
    let! resources := object_value (dget_or item "resources" (JObj [])) in
    let! limits := object_value (dget_or resources "limits" (JObj [])) in
    if negb (is_str (dget limits "memory") "256Mi") || truthy (dget item "command") || truthy (dget item "args")
    then Err (ValueError "memory control requires unchanged 256Mi baseline and image entrypoint")
    else with_env "PAYOPS_SYNTHETIC_MEMORY_WORKLOAD" "bounded-v1"
           (dset item "image" (JStr "payops-sandbox:revision-c"))) in
  Ok (dset spec "strategy" recreate).

(** [object_value(d[k])], changed *)
Definition in_object (d : list (string * json)) (k : string)
  (change : list (string * json) -> result (list (string * json))) : result (list (string * json)) :=
  let! v := ditem d k in
  let! o := object_value v in
  let! o := change o in
  Ok (dset d k (JObj o)).

(** A configuration without a processor *)
Definition broken_config : string :=
  default EmptyString (print_json false (JObj [("processor_url", JStr EmptyString)])).

Definition break_config (entry : list (string * json)) : list (string * json) :=
  if is_str (dget entry "name") "PAYOPS_SANDBOX_CONFIG" then dset entry "value" (JStr broken_config) else entry.

(** [fault_spec] *)
Definition fault_spec (c : CaseId) (original : list (string * json)) : result (list (string * json)) :=
  if bool_decide (c ∈ specialized) then Err (ValueError "case requires its specialized journaled harness")
  else match c with
  | OOM_01 =>
      let! spec := memory_control_spec original in
      in_container spec (fun item =>
        in_object item "resources" (fun resources =>
          in_object resources "limits" (fun limits => Ok (dset limits "memory" (JStr "128Mi")))))
  | PAY_04 => let! item := container original in Ok original
  | DEP_01 => let! item := container original in Ok (dset original "replicas" (JInt 0))
  | ROLLOUT_01 =>
      let! spec := in_container original (fun item => Ok (dset item "image" (JStr "payops-sandbox:revision-b"))) in
      Ok (dset spec "strategy" recreate)
  | ROLLOUT_02 =>
      let! spec := in_container original (fun item =>
        let! e := ditem item "env" in
        let! env := object_items e in
        Ok (dset item "env" (JList (map (fun entry => JObj (break_config entry)) env)))) in
      Ok (dset spec "strategy" recreate)
  | _ =>
      match package_a_fault c with
      | Some fault =>
          let! spec := in_container original (with_env "PAYOPS_SANDBOX_FAULT" (fault_text fault)) in
          Ok (dset spec "strategy" recreate)
      | None =>
          let! spec := in_container original (fun item =>
            in_object item "readinessProbe" (fun probe =>
              in_object probe "httpGet" (fun get => Ok (dset get "path" (JStr "/synthetic-missing-health"))))) in
          Ok (dset spec "strategy" recreate)
      end
  end.

(** ** Activation *)

(** [int(text)] of a text that need not be a numeral *)
Class IntText : Type := int_text : string -> result Z.

Section activation.
Context `{PyText, IntText}.

(** [int(str(value))] *)
Definition int_of_json (j : json) : result Z := match j with JInt n => Ok n | _ => int_text (py_str j) end.

(** The container statuses of a pod *)
Definition statuses_of (pod : list (string * json)) : result (list (list (string * json))) :=
  let! status := object_value (dget_or pod "status" (JObj [])) in
  object_items (dget_or status "containerStatuses" (JList [])).

Definition last_terminated (status : list (string * json)) : result (list (string * json)) :=
  let! state := object_value (dget_or status "lastState" (JObj [])) in
  object_value (dget_or state "terminated" (JObj [])).

(** [_crashed] *)
Definition crashed (pod : list (string * json)) : result bool :=
  let! statuses := statuses_of pod in
  rany (fun status =>
    let! terminated := last_terminated status in
    if py_eq (dget terminated "exitCode") (JInt 1)
    then let! n := int_of_json (dget_or status "restartCount" (JInt 0)) in Ok (1 <=? n)
    else Ok false) statuses.

(** [_running_unready] *)
Definition running_unready (pod : list (string * json)) : result bool :=
  let! statuses := statuses_of pod in
  rany (fun status =>
    let! state := object_value (dget_or status "state" (JObj [])) in
    Ok (dhas state "running" && is_true (dget status "started") && is_false (dget status "ready"))) statuses.

(** [oom_killed] *)
Definition oom_killed (pod : list (string * json)) : result bool :=
  let! statuses := statuses_of pod in
  rany (fun status =>
    let! previous := last_terminated status in
    Ok (is_str (dget status "name") "sandbox" && is_str (dget previous "reason") "OOMKilled" &&
        py_eq (dget previous "exitCode") (JInt 137) &&
        match dget status "restartCount" with JInt n => 1 <=? n | _ => false end)) statuses.

(** [activation] *)
Definition activation (c : CaseId) (observation : list (string * json)) : result bool :=
  if bool_decide (c ∈ PACKAGE_A_CASES) then Ok (is_true (dget observation "package_a_verified"))
  else
    let! pods := object_items (dget_or observation "pods" (JList [])) in
    if bool_decide (c ∈ [OOM_01; OOM_02; OOM_03; TELEM_03; ROLLOUT_04; SCHED_01; SCHED_02]) then Ok false
    else if eqb_of c DEP_01 then
      Ok (negb (is_nonempty pods) && py_eq (dget observation "sample_status") (JInt 503))
    else if eqb_of c ROLLOUT_03 then
      let! events := object_items (dget_or observation "events" (JList [])) in
      let message event := py_str (dget_or event "message" (JStr EmptyString)) in
      if existsb (fun event => str_contains "Readiness probe failed" (message event) &&
                               str_contains "404" (message event)) events
      then rany running_unready pods else Ok false
    else rany crashed pods.
End activation.
