(* ===== verification/Scenario.v ===== *)
(** * The scenario runner: [payops/scenarios/runner.py], [memory.py] and [memory_provenance.py]

    Capture, inject, observe, restore: [LocalScenarioRunner.run] as programs that thread what
    the run has assigned so far, which an exception does not undo.  The cluster, the files, the
    clocks and the collectors answer requests. *)

From stdpp Require Import pretty.
From S2P Require Import Prelude Text Json Digest Effects Investigation Baseline Deployment Diagnostics.
From S2P Require Import SandboxModels Recipes.

Open Scope string_scope.
Open Scope list_scope.
Open Scope Z_scope.
Open Scope result_scope.
Open Scope prog_scope.

(** ** Receipts *)

Record Artifact : Type := { art_name : string; art_sha256 : string; recorded_at : string }.

Inductive InvestigationStatus : Type := not_requested | investigation_completed | investigation_failed.

(** [ScenarioReceipt]; [fixture] is [mode == "fixture_replay"]. *)
Record ScenarioReceipt : Type := {
  run_id : string;
  case_id : CaseId;
  fixture : bool;
  implementation_variant : string;
  started_at : string;
  completed_at : option string;
  injection_requested_at : option string;
  activation_observed_at : option string;
  cleanup_started_at : option string;
  cleanup_verified_at : option string;
  activated : bool;
  control_verified : bool;
  control_verified_at : option string;
  control_pod_uids : list string;
  cleanup_verified : bool;
  failure : option string;
  cleanup_failure : option string;
  investigation_status : InvestigationStatus;
  investigation_failure : option string;
  artifacts : list Artifact;
}.

Definition new_receipt (id : string) (c : CaseId) (fixture : bool) (now : string) : ScenarioReceipt := {|
  run_id := id; case_id := c; fixture := fixture; implementation_variant := VARIANTS c;
  started_at := now; completed_at := None;
  injection_requested_at := None; activation_observed_at := None; cleanup_started_at := None;
  cleanup_verified_at := None; activated := false; control_verified := false; control_verified_at := None;
  control_pod_uids := []; cleanup_verified := false; failure := None; cleanup_failure := None;
  investigation_status := not_requested; investigation_failure := None; artifacts := [] |}.

(** The assignments to a receipt *)
Inductive assignment : Type :=
  | SetCompleted (t : string)
  | SetInjection (t : string)
  | SetActivated
  | SetActivatedAt (t : string)
  | SetCleanupStarted (t : string)
  | SetCleanupVerified
  | SetCleanupVerifiedAt (t : string)
  | SetControl
  | SetControlAt (t : string)
  | SetControlUids (uids : list string)
  | SetFailure (text : string)
  | SetCleanupFailure (text : string)
  | SetInvestigation (s : InvestigationStatus) (text : option string)
  | AddArtifact (a : Artifact).

Definition assign (a : assignment) (r : ScenarioReceipt) : ScenarioReceipt := {|
  run_id := run_id r; case_id := case_id r; fixture := fixture r;
  implementation_variant := implementation_variant r; started_at := started_at r;
  completed_at := match a with SetCompleted t => Some t | _ => completed_at r end;
  injection_requested_at := match a with SetInjection t => Some t | _ => injection_requested_at r end;
  activation_observed_at := match a with SetActivatedAt t => Some t | _ => activation_observed_at r end;
  cleanup_started_at := match a with SetCleanupStarted t => Some t | _ => cleanup_started_at r end;
  cleanup_verified_at := match a with SetCleanupVerifiedAt t => Some t | _ => cleanup_verified_at r end;
  activated := match a with SetActivated => true | _ => activated r end;
  control_verified := match a with SetControl => true | _ => control_verified r end;
  control_verified_at := match a with SetControlAt t => Some t | _ => control_verified_at r end;
  control_pod_uids := match a with SetControlUids uids => uids | _ => control_pod_uids r end;
  cleanup_verified := match a with SetCleanupVerified => true | _ => cleanup_verified r end;
  failure := match a with SetFailure t => Some t | _ => failure r end;
  cleanup_failure := match a with SetCleanupFailure t => Some t | _ => cleanup_failure r end;
  investigation_status := match a with SetInvestigation s _ => s | _ => investigation_status r end;
  investigation_failure := match a with SetInvestigation _ t => t | _ => investigation_failure r end;
  artifacts := match a with AddArtifact x => artifacts r ++ [x] | _ => artifacts r end |}.

(** ** What a run asks for *)

(** The latch is [block_file]: [SCreateLatch] is [false] when it existed; [SRewriteLatch] and
    [SWriteReceipt] write the receipt; [SSave] creates a file of the evidence directory,
    exclusively.  [SReplace] carries the identifier of the run as a label. *)
Inductive sc_call : Type :=
  | SLatched
  | SCreateLatch (r : ScenarioReceipt)
  | SRewriteLatch (r : ScenarioReceipt)
  | SUnlatch (id : string)
  | SMode
  | SUuid
  | SMkdir (id : string)
  | SSave (id name : string) (data : list (string * json))
  | SWriteReceipt (r : ScenarioReceipt)
  | STimestamp
  | SNow
  | SMonotonic
  | SSleep
  | SScope
  | SDeployment (name : string)
  | SReplace (id name : string) (expected spec : list (string * json))
  | SObserve (name : string)
  | SHealthy
  | SMemory
  | SPackageA (c : CaseId)
  | SCallback.

Definition sc_answer (c : sc_call) : Type :=
  match c with
  | SLatched | SCreateLatch _ | SMode => bool
  | SUuid | STimestamp => string
  | SNow => datetime
  | SMonotonic => spec_float
  | SScope | SDeployment _ | SObserve _ | SHealthy | SMemory | SPackageA _ => list (string * json)
  | _ => unit
  end.

Abbreviation scprog := (prog sc_answer).
Abbreviation scask := (call (R:=sc_answer)) (only parsing).

(** What [run] assigns while it goes on: the receipt and its local variables *)
Record Session : Type := {
  receipt : ScenarioReceipt;
  original : option (list (string * json));
  injected : option (list (string * json));
  intermediate : option (list (string * json));
}.

Definition new_session (r : ScenarioReceipt) : Session :=
  {| receipt := r; original := None; injected := None; intermediate := None |}.
Definition set_receipt (r : ScenarioReceipt) (s : Session) : Session :=
  {| receipt := r; original := original s; injected := injected s; intermediate := intermediate s |}.
Definition set_original (d : list (string * json)) (s : Session) : Session :=
  {| receipt := receipt s; original := Some d; injected := injected s; intermediate := intermediate s |}.
Definition set_injected (d : list (string * json)) (s : Session) : Session :=
  {| receipt := receipt s; original := original s; injected := Some d; intermediate := intermediate s |}.
Definition set_intermediate (d : list (string * json)) (s : Session) : Session :=
  {| receipt := receipt s; original := original s; injected := injected s; intermediate := Some d |}.

(** An action of the runner: what it assigned survives exceptions. *)
Definition act (A : Type) : Type := Session -> scprog (result A * Session).

Definition did {A} (a : A) : act A := fun s => Ret (inr a, s).
Definition fails {A} (e : exn) : act A := fun s => Ret (inl e, s).
Definition then_do {A B} (m : act A) (f : A -> act B) : act B := fun s =>
  let* (out, s) := m s in
  match out with inl e => Ret (inl e, s) | inr a => f a s end.
Definition doing {A} (m : scprog A) : act A := fun s => let* out := attempt m in Ret (out, s).
Definition pure {A} (m : result A) : act A := fun s => Ret (m, s).
Definition sets (f : Session -> Session) : act unit := fun s => Ret (inr tt, f s).
Definition puts (a : assignment) : act unit := sets (fun s => set_receipt (assign a (receipt s)) s).
Definition session : act Session := fun s => Ret (inr s, s).
(** [try: m except ...: h], for every exception; [try: m finally: f] *)
Definition or_else_do {A} (m : act A) (h : exn -> act A) : act A := fun s =>
  let* (out, s) := m s in
  match out with inl e => h e s | inr a => Ret (inr a, s) end.
Definition finally_do {A} (m : act A) (f : act unit) : act A := fun s =>
  let* (out, s) := m s in
  let* (done, s) := f s in
  Ret (match done with inl e => inl e | inr _ => out end, s).

Notation "'let^' x := m 'in' k" := (then_do m (fun x => k))
  (at level 10, x pattern, m at level 100, k at level 200) : prog_scope.
Notation "'do^' m 'in' k" := (then_do m (fun _ => k))
  (at level 10, m at level 100, k at level 200) : prog_scope.

(** [any] and [all] over tests that read the clock *)
Fixpoint pany {A} (f : A -> scprog bool) (l : list A) : scprog bool :=
  match l with
  | [] => Ret false
  | x :: l => let* b := f x in if b : bool then Ret true else pany f l
  end.
Fixpoint pfilter {A} (f : A -> scprog bool) (l : list A) : scprog (list A) :=
  match l with
  | [] => Ret []
  | x :: l => let* b := f x in let* l := pfilter f l in Ret (if b : bool then x :: l else l)
  end.

(** The text of an exception, [f"{type(e).__name__}: {e}"]; the exceptions that are not
    [Exception]s; the text [json.dumps(data, sort_keys=True, indent=2)]. *)
Class RunnerText : Type := {
  exception_text : exn -> string;
  is_exit : exn -> bool;
  indented : list (string * json) -> string;
}.

Definition MIB : Z := 1024 * 1024.

Section runner.
Context `{PyText, ModelText, UrlText, IntText, RunnerText}.

(** ** [memory.py] *)

(** [_healthy_pod] *)
Definition healthy_pod (pod : list (string * json)) : result bool :=
  let! statuses := statuses_of pod in
  match statuses with
  | [status] =>
      if is_str (dget status "name") "sandbox" && is_true (dget status "ready")
         && py_eq (dget status "restartCount") (JInt 0)
      then let! state := object_value (dget_or status "state" (JObj [])) in Ok (dhas state "running")
      else Ok false
  | _ => Ok false
  end.

(** [_memory_event]; the body is parsed as a JSON object. *)
Definition memory_event (line : string) : option (datetime * list (string * json)) :=
  '(stamp, body) ← partition (Ascii.ascii_of_nat 32) line;
  '(observed, aware) ← fromisoformat (with_offset stamp);
  payload ← model_json body ≫= as_object;
  if (aware : bool) && is_str (dget payload "event") "synthetic.memory" then Some (observed, payload) else None.

(** [_holding_payload] *)
Definition holding_payload (payload : list (string * json)) : bool :=
  is_str (dget payload "event") "synthetic.memory" && is_str (dget payload "phase") "holding" &&
  py_eq (dget payload "allocated_bytes") (JInt (128 * MIB)) &&
  py_eq (dget payload "cgroup_limit_bytes") (JInt (256 * MIB)) &&
  py_eq (dget payload "hold_seconds") (JInt 20) &&
  match dget payload "cgroup_current_bytes" with
  | JInt current => (128 * MIB <? current) && (current <? 256 * MIB)
  | _ => false
  end.

(** [_latest_holding], over the lines from the last to the first *)
Fixpoint latest_loop (lines : list string) : scprog bool :=
  match lines with
  | [] => Ret false
  | line :: lines =>
      match memory_event line with
      | Some (observed, payload) =>
          let* now := scask SNow in Ret (holding_payload payload && age_within now observed 15)
      | None => latest_loop lines
      end
  end.
Definition latest_holding (text : string) : scprog bool := latest_loop (rev (splitlines text)).

(** The identities of the healthy pods, a set *)
Definition pod_uid (pod : list (string * json)) : result string :=
  let! m := ditem pod "metadata" in
  let! metadata := object_value m in
  let! u := ditem metadata "uid" in Ok (py_str u).
Fixpoint healthy_uids (pods : list (list (string * json))) : result (list string) :=
  match pods with
  | [] => Ok []
  | pod :: pods =>
      let! ok := healthy_pod pod in
      let! uids := (if ok : bool then let! u := pod_uid pod in Ok [u] else Ok []) in
      let! rest := healthy_uids pods in Ok (uids ++ rest)
  end.

(** [log.get("pod_uid") in current and log.get("previous") is False] *)
Definition current_log (current : list string) (log : list (string * json)) : result bool :=
  match dget log "pod_uid" with
  | JStr u => Ok (bool_decide (u ∈ current) && is_false (dget log "previous"))
  | JList _ | JObj _ => Err (OtherError "TypeError")
  | _ => Ok false
  end.

Fixpoint rfilter {A} (f : A -> result bool) (l : list A) : result (list A) :=
  match l with
  | [] => Ok []
  | x :: l => let! b := f x in let! l := rfilter f l in Ok (if b : bool then x :: l else l)
  end.

(** [control_holding] *)
Definition control_holding (observed : list (string * json)) : scprog bool :=
  let* pods := lift (object_items (dget_or observed "pods" (JList []))) in
  let* current := lift (healthy_uids pods) in
  let current := remove_dups current in
  if negb (len current =? 1) then Ret false
  else
    let* logs := lift (object_items (dget_or observed "memory_logs" (JList []))) in
    let* logs := lift (rfilter (current_log current) logs) in
    match logs with
    | [log] => latest_holding (py_str (dget_or log "text" (JStr EmptyString)))
    | _ => Ret false
    end.

(** ** [memory_provenance.py] *)

(** [timestamp] *)
Definition timestamp_of (j : json) : option datetime := timestamp (py_str j).

(** [deployment_matches] *)
Definition deployment_matches (observed previous expected : list (string * json)) (name : string) : result bool :=
  let! document := object_value (dget_or observed "deployment" (JObj [])) in
  let! metadata := object_value (dget_or document "metadata" (JObj [])) in
  let! p := ditem previous "metadata" in
  let! prior := object_value p in
  let! u := ditem prior "uid" in
  if negb (py_eq (dget metadata "uid") u) || negb (py_eq (dget metadata "name") (dget prior "name"))
     || negb (is_str (dget prior "name") name) || negb (is_str (dget metadata "namespace") "payops-sandbox")
     || negb (py_eq (dget document "spec") (JObj expected))
  then Ok false
  else match dget metadata "generation" with
       | JInt generation =>
           let! g := ditem prior "generation" in
           let! g := int_of_json g in
           if negb (g <? generation) then Ok false
           else
             let! status := object_value (dget_or document "status" (JObj [])) in
             Ok (py_eq (dget status "observedGeneration") (JInt generation))
       | _ => Ok false
       end.

(** [owned_by] *)
Definition owned_by (metadata : list (string * json)) (kind : string) (parent : list (string * json)) : result bool :=
  let! references := object_items (dget_or metadata "ownerReferences" (JList [])) in
  match List.filter (fun reference => is_true (dget reference "controller")) references with
  | [owner] => Ok (is_str (dget owner "apiVersion") "apps/v1" && is_str (dget owner "kind") kind &&
                   py_eq (dget owner "uid") (dget parent "uid") && py_eq (dget owner "name") (dget parent "name"))
  | _ => Ok false
  end.

(** The same Python type *)
Definition same_type (x y : json) : bool :=
  match x, y with
  | JNull, JNull | JBool _, JBool _ | JInt _, JInt _ | JFloat _, JFloat _ | JStr _, JStr _
  | JList _, JList _ | JObj _, JObj _ => true
  | _, _ => false
  end.

(** [includes] *)
Fixpoint includes (actual expected : json) {struct expected} : bool :=
  match expected with
  | JObj e =>
      match actual with
      | JObj a =>
          (fix go (e : list (string * json)) : bool :=
             match e with
             | [] => true
             | (k, v) :: e => match dict_find a k with Some x => includes x v | None => false end && go e
             end) e
      | _ => false
      end
  | JList e =>
      match actual with
      | JList a =>
          (fix go (e a : list json) {struct e} : bool :=
             match e, a with
             | [], [] => true
             | y :: e, x :: a => includes x y && go e a
             | _, _ => false
             end) e a
      | _ => false
      end
  | _ => same_type actual expected && py_eq actual expected
  end.

(** [template_matches] *)
Definition template_matches (pod expected : list (string * json)) : result bool :=
  let! t := ditem expected "template" in
  let! template := object_value t in
  let! wanted := ditem template "spec" in
  if negb (includes (dget pod "spec") wanted) then Ok false
  else
    let! item := container expected in
    let! spec := object_value (dget_or pod "spec" (JObj [])) in
    let! items := object_items (dget_or spec "containers" (JList [])) in
    match items with
    | [actual] =>
        let! s := ditem pod "spec" in
        let! pod_spec := object_value s in
        let! template_spec := object_value wanted in
        Ok (py_eq (JObj actual) (JObj item) &&
            forallb (fun k => py_eq (dget_or pod_spec k (JList [])) (dget_or template_spec k (JList [])))
              ["initContainers"; "ephemeralContainers"])
    | _ => Ok false
    end.

(** [_replica_matches] *)
Definition replica_matches (replica deployment expected : list (string * json)) : result bool :=
  let! metadata := object_value (dget_or replica "metadata" (JObj [])) in
  if negb (is_str (dget metadata "namespace") "payops-sandbox") || negb (truthy (dget metadata "uid")) then Ok false
  else
    let! owned := owned_by metadata "Deployment" deployment in
    if negb owned then Ok false
    else
      let! spec := object_value (dget_or replica "spec" (JObj [])) in
      let! template := ditem expected "template" in
      Ok (includes (dget spec "template") template).

(** [_pod_matches] *)
Definition pod_matches (pod : list (string * json)) (replicas : list (list (string * json)))
  (deployment expected : list (string * json)) (lower : datetime) : scprog bool :=
  let* metadata := lift (object_value (dget_or pod "metadata" (JObj []))) in
  let created := timestamp_of (dget metadata "creationTimestamp") in
  match created with
  | Some created =>
      if negb (truthy (dget metadata "uid")) || negb (is_str (dget metadata "namespace") "payops-sandbox")
      then Ret false
      else
        let* fresh := (if lower <=? created then let* now := scask SNow in Ret (created <=? now) else Ret false) in
        if negb fresh then Ret false
        else
          let* matches := lift (template_matches pod expected) in
          if negb matches then Ret false
          else lift (rany (fun replica =>
                 let! matches := replica_matches replica deployment expected in
                 if negb matches then Ok false
                 else let! m := ditem replica "metadata" in
                      let! parent := object_value m in owned_by metadata "ReplicaSet" parent) replicas)
  | None => Ret false
  end.

(** [requested.replace(microsecond=0)] *)
Definition whole_second (t : datetime) : datetime := t - t mod seconds 1.

(** [current_pods] *)
Definition current_pods (observed previous expected : list (string * json)) (requested_at : string) (name : string)
  : scprog (list (list (string * json))) :=
  let* matches := lift (deployment_matches observed previous expected name) in
  if negb matches then Ret []
  else match timestamp requested_at with
       | None => Ret []
       | Some requested =>
           let* d := lift (ditem observed "deployment") in
           let* document := lift (object_value d) in
           let* m := lift (ditem document "metadata") in
           let* deployment := lift (object_value m) in
           let* replicas := lift (object_items (dget_or observed "replica_sets" (JList []))) in
           let* pods := lift (object_items (dget_or observed "pods" (JList []))) in
           pfilter (fun pod => pod_matches pod replicas deployment expected (whole_second requested)) pods
       end.

(** [_recent_oom] *)
Definition recent_oom (pod : list (string * json)) : scprog bool :=
  let* killed := lift (oom_killed pod) in
  if negb killed then Ret false
  else
    let* m := lift (ditem pod "metadata") in
    let* metadata := lift (object_value m) in
    let* s := lift (ditem pod "status") in
    let* status := lift (object_value s) in
    let* c := lift (ditem status "containerStatuses") in
    let* statuses := lift (object_items c) in
    match List.find (fun i => is_str (dget i "name") "sandbox") statuses with
    | None => Raise (OtherError "StopIteration")
    | Some item =>
        let* l := lift (ditem item "lastState") in
        let* last := lift (object_value l) in
        let* t := lift (ditem last "terminated") in
        let* terminated := lift (object_value t) in
        match timestamp_of (dget metadata "creationTimestamp"), timestamp_of (dget terminated "startedAt"),
              timestamp_of (dget terminated "finishedAt") with
        | Some created, Some started, Some finished =>
            if (created <=? started) && (started <=? finished)
            then let* now := scask SNow in Ret (finished <=? now) else Ret false
        | _, _, _ => Ret false
        end
    end.

(** [fault_activated] *)
Definition fault_activated (observed previous expected : list (string * json)) (requested_at : string)
  (control_uids : list string) : scprog bool :=
  let* pods := current_pods observed previous expected requested_at "payments-api" in
  pany (fun pod =>
    let* m := lift (ditem pod "metadata") in
    let* metadata := lift (object_value m) in
    let* u := lift (ditem metadata "uid") in
    if match u with JStr u => bool_decide (u ∈ control_uids) | _ => false end then Ret false
    else recent_oom pod) pods.

(** ** [runner.py] *)

(** [sample_healthy] *)
Definition sample_healthy (observation : list (string * json)) : result bool :=
  if negb (py_eq (dget observation "sample_status") (JInt 200)) then Ok false
  else
    let! res := SimulationResult_of_text (py_str (dget_or observation "sample_body" (JStr EmptyString))) in
    Ok (eqb_of (res_role res) payments && res_accepted res).

(** [deployment_ready] *)
Definition deployment_ready (document expected_spec : list (string * json)) : result bool :=
  let! m := ditem document "metadata" in
  let! metadata := object_value m in
  let! status := object_value (dget_or document "status" (JObj [])) in
  let replicas := dget expected_spec "replicas" in
  Ok (py_eq (dget document "spec") (JObj expected_spec) &&
      py_eq (dget status "observedGeneration") (dget metadata "generation") &&
      py_eq (dget status "replicas") replicas && py_eq (dget status "updatedReplicas") replicas &&
      py_eq (dget status "readyReplicas") replicas && py_eq (dget status "availableReplicas") replicas).

(** [lambda observed: deployment_ready(object_value(observed["deployment"]), spec)] *)
Definition ready_with (spec observed : list (string * json)) : result bool :=
  let! d := ditem observed "deployment" in
  let! document := object_value d in deployment_ready document spec.

(** [f"{n:03d}"] *)
Definition three_digits (n : Z) : string :=
  if n <? 10 then "00" +:+ pretty n else if n <? 100 then "0" +:+ pretty n else pretty n.

(** [_save] *)
Definition save (name : string) (data : list (string * json)) : act unit :=
  let^ s := session in
  let filename := three_digits (len (artifacts (receipt s))) +:+ "-" +:+ name +:+ ".json" in
  do^ doing (scask (SSave (run_id (receipt s)) filename data)) in
  let^ now := doing (scask STimestamp) in
  puts (AddArtifact {| art_name := filename; art_sha256 := sha256_hex (indented data); recorded_at := now |}).

Context (timeout poll_seconds : spec_float) (fuel : nat).

(** The limits [__init__] accepts *)
Definition runner_valid : bool :=
  SFltb float_zero timeout && SFleb timeout (float_of_Z 180) &&
  SFltb float_zero poll_seconds && SFleb poll_seconds (float_of_Z 5).

(** The [while] loop of [_wait], for at most [n] rounds *)
Fixpoint wait_loop (n : nat) (deadline : spec_float) (name : string)
  (collect : scprog (list (string * json))) (accept : list (string * json) -> scprog bool)
  : act (list (string * json)) :=
  match n with
  | O => fails out_of_fuel
  | S n =>
      let^ observed := doing collect in
      do^ save name observed in
      let^ ok := doing (accept observed) in
      if ok : bool then did observed
      else
        let^ now := doing (scask SMonotonic) in
        if SFleb deadline now then fails (TimeoutError (name +:+ " deadline exceeded"))
        else do^ doing (scask SSleep) in wait_loop n deadline name collect accept
  end.

(** [_wait] *)
Definition wait (name : string) (collect : scprog (list (string * json)))
  (accept : list (string * json) -> scprog bool) : act (list (string * json)) :=
  let^ now := doing (scask SMonotonic) in
  wait_loop fuel (float_add now timeout) name collect accept.

(** [observed.update(extra)] *)
Definition dict_update (d extra : list (string * json)) : list (string * json) :=
  foldl (fun d kv => dset d kv.1 kv.2) d extra.

(** [_activation] *)
Definition observe_activation (c : CaseId) : scprog (list (string * json)) :=
  let* observed := scask (SObserve (target c)) in
  if eqb_of c DEP_01 then let* extra := scask SHealthy in Ret (dict_update observed extra) else Ret observed.

(** [_start] *)
Definition start (c : CaseId) : scprog ScenarioReceipt :=
  let* latched := scask SLatched in
  if latched : bool then Raise (RuntimeError "prior cleanup unresolved; inspect persisted receipt")
  else
    let* id := scask SUuid in
    let* mode := scask SMode in
    let* now := scask STimestamp in
    let r := new_receipt id c mode now in
    let* created := scask (SCreateLatch r) in
    if negb created then Raise (RuntimeError "another scenario owns the sandbox")
    else
      do* scask (SMkdir id) in Ret r.

(** [object_value(d[k])] *)
Definition object_at (d : list (string * json)) (k : string) : result (list (string * json)) :=
  let! v := ditem d k in object_value v.

(** [replace_spec], for the run this session is *)
Definition replace_spec (name : string) (expected spec : list (string * json)) : act unit :=
  let^ s := session in doing (scask (SReplace (run_id (receipt s)) name expected spec)).

(** [_baseline] *)
Definition baseline (c : CaseId) : act (list (string * json)) :=
  let^ scope := doing (scask SScope) in
  do^ save "scope" scope in
  let^ original := doing (scask (SDeployment (target c))) in
  let^ spec := pure (validate_baseline original (target c)) in
  do^ save "original" original in
  do^ wait "baseline-ready" (scask (SObserve (target c))) (fun observed => lift (ready_with spec observed)) in
  do^ wait "healthy-before" (scask SHealthy) (fun observed => lift (sample_healthy observed)) in
  did original.

(** [_package_activation] *)
Definition package_activation (c : CaseId) (injected : list (string * json)) : act unit :=
  do^ wait "workload-ready" (scask (SObserve (target c))) (fun observed => lift (ready_with injected observed)) in
  let^ observed := doing (scask (SPackageA c)) in
  do^ save "activation" observed in
  let^ ok := pure (activation c observed) in
  if ok : bool then did tt
  else fails (ValueError "Package A runtime behavior or metric window was not verified").

(** [_inject] *)
Definition inject (c : CaseId) (expected injected : list (string * json)) : act unit :=
  do^ save "injection-plan" [("spec", JObj injected)] in
  let^ requested := doing (scask STimestamp) in
  do^ puts (SetInjection requested) in
  let^ spec := pure (ditem expected "spec") in
  do^ (if py_eq (JObj injected) spec then did tt else replace_spec (target c) expected injected) in
  do^ (if eqb_of c OOM_01 then
         let^ s := session in
         do^ wait "activation" (scask SMemory) (fun item =>
           fault_activated item expected injected requested (control_pod_uids (receipt s))) in did tt
       else if bool_decide (c ∈ PACKAGE_A_CASES) then package_activation c injected
       else
         do^ wait "activation" (observe_activation c) (fun observed => lift (activation c observed)) in did tt) in
  do^ puts SetActivated in
  let^ now := doing (scask STimestamp) in
  puts (SetActivatedAt now).

(** [_control_observation] *)
Definition control_observation (original control : list (string * json)) (requested_at : string)
  : scprog (list (string * json)) :=
  let* observed := scask SMemory in
  let* owned := current_pods observed original control requested_at "payments-api" in
  let* single := (if len owned =? 1
                  then let* pods := lift (object_items (dget_or observed "pods" (JList []))) in Ret (len pods =? 1)
                  else Ret false) in
  if negb single then Ret observed
  else
    let* ready := lift (ready_with control observed) in
    let* held := (if ready : bool then control_holding observed else Ret false) in
    if held : bool then let* extra := scask SHealthy in Ret (dict_update observed extra) else Ret observed.

(** [_memory_control] *)
Definition memory_control (original control injected : list (string * json)) : act (list (string * json)) :=
  let^ requested := doing (scask STimestamp) in
  let^ metadata := pure (object_at original "metadata") in
  let^ u := pure (ditem metadata "uid") in
  let^ spec := pure (ditem original "spec") in
  do^ save "mutation-journal"
    [("deployment", JStr "payments-api"); ("control_requested_at", JStr requested); ("uid", u);
     ("original", spec); ("control", JObj control); ("fault", JObj injected)] in
  do^ replace_spec "payments-api" original control in
  let^ observed := wait "memory-control" (control_observation original control requested)
    (fun item => let* held := control_holding item in
                 if held : bool then lift (sample_healthy item) else Ret false) in
  let^ current := pure (object_at observed "deployment") in
  let^ m := pure (object_at current "metadata") in
  let^ now_uid := pure (ditem m "uid") in
  if negb (py_eq now_uid u) then fails (RuntimeError "control Deployment identity changed")
  else
    do^ puts SetControl in
    let^ now := doing (scask STimestamp) in
    do^ puts (SetControlAt now) in
    let^ p := pure (ditem observed "pods") in
    let^ pods := pure (object_items p) in
    let^ uids := pure (rmap pod_uid pods) in
    do^ puts (SetControlUids uids) in
    did current.

(** [_investigate] *)
Definition investigate (callback : bool) : act unit :=
  if callback then
    or_else_do
      (do^ doing (scask SCallback) in puts (SetInvestigation investigation_completed None))
      (fun e => do^ puts (SetInvestigation investigation_failed (Some (exception_text e))) in fails e)
  else did tt.

(** [_restore] *)
Definition restore_spec (c : CaseId) (original injected : list (string * json))
  (intermediate : option (list (string * json))) : act unit :=
  let^ current := doing (scask (SDeployment (target c))) in
  let^ current_spec := pure (object_at current "spec") in
  let^ original_spec := pure (object_at original "spec") in
  let^ m := pure (object_at current "metadata") in
  let^ u := pure (ditem m "uid") in
  let^ m := pure (object_at original "metadata") in
  let^ u' := pure (ditem m "uid") in
  if negb (py_eq u u') then fails (RuntimeError "Deployment identity changed")
  else
    do^ (if py_eq (JObj current_spec) (JObj original_spec) then did tt
         else if negb (py_eq (JObj current_spec) (JObj injected)) &&
                 negb match intermediate with Some i => py_eq (JObj current_spec) (JObj i) | None => false end
         then fails (RuntimeError "Deployment spec changed outside this run")
         else replace_spec (target c) current original_spec) in
    do^ wait "restored" (scask (SObserve (target c))) (fun observed => lift (ready_with original_spec observed)) in
    do^ wait "healthy-after" (scask SHealthy) (fun observed => lift (sample_healthy observed)) in
    do^ puts SetCleanupVerified in
    let^ now := doing (scask STimestamp) in
    puts (SetCleanupVerifiedAt now).

(** [_finish] *)
Definition finish_run (c : CaseId) : act unit :=
  let^ s := session in
  do^ (match original s, injected s with
       | Some original, Some injected =>
           let^ now := doing (scask STimestamp) in
           do^ puts (SetCleanupStarted now) in
           or_else_do (restore_spec c original injected (intermediate s))
             (fun e =>
                if is_exit e then fails e
                else
                  do^ puts (SetCleanupFailure (exception_text e)) in
                  let^ s := session in doing (scask (SRewriteLatch (receipt s))))
       | _, _ => did tt
       end) in
  let^ now := doing (scask STimestamp) in
  do^ puts (SetCompleted now) in
  let^ s := session in
  do^ doing (scask (SWriteReceipt (receipt s))) in
  if negb (bool_decide (is_Some (injected s))) || cleanup_verified (receipt s)
  then doing (scask (SUnlatch (run_id (receipt s)))) else did tt.

(** The [try] block of [run] *)
Definition attempt_case (c : CaseId) (callback : bool) : act unit :=
  let^ captured := baseline c in
  do^ sets (set_original captured) in
  let^ spec := pure (object_at captured "spec") in
  let^ fault := pure (fault_spec c spec) in
  do^ sets (set_injected fault) in
  let^ expected :=
    (if eqb_of c OOM_01 then
       let^ control := pure (memory_control_spec spec) in
       do^ sets (set_intermediate control) in
       memory_control captured control fault
     else did captured) in
  do^ inject c expected fault in
  investigate callback.

(** [run] *)
Definition scenario_run (c : CaseId) (callback : bool) : scprog ScenarioReceipt :=
  if bool_decide (c ∈ specialized) then Raise (ValueError "case requires its specialized journaled harness")
  else
    let* r := start c in
    let* (out, s) := finally_do
      (or_else_do (attempt_case c callback)
         (fun e => do^ puts (SetFailure (exception_text e)) in if is_exit e then fails e else did tt))
      (finish_run c) (new_session r) in
    match out with inl e => Raise e | inr _ => Ret (receipt s) end.
End runner.
