(* ===== verification/DiagnosticsTheorems.v ===== *)
(** * What the support index says *)

From S2P Require Import Prelude Text Json Contracts Policy Baseline Diagnostics.

Open Scope string_scope.
Open Scope list_scope.
Open Scope Z_scope.
Open Scope result_scope.

Lemma insert_string_perm s l : insert_string s l ≡ₚ s :: l.
Proof.
  induction l as [|s' l IH]; cbn; [done|]. destruct (String.leb s s'); [done|].
  rewrite IH. apply Permutation_swap.
Qed.

Lemma sort_strings_perm l : sort_strings l ≡ₚ l.
Proof. induction l as [|s l IH]; cbn; [done|]. by rewrite insert_string_perm, IH. Qed.

(** Sorted by code points *)
Definition string_le (s t : string) : Prop := String.leb s t = true.

Lemma string_le_total s t : String.leb s t = false -> string_le t s.
Proof. intros Hst. destruct (String.leb_total s t); [congruence|done]. Qed.

Lemma string_le_trans s t u : string_le s t -> string_le t u -> string_le s u.
Proof.
  unfold string_le, String.leb. revert t u.
  induction s as [|a s IH]; intros [|b t] [|c u]; cbn; try done.
  unfold Ascii.compare. destruct (N.compare_spec (Ascii.N_of_ascii a) (Ascii.N_of_ascii b)) as [Hab|Hab|Hab];
    destruct (N.compare_spec (Ascii.N_of_ascii b) (Ascii.N_of_ascii c)) as [Hbc|Hbc|Hbc]; try done.
  - rewrite Hab, Hbc, N.compare_refl. apply IH.
  - intros _ _. destruct (N.compare_spec (Ascii.N_of_ascii a) (Ascii.N_of_ascii c)); lia || done.
  - intros _ _. destruct (N.compare_spec (Ascii.N_of_ascii a) (Ascii.N_of_ascii c)); lia || done.
  - intros _ _. destruct (N.compare_spec (Ascii.N_of_ascii a) (Ascii.N_of_ascii c)); lia || done.
Qed.

Lemma insert_string_sorted s l : StronglySorted string_le l -> StronglySorted string_le (insert_string s l).
Proof.
  induction 1 as [|t l Hl IH Ht]; cbn; [repeat constructor|].
  destruct (String.leb s t) eqn:Hst.
  - constructor; [by constructor|]. constructor; [done|]. eapply Forall_impl; [exact Ht|].
    intros u Hu. by apply (string_le_trans s t u).
  - constructor; [done|]. rewrite insert_string_perm. constructor; [by apply string_le_total|done].
Qed.

Lemma sort_strings_sorted l : StronglySorted string_le (sort_strings l).
Proof. induction l; cbn; [constructor|by apply insert_string_sorted]. Qed.

Section support.
Context `{PyText}.

Abbreviation index := (gmap string (list string)).

(** The index lists [id] under [cause]. *)
Definition lists (m : index) (cause id : string) : Prop := exists l, m !! cause = Some l /\ id ∈ l.

(** No cause is listed without an observation. *)
Definition tight (m : index) : Prop := forall cause l, m !! cause = Some l -> l <> [].

Lemma add_support_lists id m c cause i :
  lists (add_support id m c) cause i <-> lists m cause i \/ cause = c /\ i = id.
Proof.
  unfold lists, add_support. destruct (decide (c = cause)) as [->|Hne].
  - rewrite lookup_insert_eq. split.
    + intros (l & [= <-] & [Hi|Hi%list_elem_of_singleton]%elem_of_app); [|by right].
      left. destruct (m !! cause) as [l'|]; [by exists l'|by apply elem_of_nil in Hi].
    + intros [(l & -> & Hi)|[_ ->]]; (eexists; split; [done|]; apply elem_of_app; cbn);
        [by left|right; apply list_elem_of_here].
  - rewrite lookup_insert_ne by done. split; [by left|]. intros [?|[? _]]; [done|congruence].
Qed.

Lemma add_support_tight id m c : tight m -> tight (add_support id m c).
Proof.
  unfold add_support. intros Hm cause l [[<- <-]|[_ Hl]]%lookup_insert_Some; [|by eapply Hm].
  by intros [_ [=]]%app_nil.
Qed.

Lemma foldl_add_lists id cs m cause i :
  lists (foldl (add_support id) m cs) cause i <-> lists m cause i \/ cause ∈ cs /\ i = id.
Proof.
  revert m. induction cs as [|c cs IH]; intros m; cbn.
  - split; [by left|]. by intros [?|[?%elem_of_nil _]].
  - rewrite IH, add_support_lists, elem_of_cons. tauto.
Qed.

Lemma foldl_add_tight id cs m : tight m -> tight (foldl (add_support id) m cs).
Proof. revert m. induction cs as [|c cs IH]; intros m Hm; cbn; [done|]. by apply IH, add_support_tight. Qed.

(** Some observation [id] shows [cause]. *)
Definition observed (observations : list (string * string * json)) (cause id : string) : Prop :=
  exists res value causes, (id, res, value) ∈ observations /\
    observed_causes value res = Ok causes /\ cause ∈ causes.

Lemma support_loop_spec observations m m' :
  support_loop m observations = Ok m' -> tight m ->
  tight m' /\ forall cause i, lists m' cause i <-> lists m cause i \/ observed observations cause i.
Proof.
  revert m. induction observations as [|[[id res] value] obs IH]; intros m; cbn.
  - intros [= ->] Hm. split; [done|]. intros cause i. split; [by left|].
    by intros [?|(? & ? & ? & ?%elem_of_nil & _)].
  - intros (causes & Hc & Hl)%rbind_inr Hm.
    destruct (IH _ Hl) as [Ht Hiff]; [by apply foldl_add_tight|]. split; [done|].
    intros cause i. rewrite Hiff, foldl_add_lists, sort_strings_perm, elem_of_elements. split.
    + intros [[?|[? ->]]|(r & v & cs & ? & ? & ?)]; [by left|right..].
      * exists res, value, causes. split_and!; [apply list_elem_of_here|done|done].
      * exists r, v, cs. split_and!; [by apply list_elem_of_further|done|done].
    + intros [?|(r & v & cs & [[= -> -> ->]|Hin]%elem_of_cons & Hcs & ?)]; [by left; left|..].
      * left. right. split; [|done]. congruence.
      * right. by exists r, v, cs.
Qed.

(** Every ID of the index is that of an observation that shows the cause. *)
Lemma support_index_observed observations index cause ids id :
  support_index observations = Ok index -> (cause, ids) ∈ index -> id ∈ ids -> observed observations cause id.
Proof.
  unfold support_index. intros (m & Hm & [= <-])%rbind_inr.
  intros (c & [= -> ->] & _)%list_elem_of_fmap Hid. rewrite from_keys_elem in Hid.
  destruct (support_loop_spec _ _ _ Hm) as [_ Hiff]; [by intros ? ? ?; simplify_map_eq|].
  assert (lists m c id) as [(l & Hl & _)|?]%Hiff; [|by simplify_map_eq|done].
  revert Hid. case_match;
    [destruct (delete _ m !! c) as [l|] eqn:Hl; [apply lookup_delete_Some in Hl as [_ Hl]|]
    |destruct (m !! c) as [l|] eqn:Hl]; cbn; intros Hid; try (by apply elem_of_nil in Hid); by exists l.
Qed.

(** Another mechanism explains the memory limit. *)
Definition outranked (observations : list (string * string * json)) (cause : string) : Prop :=
  cause = "MEMORY_LIMIT_BELOW_WORKING_SET" /\
  exists id, observed observations "MEMORY_LEAK" id \/ observed observations "CONCURRENCY_MEMORY_PRESSURE" id.
End support.

(** C23: the support index is exactly the diagnostic predicates.  When it is computed, it
    lists its causes once each, in order, and under each cause, without repetition, exactly
    the observations whose own fields satisfy a predicate for it.  A cause is listed exactly
    when some observation satisfies a predicate for it and it is not outranked: the shared symptom
    of a memory limit is absent when a memory leak or concurrent memory pressure was observed. *)
Theorem support_index_exact `{PyText} observations index :
  support_index observations = Ok index ->
  NoDup index.*1 /\ StronglySorted string_le index.*1 /\
  (forall cause ids, (cause, ids) ∈ index -> ids <> [] /\ NoDup ids /\
     forall id, id ∈ ids <-> observed observations cause id) /\
  forall cause, cause ∈ index.*1 <->
    (exists id, observed observations cause id) /\
    ~ (cause = "MEMORY_LIMIT_BELOW_WORKING_SET" /\
       exists id, observed observations "MEMORY_LEAK" id \/
                  observed observations "CONCURRENCY_MEMORY_PRESSURE" id).
Proof.
  unfold support_index. intros (m & Hm & Hidx)%rbind_inr.
  destruct (support_loop_spec _ _ _ Hm) as [Ht Hiff]; [by intros ? ? ?; simplify_map_eq|].
  assert (forall cause id, lists m cause id <-> observed observations cause id) as Hobs.
  { intros cause id. rewrite Hiff. split; [|by right]. intros [(l & Hl & _)|?]; [simplify_map_eq|done]. }
  set (m' := if bool_decide (is_Some (m !! "MEMORY_LEAK")) ||
                bool_decide (is_Some (m !! "CONCURRENCY_MEMORY_PRESSURE"))
             then delete "MEMORY_LIMIT_BELOW_WORKING_SET" m else m) in Hidx.
  assert (forall cause l, m' !! cause = Some l <-> m !! cause = Some l /\ ~ outranked observations cause) as Hm'.
  { intros cause l. assert (forall c, is_Some (m !! c) <-> exists id, observed observations c id) as Hsome.
    { intros c. setoid_rewrite <-Hobs. split; [|by intros (id & l' & -> & _)].
      intros [l' Hl']. pose proof (Ht _ _ Hl'). destruct l' as [|id l']; [done|].
      exists id, (id :: l'). split; [done|apply list_elem_of_here]. }
    unfold m', outranked. destruct (_ || _) eqn:Hout.
    - rewrite orb_true_iff, !bool_decide_eq_true, !Hsome in Hout. rewrite lookup_delete_Some. naive_solver.
    - rewrite orb_false_iff, !bool_decide_eq_false, !Hsome in Hout. naive_solver. }
  injection Hidx as <-. set (causes := sort_strings (elements (dom m'))).
  assert (forall cause, cause ∈ causes <-> is_Some (m' !! cause)) as Hcauses.
  { intros cause. unfold causes. by rewrite sort_strings_perm, elem_of_elements, elem_of_dom. }
  assert ((map (fun cause => (cause, from_keys (default [] (m' !! cause)))) causes).*1 = causes) as Hfst.
  { clearbody causes. clear. induction causes as [|c cs IH]; cbn; [done|]. f_equal. apply IH. }
  rewrite Hfst. split_and!.
  - unfold causes. rewrite sort_strings_perm. apply NoDup_elements.
  - apply sort_strings_sorted.
  - intros cause ids (c & [= -> ->] & [l Hl]%Hcauses)%list_elem_of_fmap. rewrite Hl. cbn.
    destruct (proj1 (Hm' _ _) Hl) as [Hml Hnot]. split_and!.
    + rewrite from_keys_nil. by eapply Ht.
    + apply from_keys_nodup.
    + intros id. rewrite from_keys_elem, <-Hobs. split; [by exists l|].
      intros (l' & Hl' & ?). congruence.
  - intros cause. rewrite Hcauses. split.
    + intros [l [Hl Hnot]%Hm']. split; [|exact Hnot]. pose proof (Ht _ _ Hl). destruct l as [|id l]; [done|].
      exists id. apply Hobs. exists (id :: l). split; [done|apply list_elem_of_here].
    + intros [(id & (l & Hl & _)%Hobs) Hnot]. exists l. by apply Hm'.
Qed.

(** ** A concrete index *)

#[local] Instance no_times : PyText := {| fromisoformat _ := None; str_of _ := EmptyString |}.

Definition sampled_heap : json := JList
  [JObj [("retained_bytes", JInt 100)]; JObj [("retained_bytes", JInt 200)];
   JObj [("retained_bytes", JInt 300); ("reason", JStr "OOMKilled")];
   JObj [("archived", JBool true); ("dependency", JStr "redis"); ("outcome", JStr "unavailable")]].

Definition throttled_cgroup : json := JObj
  [("before", JObj [("cpu_max", JStr "50000 100000"); ("cpu_stat", JStr "throttled_usec 10")]);
   ("after", JObj [("cpu_max", JStr "50000 100000"); ("cpu_stat", JStr "throttled_usec 25")])].

Definition observations : list (string * string * json) :=
  [("ev-heap", "payments-api", sampled_heap); ("ev-cpu", "payments-api", throttled_cgroup)].

Definition supported_index : list (string * list string) :=
  [("CPU_THROTTLING", ["ev-cpu"]); ("MEMORY_LEAK", ["ev-heap"])].

Lemma support_index_exact_witness :
  support_index observations = Ok supported_index /\ NoDup supported_index.*1 /\ StronglySorted string_le supported_index.*1 /\
  (forall cause ids, (cause, ids) ∈ supported_index -> ids <> [] /\ NoDup ids /\
     forall id, id ∈ ids <-> observed observations cause id) /\
  forall cause, cause ∈ supported_index.*1 <->
    (exists id, observed observations cause id) /\
    ~ (cause = "MEMORY_LIMIT_BELOW_WORKING_SET" /\
       exists id, observed observations "MEMORY_LEAK" id \/
                  observed observations "CONCURRENCY_MEMORY_PRESSURE" id).
Proof.
  assert (support_index observations = Ok supported_index) as Hs by (vm_compute; reflexivity).
  split; [exact Hs|]. exact (support_index_exact observations supported_index Hs).
Defined.
