(* ===== verification/Artifacts.v ===== *)
(** * Retained evidence: [payops/evidence/artifacts.py], [log_context.py] and
    [verification.py]

    The content-addressed store as programs over its files.  The content of a file is a
    [blob]: its bytes, and what pydantic decodes them to. *)

From S2P Require Import Prelude Text Json Digest Contracts Effects Reasoning.

Open Scope string_scope.
Open Scope list_scope.
Open Scope Z_scope.
Open Scope result_scope.
Open Scope prog_scope.

(** [blob_text] is the content of a file; [read_object] is [JSON_OBJECT.validate_json] of
    it, which raises a [ValueError]. *)
Class Blob : Type := {
  blob : Type;
  blob_text : blob -> string;
  read_object : blob -> result (list (string * json));
}.

(** The text pydantic gives an instant, and the compact text of a value *)
Class PydanticText : Type := {
  iso_text : datetime -> string;
  compact_text : json -> string;
}.

Definition MAX_ARTIFACT_BYTES : Z := 1048576.

Definition backslash : string := chr 92.
Definition slashes : string := backslash +:+ backslash.

(** [extended_windows_path] *)
Definition extended_windows_path (absolute : string) : string :=
  if starts_with (slashes +:+ "?" +:+ backslash) absolute then absolute
  else match after_prefix slashes absolute with
       | Some rest => slashes +:+ "?" +:+ backslash +:+ "UNC" +:+ backslash +:+ rest
       | None => slashes +:+ "?" +:+ backslash +:+ absolute
       end.

Section artifacts.
Context `{Blob}.

(** What the store asks of the file system; a digest stands for the path
    [root / <digest>.json].  [AInside] is [path.resolve().parent == root], [ALink] says
    whether the file was linked or existed already. *)
Inductive art_call : Type :=
  | AInside (digest : string)
  | ARead (digest : string)
  | AStage (content : blob)
  | ALink (digest : string) (content : blob)
  | AUnlink.

Definition art_answer (c : art_call) : Type :=
  match c with
  | AInside _ | ALink _ _ => bool
  | ARead _ => blob
  | AStage _ | AUnlink => unit
  end.

Abbreviation aprog := (prog art_answer).
Abbreviation file := (call (R:=art_answer)) (only parsing).

(** [publish_once] *)
Definition publish_once (digest : string) (content : blob) : aprog unit :=
  do* file (AStage content) in
  finally
    (let* linked := file (ALink digest content) in
     if linked : bool then Ret tt
     else
       let* existing := file (ARead digest) in
       if eqb_of (blob_text existing) (blob_text content) then Ret tt
       else Raise (EvidenceIntegrityError "existing artifact is corrupt"))
    (file AUnlink).

(** [ArtifactStore.path_for] *)
Definition path_for (digest : string) : aprog unit :=
  if negb (digest_ok digest) then Raise (EvidenceIntegrityError "invalid artifact digest")
  else
    let* inside := file (AInside digest) in
    if inside : bool then Ret tt else Raise (EvidenceIntegrityError "artifact path escapes store").

Definition artifact_digest (content : blob) : string := sha256_hex (blob_text content).
Definition oversized (content : blob) : bool := MAX_ARTIFACT_BYTES <? str_len (blob_text content).

(** [ArtifactStore.write] of a value whose canonical text is [content] *)
Definition store_write (content : blob) : aprog (string * string) :=
  if oversized content then Raise (EvidenceIntegrityError "artifact exceeds byte budget")
  else
    let digest := artifact_digest content in
    do* path_for digest in
    do* publish_once digest content in
    Ret ("sha256://" +:+ digest, digest).

(** [with store.path_for(digest).open("rb") as stream: stream.read(...)] *)
Definition store_open (digest : string) : aprog blob := do* path_for digest in file (ARead digest).

(** ** The files *)

Definition art_exec (f : gmap string blob) (c : art_call) : result (art_answer c) * gmap string blob :=
  match c return result (art_answer c) * gmap string blob with
  | AInside _ => (Ok true, f)
  | ARead d => match f !! d with
               | Some b => (Ok b, f)
               | None => (Err (OSError "FileNotFoundError"), f)
               end
  | AStage _ | AUnlink => (Ok tt, f)
  | ALink d b => match f !! d with
                 | Some _ => (Ok false, f)
                 | None => (Ok true, <[d := b]> f)
                 end
  end.

(** Answers a worker may see: the operation's own result, a path outside the store, or an
    error that leaves unknown whether the operation had its effect. *)
Inductive art_answers (f : gmap string blob)
  : forall c : art_call, result (art_answer c) -> gmap string blob -> Prop :=
  | art_done c : art_answers f c (art_exec f c).1 (art_exec f c).2
  | art_escapes d : art_answers f (AInside d) (Ok false) f
  | art_failed c msg : art_answers f c (Err (OSError msg)) f
  | art_uncertain c msg : art_answers f c (Err (OSError msg)) (art_exec f c).2.

Context `{PydanticText}.

(** [evidence.model_dump(mode="json")] *)
Definition dump_evidence (e : EvidenceItem) : list (string * json) :=
  [("evidence_id", JStr (evidence_id e)); ("incident_id", JStr (ev_incident_id e));
   ("source", JStr (source_name (source e))); ("observed_at", JStr (iso_text (observed_at e)));
   ("collected_at", JStr (iso_text (collected_at e))); ("query", JStr (query e));
   ("resource", JStr (resource e)); ("artifact_uri", JStr (artifact_uri e));
   ("artifact_sha256", JStr (artifact_sha256 e)); ("summary", JStr (summary e));
   ("untrusted_text", JBool true)].

Definition without (keys : list string) (d : list (string * json)) : list (string * json) :=
  List.filter (fun kv => negb (bool_decide (kv.1 ∈ keys))) d.

(** [ArtifactStore.verify] *)
Definition store_verify (e : EvidenceItem) : aprog (list (string * json)) :=
  let digest := artifact_sha256 e in
  if negb (eqb_of (artifact_uri e) ("sha256://" +:+ digest)) then
    Raise (EvidenceIntegrityError "artifact URI and digest disagree")
  else
    let* content := catch (store_open digest) is_OSError
                      (fun _ => Raise (EvidenceIntegrityError "artifact unavailable")) in
    if oversized content || negb (eqb_of (artifact_digest content) digest) then
      Raise (EvidenceIntegrityError "artifact digest mismatch")
    else
      let* payload := lift (read_object content) in
      let expected := JObj (without ["artifact_uri"; "artifact_sha256"] (dump_evidence e)) in
      if negb (py_eq (dget payload "evidence") expected) then
        Raise (EvidenceIntegrityError "artifact metadata mismatch")
      else Ret payload.

(** ** [log_context.py] *)

Context `{JsonLoads}.

(** [unique_fields] *)
Fixpoint unique_fields_loop (found : list (string * json)) (pairs : list (string * json))
  : result (list (string * json)) :=
  match pairs with
  | [] => Ok found
  | (k, v) :: pairs =>
      if dhas found k then Err (ValueError "duplicate structured log field")
      else unique_fields_loop (dset found k v) pairs
  end.
Definition unique_fields (pairs : list (string * json)) : result (list (string * json)) :=
  unique_fields_loop [] pairs.

(** [invalid_constant] *)
Definition invalid_constant (value : string) : result json := Err (ValueError "nonfinite structured log value").

(** [JSON_OBJECT.validate_python] of a decoded value *)
Definition object_of (j : json) : result (list (string * json)) :=
  match j with JObj o => Ok o | _ => Err (ValueError "dict") end.

Definition space : Ascii.ascii := Ascii.ascii_of_nat 32.

(** One line: a record, or [None] when it stays raw *)
Definition log_record (line : string) : result (option json) :=
  let '(timestamp, content) := default (line, EmptyString) (partition space line) in
  let structured := starts_with "{" line in
  rcatch
    (let! value := json_loads unique_fields invalid_constant (if structured then line else content) in
     let! parsed := object_of value in
     Ok (Some (JObj [("record", JObj parsed);
                     ("log_timestamp", if structured then JNull else JStr timestamp)])))
    (fun e => is_ValueError e || is_RecursionError e) (fun _ => Ok None).

(** The loop of [log_context]: its records and its raw lines *)
Fixpoint log_loop (lines : list string) : result (list json * list json) :=
  match lines with
  | [] => Ok ([], [])
  | line :: lines =>
      let! r := log_record line in
      let! (records, unparsed) := log_loop lines in
      Ok match r with
         | Some record => (record :: records, unparsed)
         | None => (records, JStr line :: unparsed)
         end
  end.

(** [log_context] *)
Definition log_context (payload : list (string * json)) : result (list (string * json)) :=
  match dget payload "lines" with
  | JStr lines =>
      let! (records, unparsed) := log_loop (splitlines lines) in
      Ok (dset (dset (dset (without ["lines"] payload) "records" (JList records))
                 "unparsed_lines" (JList unparsed))
            "projection" (JStr "structured_log_lines_v1"))
  | _ => Ok payload
  end.
End artifacts.
Arguments art_call {_}.
Arguments art_answer {_} c.

(** ** [verification.py]

    The verifiers of derived evidence, from [payment_window.py], [trace_span.py] and
    [memory/data_clients.py]: each re-reads its sources from the store.  The window is its
    dump without the inputs and the IDs of these, the span its dump without the source and
    the ID of that, the lineage its source item and the text of its retrieval time. *)
Class SourceChecks `{Blob} : Type := {
  verify_payment_window : EvidenceItem -> prog art_answer (list (string * json) * list string);
  verify_trace_span : EvidenceItem -> prog art_answer (list (string * json) * string);
  verify_trace_log : EvidenceItem -> prog art_answer unit;
  verify_retrieval_evidence : EvidenceItem -> prog art_answer (EvidenceItem * string);
}.

Definition LOG_QUERY : string := "trace.console-log.v1".

Section verification.
Context `{Blob, PydanticText, !SourceChecks}.

(** [verify_evidence] *)
Definition verify_evidence (e : EvidenceItem) : prog art_answer unit :=
  catch
    (do* store_verify e in
     match source e with
     | PAYMENT => do* verify_payment_window e in Ret tt
     | TRACE => do* verify_trace_span e in Ret tt
     | LOG => if eqb_of (query e) LOG_QUERY then verify_trace_log e else Ret tt
     | RUNBOOK | MEMORY => do* verify_retrieval_evidence e in Ret tt
     | _ => Ret tt
     end)
    is_ValueError (fun _ => Raise (EvidenceIntegrityError "evidence source verification failed")).
End verification.
