(* ===== verification/Context.v ===== *)
(** * The context of a model decision: [payops/evidence/context.py]

    Which verified evidence a model sees: every item is verified, the facts are derived
    from the sources, and the items are admitted in order until the text is full. *)

From S2P Require Import Prelude Text Json Contracts Effects Reasoning Baseline Diagnostics Artifacts.

Open Scope string_scope.
Open Scope list_scope.
Open Scope Z_scope.
Open Scope result_scope.
Open Scope prog_scope.

(** [PRIORITY] *)
Definition PRIORITY (s : Source) : Z :=
  match s with
  | PAYMENT => 0 | DEPLOYMENT => 1 | KUBERNETES => 2 | PROMETHEUS => 3 | TRACE => 4 | LOG => 5
  | RUNBOOK => 6 | MEMORY => 7
  end.

Record ContextEntry : Type := {
  evidence : EvidenceItem;
  facts : option (list (string * json));
  facts_omitted : bool;
}.
#[export] Instance ContextEntry_eq_dec : EqDecision ContextEntry.
Proof. solve_decision. Defined.

(** [treatment] is a constant. *)
Record ReasoningContext : Type := {
  entries : list ContextEntry;
  omitted_count : Z;
}.
#[export] Instance ReasoningContext_eq_dec : EqDecision ReasoningContext.
Proof. solve_decision. Defined.

Definition ReasoningContext_valid (c : ReasoningContext) : bool :=
  (len (entries c) <=? 64) && between 0 256 (omitted_count c).

(** [ReasoningContext.evidence_ids] *)
Definition evidence_ids (c : ReasoningContext) : gset string :=
  list_to_set (map (fun e => evidence_id (evidence e)) (entries c)).

(** [item.source in {"RUNBOOK", "MEMORY"}] *)
Definition retrieved (s : Source) : bool := bool_decide (s ∈ [RUNBOOK; MEMORY]).

(** ** Ranking *)

(** The key [_ordered] sorts recent evidence by.  [-timestamp()] is the negated instant:
    until the year 2242 different microseconds have different floats. *)
Definition rank_key (preferred signaled : gset string) (e : EvidenceItem) : list Z * string :=
  ([Z_of_bool (negb (bool_decide (evidence_id e ∈ signaled)));
    Z_of_bool (negb (bool_decide (evidence_id e ∈ preferred)));
    Z_of_bool (retrieved (source e)); - observed_at e; PRIORITY (source e)], evidence_id e).

(** [a <= b] of tuples *)
Fixpoint key_leb (a b : list Z) (last : bool) : bool :=
  match a, b with
  | x :: a, y :: b => (x <? y) || ((x =? y) && key_leb a b last)
  | _, _ => last
  end.
Definition rank_leb (a b : list Z * string) : bool := key_leb a.1 b.1 (String.leb a.2 b.2).

(** [sorted(l, key=...)], which keeps the order of equal keys *)
Fixpoint insert_by {A} (leb : A -> A -> bool) (x : A) (l : list A) : list A :=
  match l with
  | [] => [x]
  | y :: l' => if leb x y then x :: l else y :: insert_by leb x l'
  end.
Definition sort_by {A} (leb : A -> A -> bool) (l : list A) : list A := foldr (insert_by leb) [] l.

(** The depth of each item among those of its source and resource *)
Fixpoint depths (counts : list (Source * string)) (l : list EvidenceItem) : list (Z * EvidenceItem) :=
  match l with
  | [] => []
  | e :: l =>
      let group := (source e, resource e) in
      (len (List.filter (eqb_of group) counts), e) :: depths (group :: counts) l
  end.

(** [_ordered] *)
Definition ordered (l : list EvidenceItem) (recent : bool) (preferred signaled : gset string)
  : list EvidenceItem :=
  if negb recent then sort_by (fun a b => PRIORITY (source a) <=? PRIORITY (source b)) l
  else
    let first := sort_by (fun a b => rank_leb (rank_key preferred signaled a) (rank_key preferred signaled b)) l in
    map snd (sort_by (fun a b => a.1 <=? b.1) (depths [] first)).

Section context.
Context `{Blob, PydanticText, JsonLoads, PyText, !SourceChecks}.

Abbreviation aprog := (prog art_answer) (only parsing).

(** [context.model_dump(mode="json")] *)
Definition dump_entry (e : ContextEntry) : json :=
  JObj [("evidence", JObj (dump_evidence (evidence e)));
        ("facts", match facts e with Some o => JObj o | None => JNull end);
        ("facts_omitted", JBool (facts_omitted e))].
Definition dump_context (c : ReasoningContext) : json :=
  JObj [("treatment", JStr "untrusted_evidence_data"); ("entries", JList (map dump_entry (entries c)));
        ("omitted_count", JInt (omitted_count c))].

(** [_facts] *)
Definition facts_of (e : EvidenceItem) (structured_logs : bool) : aprog (list (string * json)) :=
  match source e with
  | PAYMENT =>
      let* window := verify_payment_window e in
      Ret (dset window.1 "input_evidence_ids" (JList (map JStr window.2)))
  | TRACE =>
      let* span := verify_trace_span e in
      Ret (dset span.1 "source_evidence_id" (JStr span.2))
  | RUNBOOK | MEMORY =>
      let* lineage := verify_retrieval_evidence e in
      Ret [("retrieval_only", JBool true); ("source_evidence_id", JStr (evidence_id lineage.1));
           ("original_summary", JStr (summary lineage.1)); ("retrieved_at", JStr lineage.2)]
  | _ =>
      let* verified := store_verify e in
      let* payload := lift (object_of (dget verified "payload")) in
      if eqb_of (source e) LOG && structured_logs then lift (log_context payload) else Ret payload
  end.

(** [_append] *)
Definition with_entry (c : ReasoningContext) (e : ContextEntry) : ReasoningContext :=
  {| entries := entries c ++ [e]; omitted_count := omitted_count c - 1 |}.

Definition append (c : ReasoningContext) (e : ContextEntry) (limit : Z) : ReasoningContext :=
  let bare := {| evidence := evidence e; facts := None; facts_omitted := true |} in
  let fits c := str_len (compact_text (dump_context c)) <=? limit in
  if fits (with_entry c e) then with_entry c e
  else if fits (with_entry c bare) then with_entry c bare
  else c.

(** The last loop of [build_context] *)
Fixpoint append_loop (max_characters max_items : Z) (c : ReasoningContext)
  (items : list (EvidenceItem * list (string * json))) : ReasoningContext :=
  match items with
  | [] => c
  | (item, known) :: items =>
      if max_items <=? len (entries c) then c
      else append_loop max_characters max_items
             (append c {| evidence := item; facts := Some known; facts_omitted := false |} max_characters)
             items
  end.

(** The loop that verifies the items *)
Fixpoint verify_items (id : string) (l : list EvidenceItem) : aprog unit :=
  match l with
  | [] => Ret tt
  | e :: l =>
      if negb (eqb_of (ev_incident_id e) id) then
        Raise (EvidenceIntegrityError "context incident mismatch")
      else do* verify_evidence e in verify_items id l
  end.

(** The dict of the facts, by evidence ID *)
Fixpoint all_facts (recent : bool) (l : list EvidenceItem) : aprog (list (string * list (string * json))) :=
  match l with
  | [] => Ret []
  | e :: l =>
      let* known := facts_of e recent in
      let* rest := all_facts recent l in
      Ret ((evidence_id e, known) :: rest)
  end.

(** [facts[evidence_id]], of an item whose facts are in the dict *)
Definition fact (known : list (string * list (string * json))) (e : EvidenceItem) : list (string * json) :=
  default [] (snd <$> List.find (fun kv => eqb_of kv.1 (evidence_id e)) known).

(** What the support index is given *)
Definition observations_of (known : list (string * list (string * json))) (l : list EvidenceItem)
  : list (string * string * json) :=
  map (fun e => (evidence_id e, resource e, JObj (fact known e)))
    (List.filter (fun e => negb (retrieved (source e))) l).

(** [build_context] *)
Definition build_context (l : list EvidenceItem) (id : string) (max_characters max_items : Z)
  (recent_first : bool) (preferred : gset string) : aprog ReasoningContext :=
  if negb (between 128 24000 max_characters) || negb (between 0 64 max_items) || (256 <? len l) then
    Raise (ValueError "context budget outside bounds")
  else if negb (distinct (map evidence_id l)) then
    Raise (EvidenceIntegrityError "duplicate context evidence")
  else
    do* verify_items id l in
    let* known := all_facts recent_first l in
    let* signals := (if recent_first then lift (support_index (observations_of known l)) else Ret []) in
    let signaled := list_to_set (C:=gset string) (flat_map snd signals) in
    Ret (append_loop max_characters max_items {| entries := []; omitted_count := len l |}
           (map (fun e => (e, fact known e)) (ordered l recent_first preferred signaled))).
End context.
