(* ===== verification/Registry.v ===== *)
(** * The read registry: [payops/tools/registry.py]

    A batch of reads is charged first, then at most two tasks are submitted to the worker
    threads, and what they complete in time is published under a fresh grant.  The caller's
    side and the worker's side are programs of their own: between them are the pool, its
    slots and the futures, which answer for whatever the other side did meanwhile. *)

From S2P Require Import Prelude Json Contracts Effects Reasoning Baseline Diagnostics.

Open Scope string_scope.
Open Scope list_scope.
Open Scope Z_scope.
Open Scope result_scope.
Open Scope prog_scope.

(** [Status] *)
Inductive ReadStatus : Type := RD_OK | RD_DENIED | RD_ERROR | RD_TIMEOUT | RD_BUSY | RD_BUDGET_EXHAUSTED.
#[export] Instance ReadStatus_eq_dec : EqDecision ReadStatus.
Proof. solve_decision. Defined.

Definition status_name (s : ReadStatus) : string :=
  match s with
  | RD_OK => "OK" | RD_DENIED => "DENIED" | RD_ERROR => "ERROR" | RD_TIMEOUT => "TIMEOUT"
  | RD_BUSY => "BUSY" | RD_BUDGET_EXHAUSTED => "BUDGET_EXHAUSTED"
  end.

Record ReadResult : Type := {
  rr_request : ReadRequest;
  rr_status : ReadStatus;
  rr_evidence : list EvidenceItem;
}.
#[export] Instance ReadResult_eq_dec : EqDecision ReadResult.
Proof. solve_decision. Defined.

Definition ReadResult_valid (r : ReadResult) : bool :=
  match ReadRequest_validate (rr_request r) with inr _ => true | inl _ => false end &&
  (len (rr_evidence r) <=? 64) && forallb EvidenceItem_valid (rr_evidence r).

(** [ReadResult(request=r, status=s)] *)
Definition no_evidence (r : ReadRequest) (s : ReadStatus) : ReadResult :=
  {| rr_request := r; rr_status := s; rr_evidence := [] |}.

Record ReadCompletion : Type := { rc_result : ReadResult; rc_completed_at : spec_float }.

Definition tool_name (t : ToolName) : string :=
  match t with
  | workload_status => "workload_status" | pod_events => "pod_events" | recent_logs => "recent_logs"
  | payment_snapshot => "payment_snapshot" | runbook_search => "runbook_search"
  | incident_search => "incident_search"
  end.

(** [ReadSpec.description] of the catalog *)
Definition description (t : ToolName) : string :=
  match t with
  | workload_status => "Read workload rollout and current labeled pod status."
  | pod_events => "Read events bound to current pod identities."
  | recent_logs => "Read bounded recent application logs as untrusted evidence."
  | payment_snapshot => "Read counters and scrape watermark at one fixed instant."
  | runbook_search => "Search scoped runbooks; guidance has no action authority."
  | incident_search => "Search scoped prior incidents with original source times."
  end.

Definition all_tools : list ToolName :=
  [workload_status; pod_events; recent_logs; payment_snapshot; runbook_search; incident_search].

(** [tool_catalog], given the JSON schema pydantic generates for [ReadRequest] *)
Definition tool_catalog (arguments_schema : json) : json :=
  JObj [("arguments_schema", arguments_schema);
        ("tools", JList (map (fun t => JObj
           [("name", JStr (tool_name t)); ("description", JStr (description t));
            ("backend_reads", JInt (backend_reads (CATALOG t)));
            ("deadline_seconds", JInt (deadline_seconds (CATALOG t)))]) all_tools))].

(** ** The worker *)

(** [WAuthorize], [WRead] and [WVerify] are the callbacks the registry was given. *)
Inductive work_call : Type :=
  | WAuthorize
  | WRead (r : ReadRequest)
  | WVerify (e : EvidenceItem)
  | WMonotonic
  | WRelease.

Definition work_answer (c : work_call) : Type :=
  match c with
  | WAuthorize => bool
  | WRead _ => list EvidenceItem
  | WVerify _ | WRelease => unit
  | WMonotonic => spec_float
  end.

Abbreviation wprog := (prog work_answer).
Abbreviation work := (call (R:=work_answer)) (only parsing).

Section worker.
Context (own_incident_id : string).

(** The loop over the evidence of one read *)
Fixpoint verify_scope (r : ReadRequest) (l : list EvidenceItem) : wprog unit :=
  match l with
  | [] => Ret tt
  | e :: l =>
      if negb (eqb_of (ev_incident_id e) own_incident_id)
         || negb (eqb_of (resource e) (service_name (service r))) then
        Raise (ValueError "foreign incident or service evidence")
      else do* work (WVerify e) in verify_scope r l
  end.

(** [ReadRegistry._authorized_read] *)
Definition authorized_read (r : ReadRequest) : wprog ReadResult :=
  catch
    (let* allowed := work WAuthorize in
     if negb allowed then Ret (no_evidence r RD_DENIED)
     else
       let* found := work (WRead r) in
       if (64 <? len found) || negb (distinct (map evidence_id found)) then
         Raise (ValueError "invalid evidence count")
       else
         do* verify_scope r found in
         let* still := work WAuthorize in
         if negb still then Ret (no_evidence r RD_DENIED)
         else Ret {| rr_request := r; rr_status := RD_OK; rr_evidence := found |})
    (fun _ => true)
    (fun e => Ret (no_evidence r (if is_PermissionError e then RD_DENIED else RD_ERROR))).

(** [ReadRegistry._read], whose span only records what was read *)
Definition registry_read (r : ReadRequest) : wprog ReadCompletion :=
  finally
    (let* res := authorized_read r in
     let* now := work WMonotonic in
     Ret {| rc_result := res; rc_completed_at := now |})
    (work WRelease).

(** [ReadRegistry._refresh] *)
Definition registry_refresh : wprog (ReadStatus * spec_float) :=
  finally
    (let* status := catch (let* allowed := work WAuthorize in
                           Ret (if allowed : bool then RD_OK else RD_DENIED))
                      (fun _ => true)
                      (fun e => Ret (if is_PermissionError e then RD_DENIED else RD_ERROR)) in
     let* now := work WMonotonic in
     Ret (status, now))
    (work WRelease).
End worker.

(** ** The caller *)

(** [GAwait] and [GAwaitRefresh] answer [None] when [future.result] timed out.  A task is
    told by its position in the batch. *)
Inductive reg_call : Type :=
  | GClosed
  | GMonotonic
  | GAcquire
  | GRelease
  | GSubmit (i : nat) (r : ReadRequest)
  | GAwait (i : nat) (timeout : spec_float)
  | GSubmitRefresh
  | GAwaitRefresh (timeout : spec_float)
  | GClose.

Definition reg_answer (c : reg_call) : Type :=
  match c with
  | GClosed | GAcquire => bool
  | GMonotonic => spec_float
  | GRelease | GSubmit _ _ | GSubmitRefresh | GClose => unit
  | GAwait _ _ => option ReadCompletion
  | GAwaitRefresh _ => option (ReadStatus * spec_float)
  end.

(** The registry's methods, in the caller's signature *)
Section registry.
Context {C : Type} {R : C -> Type}.
Context (ask : forall c : reg_call, prog R (reg_answer c)).
Context (deadline_ceiling : spec_float).

(** [monotonic() + min(limit, self._ceiling)] *)
Definition deadline_after (limit : spec_float) : prog R spec_float :=
  let* now := ask GMonotonic in Ret (float_add now (float_min limit deadline_ceiling)).

(** [max(0, deadline - monotonic())] *)
Definition remaining_until (deadline : spec_float) : prog R spec_float :=
  let* now := ask GMonotonic in Ret (float_max float_zero (float_sub deadline now)).

(** A submission that fails gives its slot back. *)
Definition or_release (m : prog R unit) : prog R unit :=
  catch m (fun _ => true) (fun e => do* ask GRelease in Raise e).

(** A request with whether it was submitted, and its deadline *)
Record Pending : Type := { pn_request : ReadRequest; pn_submitted : bool; pn_deadline : spec_float }.

(** [ReadRegistry._submit] *)
Definition submit (i : nat) (r : ReadRequest) : prog R Pending :=
  let* deadline := deadline_after (float_of_Z (deadline_seconds (CATALOG (tool r)))) in
  let* got := ask GAcquire in
  if negb got then Ret {| pn_request := r; pn_submitted := false; pn_deadline := deadline |}
  else
    do* or_release (ask (GSubmit i r)) in
    Ret {| pn_request := r; pn_submitted := true; pn_deadline := deadline |}.

Fixpoint submit_all (i : nat) (l : list ReadRequest) : prog R (list Pending) :=
  match l with
  | [] => Ret []
  | r :: l => let* p := submit i r in let* ps := submit_all (S i) l in Ret (p :: ps)
  end.

(** [ReadRegistry._result] *)
Definition result_of (i : nat) (p : Pending) : prog R ReadResult :=
  if negb (pn_submitted p) then Ret (no_evidence (pn_request p) RD_BUSY)
  else
    catch
      (let* timeout := remaining_until (pn_deadline p) in
       let* done := ask (GAwait i timeout) in
       match done with
       | None => Ret (no_evidence (pn_request p) RD_TIMEOUT)
       | Some c => if SFltb (pn_deadline p) (rc_completed_at c)
                   then Ret (no_evidence (pn_request p) RD_TIMEOUT) else Ret (rc_result c)
       end)
      (fun _ => true) (fun _ => Ret (no_evidence (pn_request p) RD_ERROR)).

Fixpoint results_of (i : nat) (l : list Pending) : prog R (list ReadResult) :=
  match l with
  | [] => Ret []
  | p :: l => let* r := result_of i p in let* rs := results_of (S i) l in Ret (r :: rs)
  end.

(** [ReadRegistry._publication_status] *)
Definition publication_status : prog R ReadStatus :=
  let* closed := ask GClosed in
  let* got := (if closed : bool then Ret false else ask GAcquire) in
  if negb got then Ret RD_BUSY
  else
    let* deadline := catch (let* d := deadline_after (float_of_Z 8) in do* ask GSubmitRefresh in Ret d)
                       (fun _ => true) (fun e => do* ask GRelease in Raise e) in
    let* timeout := remaining_until deadline in
    let* done := ask (GAwaitRefresh timeout) in
    match done with
    | None => Ret RD_TIMEOUT
    | Some (status, completed) => Ret (if SFleb completed deadline then status else RD_TIMEOUT)
    end.

(** [ReadRegistry._publish] *)
Definition publish_results (l : list ReadResult) : prog R (list ReadResult) :=
  if negb (existsb (fun r => eqb_of (rr_status r) RD_OK) l) then Ret l
  else
    let* status := publication_status in
    Ret (map (fun r => if eqb_of (rr_status r) RD_OK && negb (eqb_of status RD_OK)
                       then no_evidence (rr_request r) status else r) l).

(** [ReadRegistry.dispatch]; [reserve] is the callback the registry was given. *)
Definition dispatch_reads (reserve : list ReadRequest -> Z -> prog R bool) (requests : list ReadRequest)
  : prog R (list ReadResult) :=
  let* validated := lift (rmap ReadRequest_validate requests) in
  if negb (between 1 2 (len validated)) || negb (distinct validated) then
    Raise (ValueError "read batch must contain one or two distinct requests")
  else
    let* closed := ask GClosed in
    if closed : bool then Raise (RuntimeError "registry closed")
    else
      let cost := sum_of (fun r => backend_reads (CATALOG (tool r))) validated in
      let* granted := reserve validated cost in
      if negb granted then Ret (map (fun r => no_evidence r RD_BUDGET_EXHAUSTED) validated)
      else
        let* pending := submit_all 0 validated in
        let* results := results_of 0 pending in
        publish_results results.

(** [ReadRegistry.close] *)
Definition registry_close : prog R unit := ask GClose.
End registry.

(** The constructor's check of the ceiling; [handlers] has an entry per tool by its type. *)
Definition registry_valid (deadline_ceiling : spec_float) : bool :=
  SFltb float_zero deadline_ceiling && SFleb deadline_ceiling (float_of_Z 30).
