(* ===== verification/Runtime.v ===== *)
(** * The model runtime: [payops/orchestrator/model_runtime.py]

    One provider call at a time, in a worker thread, with an acceptance deadline.  As for
    the registry, the caller's side and the worker's side are programs of their own; the
    adapter is what its protocol says: a staged adapter counts the prompt, asks the host's
    hook once with the count, and generates with what the hook answered.  Tracing spans are
    left out. *)

From S2P Require Import Prelude Json Digest Contracts Effects Reasoning Budget Baseline Diagnostics.

Open Scope string_scope.
Open Scope list_scope.
Open Scope Z_scope.
Open Scope result_scope.
Open Scope prog_scope.

(** [ms_fixture] is [mode == "fixture"]. *)
Record ModelSettings : Type := {
  ms_provider : string;
  ms_model : string;
  ms_fixture : bool;
  input_token_limit : Z;
  ms_output_limit : Z;
  timeout_seconds : spec_float;
  ms_price : TextPrice;
  ms_accounting : TokenAccounting;
}.
#[export] Instance ModelSettings_eq_dec : EqDecision ModelSettings.
Proof. solve_decision. Defined.

(** Fields and [ModelSettings.accounting_mode] *)
Definition ModelSettings_valid (s : ModelSettings) : bool :=
  identifier_ok (ms_provider s) && between 1 200 (str_len (ms_model s)) &&
  between 1 100000 (input_token_limit s) && between 1 16384 (ms_output_limit s) &&
  SFltb float_zero (timeout_seconds s) && SFleb (timeout_seconds s) (float_of_Z 30) &&
  TextPrice_valid (ms_price s) &&
  Bool.eqb (negb (ms_fixture s)) (eqb_of (ms_accounting s) provider_ceiling).

Inductive Role : Type := system_role | user_role.
#[export] Instance Role_eq_dec : EqDecision Role.
Proof. solve_decision. Defined.

Record PromptMessage : Type := { role : Role; content : string }.
#[export] Instance PromptMessage_eq_dec : EqDecision PromptMessage.
Proof. solve_decision. Defined.
Definition PromptMessage_valid (m : PromptMessage) : bool := between 1 32768 (str_len (content m)).

Record ModelPrompt : Type := {
  messages : PromptMessage * PromptMessage;
  prompt_tokens : Z;
  prompt_accounting : TokenAccounting;
}.
#[export] Instance ModelPrompt_eq_dec : EqDecision ModelPrompt.
Proof. solve_decision. Defined.

(** Fields and [ModelPrompt.roles] *)
Definition ModelPrompt_validate (p : ModelPrompt) : result ModelPrompt :=
  if negb (PromptMessage_valid (messages p).1 && PromptMessage_valid (messages p).2 &&
           between 0 100000 (prompt_tokens p)) then Err (ValueError "ModelPrompt")
  else if negb (eqb_of (role (messages p).1) system_role && eqb_of (role (messages p).2) user_role) then
    Err (ValueError "prompt roles differ from host contract")
  else Ok p.

(** [ModelPrompt.langchain_messages]: the contents of the two messages *)
Definition langchain_messages (p : ModelPrompt) : string * string :=
  (content (messages p).1, content (messages p).2).

(** [provider_requests] is the constant 2. *)
Record ProviderDetails : Type := {
  counted_input_tokens : Z;
  count_seconds : spec_float;
  generation_seconds : spec_float;
  request_shape_sha256 : string;
  normalized_refusal : bool;
}.
#[export] Instance ProviderDetails_eq_dec : EqDecision ProviderDetails.
Proof. solve_decision. Defined.

Definition ProviderDetails_validate (d : ProviderDetails) : result ProviderDetails :=
  if between 0 100000 (counted_input_tokens d) && nonneg_finite (count_seconds d) &&
     nonneg_finite (generation_seconds d) && digest_ok (request_shape_sha256 d)
  then Ok d else Err (ValueError "ProviderDetails").

Inductive ModelStatus : Type :=
  | MS_OK | MS_REFUSED | MS_INVALID_OUTPUT | MS_ERROR | MS_TIMEOUT | MS_DENIED | MS_BUSY.
#[export] Instance ModelStatus_eq_dec : EqDecision ModelStatus.
Proof. solve_decision. Defined.

Record ModelObservation : Type := {
  mo_status : ModelStatus;
  mo_decision : option ReasoningDecision;
  mo_usage : option ProviderUsage;
  provider_seconds : option spec_float;
  output_sha256 : option string;
  provider_details : option ProviderDetails;
}.

(** Fields and [ModelObservation.coherent] *)
Definition ModelObservation_validate (o : ModelObservation) : result ModelObservation :=
  if negb (match provider_seconds o with Some s => nonneg_finite s | None => true end &&
           match output_sha256 o with Some d => digest_ok d | None => true end)
  then Err (ValueError "ModelObservation")
  else
    let decided := bool_decide (is_Some (mo_decision o)) in
    if negb (Bool.eqb (bool_decide (mo_status o ∈ [MS_OK; MS_REFUSED])) decided) then
      Err (ValueError "model outcome and decision disagree")
    else match mo_decision o with
         | Some d =>
             if negb (Bool.eqb (eqb_of (dec_kind d) refuse) (eqb_of (mo_status o) MS_REFUSED)) then
               Err (ValueError "refusal status differs from structured decision")
             else Ok o
         | None => Ok o
         end.

(** [ModelObservation(status=s)] and its two other keywords *)
Definition observation (s : ModelStatus) (usage : option ProviderUsage) (secs : option spec_float)
  (details : option ProviderDetails) : ModelObservation :=
  {| mo_status := s; mo_decision := None; mo_usage := usage; provider_seconds := secs;
     output_sha256 := None; provider_details := details |}.
Definition bare (s : ModelStatus) : ModelObservation := observation s None None None.

(** [CompletedModel] *)
Record CompletedModel : Type := { cm_observation : ModelObservation; finished_at : spec_float }.

(** An [AIMessage]: its content, when it is a string, and what the adapter knows it by *)
Record AIMessage : Type := { ai_content : option string; ai_handle : string }.

(** ** [_decision] *)
Section decision.
Context `{JsonLoads}.

Definition decision_of (m : AIMessage) (usage : option ProviderUsage) (secs : spec_float)
  (evidence_ids causes : gset string) : result ModelObservation :=
  match ai_content m with
  | Some text =>
      if 16384 <? str_len text
      then ModelObservation_validate (observation MS_INVALID_OUTPUT usage (Some secs) None)
      else
        let digest := sha256_hex text in
        match parse_decision text evidence_ids causes with
        | inl e =>
            if is_ValueError e then ModelObservation_validate
              {| mo_status := MS_INVALID_OUTPUT; mo_decision := None; mo_usage := usage;
                 provider_seconds := Some secs; output_sha256 := Some digest; provider_details := None |}
            else Err e
        | inr d => ModelObservation_validate
              {| mo_status := if eqb_of (dec_kind d) refuse then MS_REFUSED else MS_OK;
                 mo_decision := Some d; mo_usage := usage; provider_seconds := Some secs;
                 output_sha256 := Some digest; provider_details := None |}
        end
  | None => ModelObservation_validate (observation MS_INVALID_OUTPUT usage (Some secs) None)
  end.
End decision.

(** ** The worker *)

(** The adapter's methods, the identity callback, the clock and the slot.  [NSettings] reads
    [adapter.settings]; [NCount] is a staged invocation up to its hook, whose outcome
    [NGenerate] hands back to the adapter. *)
Inductive run_call : Type :=
  | NAuthorize
  | NSettings
  | NMonotonic
  | NInvoke (messages : string * string) (limit : Z)
  | NStaged
  | NCount (messages : string * string) (limit : Z)
  | NGenerate (messages : string * string) (limit : Z) (granted : result bool)
  | NDetails (m : AIMessage)
  | NUsage (m : AIMessage)
  | NRelease.

Definition run_answer (c : run_call) : Type :=
  match c with
  | NAuthorize | NStaged => bool
  | NSettings => ModelSettings
  | NMonotonic => spec_float
  | NInvoke _ _ | NGenerate _ _ _ => AIMessage
  | NCount _ _ => json
  | NDetails _ => ProviderDetails
  | NUsage _ => option ProviderUsage
  | NRelease => unit
  end.

Abbreviation nprog := (prog run_answer).
Abbreviation ask := (call (R:=run_answer)) (only parsing).

Section worker.
Context `{JsonLoads}.
Context (settings : ModelSettings).

(** [ModelRuntime._stage_allowed] *)
Definition stage_allowed (deadline : spec_float) : nprog bool :=
  let* now := ask NMonotonic in
  let* stale := (if SFleb deadline now then Ret true
                 else let* current := ask NSettings in Ret (negb (eqb_of current settings))) in
  if stale : bool then Ret false
  else
    let* allowed := ask NAuthorize in
    if negb allowed then Ret false
    else
      let* now := ask NMonotonic in
      if negb (SFltb now deadline) then Ret false
      else let* current := ask NSettings in Ret (eqb_of current settings).

(** [ModelRuntime._count_allowed] *)
Definition count_allowed (count : json) (p : ModelPrompt) (deadline : spec_float) : nprog bool :=
  if negb (match as_int count with Some n => between 0 (prompt_tokens p) n | None => false end) then
    Raise (ValueError "provider count exceeds reservation or has invalid type")
  else stage_allowed deadline.

(** The adapter's methods that reach the provider *)
Definition adapter_invoke (sent : string * string) (limit : Z) : nprog AIMessage := ask (NInvoke sent limit).
Definition adapter_generate (sent : string * string) (limit : Z) (granted : result bool) : nprog AIMessage :=
  ask (NGenerate sent limit granted).

(** [ModelRuntime._dispatch] *)
Definition run_dispatch (p : ModelPrompt) (deadline : spec_float)
  : nprog (AIMessage * spec_float * option ProviderDetails) :=
  let sent := langchain_messages p in
  if eqb_of (ms_accounting settings) fixture_exact then
    let* started := ask NMonotonic in
    let* m := adapter_invoke sent (ms_output_limit settings) in
    let* ended := ask NMonotonic in
    Ret (m, float_sub ended started, None)
  else
    let* staged := ask NStaged in
    if negb staged then Raise (ValueError "provider ceiling requires staged adapter")
    else
      let* count := ask (NCount sent (ms_output_limit settings)) in
      let* granted := attempt (count_allowed count p deadline) in
      let* m := adapter_generate sent (ms_output_limit settings) granted in
      let* raw := ask (NDetails m) in
      let* details := lift (ProviderDetails_validate raw) in
      if prompt_tokens p <? counted_input_tokens details then
        Raise (ValueError "provider count exceeds reserved ceiling")
      else Ret (m, generation_seconds details, Some details).

(** The usage of the message, validated *)
Definition run_usage (m : AIMessage) : nprog (option ProviderUsage) :=
  let* projected := ask (NUsage m) in
  match projected with
  | Some u => let* u := lift (ProviderUsage_validate u) in Ret (Some u)
  | None => Ret None
  end.

Definition usage_fits (p : ModelPrompt) (details : option ProviderDetails) (usage : option ProviderUsage) : bool :=
  let expected := match details with Some d => counted_input_tokens d | None => prompt_tokens p end in
  match usage with
  | Some u => (input_tokens u =? expected) && (input_tokens u <=? prompt_tokens p) &&
              (output_tokens u <=? ms_output_limit settings)
  | None => true
  end.

(** [{**result.model_dump(), "provider_details": details}] *)
Definition with_details (o : ModelObservation) (d : option ProviderDetails) : ModelObservation :=
  {| mo_status := mo_status o; mo_decision := mo_decision o; mo_usage := mo_usage o;
     provider_seconds := provider_seconds o; output_sha256 := output_sha256 o; provider_details := d |}.

(** What [_invoke] does once the usage is known *)
Definition run_finish (p : ModelPrompt) (evidence_ids causes : gset string) (deadline : spec_float)
  (m : AIMessage) (secs : spec_float) (details : option ProviderDetails) (usage : option ProviderUsage)
  : nprog ModelObservation :=
  if negb (usage_fits p details usage) then
    Raise (ValueError "provider usage violates prepared token contract")
  else
    let* decided := lift (decision_of m usage secs evidence_ids causes) in
    if match details with Some d => normalized_refusal d | None => false end &&
       negb (eqb_of (mo_status decided) MS_REFUSED) then
      Raise (ValueError "normalized provider refusal differs from parsed decision")
    else
      let* allowed := stage_allowed deadline in
      let* final := (if allowed : bool then Ret decided
                     else lift (ModelObservation_validate (observation MS_DENIED usage (Some secs) None))) in
      lift (ModelObservation_validate (with_details final details)).

(** The handlers of [_invoke], with what was assigned when the exception was raised *)
Definition run_failed (usage : option ProviderUsage) (secs : option spec_float)
  (details : option ProviderDetails) (e : exn) : nprog ModelObservation :=
  lift (ModelObservation_validate
    (observation (if is_PermissionError e then MS_DENIED else MS_ERROR) usage secs details)).

(** [ModelRuntime._invoke] *)
Definition run_invoke (p : ModelPrompt) (evidence_ids causes : gset string) (deadline : spec_float)
  : nprog ModelObservation :=
  let* first := attempt
    (let* allowed := stage_allowed deadline in
     if negb allowed then Ret None
     else let* sent := run_dispatch p deadline in Ret (Some sent)) in
  match first with
  | inl e => run_failed None None None e
  | inr None => Ret (bare MS_DENIED)
  | inr (Some (m, secs, details)) =>
      let* second := attempt (run_usage m) in
      match second with
      | inl e => run_failed None (Some secs) details e
      | inr usage => catch (run_finish p evidence_ids causes deadline m secs details usage)
                       (fun _ => true) (run_failed usage (Some secs) details)
      end
  end.

(** [ModelRuntime._call] *)
Definition run_call_model (p : ModelPrompt) (evidence_ids causes : gset string) (deadline : spec_float)
  : nprog CompletedModel :=
  finally
    (let* o := run_invoke p evidence_ids causes deadline in
     let* now := ask NMonotonic in
     Ret {| cm_observation := o; finished_at := now |})
    (ask NRelease).

(** [ModelRuntime._authority] *)
Definition run_authority : nprog (bool * spec_float) :=
  finally (let* allowed := ask NAuthorize in let* now := ask NMonotonic in Ret (allowed, now))
    (ask NRelease).
End worker.

(** ** The caller *)

Inductive Authority : Type := AU_OK | AU_DENIED | AU_BUSY | AU_TIMEOUT | AU_ERROR.
#[export] Instance Authority_eq_dec : EqDecision Authority.
Proof. solve_decision. Defined.

(** [MAwaitCall] and [MAwaitAuthority] answer [None] when [future.result] timed out. *)
Inductive rt_call : Type :=
  | MClosed
  | MMonotonic
  | MAcquire
  | MRelease
  | MTokens (messages : string * string)
  | MSubmitAuthority
  | MAwaitAuthority (timeout : spec_float)
  | MSubmitCall (p : ModelPrompt) (evidence_ids causes : gset string) (deadline : spec_float)
  | MAwaitCall (timeout : spec_float)
  | MClose.

Definition rt_answer (c : rt_call) : Type :=
  match c with
  | MClosed | MAcquire => bool
  | MMonotonic => spec_float
  | MTokens _ => Z
  | MRelease | MSubmitAuthority | MSubmitCall _ _ _ _ | MClose => unit
  | MAwaitAuthority _ => option (bool * spec_float)
  | MAwaitCall _ => option CompletedModel
  end.

Section runtime.
Context {C : Type} {R : C -> Type}.
Context (ask : forall c : rt_call, prog R (rt_answer c)).
Context (settings : ModelSettings).

(** [ModelRuntime.prepare] *)
Definition prepare (system data : string) : prog R ModelPrompt :=
  let sent n := {| messages := ({| role := system_role; content := system |},
                                {| role := user_role; content := data |});
                   prompt_tokens := n; prompt_accounting := ms_accounting settings |} in
  let* provisional := lift (ModelPrompt_validate (sent 0)) in
  let* count := ask (MTokens (langchain_messages provisional)) in
  let* prepared := lift (ModelPrompt_validate (sent count)) in
  if (input_token_limit settings <? prompt_tokens prepared)
     || eqb_of (ms_accounting settings) provider_ceiling
        && negb (prompt_tokens prepared =? input_token_limit settings) then
    Raise (ValueError "prepared prompt exceeds model input allowance")
  else Ret prepared.

(** [max(0, deadline - monotonic())] *)
Definition time_left (deadline : spec_float) : prog R spec_float :=
  let* now := ask MMonotonic in Ret (float_max float_zero (float_sub deadline now)).

(** A submission that fails gives the slot back. *)
Definition or_free {A} (m : prog R A) : prog R A :=
  catch m (fun _ => true) (fun e => do* ask MRelease in Raise e).

(** [ModelRuntime.authority] *)
Definition authority : prog R Authority :=
  let* closed := ask MClosed in
  let* got := (if closed : bool then Ret false else ask MAcquire) in
  if negb got then Ret AU_BUSY
  else
    let* deadline := or_free
      (let* now := ask MMonotonic in
       do* ask MSubmitAuthority in
       Ret (float_add now (float_min (float_of_Z 8) (timeout_seconds settings)))) in
    catch
      (let* timeout := time_left deadline in
       let* done := ask (MAwaitAuthority timeout) in
       match done with
       | None => Ret AU_TIMEOUT
       | Some (allowed, completed) =>
           if SFltb deadline completed then Ret AU_TIMEOUT
           else Ret (if allowed : bool then AU_OK else AU_DENIED)
       end)
      (fun _ => true) (fun _ => Ret AU_ERROR).

(** [ModelRuntime.observe] *)
Definition observe (p : ModelPrompt) (evidence_ids causes : gset string) : prog R ModelObservation :=
  let* p := lift (ModelPrompt_validate p) in
  let* closed := ask MClosed in
  if (input_token_limit settings <? prompt_tokens p) || closed
     || negb (eqb_of (prompt_accounting p) (ms_accounting settings)) then
    Raise (ValueError "model runtime closed or prompt exceeds input allowance")
  else
    let* got := ask MAcquire in
    if negb got then Ret (bare MS_BUSY)
    else
      let* deadline := or_free
        (let* now := ask MMonotonic in
         let deadline := float_add now (timeout_seconds settings) in
         do* ask (MSubmitCall p evidence_ids causes deadline) in
         Ret deadline) in
      catch
        (let* timeout := time_left deadline in
         let* done := ask (MAwaitCall timeout) in
         match done with
         | None => Ret (bare MS_TIMEOUT)
         | Some c => Ret (if SFleb (finished_at c) deadline then cm_observation c else bare MS_TIMEOUT)
         end)
        (fun _ => true) (fun _ => Ret (bare MS_ERROR)).

(** [ModelRuntime.close] *)
Definition runtime_close : prog R unit := ask MClose.
End runtime.
