(* ===== verification/Wire.v ===== *)
(** * The provider's wire format: [payops/orchestrator/openai_wire.py]

    What is accepted of a provider's raw JSON, before anything is built from it: strict
    decoding under byte, nesting and number bounds, exact counters, and exactly one
    completed text or refusal. *)

From S2P Require Import Prelude Json Digest Reasoning.

Open Scope string_scope.
Open Scope list_scope.
Open Scope Z_scope.
Open Scope result_scope.

(** The model the responses must name *)
Definition PROVIDER_MODEL : string := "gpt-5.4-mini-2026-03-17".

(** [json.loads(raw.decode("utf-8", errors="strict"), ...)] with the hooks for objects,
    constants and floats; [float] of a numeral; the separators and the key order of
    [json.dumps]. *)
Inductive dump_style : Type := plain | compact | compact_sorted.

Class WireText : Type := {
  wire_loads : (list (string * json) -> result (list (string * json))) -> (string -> result json) ->
    (string -> result spec_float) -> string -> result json;
  float_of_text : string -> spec_float;
  dumps : dump_style -> json -> string;
}.

(** [UnicodeError] is a subclass of [ValueError]; both handlers of [decode] end alike. *)
Definition is_undecodable (e : exn) : bool :=
  is_RecursionError e || eqb_of e (ValueError "UnicodeError").

(** [_depth] *)
Fixpoint depth (level : Z) (value : json) {struct value} : result unit :=
  if 24 <? level then Err (ValueError "provider JSON nesting exceeds bound")
  else match value with
       | JObj o =>
           (fix go (o : list (string * json)) : result unit :=
              match o with
              | [] => Ok tt
              | (_, child) :: o => let! _ := depth (level + 1) child in go o
              end) o
       | JList l =>
           (fix go (l : list json) : result unit :=
              match l with
              | [] => Ok tt
              | child :: l => let! _ := depth (level + 1) child in go l
              end) l
       | _ => Ok tt
       end.

(** [object_value] *)
Definition provider_object (value : json) : result (list (string * json)) :=
  match value with JObj o => Ok o | _ => Err (ValueError "provider object required") end.

(** [_constant] *)
Definition wire_constant (value : string) : result json := Err (ValueError "nonfinite provider JSON").

Section wire.
Context `{WireText}.

(** [_finite] *)
Definition wire_finite (value : string) : result spec_float :=
  let number := float_of_text value in
  if is_finite number then Ok number else Err (ValueError "nonfinite provider JSON").

(** [decode] *)
Definition decode (raw : string) (limit : Z) : result (list (string * json)) :=
  if limit <? str_len raw then Err (ValueError "provider response exceeds byte bound")
  else rcatch
    (let! value := wire_loads unique_keys wire_constant wire_finite raw in
     let! _ := depth 0 value in
     provider_object value)
    is_undecodable (fun _ => Err (ValueError "invalid provider JSON")).
End wire.

(** [count] *)
Definition wire_count (value : json) : result Z :=
  match value with
  | JInt n => if between 0 10000000 n then Ok n else Err (ValueError "invalid provider counter")
  | _ => Err (ValueError "invalid provider counter")
  end.

(** [set(value) == {...}] *)
Definition keys_are (d : list (string * json)) (names : list string) : bool :=
  bool_decide (list_to_set (C:=gset string) d.*1 = list_to_set names).

(** [server_count] *)
Definition server_count (value : list (string * json)) (ceiling : Z) : result Z :=
  let! shaped :=
    (if negb (keys_are value ["object"; "input_tokens"]) then Ok false
     else let! kind := ditem value "object" in Ok (is_str kind "response.input_tokens")) in
  if negb shaped then Err (ValueError "invalid provider count envelope")
  else
    let! raw := ditem value "input_tokens" in
    let! n := wire_count raw in
    if ceiling <? n then Err (ValueError "provider count exceeds input reservation") else Ok n.

(** [counters.get(key, 0)] *)
Fixpoint counter_of (d : list (string * Z)) (key : string) : Z :=
  match d with
  | [] => 0
  | (k, n) :: d => if decide (k = key) then n else counter_of d key
  end.

(** [_details] *)
Definition details_of (value : json) (supported : string) : result Z :=
  let! details := provider_object value in
  let! counters := rmap (fun kv => let! n := wire_count kv.2 in Ok (kv.1, n)) details in
  if existsb (fun kv => negb (kv.2 =? 0) && negb (eqb_of kv.1 supported)) counters
  then Err (ValueError "unsupported provider billing category")
  else Ok (counter_of counters supported).

Definition usage_fields : list string :=
  ["input_tokens"; "output_tokens"; "total_tokens"; "input_tokens_details"; "output_tokens_details"].

(** [raw_usage] *)
Definition raw_usage (value : json) (measured output_limit : Z) : result (option ProviderUsage) :=
  match value with
  | JNull => Ok None
  | _ =>
      let! raw := provider_object value in
      if negb (keys_are raw usage_fields) then Err (ValueError "invalid provider usage fields")
      else
        let! inputs := ditem raw "input_tokens_details" in
        let! cached := details_of inputs "cached_tokens" in
        let! outputs := ditem raw "output_tokens_details" in
        let! reasoning := details_of outputs "reasoning_tokens" in
        let! i := ditem raw "input_tokens" in
        let! i := wire_count i in
        let! o := ditem raw "output_tokens" in
        let! o := wire_count o in
        let! t := ditem raw "total_tokens" in
        let! t := wire_count t in
        let! usage := ProviderUsage_validate
          {| input_tokens := i; output_tokens := o; total_tokens := t; cached_input_tokens := cached |} in
        if negb (input_tokens usage =? measured) || (output_limit <? output_tokens usage)
           || (output_tokens usage <? reasoning)
        then Err (ValueError "provider usage disagrees with request bounds")
        else Ok (Some usage)
  end.

(** [REFUSAL]: the decision an explicit refusal is replaced by, and its text *)
Definition refusal_decision : ReasoningDecision :=
  {| dec_kind := refuse; dec_summary := "Provider declined this request."; dec_reads := [];
     dec_hypotheses := [] |}.
Definition refusal_json : json :=
  JObj [("decision", JStr "refuse"); ("summary", JStr "Provider declined this request.");
        ("reads", JList []); ("hypotheses", JList [])].
Definition REFUSAL : string := default EmptyString (print_json false refusal_json).

(** [response_text] *)
Definition response_text (value : list (string * json)) : result (string * bool) :=
  if negb (is_str (dget value "object") "response") || negb (is_str (dget value "model") PROVIDER_MODEL)
     || negb (is_str (dget value "service_tier") "default") || negb (is_str (dget value "status") "completed")
     || negb (is_none (dget value "error")) || negb (is_none (dget value "incomplete_details"))
  then Err (ValueError "provider response is not a completed bound model result")
  else match dget value "output" with
  | JList [item] =>
      let! message := provider_object item in
      if negb (is_str (dget message "type") "message") || negb (is_str (dget message "role") "assistant")
         || negb (is_str (dget message "status") "completed")
      then Err (ValueError "unsupported provider output item")
      else match dget message "content" with
      | JList [item] =>
          let! block := provider_object item in
          let refusal := is_str (dget block "type") "refusal" in
          let unsupported := Err (ValueError "unsupported or oversized provider text") in
          let! known := (match dget block "type" with
                         | JStr kind => Ok (refusal || eqb_of kind "output_text")
                         | JList _ | JObj _ => Err (OtherError "TypeError")
                         | _ => Ok false
                         end) in
          if negb known then unsupported
          else match dget block (if refusal then "refusal" else "text") with
               | JStr text =>
                   if eqb_of text EmptyString || (16384 <? str_len text) then unsupported
                   else Ok (if refusal then REFUSAL else text, refusal)
               | _ => unsupported
               end
      | _ => Err (ValueError "ambiguous provider content")
      end
  | _ => Err (ValueError "ambiguous provider output")
  end.

(** ** What the parsers guarantee *)

Lemma wire_count_ok value n : wire_count value = Ok n -> value = JInt n /\ 0 <= n <= 10000000.
Proof.
  destruct value; cbn; try done. destruct (between _ _ _) eqn:Hb; [|done]. intros [= <-].
  by apply between_spec in Hb.
Qed.

Lemma server_count_ok value ceiling n : server_count value ceiling = Ok n -> 0 <= n <= ceiling.
Proof.
  unfold server_count. intros (shaped & _ & Hv)%rbind_inr. revert Hv. destruct (negb shaped); [done|].
  intros (raw & _ & (m & [_ Hm]%wire_count_ok & Hlim)%rbind_inr)%rbind_inr.
  destruct (ceiling <? m) eqn:Hc; [done|]. injection Hlim as <-. apply Z.ltb_ge in Hc. lia.
Qed.

Lemma ProviderUsage_same u u' : ProviderUsage_validate u = Ok u' -> u' = u.
Proof. unfold ProviderUsage_validate. repeat (destruct_guard; [done|]). by intros [= ->]. Qed.

Lemma raw_usage_ok value measured limit u :
  raw_usage value measured limit = Ok (Some u) ->
  input_tokens u = measured /\ output_tokens u <= limit /\ ProviderUsage_validate u = Ok u.
Proof.
  unfold raw_usage. destruct value; try done. intros (raw & _ & Hu)%rbind_inr. revert Hu.
  destruct_guard; [done|].
  intros (? & _ & (? & _ & (? & _ & (? & _ & (? & _ & (? & _ & (? & _ & (? & _ & (? & _ & (? & _ & Hu)
    %rbind_inr)%rbind_inr)%rbind_inr)%rbind_inr)%rbind_inr)%rbind_inr)%rbind_inr)%rbind_inr)%rbind_inr)%rbind_inr.
  apply rbind_inr in Hu as (usage & Hv & Hu). revert Hu. destruct_guard; [done|]. intros [= <-].
  pose proof (ProviderUsage_same _ _ Hv) as ->. pybool. split_and!; [tauto|lia|done].
Qed.

(** The guard in front of an outcome that ends with a value did not raise. *)
Ltac pass_guard :=
  cbv beta zeta; lazymatch goal with |- (if ?b then _ else _) = _ -> _ => destruct b eqn:?; [by intros [=]|] end.

Lemma response_text_ok value text refused :
  response_text value = Ok (text, refused) ->
  text <> EmptyString /\ str_len text <= 16384 /\ (refused = true -> text = REFUSAL).
Proof.
  unfold response_text. pass_guard.
  destruct (dget value "output") as [| | | | |[|item []]|]; try by intros [=].
  intros (message & _ & Hv)%rbind_inr. revert Hv. pass_guard.
  destruct (dget message "content") as [| | | | |[|block []]|]; try by intros [=].
  intros (b & _ & (known & _ & Hv)%rbind_inr)%rbind_inr. revert Hv. pass_guard.
  destruct (dget b (if is_str _ _ then _ else _)) as [| | | |t| |]; try by intros [=]. pass_guard.
  match goal with H : eqb_of t _ || _ = false |- _ =>
    apply orb_false_iff in H as [Hne%eqb_of_false_1 Hlen%Z.ltb_ge] end.
  destruct (is_str (dget b "type") "refusal"); intros [= <- <-]; [|by split_and!].
  split_and!; [by vm_compute|by vm_compute|done].
Qed.
