(* ===== verification/Adapters.v ===== *)
(** * Provider adapters: [payops/orchestrator/openai_adapter.py], [local_llama.py] and
    [local_schema.py]

    The two staged adapters as programs over the clock, their slot and the HTTP stream: count
    the prompt, ask the host's hook with the count, generate, and validate the answer. *)

From S2P Require Import Prelude Text Json Digest Effects Reasoning Budget Diagnostics Runtime Wire.

Open Scope string_scope.
Open Scope list_scope.
Open Scope Z_scope.
Open Scope result_scope.
Open Scope prog_scope.

(** ** What an adapter asks for *)

(** The status and the headers the adapters read *)
Record http_head : Type := {
  status_code : Z;
  content_encoding : option string;
  content_type : option string;
  content_length : option string;
}.

(** [AStream] opens the one response of a POST; [AChunk] is its next chunk, never empty, or
    [None] at its end.  [ALoggers]: a transport logger is enabled below the allowed level.
    [AHook] is [before_generation(count) is True]. *)
Inductive ad_call : Type :=
  | AClosed
  | AAcquire
  | AReleaseSlot
  | AMonotonic
  | ALoggers
  | AStream (path body : string) (timeout : spec_float)
  | AChunk
  | ACloseStream
  | AHook (count : Z)
  | AShutdown.

Definition ad_answer (c : ad_call) : Type :=
  match c with
  | AClosed | AAcquire | ALoggers | AHook _ => bool
  | AReleaseSlot | ACloseStream | AShutdown => unit
  | AMonotonic => spec_float
  | AStream _ _ _ => http_head
  | AChunk => option (Ascii.ascii * string)
  end.

Abbreviation dprog := (prog ad_answer).
Abbreviation dask := (call (R:=ad_answer)) (only parsing).

(** ** Messages *)

(** A [BaseMessage] by its exact type; [None] is a content that is not a string. *)
Inductive base_message : Type :=
  | SystemMessage (content : option string)
  | HumanMessage (content : option string)
  | OtherMessage (content : option string).

Definition message_text (m : base_message) : option string :=
  match m with SystemMessage c | HumanMessage c | OtherMessage c => c end.

(** The texts of one system message and one human message, in this order *)
Definition fixed_roles (messages : list base_message) : option (option string * option string) :=
  match messages with
  | [SystemMessage s; HumanMessage d] => Some (s, d)
  | _ => None
  end.

(** [ValidatedAIMessage] and [from_validated] *)
Record ValidatedAIMessage : Type := {
  vm_content : string;
  vm_usage : option ProviderUsage;
  vm_details : option ProviderDetails;
  vm_shape_sha256 : string;
  vm_refusal : bool;
}.

Definition from_validated (text : string) (usage : option ProviderUsage) (details : ProviderDetails)
  (digest : string) (refusal : bool) : ValidatedAIMessage :=
  {| vm_content := text; vm_usage := usage; vm_details := Some details; vm_shape_sha256 := digest;
     vm_refusal := refusal |}.

(** [validated_usage] and [provider_details] *)
Definition validated_usage (m : ValidatedAIMessage) : result (option ProviderUsage) :=
  match vm_usage m with
  | Some u => let! u := ProviderUsage_validate u in Ok (Some u)
  | None => Ok None
  end.

Definition message_details (m : ValidatedAIMessage) : result ProviderDetails :=
  match vm_details m with
  | Some d => ProviderDetails_validate d
  | None => Err (ValueError "provider response details missing")
  end.

(** [usage] and [details] of an adapter; [None] is a message of any other type. *)
Definition adapter_usage (m : option ValidatedAIMessage) : result (option ProviderUsage) :=
  match m with Some m => validated_usage m | None => Err (ValueError "unvalidated message") end.
Definition adapter_details (m : option ValidatedAIMessage) : result ProviderDetails :=
  match m with Some m => message_details m | None => Err (ValueError "unvalidated message") end.

(** ** Local schemas *)

(** [TypeAdapter.json_schema] of the two decision types, the schema of [ReasoningDecision], and
    [JSON_OBJECT.validate_json] *)
Class Schemas : Type := {
  local_schema : bool -> list (string * json);
  decision_schema : json;
  object_of_text : string -> result (list (string * json));
}.

(** [_inline]; [frames] bounds the nesting of the references the interpreter can follow. *)
Fixpoint inline (frames : nat) (definitions : list (string * json)) (value : json) {struct frames}
  : result json :=
  match frames with
  | O => Err (OtherError "RecursionError")
  | S frames =>
      match value with
      | JList l => let! l := rmap (inline frames definitions) l in Ok (JList l)
      | JObj o =>
          match dget o "$ref" with
          | JStr reference =>
              match after_prefix "#/$defs/" reference with
              | Some name =>
                  if negb (len o =? 1) then Err (ValueError "unsupported local schema reference")
                  else let! definition := ditem definitions name in inline frames definitions definition
              | None => Err (ValueError "unsupported local schema reference")
              end
          | _ =>
              let! o := rmap (fun kv => let! v := inline frames definitions kv.2 in Ok (kv.1, v))
                          (List.filter (fun kv => negb (eqb_of kv.1 "$defs")) o) in
              Ok (JObj o)
          end
      | _ => Ok value
      end
  end.

Definition schema_object (j : json) : result (list (string * json)) :=
  match j with JObj o => Ok o | _ => Err (ValueError "JSON_OBJECT") end.

Section adapters.
Context `{WireText, Schemas}.
Context (frames : nat).

(** [generation_schema] *)
Definition generation_schema (final_only : bool) : result (list (string * json)) :=
  let schema := local_schema final_only in
  let! definitions := ditem schema "$defs" in
  let! definitions := schema_object definitions in
  let! inlined := inline frames definitions (JObj schema) in
  schema_object inlined.

(** [final_prompt] *)
Definition final_prompt (text : string) : result bool :=
  match object_of_text text with
  | inl e => if is_ValueError e || is_RecursionError e then Ok false else Err e
  | inr data => Ok (py_eq (dget data "allowed_decisions") (JList [JStr "finish"; JStr "refuse"]))
  end.

(** ** The provider *)

Definition ORIGIN : string := "https://api.openai.com".
Definition COUNT_PATH : string := "/v1/responses/input_tokens".
Definition CREATE_PATH : string := "/v1/responses".
Definition STANDARD_PRICE : TextPrice :=
  {| input_nano_usd := 750; cached_input_nano_usd := 75; output_nano_usd := 4500 |}.

(** The settings and the key [OpenAIResponsesAdapter.__init__] accepts; [mocked] is the type
    check of [test_transport]. *)
Definition openai_settings (settings : ModelSettings) (api_key : string) (mocked : bool) : result unit :=
  if negb (ModelSettings_valid settings) then Err (ValueError "ModelSettings")
  else if negb (eqb_of (ms_provider settings) "openai" && eqb_of (ms_model settings) PROVIDER_MODEL &&
                negb (ms_fixture settings) && eqb_of (ms_accounting settings) provider_ceiling &&
                eqb_of (ms_price settings) STANDARD_PRICE && (input_token_limit settings <=? 16000) &&
                between 16 2048 (ms_output_limit settings)) then
    Err (ValueError "unsupported provider configuration")
  else if eqb_of api_key EmptyString || (4096 <? str_len api_key) || negb (str_all (ascii_between 33 126) api_key)
  then Err (ValueError "invalid operator credential format")
  else if negb mocked then Err (ValueError "only an explicit mock transport may replace the fixed transport")
  else Ok tt.

(** [_remaining] *)
Definition remaining (deadline : spec_float) : dprog spec_float :=
  let* now := dask AMonotonic in
  let rest := float_sub deadline now in
  if SFleb rest float_zero then Raise (TimeoutError "provider deadline exceeded") else Ret rest.

(** [_logging_safe] *)
Definition logging_safe : dprog unit :=
  let* noisy := dask ALoggers in
  if noisy : bool then Raise (ValueError "provider transport debug logging must be disabled") else Ret tt.

(** A content that may be sent *)
Definition prompt_text_ok (text : option string) : bool :=
  match text with
  | Some t => negb (eqb_of t EmptyString) && (str_len t <=? 32768)
  | None => false
  end.

(** [_shape] *)
Definition shape_json (system data : string) : json :=
  JObj [("model", JStr PROVIDER_MODEL);
        ("input", JList [JObj [("role", JStr "system"); ("content", JStr system)];
                         JObj [("role", JStr "user"); ("content", JStr data)]]);
        ("reasoning", JObj [("effort", JStr "none")]);
        ("text", JObj [("format", JObj [("type", JStr "json_schema"); ("name", JStr "payops_decision");
                                        ("strict", JBool true); ("schema", decision_schema)])])].

Definition shape (messages : list base_message) : result string :=
  match fixed_roles messages with
  | None => Err (ValueError "provider requires fixed host message roles")
  | Some (system, data) =>
      if negb (prompt_text_ok system && prompt_text_ok data) then Err (ValueError "invalid provider prompt text")
      else
        let raw := dumps compact_sorted (shape_json (default EmptyString system) (default EmptyString data)) in
        if 65536 <? str_len raw then Err (ValueError "provider prompt exceeds request byte bound") else Ok raw
  end.

(** [text.split(";", 1)[0]] *)
Definition before_semicolon (text : string) : string :=
  match partition (Ascii.ascii_of_nat 59) text with Some (a, _) => a | None => text end.

(** The loop over [response.iter_raw()]: a chunk has at least one byte, so [S limit] rounds
    pass the limit. *)
Fixpoint read_body (rounds : nat) (limit : Z) (deadline : spec_float) (data : string) : dprog string :=
  match rounds with
  | O => Raise (ValueError "provider response exceeds byte bound")
  | S rounds =>
      let* chunk := dask AChunk in
      match chunk with
      | None => Ret data
      | Some (first, rest) =>
          do* remaining deadline in
          let data := data +:+ String first rest in
          if limit <? str_len data then Raise (ValueError "provider response exceeds byte bound")
          else read_body rounds limit deadline data
      end
  end.

(** [_post] of the provider *)
Definition provider_post (path body : string) (limit : Z) (deadline : spec_float)
  : dprog (list (string * json)) :=
  if negb (bool_decide (path ∈ [COUNT_PATH; CREATE_PATH])) then
    Raise (ValueError "unsupported provider endpoint")
  else
    let* rest := remaining deadline in
    let* head := dask (AStream path body rest) in
    finally
      (do* remaining deadline in
       if negb (status_code head =? 200) then Raise (ValueError "provider request failed")
       else if negb (eqb_of (default "identity" (content_encoding head)) "identity") then
         Raise (ValueError "compressed provider response unsupported")
       else if negb (eqb_of (before_semicolon (default EmptyString (content_type head))) "application/json") then
         Raise (ValueError "provider JSON media type required")
       else
         let* fits := lift (match content_length head with
                            | Some n => if is_digits n then let! n := int_of n in Ok (n <=? limit) else Ok false
                            | None => Ok true
                            end) in
         if negb fits then Raise (ValueError "provider response exceeds byte bound")
         else
           let* data := read_body (S (Z.to_nat limit)) limit deadline EmptyString in
           do* remaining deadline in
           lift (decode data limit))
      (dask ACloseStream).

(** [generation.update({...})] *)
Definition generation_json (shape : list (string * json)) (output_limit : Z) : list (string * json) :=
  foldl (fun d kv => dset d kv.1 kv.2) shape
    [("max_output_tokens", JInt output_limit); ("stream", JBool false); ("background", JBool false);
     ("store", JBool false); ("service_tier", JStr "default"); ("truncation", JStr "disabled")].

(** The [try] block of [OpenAIResponsesAdapter.invoke_staged] *)
Definition openai_stages (settings : ModelSettings) (messages : list base_message) (output_limit : Z)
  : dprog ValidatedAIMessage :=
  let* now := dask AMonotonic in
  let deadline := float_add now (float_min (float_of_Z 25) (timeout_seconds settings)) in
  if negb (output_limit =? ms_output_limit settings) then
    Raise (ValueError "provider output cap differs from configured bound")
  else
    do* logging_safe in
    let* shaped := lift (shape messages) in
    let* count_started := dask AMonotonic in
    let* counted := provider_post COUNT_PATH shaped 16384 deadline in
    let* measured := lift (server_count counted (input_token_limit settings)) in
    let* now := dask AMonotonic in
    let count_seconds := float_sub now count_started in
    do* remaining deadline in
    let* granted := dask (AHook measured) in
    if negb granted then Raise (PermissionError "provider stage authority denied")
    else
      do* remaining deadline in
      do* logging_safe in
      let* generation := lift (decode shaped 65536) in
      let* generation_started := dask AMonotonic in
      let* raw := provider_post CREATE_PATH (dumps compact (JObj (generation_json generation output_limit)))
                    131072 deadline in
      let* now := dask AMonotonic in
      let generation_seconds := float_sub now generation_started in
      let* usage := lift (raw_usage (dget raw "usage") measured output_limit) in
      let* (text, refused) := lift (response_text raw) in
      do* remaining deadline in
      let* details := lift (ProviderDetails_validate
        {| counted_input_tokens := measured; count_seconds := count_seconds;
           generation_seconds := generation_seconds; request_shape_sha256 := sha256_hex shaped;
           normalized_refusal := refused |}) in
      Ret (from_validated text usage details (sha256_hex shaped) refused).

(** [httpx.TimeoutException] is not a [TimeoutError]. *)
Definition is_timeout (e : exn) : bool := is_TimeoutError e || eqb_of e (OtherError "TimeoutException").

(** The [except] clauses of [invoke_staged] *)
Definition provider_failure (e : exn) : exn :=
  if is_timeout e then TimeoutError "provider transport deadline exceeded"
  else if is_PermissionError e then PermissionError "provider authority denied"
  else ValueError "provider protocol failure".

(** One invocation at a time *)
Definition slotted {A} (busy : string) (m : dprog A) : dprog A :=
  let* closed := dask AClosed in
  let* got := (if closed : bool then Ret false else dask AAcquire) in
  if negb got then Raise (PermissionError busy) else finally m (dask AReleaseSlot).

(** [OpenAIResponsesAdapter.invoke_staged], [count_tokens], [invoke] and [close] *)
Definition openai_invoke_staged (settings : ModelSettings) (messages : list base_message) (output_limit : Z)
  : dprog ValidatedAIMessage :=
  slotted "provider adapter unavailable"
    (catch (openai_stages settings messages output_limit) (fun _ => true) (fun e => Raise (provider_failure e))).

Definition openai_count_tokens (settings : ModelSettings) (messages : list base_message) : result Z :=
  let! _ := shape messages in Ok (input_token_limit settings).
Definition openai_invoke : result ValidatedAIMessage :=
  Err (PermissionError "provider requires staged runtime invocation").
Definition adapter_close : dprog unit := dask AShutdown.

(** ** The local model *)

Definition LOCAL_ORIGIN : string := "http://127.0.0.1:18089".
Definition LOCAL_MODEL : string := "payops-qwen3-1.7b-q4-k-m".
Definition QWEN25_MODEL : string := "payops-qwen2.5-3b-instruct-q4-k-m".
Definition LOCAL_MODELS : list string := [LOCAL_MODEL; QWEN25_MODEL].
Definition ZERO_PRICE : TextPrice :=
  {| input_nano_usd := 0; cached_input_nano_usd := 0; output_nano_usd := 0 |}.

(** The settings [LocalLlamaAdapter.__init__] accepts *)
Definition llama_settings (settings : ModelSettings) : result unit :=
  if negb (ModelSettings_valid settings) then Err (ValueError "ModelSettings")
  else if negb (eqb_of (ms_provider settings) "local_llama" && bool_decide (ms_model settings ∈ LOCAL_MODELS) &&
                negb (ms_fixture settings) && eqb_of (ms_accounting settings) provider_ceiling &&
                eqb_of (ms_price settings) ZERO_PRICE &&
                (input_token_limit settings + ms_output_limit settings <=? 8192)) then
    Err (ValueError "unsupported zero-spend model configuration")
  else Ok tt.

(** The special tokens of the template *)
Definition special_tokens : list string := ["<|im_start|>"; "<|im_end|>"; "<|endoftext|>"].

Definition local_text_ok (text : option string) : bool :=
  prompt_text_ok text &&
  negb (existsb (fun token => str_contains token (default EmptyString text)) special_tokens).

Definition newline : string := chr 10.

(** [framed_prompt] *)
Definition framed_prompt (model : string) (messages : list base_message) : result string :=
  match (if bool_decide (model ∈ LOCAL_MODELS) then fixed_roles messages else None) with
  | None => Err (ValueError "local model requires fixed host roles")
  | Some (system, data) =>
      if negb (local_text_ok system && local_text_ok data) then Err (ValueError "invalid local model prompt")
      else Ok ("<|im_start|>system" +:+ newline +:+ default EmptyString system +:+
               "<|im_end|>" +:+ newline +:+ "<|im_start|>user" +:+ newline +:+ default EmptyString data +:+
               "<|im_end|>" +:+ newline +:+ "<|im_start|>assistant" +:+ newline +:+
               (if eqb_of model LOCAL_MODEL
                then "<think>" +:+ newline +:+ newline +:+ "</think>" +:+ newline +:+ newline
                else EmptyString))
  end.

(** The loop over [response.iter_raw()]; the clock is read only while the body fits. *)
Fixpoint read_local (rounds : nat) (deadline : spec_float) (data : string) : dprog string :=
  match rounds with
  | O => Raise (TimeoutError "local model response exceeds bound")
  | S rounds =>
      let* chunk := dask AChunk in
      match chunk with
      | None => Ret data
      | Some (first, rest) =>
          let data := data +:+ String first rest in
          let* late := (if 131072 <? str_len data then Ret true
                        else let* now := dask AMonotonic in Ret (SFleb deadline now)) in
          if late : bool then Raise (TimeoutError "local model response exceeds bound")
          else read_local rounds deadline data
      end
  end.

(** [LocalLlamaAdapter._post] *)
Definition local_post (path : string) (payload : json) (deadline : spec_float)
  : dprog (list (string * json)) :=
  let* now := dask AMonotonic in
  let rest := float_sub deadline now in
  let raw := dumps compact payload in
  if SFleb rest float_zero || (131072 <? str_len raw) || negb (bool_decide (path ∈ ["/tokenize"; "/completion"]))
  then Raise (ValueError "local model request exceeds bound")
  else
    let* head := dask (AStream path raw rest) in
    let* data := finally
      (if negb (status_code head =? 200) || negb (eqb_of (default "identity" (content_encoding head)) "identity")
       then Raise (ValueError "local model transport failed")
       else read_local (S (Z.to_nat 131072)) deadline EmptyString)
      (dask ACloseStream) in
    lift (decode data 131072).

(** The tokens of the count request *)
Definition token_ok (t : json) : bool := match t with JInt n => between 0 200000 n | _ => false end.

Definition local_tokens (raw : list (string * json)) (limit : Z) : result (list json) :=
  match dget raw "tokens" with
  | JList tokens =>
      if negb (is_nonempty tokens) || (limit <? len tokens) || negb (forallb token_ok tokens)
      then Err (ValueError "invalid local tokenization") else Ok tokens
  | _ => Err (ValueError "invalid local tokenization")
  end.

(** [validated_message] *)
Definition validated_message (raw : list (string * json)) (details : ProviderDetails) (limit : Z)
  (model : string) : result ValidatedAIMessage :=
  let! value := decode (dumps plain (JObj raw)) 131072 in
  match dget value "content" with
  | JStr text =>
      if negb (bool_decide (model ∈ LOCAL_MODELS)) || negb (is_str (dget value "model") model)
         || negb (is_true (dget value "stop")) || negb (is_false (dget value "truncated"))
         || negb (is_str (dget value "stop_type") "eos") || eqb_of text EmptyString || (16384 <? str_len text)
      then Err (ValueError "incomplete local model response")
      else
        let! measured := wire_count (dget value "tokens_evaluated") in
        let! output := wire_count (dget value "tokens_predicted") in
        let! timings := provider_object (dget value "timings") in
        let! cached := ditem timings "cache_n" in
        let! cached := wire_count cached in
        if negb (measured =? counted_input_tokens details) || (limit <? output)
        then Err (ValueError "local usage disagrees with request")
        else
          let! usage := ProviderUsage_validate
            {| input_tokens := measured; output_tokens := output; total_tokens := measured + output;
               cached_input_tokens := cached |} in
          Ok (from_validated text (Some usage) details (request_shape_sha256 details) false)
  | _ => Err (ValueError "incomplete local model response")
  end.

Definition tokenize_json (prompt : string) : json :=
  JObj [("content", JStr prompt); ("add_special", JBool true); ("parse_special", JBool true)].

Definition completion_json (settings : ModelSettings) (tokens : list json) (output_limit : Z)
  (schema : list (string * json)) : json :=
  JObj [("prompt", JList tokens); ("model", JStr (ms_model settings)); ("n_predict", JInt output_limit);
        ("temperature", JInt 0); ("seed", JInt 0); ("stream", JBool false); ("cache_prompt", JBool false);
        ("json_schema", JObj schema)].

(** The [try] block of [LocalLlamaAdapter.invoke_staged] *)
Definition llama_stages (settings : ModelSettings) (messages : list base_message) (output_limit : Z)
  : dprog ValidatedAIMessage :=
  let* now := dask AMonotonic in
  let deadline := float_add now (timeout_seconds settings) in
  if negb (output_limit =? ms_output_limit settings) then
    Raise (ValueError "local output cap differs from configured bound")
  else
    let* prompt := lift (framed_prompt (ms_model settings) messages) in
    let* started := dask AMonotonic in
    let* raw := local_post "/tokenize" (tokenize_json prompt) deadline in
    let* tokens := lift (local_tokens raw (input_token_limit settings)) in
    let* now := dask AMonotonic in
    let count_seconds := float_sub now started in
    let* granted := dask (AHook (len tokens)) in
    let* late := (if negb granted then Ret true
                  else let* now := dask AMonotonic in Ret (SFleb deadline now)) in
    if late : bool then Raise (PermissionError "local generation authority denied")
    else
      let* started := dask AMonotonic in
      let* final := lift (final_prompt (default EmptyString (messages !! 1%nat ≫= message_text))) in
      let* schema := lift (generation_schema final) in
      let* result := local_post "/completion" (completion_json settings tokens output_limit schema) deadline in
      let* now := dask AMonotonic in
      let* details := lift (ProviderDetails_validate
        {| counted_input_tokens := len tokens; count_seconds := count_seconds;
           generation_seconds := float_sub now started; request_shape_sha256 := sha256_hex prompt;
           normalized_refusal := false |}) in
      lift (validated_message result details output_limit (ms_model settings)).

(** [LocalLlamaAdapter.invoke_staged], [count_tokens] and [invoke] *)
Definition llama_invoke_staged (settings : ModelSettings) (messages : list base_message) (output_limit : Z)
  : dprog ValidatedAIMessage :=
  slotted "local model adapter unavailable" (llama_stages settings messages output_limit).

Definition llama_count_tokens (settings : ModelSettings) (messages : list base_message) : result Z :=
  let! _ := framed_prompt (ms_model settings) messages in Ok (input_token_limit settings).
Definition llama_invoke : result ValidatedAIMessage :=
  Err (PermissionError "local model requires staged invocation").

(** ** Either adapter *)
Inductive provider : Type := openai | local_llama.

Definition invoke_staged (which : provider) (settings : ModelSettings) (messages : list base_message)
  (output_limit : Z) : dprog ValidatedAIMessage :=
  match which with
  | openai => openai_invoke_staged settings messages output_limit
  | local_llama => llama_invoke_staged settings messages output_limit
  end.
End adapters.
