(* ===== verification/Loop.v ===== *)
(** * The reasoning loop: [payops/orchestrator/loop.py]

    [LoopSession] as programs that thread its attributes and may stop: [LoopStopped] keeps
    what the session did so far, every other exception ends the run. *)

From stdpp Require Import pretty.
From S2P Require Import Prelude Text Json Digest Contracts Effects Reasoning Budget Investigation Baseline.
From S2P Require Import Diagnostics Artifacts Context Registry Runtime Records.

Open Scope string_scope.
Open Scope list_scope.
Open Scope Z_scope.
Open Scope result_scope.
Open Scope prog_scope.

(** What the host binds in [ReasoningLoop.__init__]; [deadline_ceiling] is the ceiling of
    the registries its factory builds. *)
Record ReasoningLoop : Type := {
  settings : ModelSettings;
  subject : string;
  causes : gset string;
  loop_limits : ReasoningBudget;
  deadline_ceiling : spec_float;
}.

(** The check of [ReasoningLoop.__init__] *)
Definition ReasoningLoop_valid (o : ReasoningLoop) : bool :=
  between 1 200 (str_len (subject o)) && between 1 64 (Z.of_nat (size (causes o))).

(** [settings.provider == "local_llama"] *)
Definition is_local (o : ReasoningLoop) : bool := eqb_of (ms_provider (settings o)) "local_llama".

(** The attributes of a [LoopSession] that change *)
Record Session : Type := mk_session {
  ss_evidence : list EvidenceItem;
  ss_receipts : list string;
  ss_feedback : list (list (string * json));
  reads_exhausted : bool;
  completed_reads : list ReadRequest;
  preferred_ids : gset string;
}.

Definition new_session (initial : list EvidenceItem) : Session := mk_session initial [] [] false [] ∅.

Definition add_receipt (d : string) (s : Session) : Session :=
  mk_session (ss_evidence s) (ss_receipts s ++ [d]) (ss_feedback s) (reads_exhausted s) (completed_reads s)
    (preferred_ids s).
Definition add_feedback (f : list (string * json)) (s : Session) : Session :=
  mk_session (ss_evidence s) (ss_receipts s) (ss_feedback s ++ [f]) (reads_exhausted s) (completed_reads s)
    (preferred_ids s).
Definition exhaust_reads (s : Session) : Session :=
  mk_session (ss_evidence s) (ss_receipts s) (ss_feedback s) true (completed_reads s) (preferred_ids s).
Definition accept_evidence (l : list EvidenceItem) (done : list ReadRequest) (ids : gset string)
  (s : Session) : Session :=
  mk_session l (ss_receipts s) (ss_feedback s) (reads_exhausted s) (completed_reads s ++ done) ids.

(** [f"{prefix}-{turn:02}"] *)
Definition op_name (prefix : string) (turn : Z) : string :=
  prefix +:+ "-" +:+ (if turn <? 10 then "0" else EmptyString) +:+ pretty turn.

(** [pydantic]'s text of a decision, which [json.loads] reads back *)
Definition kind_name (k : DecisionKind) : string :=
  match k with read => "read" | finish => "finish" | refuse => "refuse" end.

Definition request_json (r : ReadRequest) : json :=
  JObj [("tool", JStr (tool_name (tool r))); ("service", JStr (service_name (service r)));
        ("query", match query_text r with Some q => JStr q | None => JNull end)].

Definition cause_json (c : RankedCause) : json :=
  JObj [("cause_code", JStr (rc_cause_code c)); ("confidence", JFloat (rc_confidence c));
        ("supporting_evidence_ids", strings (rc_supporting c));
        ("refuting_evidence_ids", strings (rc_refuting c)); ("missing_evidence", strings (rc_missing c))].

Definition decision_json (d : ReasoningDecision) : json :=
  JObj [("decision", JStr (kind_name (dec_kind d))); ("summary", JStr (dec_summary d));
        ("reads", JList (map request_json (dec_reads d)));
        ("hypotheses", JList (map cause_json (dec_hypotheses d)))].

(** [decision.model_dump_json()] *)
Class DecisionText `{JsonLoads} : Type := {
  decision_text : ReasoningDecision -> string;
  loads_decision d : ReasoningDecision_validate d = Ok d ->
    json_loads unique_keys reject_constant (decision_text d) = Ok (decision_json d);
}.

Definition stop_of_model (s : ModelStatus) : StopReason :=
  match s with
  | MS_OK => SR_FINISHED | MS_REFUSED => SR_REFUSED | MS_INVALID_OUTPUT => SR_INVALID_OUTPUT
  | MS_ERROR => SR_ERROR | MS_TIMEOUT => SR_TIMEOUT | MS_DENIED => SR_DENIED | MS_BUSY => SR_BUSY
  end.
Definition stop_of_authority (a : Authority) : StopReason :=
  match a with
  | AU_OK => SR_FINISHED | AU_DENIED => SR_DENIED | AU_BUSY => SR_BUSY | AU_TIMEOUT => SR_TIMEOUT
  | AU_ERROR => SR_ERROR
  end.

Section loop.
Context `{BudgetCodec, Blob, !LoopCodec, PydanticText, JsonLoads, PyText, !SourceChecks, PromptText}.
Context `{!DecisionText}.

Abbreviation lprog := (prog loop_answer).

(** ** Code that threads a session and may stop *)

Definition session_prog (A : Type) : Type := Session -> lprog (Session * (StopReason + A)).

Definition done {A} (a : A) : session_prog A := fun s => Ret (s, inr a).
Definition stop {A} (r : StopReason) : session_prog A := fun s => Ret (s, inl r).
Definition modify (f : Session -> Session) : session_prog unit := fun s => Ret (f s, inr tt).
Definition get : session_prog Session := fun s => Ret (s, inr s).
Definition does {A} (m : lprog A) : session_prog A := fun s => let* a := m in Ret (s, inr a).
Definition and_then {A B} (m : session_prog A) (f : A -> session_prog B) : session_prog B :=
  fun s => let* out := m s in
           match out.2 with inl r => Ret (out.1, inl r) | inr a => f a out.1 end.

(** [try: m except LoopStopped as stopped: h] *)
Definition on_stop {A} (m : session_prog A) (h : StopReason -> session_prog A) : session_prog A :=
  fun s => let* out := m s in
           match out.2 with inl r => h r out.1 | inr a => Ret (out.1, inr a) end.

Notation "'let+' x := m 'in' k" := (and_then m (fun x => k))
  (at level 10, x pattern, m at level 100, k at level 200).
Notation "'do+' m 'in' k" := (and_then m (fun _ => k)) (at level 10, m at level 100, k at level 200).

Context (owner : ReasoningLoop) (incident : Incident) (binding : string).

Definition the_run : string := incident_id incident.

(** ** Supported causes *)

(** What a context lets the predicates see *)
Definition included (c : ReasoningContext) : list (string * string * json) :=
  map (fun e => (evidence_id (evidence e), resource (evidence e),
                 match facts e with Some o => JObj o | None => JNull end))
    (List.filter (fun e => negb (facts_omitted e) && negb (retrieved (source (evidence e)))) (entries c)).

(** [LoopSession.supports] *)
Definition supports (c : ReasoningContext) : result (list (string * list string)) := support_index (included c).

Definition indexed (index : list (string * list string)) (cause : string) : list string :=
  default [] (snd <$> List.find (fun kv => eqb_of kv.1 cause) index).

Definition hypothesis_supported (index : list (string * list string)) (h : RootCauseHypothesis) : bool :=
  forallb (fun i => bool_decide (i ∈ indexed index (cause_code h))) (supporting_evidence_ids h) &&
  negb (is_nonempty (refuting_evidence_ids h)).

(** [LoopSession.supported] *)
Definition supported (d : ReasoningDecision) (c : ReasoningContext) : result (list RootCauseHypothesis) :=
  let! values := hypotheses_of d in
  if negb (is_local owner) then Ok values
  else let! index := supports c in Ok (List.filter (hypothesis_supported index) values).

(** ** One model call *)

(** [LoopSession.context] *)
Definition context (s : Session) : lprog ReasoningContext :=
  let limit := if is_local owner then Z.max 128 (Z.min 4096 (input_token_limit (settings owner))) else 24000 in
  on_files (build_context (ss_evidence s) the_run limit 64 (is_local owner) (preferred_ids s)).

(** [LoopSession.prompt] *)
Definition prompt (s : Session) (turn : Z) (c : ReasoningContext) : lprog PreparedTurn :=
  let op := op_name "model" turn in
  let* checked := lift (if is_local owner then supports c else Ok []) in
  let terminal := is_local owner &&
    (is_nonempty checked || reads_exhausted s || (turn =? lim_model_calls (loop_limits owner))) in
  let data := dumps (JObj (prompt_data incident c (is_local owner) terminal checked (causes owner)
                       (ss_feedback s) turn (lim_model_calls (loop_limits owner)))) in
  let* prepared := prepare (on_model (the_run, op)) (settings owner)
                     (system_text (is_local owner) terminal) data in
  lift (PreparedTurn_validate
    {| pt_run_id := the_run; pt_operation_id := op; pt_binding_sha256 := binding;
       pt_context := c; pt_prompt := prepared |}).

(** [LoopSession.receipt] *)
Definition receipt (op : string) : session_prog string :=
  let+ digest := does (completion the_run op) in
  match digest with
  | None => stop SR_UNKNOWN_COMPLETION
  | Some d => do+ modify (add_receipt d) in done d
  end.

(** [context == saved], comparing facts as Python values *)
Definition same_facts (a b : option (list (string * json))) : bool :=
  match a, b with
  | Some a, Some b => py_eq (JObj a) (JObj b)
  | None, None => true
  | _, _ => false
  end.
Fixpoint same_entries (a b : list ContextEntry) : bool :=
  match a, b with
  | [], [] => true
  | x :: a, y :: b => eqb_of (evidence x) (evidence y) && same_facts (facts x) (facts y) &&
                      Bool.eqb (facts_omitted x) (facts_omitted y) && same_entries a b
  | _, _ => false
  end.
Definition same_context (a b : ReasoningContext) : bool :=
  same_entries (entries a) (entries b) && (omitted_count a =? omitted_count b).

Definition reserved (record : BudgetRecord) (op : string) : option Charge :=
  List.find (fun c => eqb_of (operation_id c) op) (charges record).

(** The charge of a prepared turn *)
Definition model_charge (op digest : string) (t : PreparedTurn) : Charge := Model
  {| mc_operation_id := op; prompt_sha256 := digest; mc_input_tokens := prompt_tokens (pt_prompt t);
     output_token_limit := ms_output_limit (settings owner); price := ms_price (settings owner);
     token_accounting := prompt_accounting (pt_prompt t);
     provider_requests := if eqb_of (prompt_accounting (pt_prompt t)) provider_ceiling then 2 else 0 |}.

(** The branch of [LoopSession.model] for an operation without a charge *)
Definition new_model_call (turn : Z) (c : ReasoningContext) (record : BudgetRecord) : session_prog Charge :=
  let op := op_name "model" turn in
  let+ s := get in
  let+ prepared := (let+ tried := does (catch (let* t := prompt s turn c in Ret (Some t)) is_ValueError
                                          (fun _ => Ret None)) in
                    match tried with Some t => done t | None => stop SR_BUDGET_EXHAUSTED end) in
  let+ digest := does (on_files (retain (turn_blob prepared))) in
  let+ charged := does (lift (CHARGE_validate (model_charge op digest prepared))) in
  let+ grant := does (on_ledger (budget_reserve record charged)) in
  if negb (eqb_of grant NEW) then stop SR_BUDGET_EXHAUSTED
  else
    let+ seen := does (observe (on_model (the_run, op)) (settings owner) (pt_prompt prepared)
                         (evidence_ids c) (causes owner)) in
    let+ r := does (lift (ModelReceipt_validate
      {| mr_run_id := the_run; mr_operation_id := op; mr_prompt_sha256 := digest;
         mr_observation := seen |})) in
    do+ does (publish the_run op (model_receipt_blob r)) in
    done charged.

(** [LoopSession.model] *)
Definition model (turn : Z) (c : ReasoningContext) : session_prog ModelObservation :=
  let op := op_name "model" turn in
  let+ record := does (on_ledger (budget_get the_run)) in
  let+ charged := match reserved record op with
                  | Some charge => done charge
                  | None => new_model_call turn c record
                  end in
  match charged with
  | Reads _ => does (Raise (EvidenceIntegrityError "model operation has non-model charge"))
  | Model mc =>
      let+ prepared := does (on_files (restore (document read_turn PreparedTurn_load) (prompt_sha256 mc))) in
      if negb (eqb_of (pt_run_id prepared) the_run && eqb_of (pt_operation_id prepared) op &&
               eqb_of (pt_binding_sha256 prepared) binding && same_context (pt_context prepared) c) then
        does (Raise (EvidenceIntegrityError "saved prompt binding differs"))
      else
        let+ digest := receipt op in
        let+ saved := does (on_files (restore (document read_model_receipt ModelReceipt_load) digest)) in
        if negb (eqb_of (mr_run_id saved) the_run && eqb_of (mr_operation_id saved) op &&
                 eqb_of (mr_prompt_sha256 saved) (prompt_sha256 mc)) then
          does (Raise (EvidenceIntegrityError "saved model result binding differs"))
        else
          do+ match mo_decision (mr_observation saved) with
              | Some d => does (let* _ := lift (parse_decision (decision_text d) (evidence_ids c) (causes owner)) in Ret tt)
              | None => done tt
              end in
          done (mr_observation saved)
  end.

(** ** One batch of reads *)

(** [merged[item.evidence_id] = item] of the dict of evidence by ID *)
Fixpoint merge_item (merged : list EvidenceItem) (e : EvidenceItem) : list EvidenceItem :=
  match merged with
  | [] => [e]
  | x :: merged => if eqb_of (evidence_id x) (evidence_id e) then e :: merged else x :: merge_item merged e
  end.

(** The loop over the evidence of one result *)
Fixpoint merge_evidence (r : ReadResult) (merged l : list EvidenceItem) : lprog (list EvidenceItem) :=
  match l with
  | [] => Ret merged
  | e :: l =>
      if negb (eqb_of (ev_incident_id e) the_run)
         || negb (eqb_of (resource e) (service_name (service (rr_request r)))) then
        Raise (EvidenceIntegrityError "read evidence scope differs")
      else
        do* on_files (verify_evidence e) in
        if existsb (fun x => eqb_of (evidence_id x) (evidence_id e) && negb (eqb_of x e)) merged then
          Raise (EvidenceIntegrityError "read evidence ID collision")
        else merge_evidence r (merge_item merged e) l
  end.

(** [json.dumps(query)] *)
Definition query_json (q : option string) : string :=
  match q with Some s => print_str true s | None => "null" end.

Definition read_feedback (r : ReadResult) : list (string * json) :=
  [("tool", JStr (tool_name (tool (rr_request r)))); ("status", JStr (status_name (rr_status r)))] ++
  (if is_local owner then
     [("service", JStr (service_name (service (rr_request r))));
      ("query", JStr (query_json (query_text (rr_request r))));
      ("evidence_ids", JStr (join "," (map evidence_id (rr_evidence r))))]
   else []).

Definition stop_of_read (s : ReadStatus) : option StopReason :=
  match s with
  | RD_DENIED => Some SR_DENIED | RD_TIMEOUT => Some SR_TIMEOUT | RD_BUSY => Some SR_BUSY | _ => None
  end.

Fixpoint accept_loop (merged : list EvidenceItem) (l : list ReadResult) : session_prog (list EvidenceItem) :=
  match l with
  | [] => done merged
  | r :: l =>
      if negb (eqb_of (rr_status r) RD_OK) && is_nonempty (rr_evidence r) then
        does (Raise (EvidenceIntegrityError "failed read contains evidence"))
      else match stop_of_read (rr_status r) with
           | Some reason => stop reason
           | None =>
               let+ merged := does (merge_evidence r merged (rr_evidence r)) in
               do+ modify (add_feedback (read_feedback r)) in
               accept_loop merged l
           end
  end.

(** [LoopSession.accept_reads] *)
Definition accept_reads (l : list ReadResult) : session_prog unit :=
  let+ s := get in
  let+ merged := accept_loop (foldl merge_item [] (ss_evidence s)) l in
  if 256 <? len merged then stop SR_BUDGET_EXHAUSTED
  else modify (accept_evidence merged (map rr_request l)
         (list_to_set (map evidence_id (flat_map rr_evidence l)))).

(** The callback of [LoopSession.reads] *)
Definition reserve_reads (op : string) (record : BudgetRecord) (batch : list ReadRequest) (count : Z) : lprog bool :=
  let* charge := lift (CHARGE_validate (Reads
    {| rd_operation_id := op; requests := batch; backend_read_count := count |})) in
  let* grant := on_ledger (budget_reserve record charge) in
  Ret (eqb_of grant NEW).

(** The branch of [LoopSession.reads] for an operation without a charge *)
Definition new_reads (turn : Z) (l : list ReadRequest) (record : BudgetRecord) : session_prog unit :=
  let op := op_name "reads" turn in
  let+ results := does (finally
    (dispatch_reads (on_reads (the_run, op)) (deadline_ceiling owner) (reserve_reads op record) l)
    (registry_close (on_reads (the_run, op)))) in
  if existsb (fun r => eqb_of (rr_status r) RD_BUDGET_EXHAUSTED) results then stop SR_BUDGET_EXHAUSTED
  else
    let+ r := does (lift (ReadReceipt_validate
      {| rdr_run_id := the_run; rdr_operation_id := op; rdr_results := results |})) in
    do+ does (publish the_run op (read_receipt_blob r)) in
    done tt.

(** [LoopSession.reads] *)
Definition reads (turn : Z) (l : list ReadRequest) : session_prog unit :=
  let op := op_name "reads" turn in
  let+ record := does (on_ledger (budget_get the_run)) in
  do+ match reserved record op with
      | None => new_reads turn l record
      | Some (Reads c) =>
          if eqb_of (requests c) l then done tt
          else does (Raise (EvidenceIntegrityError "saved read charge differs"))
      | Some (Model _) => does (Raise (EvidenceIntegrityError "saved read charge differs"))
      end in
  let+ digest := receipt op in
  let+ saved := does (on_files (restore (document read_read_receipt ReadReceipt_load) digest)) in
  if negb (eqb_of (rdr_run_id saved) the_run && eqb_of (rdr_operation_id saved) op &&
           eqb_of (map rr_request (rdr_results saved)) l) then
    does (Raise (EvidenceIntegrityError "saved read result binding differs"))
  else accept_reads (rdr_results saved).

Definition notice (status instruction : string) : list (string * json) :=
  [("status", JStr status); ("instruction", JStr instruction)].

(** [LoopSession.request_reads] *)
Definition request_reads (turn : Z) (l : list ReadRequest) : session_prog unit :=
  let+ s := get in
  let l := if is_local owner
           then List.filter (fun r => negb (bool_decide (r ∈ completed_reads s))) l else l in
  if is_local owner && negb (is_nonempty l) then
    modify (fun s => add_feedback (notice "READS_ALREADY_COMPLETED" "Reuse observations; finish or refuse")
                       (exhaust_reads s))
  else
    on_stop (reads turn l)
      (fun r =>
         if negb (eqb_of r SR_BUDGET_EXHAUSTED) || negb (is_local owner)
            || (lim_model_calls (loop_limits owner) <=? turn) then stop r
         else modify (fun s => add_feedback (notice "READ_BUDGET_EXHAUSTED" "Finish or refuse; no more reads")
                                 (exhaust_reads s))).

(** ** The run *)

Definition authority_now : lprog Authority := authority (on_model (the_run, "authority")) (settings owner).

(** The turns of [LoopSession.run], with the malformed responses so far: the final
    hypotheses and the reason *)
Fixpoint turns (l : list Z) (invalid : Z) : session_prog (list RootCauseHypothesis * StopReason) :=
  match l with
  | [] => done ([], SR_BUDGET_EXHAUSTED)
  | turn :: l =>
      let+ granted := does authority_now in
      if negb (eqb_of granted AU_OK) then stop (stop_of_authority granted)
      else
        let+ s := get in
        let+ c := does (context s) in
        let+ observed := model turn c in
        match mo_status observed with
        | MS_INVALID_OUTPUT =>
            if 1 <? invalid + 1 then stop SR_INVALID_OUTPUT
            else do+ modify (add_feedback (notice "INVALID_OUTPUT" "Use schema")) in turns l (invalid + 1)
        | MS_OK =>
            match mo_decision observed with
            | None => does (Raise AssertionError)
            | Some d =>
                if eqb_of (dec_kind d) finish then
                  let+ final := does (lift (supported d c)) in done (final, SR_FINISHED)
                else do+ request_reads turn (dec_reads d) in turns l invalid
            end
        | status => stop (stop_of_model status)
        end
  end.

(** [LoopResult(...)] *)
Definition LoopResult_validate (r : LoopResult) : result LoopResult :=
  if identifier_ok (lr_run_id r) && (len (lr_hypotheses r) <=? 3) && (len (lr_evidence r) <=? 256) &&
     (len (receipt_sha256s r) <=? 20)
  then Ok r else Err (ValueError "LoopResult").

(** [build_context] with the limits [run] calls it with *)
Definition check_context (l : list EvidenceItem) : lprog ReasoningContext :=
  on_files (build_context l the_run 24000 64 false ∅).

(** [LoopSession.run] *)
Definition session_run (initial : list EvidenceItem) : lprog LoopResult :=
  do* check_context initial in
  let* out := turns (seqZ 1 (lim_model_calls (loop_limits owner))) 0 (new_session initial) in
  let s := out.1 in
  let '(final, reason) := match out.2 with inl r => ([], r) | inr p => p end in
  do* check_context (ss_evidence s) in
  let* (final, reason) :=
    (if eqb_of reason SR_FINISHED then
       let* granted := authority_now in
       Ret (if eqb_of granted AU_OK then (final, reason) else ([], stop_of_authority granted))
     else Ret (final, reason)) in
  lift (LoopResult_validate
    {| lr_run_id := the_run; lr_fixture := ms_fixture (settings owner); stop_reason := reason;
       lr_hypotheses := final; lr_evidence := ss_evidence s; receipt_sha256s := ss_receipts s |}).
End loop.

(** [ReasoningLoop.run] *)
Definition loop_version (o : ReasoningLoop) : string :=
  if is_local o then "reasoning-loop-local-contract-v5" else "reasoning-loop-v1".

Definition loop_run `{BudgetCodec, Blob, !LoopCodec, PydanticText, JsonLoads, PyText, !SourceChecks, PromptText}
  `{!DecisionText} (owner : ReasoningLoop) (i : Incident) (initial : list EvidenceItem)
  : prog loop_answer LoopResult :=
  let* incident := lift (Incident_validate i) in
  let* binding := on_files (retain (binding_blob (loop_version owner) incident initial (subject owner)
                    (sort_strings (elements (causes owner))) (settings owner) (loop_limits owner))) in
  do* call (R:=loop_answer) (LLock (sha256_hex (incident_id incident))) in
  do* on_ledger (budget_open (incident_id incident) binding (loop_limits owner)) in
  session_run owner incident binding initial.
