(* ===== verification/LoopSafety.v ===== *)
(** * One dispatch per reservation, through the whole loop

    The protocol of [Permits] for the reasoning loop: the claim is a reservation the ledger
    committed for an operation of a run, the effect is the submission of a worker for that
    operation: the provider call, or the [i]-th read of its batch. *)

From S2P Require Import Prelude Text Json Digest Contracts Effects Permits Reasoning Budget BudgetSafety Investigation.
From S2P Require Import Baseline Diagnostics Artifacts Context Registry Runtime Records Loop.

Open Scope string_scope.
Open Scope list_scope.
Open Scope Z_scope.
Open Scope result_scope.
Open Scope prog_scope.

(** ** Requests of the registry and of the runtime other than submissions *)

Section plain.
Context {C : Type} {R : C -> Type} (P : C -> Prop).

Definition reg_plain (c : reg_call) : Prop := match c with GSubmit _ _ => False | _ => True end.
Definition rt_plain (c : rt_call) : Prop := match c with MSubmitCall _ _ _ _ => False | _ => True end.

Section reads.
Context (ask : forall c : reg_call, prog R (reg_answer c)) (ceiling : spec_float).
Hypothesis Hask : forall c, reg_plain c -> issues P (ask c).

Lemma result_of_plain i p : issues P (result_of ask i p).
Proof.
  unfold result_of, remaining_until. case_match; [done|]. apply issues_catch; [|done].
  apply issues_bind; [apply issues_bind; [by apply Hask|done]|]. intros t.
  apply issues_bind; [by apply Hask|]. intros [c|]; [by case_match|done].
Qed.

Lemma results_of_plain i l : issues P (results_of ask i l).
Proof.
  revert i. induction l as [|p l IH]; intros i; [done|]. cbn [results_of].
  apply issues_bind; [apply result_of_plain|]. intros r. by apply issues_bind.
Qed.

Lemma publish_results_plain l : issues P (publish_results ask ceiling l).
Proof.
  unfold publish_results, publication_status, deadline_after, remaining_until. case_match; [done|].
  apply issues_bind; [|done]. apply issues_bind; [by apply Hask|]. intros closed.
  apply issues_bind; [destruct closed; [done|by apply (Hask GAcquire)]|]. intros got. case_match; [done|].
  apply issues_bind.
  { apply issues_catch.
    - apply issues_bind; [apply issues_bind; [by apply Hask|done]|]. intros d.
      by apply issues_bind; [apply Hask|].
    - intros e. by apply issues_bind; [apply Hask|]. }
  intros d. apply issues_bind; [by apply issues_bind; [apply Hask|]|]. intros t.
  apply issues_bind; [by apply Hask|]. by intros [[]|].
Qed.
End reads.

Section model.
Context (ask : forall c : rt_call, prog R (rt_answer c)) (settings : ModelSettings).
Hypothesis Hask : forall c, rt_plain c -> issues P (ask c).

Lemma prepare_plain system data : issues P (prepare ask settings system data).
Proof.
  unfold prepare. apply issues_bind; [apply issues_lift|]. intros p.
  apply issues_bind; [by apply Hask|]. intros n. apply issues_bind; [apply issues_lift|].
  intros q. by case_match.
Qed.

Lemma authority_plain : issues P (authority ask settings).
Proof.
  unfold authority, or_free, time_left. apply issues_bind; [by apply Hask|]. intros closed.
  apply issues_bind; [destruct closed; [done|by apply (Hask MAcquire)]|]. intros got. case_match; [done|].
  apply issues_bind.
  { apply issues_catch.
    - apply issues_bind; [by apply Hask|]. intros now. by apply issues_bind; [apply Hask|].
    - intros e. by apply issues_bind; [apply Hask|]. }
  intros d. apply issues_catch; [|done]. apply issues_bind; [by apply issues_bind; [apply Hask|]|].
  intros t. apply issues_bind; [by apply Hask|]. intros [[]|]; [by case_match|done].
Qed.
End model.
End plain.

Section safety.
Context `{BudgetCodec, Blob, !LoopCodec, PydanticText, JsonLoads, PyText, !SourceChecks, PromptText}.
Context `{!DecisionText}.

(** The table of the ledger, and the files of the artifact store *)
Definition loop_world : Type := ledger * gmap string blob.
Definition empty_world : loop_world := (∅, ∅).

(** The ledger answers as [ledger_answers], the store as [art_answers]; everybody else
    answers anything. *)
Inductive loop_answers (w : loop_world)
  : forall c : loop_call, result (loop_answer c) -> loop_world -> Prop :=
  | loop_ledger c r d' : ledger_answers w.1 c r d' -> loop_answers w (LLedger c) r (d', w.2)
  | loop_files c r f' : art_answers w.2 c r f' -> loop_answers w (LArt c) r (w.1, f')
  | loop_other c r : (forall q, c <> LLedger q) -> (forall q, c <> LArt q) -> loop_answers w c r w.

(** What workers run: the loop, under any host's bindings, over any incident; and the
    collectors that retain evidence. *)
Inductive loop_program : prog loop_answer unit -> Prop :=
  | run_loop owner i initial : loop_program (let* _ := loop_run owner i initial in Ret tt)
  | run_collector content : loop_program (let* _ := on_files (store_write content) in Ret tt).

Definition loop_reachable : system loop_answer loop_world unit -> Prop :=
  reachable loop_answers loop_program empty_world.

(** ** The instance of the protocol *)

Definition loop_ok (c : loop_call) : Prop := match c with LLedger q => sound q | _ => True end.

Definition loop_grant (c : loop_call) : result (loop_answer c) -> option (string * string) :=
  match c return result (loop_answer c) -> option (string * string) with
  | LLedger q => fun r => grant_of (existT q r)
  | _ => fun _ => None
  end.

Context (i : nat).

Definition loop_spend (c : loop_call) : option (string * string) :=
  match c with
  | LModel op (MSubmitCall _ _ _ _) => if decide (i = 0%nat) then Some op else None
  | LRead op (GSubmit j _) => if decide (i = j) then Some op else None
  | _ => None
  end.

Definition loop_inv (w : loop_world) : Prop := ledger_inv w.1.
Definition loop_claimed (w : loop_world) (k : string * string) : Prop := charged w.1 k.

#[export] Instance loop_laws : PermitLaws loop_answers loop_ok loop_inv loop_claimed loop_grant loop_spend.
Proof.
  split.
  - intros w c r w' Ha. destruct Ha; [|done|done]. by eapply ledger_answers_inv.
  - intros w c r w' k Ha. destruct Ha; [|done|done]. by eapply charged_answers.
  - intros w c r w' k Ha Hi Hok Hg. destruct Ha as [c r d' Ha|c r f' Ha|c r Hne].
    + by eapply grant_fresh.
    + done.
    + destruct c; try done. by destruct (Hne c).
  - intros c r k. by destruct c.
Qed.

Abbreviation Guarded := (guarded loop_ok loop_grant loop_spend) (only parsing).
Abbreviation Guards := (guards loop_ok loop_grant loop_spend) (only parsing).
Abbreviation Tame := (issues (fun c => loop_ok c /\ loop_spend c = None)) (only parsing).
Abbreviation Quiet := (issues (quiet loop_ok loop_grant loop_spend)) (only parsing).

Lemma quiet_tame {A} (m : prog loop_answer A) : Quiet m -> Tame m.
Proof. apply issues_weaken. by intros c (? & ? & _). Qed.

Lemma on_files_quiet {A} (m : prog art_answer A) : Quiet (on_files m).
Proof. apply (issues_embed (R:=art_answer) (Q:=loop_answer) LArt (fun _ r => r) (fun _ => True)); [by intros c _; split_and!|apply issues_any]. Qed.

Lemma on_model_quiet op c : rt_plain c -> Quiet (on_model op c).
Proof. intros Hc. apply (issues_call (R:=loop_answer)). split_and!; [done|by destruct c|done]. Qed.

Lemma on_reads_quiet op c : reg_plain c -> Quiet (on_reads op c).
Proof. intros Hc. apply (issues_call (R:=loop_answer)). split_and!; [done|by destruct c|done]. Qed.

(** *** The ledger *)

Lemma on_ledger_tame {A} (m : prog ledger_answer A) : issues sound m -> Tame (on_ledger m).
Proof. intros Hm. apply (issues_embed (R:=ledger_answer) (Q:=loop_answer) LLedger (fun _ r => r) sound); [by intros c|done]. Qed.

Abbreviation LGuards := (guards sound (fun c r => grant_of (existT c r)) (fun _ : ledger_call => None : option (string * string)))
  (only parsing).

Lemma on_ledger_guards {A} perm (m : prog ledger_answer A) Q : LGuards perm m Q -> Guards perm (on_ledger m) Q.
Proof. by apply guards_embed. Qed.

Lemma lguards_bind_call {A} perm (c : ledger_call) (f : ledger_answer c -> prog ledger_answer A) Q :
  sound c -> (forall r, grant_of (existT c r) = None) ->
  (forall e, Q perm (inl e)) -> (forall a, LGuards perm (f a) Q) ->
  LGuards perm (bind (call (R:=ledger_answer) c) f) Q.
Proof.
  intros Hc Hg He Ha. apply guards_bind. apply (guards_call (R:=ledger_answer)); [by split_and!|].
  intros [e|a]; auto.
Qed.

Lemma guards_bind_lift {C} {R : C -> Type} {K A B} (ok : C -> Prop) (grant : forall c : C, result (R c) -> option K)
  (spend : C -> option K) perm (m : result A) (f : A -> prog R B) Q :
  (forall e, m = inl e -> Q perm (inl e)) -> (forall a, m = inr a -> guards ok grant spend perm (f a) Q) ->
  guards ok grant spend perm (bind (lift m) f) Q.
Proof. destruct m; cbn; auto. Qed.

Lemma budget_get_guards perm id :
  LGuards perm (budget_get id) (fun p out => p = perm /\ forall r, out = Ok r -> run_id r = id).
Proof.
  unfold budget_get. apply lguards_bind_call; [done|done|done|]. intros [raw|]; [|done].
  apply guards_bind_lift; [done|]. intros r _. destruct_eqb (run_id r) id; [|done].
  split; [done|]. by intros ? [= <-].
Qed.

Lemma budget_replace_guards perm r c :
  budget_valid (with_charge r c) ->
  LGuards perm (budget_replace r (with_charge r c))
    (fun p out => forall u, out = Ok u -> p = Some (run_id r, operation_id c)).
Proof.
  intros Hv. unfold budget_replace. apply lguards_bind_call; [done|done|done|]. intros [raw|]; [|done].
  apply guards_bind_lift; [done|]. intros s [Hs _]%parse_budget_ok. destruct_eqb s r; cbn [negb]; [|done].
  subst s. cbn. split_and!; [|done|].
  - exists r, (with_charge r c). split_and!; [done|done|done|done|]. left. by exists c.
  - intros [e|[]]; cbn; [done| |done]. intros _ _. unfold next_permit. cbn. unfold added_op.
    rewrite Hs, load_dump_budget. cbn. by rewrite drop_app_length.
Qed.

(** A reservation that says [NEW] has won the claim of its operation. *)
Lemma budget_reserve_guards perm r c :
  Guards perm (on_ledger (budget_reserve r c))
    (fun p out => out = Ok NEW -> p = Some (run_id r, operation_id c)).
Proof.
  apply on_ledger_guards. unfold budget_reserve. apply guards_bind_lift; [done|].
  intros ? [-> Hr]%BudgetRecord_validate_ok. apply guards_bind_lift; [done|]. intros c' Hc.
  unfold CHARGE_validate in Hc. destruct (Charge_valid c); [|done]. injection Hc as <-.
  case_match.
  - case_match; [done|]. apply guards_bind. eapply guards_mono; [apply budget_get_guards|].
    intros p [e|s] _; [done|]. by case_match.
  - destruct (BudgetRecord_validate (with_charge r c)) as [e|r'] eqn:Hv; [by case_match|].
    apply BudgetRecord_validate_ok in Hv as [-> Hv].
    apply guards_bind. eapply guards_mono; [by apply budget_replace_guards|].
    intros p [e|[]] Hp; cbn; [done|]. intros _. by apply (Hp tt).
Qed.

(** *** Sessions *)

(** A session program that keeps to the protocol without a permit *)
Definition safe {A} (m : session_prog A) : Prop := forall s, Guarded None (m s).

Lemma safe_done {A} (a : A) : safe (done a).
Proof. by intros s. Qed.
Lemma safe_stop {A} r : safe (A:=A) (stop r).
Proof. by intros s. Qed.
Lemma safe_modify f : safe (modify f).
Proof. by intros s. Qed.
Lemma safe_get : safe get.
Proof. by intros s. Qed.
Lemma safe_does {A} (m : prog loop_answer A) : Guarded None m -> safe (does m).
Proof. intros Hm s. apply guarded_bind_none; [done|]. by intros a. Qed.
Lemma safe_raise {A} e : safe (A:=A) (does (Raise e)).
Proof. by apply safe_does. Qed.
Lemma safe_lift {A} (m : result A) : safe (does (lift m)).
Proof. apply safe_does. by destruct m. Qed.
Lemma safe_bind_lift {A B} (m : result A) (f : A -> session_prog B) :
  (forall a, m = inr a -> safe (f a)) -> safe (and_then (does (lift m)) f).
Proof. intros Hf s. destruct m as [e|a]; [done|]. by apply Hf. Qed.
Lemma safe_files {A} (m : prog art_answer A) : safe (does (on_files m)).
Proof. apply safe_does, guarded_tame, quiet_tame, on_files_quiet. Qed.
Lemma safe_bind {A B} (m : session_prog A) (f : A -> session_prog B) :
  safe m -> (forall a, safe (f a)) -> safe (and_then m f).
Proof.
  intros Hm Hf s. apply guarded_bind_none; [apply Hm|]. intros [s' [r|a]]; cbn; [done|apply Hf].
Qed.
Lemma safe_on_stop {A} (m : session_prog A) h : safe m -> (forall r, safe (h r)) -> safe (on_stop m h).
Proof.
  intros Hm Hh s. apply guarded_bind_none; [apply Hm|]. intros [s' [r|a]]; cbn; [apply Hh|done].
Qed.

(** What a program is known to end with is known to the rest of the session. *)
Lemma guarded_does {A B} perm (m : prog loop_answer A) (f : A -> session_prog B) s :
  Guards perm m (fun p out => match out with inr a => Guarded p (f a s) | inl _ => True end) ->
  Guarded perm (and_then (does m) f s).
Proof.
  intros Hm. unfold and_then, does. apply guarded_bind_guards. apply guards_bind.
  eapply guards_mono; [exact Hm|]. by intros p [e|a].
Qed.
End safety.

Create HintDb loop_safe discriminated.
#[export] Hint Resolve safe_done safe_stop safe_modify safe_get safe_raise safe_lift safe_files safe_bind safe_on_stop
  : loop_safe.

(** ** The loop keeps to the protocol *)

Section loop_safe.
Context `{BudgetCodec, Blob, !LoopCodec, PydanticText, JsonLoads, PyText, !SourceChecks, PromptText}.
Context `{!DecisionText}.
Context (i : nat).

Abbreviation Guarded := (guarded loop_ok loop_grant (loop_spend i)) (only parsing).
Abbreviation Guards := (guards loop_ok loop_grant (loop_spend i)) (only parsing).
Abbreviation Safe := (safe i) (only parsing).

Lemma quiet_guarded {A} perm (m : prog loop_answer A) :
  issues (quiet loop_ok loop_grant (loop_spend i)) m -> Guarded perm m.
Proof. intros Hm. by apply guarded_tame, quiet_tame. Qed.

Lemma submit_guards perm op c j r :
  (i = j -> perm = Some op) ->
  Guards perm (submit (on_reads op) c j r) (fun p _ => i <> j -> p = perm).
Proof.
  intros Hp. unfold submit, deadline_after. apply guards_bind, guards_bind.
  apply (guards_call (R:=loop_answer)); [by split_and!|]. intros [e|now]; [done|].
  cbn [guards]. apply guards_bind. apply (guards_call (R:=loop_answer)); [by split_and!|].
  intros [e|got]; [done|]. destruct got; cbn [negb]; [|done].
  apply guards_bind. unfold or_release, on_reads. apply guards_catch.
  cbn [guards call]. split_and!; [done| |].
  - cbn. intros key. case_decide; [|done]. intros [= ->]. by apply Hp.
  - intros out. assert (i <> j -> next_permit loop_grant (loop_spend i) perm (LRead op (GSubmit j r)) out = perm) as Hn.
    { intros Hne. unfold next_permit. cbn. by rewrite decide_False. }
    destruct out as [e|a]; cbn -[next_permit]; [|done].
    split_and!; [done|done|]. intros out.
    by destruct out; cbn -[next_permit].
Qed.

Lemma submit_all_guarded perm op c k l :
  ((k <= i)%nat -> perm = Some op) -> Guarded perm (submit_all (on_reads op) c k l).
Proof.
  revert perm k. induction l as [|r l IH]; intros perm k Hp; [done|]. cbn [submit_all].
  apply guarded_bind_guards. eapply guards_mono.
  { apply submit_guards. intros ->. by apply Hp. }
  intros p [e|pending] Hout; [done|]. apply guarded_bind_none; [|done].
  apply IH. intros Hk. rewrite Hout by lia. apply Hp. lia.
Qed.

Lemma dispatch_reads_guarded op c reserve l :
  (forall b n, Guards None (reserve b n) (fun p out => out = Ok true -> p = Some op)) ->
  Guarded None (dispatch_reads (on_reads op) c reserve l).
Proof.
  intros Hres. unfold dispatch_reads. apply guarded_bind; [apply issues_lift|]. intros b. case_match; [done|].
  apply guarded_bind; [by apply on_reads_quiet|]. intros closed. case_match; [done|]. cbv zeta.
  apply guarded_bind_guards. eapply guards_mono; [apply Hres|]. intros p [e|granted] Hp; [done|].
  destruct granted; cbn [negb]; [|done]. rewrite Hp by done.
  apply guarded_bind_none; [by apply submit_all_guarded|]. intros ps.
  apply guarded_bind; [by apply results_of_plain, on_reads_quiet|]. intros rs.
  apply quiet_guarded. by apply publish_results_plain, on_reads_quiet.
Qed.

Lemma reserve_reads_guards op record b n key :
  key = (run_id record, op) ->
  Guards None (reserve_reads op record b n) (fun p out => out = Ok true -> p = Some key).
Proof.
  intros ->. unfold reserve_reads. apply guards_bind_lift; [done|]. intros charge Hc.
  unfold CHARGE_validate in Hc. case_match; [|done]. injection Hc as <-.
  apply guards_bind. eapply guards_mono; [apply budget_reserve_guards|].
  intros p [e|g] Hp; [done|]. cbn. intros [= Hg%eqb_of_true_1]. subst g. by apply Hp.
Qed.

Lemma observe_guarded op settings p ids cs :
  Guarded (Some op) (observe (on_model op) settings p ids cs).
Proof.
  unfold observe, or_free, time_left. apply guarded_bind; [apply issues_lift|]. intros q.
  apply guarded_bind; [by apply on_model_quiet|]. intros closed. case_match; [done|].
  apply guarded_bind; [by apply (on_model_quiet _ _ MAcquire)|]. intros got. case_match; [done|].
  apply guarded_bind_none.
  - apply guarded_catch.
    + apply guarded_bind; [by apply on_model_quiet|]. intros now. cbv zeta. apply guarded_bind_none; [|done].
      split_and!; [done| |by intros []]. cbn. intros key. case_decide; [|done]. by intros [= ->].
    + intros e. apply quiet_guarded. by apply issues_bind; [apply on_model_quiet|].
  - intros d. apply quiet_guarded. apply issues_catch; [|done].
    apply issues_bind; [by apply issues_bind; [apply on_model_quiet|]|]. intros t.
    apply issues_bind; [by apply on_model_quiet|]. by intros [x|].
Qed.

Context (owner : ReasoningLoop) (incident : Incident) (binding : string).

Lemma publish_guarded id op b : Guarded None (publish id op b).
Proof.
  unfold publish. apply guarded_bind; [apply on_files_quiet|]. intros d.
  apply guarded_tame. apply issues_bind; [by apply on_ledger_tame, budget_get_sound|]. intros r.
  apply issues_bind; [by apply on_ledger_tame, budget_complete_sound|done].
Qed.

Lemma completion_guarded id op : Guarded None (completion id op).
Proof. apply guarded_tame, issues_bind; [by apply on_ledger_tame, budget_get_sound|done]. Qed.

Lemma receipt_safe op : Safe (receipt incident op).
Proof.
  apply safe_bind; [apply safe_does, completion_guarded|]. intros [d|]; auto with loop_safe.
Qed.

Lemma prompt_quiet s turn c :
  issues (quiet loop_ok loop_grant (loop_spend i)) (prompt owner incident binding s turn c).
Proof.
  unfold prompt. apply issues_bind; [apply issues_lift|]. intros checked. cbv zeta.
  apply issues_bind; [|intros; apply issues_lift]. by apply prepare_plain, on_model_quiet.
Qed.

Lemma new_model_call_safe turn c record :
  run_id record = the_run incident -> Safe (new_model_call owner incident binding turn c record).
Proof.
  intros Hid. unfold new_model_call. cbv zeta. apply safe_bind; [apply safe_get|]. intros s.
  apply safe_bind.
  { apply safe_bind; [|intros []; auto with loop_safe]. apply safe_does, quiet_guarded.
    apply issues_catch; [|done]. by apply issues_bind; [apply prompt_quiet|]. }
  intros t. apply safe_bind; [apply safe_files|]. intros digest.
  apply safe_bind_lift. intros charged Hc s'. unfold CHARGE_validate in Hc. case_match; [|done].
  injection Hc as <-. apply guarded_does. eapply guards_mono; [apply budget_reserve_guards|].
  intros p [e|g] Hp; [done|]. destruct_eqb g NEW; cbn [negb]; [|done]. subst g.
  rewrite (Hp eq_refl), Hid. apply guarded_bind_none.
  { apply guarded_bind_none; [apply observe_guarded|done]. }
  intros [s'' [r|seen]]; [done|]. cbn [fst snd]. revert s''.
  apply safe_bind_lift. intros r _. apply safe_bind; [apply safe_does, publish_guarded|].
  auto with loop_safe.
Qed.

(** The record of the run is the record of this run. *)
Lemma with_record {B} (f : BudgetRecord -> session_prog B) :
  (forall r, run_id r = the_run incident -> Safe (f r)) ->
  Safe (and_then (does (on_ledger (budget_get (the_run incident)))) f).
Proof.
  intros Hf s. apply guarded_does. apply on_ledger_guards. eapply guards_mono; [apply budget_get_guards|].
  intros p [e|r] [-> Hr]; [done|]. by apply Hf, Hr.
Qed.

Lemma model_safe turn c : Safe (model owner incident binding turn c).
Proof.
  unfold model. cbv zeta. apply with_record. intros record Hid. apply safe_bind.
  { case_match; [apply safe_done|by apply new_model_call_safe]. }
  intros [mc|rc]; [|apply safe_raise]. apply safe_bind; [apply safe_files|]. intros prepared.
  case_match; [apply safe_raise|]. apply safe_bind; [apply receipt_safe|]. intros digest.
  apply safe_bind; [apply safe_files|]. intros saved. case_match; [apply safe_raise|].
  apply safe_bind; [|intros; apply safe_done]. case_match; [|apply safe_done].
  apply safe_does. apply guarded_bind; [apply issues_lift|done].
Qed.

Lemma merge_evidence_quiet r merged l :
  issues (quiet loop_ok loop_grant (loop_spend i)) (merge_evidence incident r merged l).
Proof.
  revert merged. induction l as [|e l IH]; intros merged; [done|]. cbn [merge_evidence].
  case_match; [done|]. apply issues_bind; [apply on_files_quiet|]. intros _. by case_match.
Qed.

Lemma accept_loop_safe merged l : Safe (accept_loop owner incident merged l).
Proof.
  revert merged. induction l as [|r l IH]; intros merged; cbn [accept_loop]; [apply safe_done|].
  case_match; [apply safe_raise|]. case_match; [apply safe_stop|].
  apply safe_bind; [apply safe_does, quiet_guarded, merge_evidence_quiet|]. intros m.
  apply safe_bind; auto with loop_safe.
Qed.

Lemma reads_safe turn l : Safe (reads owner incident turn l).
Proof.
  unfold reads. cbv zeta. apply with_record. intros record Hid. apply safe_bind.
  - case_match; [case_match; [apply safe_raise|]; case_match; auto with loop_safe|].
    unfold new_reads. cbv zeta. apply safe_bind.
    { apply safe_does, guarded_bind_none.
      - apply guarded_attempt, dispatch_reads_guarded. intros b n. apply reserve_reads_guards. by rewrite Hid.
      - intros out. apply quiet_guarded. apply issues_bind; [by apply on_reads_quiet|].
        intros; apply issues_lift. }
    intros results. case_match; [apply safe_stop|]. apply safe_bind; [apply safe_lift|]. intros r.
    apply safe_bind; [apply safe_does, publish_guarded|]. auto with loop_safe.
  - intros _. apply safe_bind; [apply receipt_safe|]. intros digest.
    apply safe_bind; [apply safe_files|]. intros saved. case_match; [apply safe_raise|].
    unfold accept_reads. apply safe_bind; [apply safe_get|]. intros s.
    apply safe_bind; [apply accept_loop_safe|]. intros m. case_match; auto with loop_safe.
Qed.

Lemma request_reads_safe turn l : Safe (request_reads owner incident turn l).
Proof.
  unfold request_reads. apply safe_bind; [apply safe_get|]. intros s. cbv zeta.
  destruct (_ && _); [apply safe_modify|]. apply safe_on_stop; [apply reads_safe|]. intros r.
  destruct (_ || _); [apply safe_stop|apply safe_modify].
Qed.

Lemma authority_safe : Safe (does (authority_now owner incident)).
Proof. by apply safe_does, quiet_guarded, authority_plain, on_model_quiet. Qed.

Lemma turns_safe l n : Safe (turns owner incident binding l n).
Proof.
  revert n. induction l as [|turn l IH]; intros n; cbn [turns]; [apply safe_done|].
  apply safe_bind; [apply authority_safe|]. intros granted. case_match; [apply safe_stop|].
  apply safe_bind; [apply safe_get|]. intros s. apply safe_bind; [apply safe_files|]. intros c.
  apply safe_bind; [apply model_safe|]. intros o.
  destruct (mo_status o); try apply safe_stop.
  - destruct (mo_decision o); [|apply safe_raise]. case_match.
    + apply safe_bind; auto with loop_safe.
    + apply safe_bind; [apply request_reads_safe|auto].
  - case_match; [apply safe_stop|]. apply safe_bind; auto with loop_safe.
Qed.

Lemma session_run_guarded initial : Guarded None (session_run owner incident binding initial).
Proof.
  unfold session_run. apply guarded_bind; [apply on_files_quiet|]. intros _.
  apply guarded_bind_none; [apply turns_safe|]. intros [s out]. cbv zeta.
  destruct (match out with inl r => _ | inr p => _ end) as [final reason].
  apply guarded_bind; [apply on_files_quiet|]. intros _.
  apply guarded_bind; [|intros []; apply guarded_quiet, issues_lift].
  case_match; [|done]. apply issues_bind; [by apply authority_plain, on_model_quiet|done].
Qed.
End loop_safe.

Lemma loop_program_guarded `{BudgetCodec, Blob, !LoopCodec, PydanticText, JsonLoads, PyText, !SourceChecks, PromptText}
  `{!DecisionText} i m :
  loop_program m -> guarded loop_ok loop_grant (loop_spend i) None m.
Proof.
  intros [owner incident initial|content].
  - apply guarded_bind_none; [|done]. unfold loop_run.
    apply guarded_bind; [apply issues_lift|]. intros inc.
    apply guarded_bind; [apply on_files_quiet|]. intros binding.
    apply guarded_bind; [by apply (issues_call (R:=loop_answer))|]. intros _.
    apply guarded_bind_none; [|intros _; apply session_run_guarded].
    by apply guarded_tame, on_ledger_tame, budget_open_sound.
  - apply guarded_bind; [apply on_files_quiet|done].
Qed.

(** ** One run of a worker *)

Section workers.
Context `{JsonLoads}.

(** The requests that make the provider generate, and those that call a reader *)
Definition generation (c : run_call) : option unit :=
  match c with NInvoke _ _ | NGenerate _ _ _ => Some tt | _ => None end.
Definition reading (c : work_call) : option ReadRequest := match c with WRead r => Some r | _ => None end.

Abbreviation Once := (guarded (R:=run_answer) (fun _ => True) (fun _ _ => None) generation) (only parsing).
Abbreviation Calm := (issues (quiet (R:=run_answer) (fun _ => True) (fun _ _ => None) generation)) (only parsing).

Lemma calm_call (c : run_call) : generation c = None -> Calm (call (R:=run_answer) c).
Proof. intros Hc. apply (issues_call (R:=run_answer)). by split_and!. Qed.

Lemma stage_allowed_calm settings d : Calm (stage_allowed settings d).
Proof.
  unfold stage_allowed. apply issues_bind; [by apply calm_call|]. intros now. apply issues_bind.
  { case_match; [done|]. by apply issues_bind; [apply calm_call|]. }
  intros stale. case_match; [done|]. apply issues_bind; [by apply calm_call|]. intros allowed.
  case_match; [done|]. apply issues_bind; [by apply calm_call|]. intros now'. case_match; [done|].
  by apply issues_bind; [apply calm_call|].
Qed.

Lemma one_generation c (k : result (run_answer c) -> prog run_answer AIMessage) :
  (forall r, Calm (k r)) -> Once (Some tt) (Call c k).
Proof.
  intros Hk. destruct (generation c) as [[]|] eqn:Hc.
  - by apply guarded_spend.
  - apply guarded_quiet. by split; [split_and!|].
Qed.

Lemma run_dispatch_once settings p d : Once (Some tt) (run_dispatch settings p d).
Proof.
  unfold run_dispatch. cbv zeta. case_match.
  - apply guarded_bind; [by apply calm_call|]. intros started.
    apply guarded_bind_none; [by apply one_generation; intros []|]. intros m.
    apply guarded_quiet. by apply issues_bind; [apply calm_call|].
  - apply guarded_bind; [by apply calm_call|]. intros staged. case_match; [done|].
    apply guarded_bind; [by apply calm_call|]. intros count.
    apply guarded_bind.
    { apply issues_attempt. unfold count_allowed. case_match; [done|apply stage_allowed_calm]. }
    intros granted. apply guarded_bind_none; [by apply one_generation; intros []|]. intros m.
    apply guarded_quiet. apply issues_bind; [by apply calm_call|]. intros raw.
    apply issues_bind; [apply issues_lift|]. intros details. by case_match.
Qed.

Lemma run_finish_calm settings p ids cs d m secs details usage :
  Calm (run_finish settings p ids cs d m secs details usage).
Proof.
  unfold run_finish. case_match; [done|]. apply issues_bind; [apply issues_lift|]. intros o.
  case_match; [done|]. apply issues_bind; [apply stage_allowed_calm|]. intros allowed.
  apply issues_bind; [destruct allowed; [done|apply issues_lift]|]. intros; apply issues_lift.
Qed.

Lemma run_call_model_once settings p ids cs d : Once (Some tt) (run_call_model settings p ids cs d).
Proof.
  apply guarded_bind_none.
  - apply guarded_attempt, guarded_bind_none.
    + unfold run_invoke. apply guarded_bind_none.
      { apply guarded_attempt. apply guarded_bind; [apply stage_allowed_calm|]. intros allowed.
        case_match; [done|]. by apply guarded_bind_none; [apply run_dispatch_once|]. }
      intros [e|[[[m secs] details]|]]; [apply guarded_quiet, issues_lift| |done].
      apply guarded_quiet. apply issues_bind.
      { apply issues_attempt. unfold run_usage. apply issues_bind; [by apply calm_call|].
        intros [u|]; [|done]. by apply issues_bind; [apply issues_lift|]. }
      intros [e|usage]; [apply issues_lift|]. apply issues_catch; [apply run_finish_calm|].
      intros; apply issues_lift.
    + intros o. apply guarded_quiet. by apply issues_bind; [apply calm_call|].
  - intros out. apply guarded_quiet. apply issues_bind; [by apply calm_call|]. intros; apply issues_lift.
Qed.

Lemma registry_read_once own r :
  guarded (fun _ => True) (fun _ _ => None) reading (Some r) (registry_read own r).
Proof.
  assert (forall c, reading c = None ->
    issues (quiet (R:=work_answer) (fun _ => True) (fun _ _ => None) reading) (call (R:=work_answer) c)) as Hcall.
  { intros c Hc. apply (issues_call (R:=work_answer)). by split_and!. }
  apply guarded_bind_none.
  - apply guarded_attempt, guarded_bind_none.
    + apply guarded_catch; [|done]. apply guarded_bind; [by apply Hcall|]. intros allowed.
      case_match; [done|]. apply guarded_bind_none; [by apply guarded_spend; [..|intros []]|].
      intros found. apply guarded_quiet. case_match; [done|]. apply issues_bind.
      { clear -Hcall. induction found as [|e l IH]; [done|]. cbn [verify_scope]. case_match; [done|].
        by apply issues_bind; [apply (Hcall (WVerify e))|]. }
      intros _. apply issues_bind; [by apply Hcall|]. intros still. by case_match.
    + intros o. apply guarded_quiet. by apply issues_bind; [apply (Hcall WMonotonic)|].
  - intros out. apply guarded_quiet. apply issues_bind; [by apply (Hcall WRelease)|]. intros; apply issues_lift.
Qed.
End workers.
