(* ===== verification/LoopOutcome.v ===== *)
(** * What a run of the loop publishes

    Postconditions of the session's programs, whatever is answered: which evidence a
    context holds, what a replayed decision was checked for, and which hypotheses are left. *)

From S2P Require Import Prelude Text Json Digest Contracts Effects Reasoning Budget ReasoningTheorems Investigation Baseline.
From S2P Require Import Diagnostics DiagnosticsTheorems Artifacts Context Registry Runtime Records Loop.

Open Scope string_scope.
Open Scope list_scope.
Open Scope Z_scope.
Open Scope result_scope.
Open Scope prog_scope.

(** ** A decision is read back from its text *)

Lemma mapM_map {A} (f : A -> json) (g : json -> option A) (l : list A) :
  (forall x, g (f x) = Some x) -> mapM g (map f l) = Some l.
Proof. intros Hg. induction l as [|x l IH]; cbn; [done|]. by rewrite Hg, IH. Qed.

(** Look up the keys of a literal object. *)
Ltac closed_fields :=
  cbn; repeat first [rewrite decide_True by reflexivity | rewrite decide_False by discriminate];
  cbn; decide_closed; cbn.

Lemma parse_request_json r : parse_request (request_json r) = Some r.
Proof. destruct r as [t s [q|]], t, s; reflexivity. Qed.

Lemma parse_cause_json c : parse_cause (cause_json c) = Some c.
Proof.
  destruct c as [code conf sup ref mis]. unfold cause_json, parse_cause, field_strings, strings.
  closed_fields. by rewrite !strings_of_map.
Qed.

Lemma parse_fields_json d : parse_fields (decision_json d) = Some d.
Proof.
  destruct d as [k s r h]. unfold decision_json, parse_fields, field_items. closed_fields.
  rewrite !mapM_map by auto using parse_request_json, parse_cause_json. cbn. destruct k; reflexivity.
Qed.

(** ** Validators return their argument *)

Lemma LoopResult_validate_ok r r' : LoopResult_validate r = Ok r' -> r' = r.
Proof. unfold LoopResult_validate. case_match; [by intros [= ->]|done]. Qed.

Lemma Incident_validate_same i i' : Incident_validate i = Ok i' -> i' = i.
Proof.
  unfold Incident_validate. case_match; [done|].
  intros (? & _ & (? & _ & [= ->])%rbind_inr)%rbind_inr. done.
Qed.

(** What [parse_decision] has checked of a decision *)
Record resolved (ids causes : gset string) (d : ReasoningDecision) : Prop := {
  resolved_causes : NoDup (map rc_cause_code (dec_hypotheses d));
  resolved_cause c : c ∈ dec_hypotheses d -> rc_cause_code c ∈ causes;
  resolved_cited c i : c ∈ dec_hypotheses d -> i ∈ rc_supporting c ++ rc_refuting c -> i ∈ ids;
  resolved_disjoint c i : c ∈ dec_hypotheses d -> i ∈ rc_supporting c -> i ∉ rc_refuting c;
}.

Section parsed.
Context `{JsonLoads, !DecisionText}.

Lemma parse_decision_resolved d ids causes d' :
  ReasoningDecision_validate d = Ok d -> parse_decision (decision_text d) ids causes = Ok d' ->
  resolved ids causes d.
Proof.
  intros Hv. unfold parse_decision. case_match; [done|]. rewrite (loads_decision d Hv). cbn [rcatch rbind].
  unfold decision_of_json. rewrite parse_fields_json, Hv. cbn [rbind].
  intros ([] & Hall & _)%rbind_inr. rewrite rforeach_inr in Hall. split.
  - revert Hv. unfold ReasoningDecision_validate. case_match; [done|].
    intros (_ & _ & Hv)%rbind_inr. revert Hv. case_match; [done|].
    intros ([] & Hco & _)%rbind_inr. revert Hco. unfold coherent, distinct.
    repeat (case_match; [done|]). intros _.
    match goal with H : negb (bool_decide (NoDup (map rc_cause_code _))) = false |- _ =>
      by apply negb_false_iff, bool_decide_eq_true in H end.
  - intros c Hc. by apply (resolve_citations_ok ids causes c), Hall.
  - intros c i Hc. by apply (resolve_citations_ok ids causes c), Hall.
  - intros c i Hc. by apply (resolve_citations_ok ids causes c), Hall.
Qed.
End parsed.

(** ** Outcomes, whatever is answered *)

Section outcome.
Context {C : Type} {R : C -> Type}.

Definition yields {A} (m : prog R A) (Q : A -> Prop) : Prop :=
  wp (fun _ => True) (fun _ _ => True) m (fun out => match out with inr a => Q a | inl _ => True end).

Lemma yields_any {A} (m : prog R A) : yields m (fun _ => True).
Proof. unfold yields. induction m; cbn; auto. Qed.

Lemma yields_mono {A} (m : prog R A) (Q Q' : A -> Prop) : yields m Q -> (forall a, Q a -> Q' a) -> yields m Q'.
Proof. intros Hm HQ. eapply wp_mono; [exact Hm|]. intros [e|a]; auto. Qed.

Lemma yields_bind {A B} (m : prog R A) (f : A -> prog R B) Q :
  yields m (fun a => yields (f a) Q) -> yields (bind m f) Q.
Proof. intros Hm. apply wp_bind. eapply wp_mono; [exact Hm|]. by intros [e|a]. Qed.

Lemma yields_then {A B} (m : prog R A) (f : A -> prog R B) Q :
  (forall a, yields (f a) Q) -> yields (bind m f) Q.
Proof. intros Hf. apply yields_bind. eapply yields_mono; [apply yields_any|]. auto. Qed.

Lemma yields_lift {A} (m : result A) (Q : A -> Prop) : (forall a, m = Ok a -> Q a) -> yields (lift m) Q.
Proof. unfold yields. destruct m; cbn; auto. Qed.

Lemma yields_catch {A} (m : prog R A) p h Q : yields m Q -> (forall e, yields (h e) Q) -> yields (catch m p h) Q.
Proof.
  intros Hm Hh. apply wp_catch. eapply wp_mono; [exact Hm|]. intros [e|a]; [|done]. intros _.
  destruct (p e); [apply Hh|done].
Qed.

Lemma yields_runs {A} (m : prog R A) (Q : A -> Prop) tr a : yields m Q -> runs m tr (Ok a) -> Q a.
Proof. intros Hm Hr. by apply (wp_runs _ _ _ _ _ _ Hm Hr). Qed.
End outcome.

(** ** The evidence of a context *)

Lemma insert_by_perm {A} (leb : A -> A -> bool) x l : insert_by leb x l ≡ₚ x :: l.
Proof.
  induction l as [|y l IH]; cbn; [done|]. destruct (leb x y); [done|]. rewrite IH. apply Permutation_swap.
Qed.
Lemma sort_by_perm {A} (leb : A -> A -> bool) l : sort_by leb l ≡ₚ l.
Proof. induction l as [|x l IH]; cbn; [done|]. by rewrite insert_by_perm, IH. Qed.

Lemma depths_snd counts l : map snd (depths counts l) = l.
Proof. revert counts. induction l as [|e l IH]; intros counts; cbn; [done|]. by rewrite IH. Qed.

Lemma ordered_perm l recent preferred signaled : ordered l recent preferred signaled ≡ₚ l.
Proof.
  unfold ordered. destruct recent; cbn [negb]; [|apply sort_by_perm]. cbv zeta.
  rewrite (Permutation_map snd (sort_by_perm _ (depths [] _))), depths_snd. apply sort_by_perm.
Qed.

Section evidence.
Context `{Blob, PydanticText, JsonLoads, PyText, !SourceChecks}.

Definition drawn_from (l : list EvidenceItem) (c : ReasoningContext) : Prop :=
  forall e, e ∈ entries c -> evidence e ∈ l.

Lemma append_drawn l c e limit : drawn_from l c -> evidence e ∈ l -> drawn_from l (append c e limit).
Proof.
  intros Hc He. unfold append. repeat case_match; try done.
  all: intros x [Hx| ->%list_elem_of_singleton]%elem_of_app; [by apply Hc|done].
Qed.

Lemma append_loop_drawn l max_characters max_items c items :
  drawn_from l c -> (forall x, x ∈ items -> x.1 ∈ l) -> drawn_from l (append_loop max_characters max_items c items).
Proof.
  revert c. induction items as [|[item known] items IH]; intros c Hc Hi; cbn [append_loop]; [done|].
  case_match; [done|]. apply IH.
  - apply append_drawn; [done|]. apply (Hi (item, known)), list_elem_of_here.
  - intros x Hx. by apply Hi, list_elem_of_further.
Qed.

Lemma build_context_drawn l id max_characters max_items recent preferred :
  yields (build_context l id max_characters max_items recent preferred) (drawn_from l).
Proof.
  unfold build_context. case_match; [done|]. case_match; [done|].
  apply yields_then. intros _. apply yields_then. intros known. apply yields_then. intros signals.
  apply append_loop_drawn; [by intros e He%elem_of_nil|].
  intros x (e & -> & He)%list_elem_of_fmap. by rewrite ordered_perm in He.
Qed.
End evidence.

(** ** Sessions *)

Section sessions.
Context `{BudgetCodec, Blob, !LoopCodec, PydanticText, JsonLoads, PyText, !SourceChecks, PromptText}.
Context `{!DecisionText}.

Abbreviation lprog := (prog loop_answer) (only parsing).

(** The runs of a session program that continues *)
Lemma runs_and_then {A B} (m : session_prog A) (f : A -> session_prog B) s tr s' out :
  runs (and_then m f s) tr (Ok (s', out)) ->
  (exists r, runs (m s) tr (Ok (s', inl r)) /\ out = inl r) \/
  (exists s1 a tr1 tr2, tr = tr1 ++ tr2 /\ runs (m s) tr1 (Ok (s1, inr a)) /\ runs (f a s1) tr2 (Ok (s', out))).
Proof.
  intros ([s1 [r|a]] & tr1 & tr2 & -> & Hm & Hf)%runs_bind_ok; cbn in Hf.
  - apply runs_ret_ok in Hf as [-> [= -> <-]]. left. exists r. by rewrite app_nil_r.
  - right. by exists s1, a, tr1, tr2.
Qed.

Lemma runs_does {A} (m : lprog A) s tr s' (a : A) :
  runs (does m s) tr (Ok (s', inr a)) -> s' = s /\ runs m tr (Ok a).
Proof.
  intros (x & tr1 & tr2 & -> & Hm & [-> [= -> ->]]%runs_ret_ok)%runs_bind_ok. by rewrite app_nil_r.
Qed.

(** A session program whose value, if it has one, satisfies [Q], and which keeps the
    evidence *)
Definition keeping {A} (m : session_prog A) (Q : A -> Prop) : Prop := forall s,
  yields (m s) (fun out => ss_evidence out.1 = ss_evidence s /\ match out.2 with inr a => Q a | inl _ => True end).

Lemma keeping_done {A} (a : A) (Q : A -> Prop) : Q a -> keeping (done a) Q.
Proof. by intros HQ s. Qed.
Lemma keeping_stop {A} r (Q : A -> Prop) : keeping (stop r) Q.
Proof. by intros s. Qed.
Lemma keeping_modify f (Q : unit -> Prop) :
  (forall s, ss_evidence (f s) = ss_evidence s) -> Q tt -> keeping (modify f) Q.
Proof. intros Hf HQ s. cbn. split; [apply Hf|done]. Qed.
Lemma keeping_get : keeping get (fun _ => True).
Proof. by intros s. Qed.
Lemma keeping_does {A} (m : lprog A) (Q : A -> Prop) : yields m Q -> keeping (does m) Q.
Proof. intros Hm s. apply yields_bind. eapply yields_mono; [exact Hm|]. by intros a. Qed.
Lemma keeping_any {A} (m : lprog A) : keeping (does m) (fun _ => True).
Proof. apply keeping_does, yields_any. Qed.
Lemma keeping_raise {A} e (Q : A -> Prop) : keeping (does (Raise e)) Q.
Proof. by intros s. Qed.
Lemma keeping_bind {A B} (m : session_prog A) (f : A -> session_prog B) (P : A -> Prop) Q :
  keeping m P -> (forall a, P a -> keeping (f a) Q) -> keeping (and_then m f) Q.
Proof.
  intros Hm Hf s. apply yields_bind. eapply yields_mono; [apply Hm|].
  intros [s' [r|a]] [He Ha]; cbn in *; [done|]. eapply yields_mono; [by apply Hf|].
  intros [s'' out]. cbn. by rewrite He.
Qed.
Lemma keeping_then {A B} (m : session_prog A) (f : A -> session_prog B) Q :
  keeping m (fun _ => True) -> (forall a, keeping (f a) Q) -> keeping (and_then m f) Q.
Proof. intros Hm Hf. by eapply keeping_bind. Qed.

Lemma yields_on_files {A} (m : prog art_answer A) (Q : A -> Prop) : yields m Q -> yields (on_files m) Q.
Proof. unfold yields. induction m as [a|e|c k IH]; cbn; [done..|]. intros [_ Hk]. split; [done|]. intros r _. by apply IH, Hk. Qed.

Context (owner : ReasoningLoop) (incident : Incident) (binding : string).

Lemma receipt_keeping op : keeping (receipt incident op) (fun _ => True).
Proof.
  apply keeping_then; [apply keeping_any|]. intros [d|]; [|apply keeping_stop].
  apply keeping_then; [by apply keeping_modify|]. intros _. by apply keeping_done.
Qed.

Lemma new_model_call_keeping turn c record :
  keeping (new_model_call owner incident binding turn c record) (fun _ => True).
Proof.
  unfold new_model_call. cbv zeta. apply keeping_then; [apply keeping_get|]. intros s. apply keeping_then.
  { apply keeping_then; [apply keeping_any|]. intros []; [by apply keeping_done|apply keeping_stop]. }
  intros t. apply keeping_then; [apply keeping_any|]. intros digest.
  apply keeping_then; [apply keeping_any|]. intros charged.
  apply keeping_then; [apply keeping_any|]. intros g. case_match; [apply keeping_stop|].
  apply keeping_then; [apply keeping_any|]. intros seen. apply keeping_then; [apply keeping_any|]. intros r.
  apply keeping_then; [apply keeping_any|]. intros _. by apply keeping_done.
Qed.

(** A replayed observation has been checked against this turn's context. *)
Definition replayed (c : ReasoningContext) (o : ModelObservation) : Prop :=
  forall d, mo_decision o = Some d -> resolved (evidence_ids c) (causes owner) d.

Lemma restored_receipt digest :
  yields (on_files (restore (document read_model_receipt ModelReceipt_load) digest))
    (fun r => forall d, mo_decision (mr_observation r) = Some d -> ReasoningDecision_validate d = Ok d).
Proof.
  apply yields_on_files. unfold restore. apply yields_catch; [|done].
  apply yields_then. intros b. case_match; [done|]. apply yields_lift. intros r Hr d Hd.
  revert Hr. unfold document. case_match; [|done]. unfold ModelReceipt_load. cbv zeta.
  intros (? & Hdec & (_ & _ & (_ & _ & (_ & _ & Hr)%rbind_inr)%rbind_inr)%rbind_inr)%rbind_inr.
  unfold ModelReceipt_validate in Hr. case_match; [|done]. injection Hr as <-.
  rewrite Hd in Hdec. cbn in Hdec. apply rbind_inr in Hdec as (d' & Hd' & _).
  pose proof (ReasoningDecision_validate_ok _ _ Hd') as [-> _]. done.
Qed.

Lemma model_keeping turn c : keeping (model owner incident binding turn c) (replayed c).
Proof.
  unfold model. cbv zeta. apply keeping_then; [apply keeping_any|]. intros record. apply keeping_then.
  { case_match; [by apply keeping_done|apply new_model_call_keeping]. }
  intros [mc|rc]; [|apply keeping_raise]. apply keeping_then; [apply keeping_any|]. intros prepared.
  case_match; [apply keeping_raise|]. apply keeping_then; [apply receipt_keeping|]. intros digest.
  eapply keeping_bind; [apply keeping_does, restored_receipt|]. cbn. intros saved Hv.
  case_match; [apply keeping_raise|].
  apply (keeping_bind _ _ (fun _ => replayed c (mr_observation saved))); [|intros; by apply keeping_done].
  destruct (mo_decision (mr_observation saved)) as [d|] eqn:Hd.
  - apply keeping_does, yields_bind, yields_lift. intros d' Hp d0. rewrite Hd. intros [= <-].
    apply (parse_decision_resolved d _ _ d'); [by apply Hv|done].
  - apply keeping_done. intros d. by rewrite Hd.
Qed.

(** ** What is final *)

(** The last context of the run, and the decision it was made on *)
Record decided (l : list EvidenceItem) (c : ReasoningContext) (final : list RootCauseHypothesis) : Prop := {
  decided_drawn : drawn_from l c;
  decided_on : exists d, resolved (evidence_ids c) (causes owner) d /\ supported owner d c = Ok final;
}.

Lemma turns_final l n s tr s' final reason :
  runs (turns owner incident binding l n s) tr (Ok (s', inr (final, reason))) ->
  final = [] \/ reason = SR_FINISHED /\
    exists c s0 tr1 tr2 tr3, tr = tr1 ++ tr2 ++ tr3 /\ runs (context owner incident s0) tr2 (Ok c) /\
    ss_evidence s0 = ss_evidence s' /\ decided (ss_evidence s') c final.
Proof.
  revert n s tr. induction l as [|turn l IH]; intros n s tr; cbn [turns].
  { intros [_ [= _ <- _]]%runs_ret_ok. by left. }
  intros [(r & _ & [=])|(s1 & granted & t1 & t1' & -> & _ & Hr)]%runs_and_then.
  destruct (negb (eqb_of granted AU_OK)); [by apply runs_ret_ok in Hr as [_ [=]]|].
  apply runs_and_then in Hr as [(r & _ & [=])|(s2 & sx & t2 & t2' & -> & [_ [= <- <-]]%runs_ret_ok & Hr)].
  apply runs_and_then in Hr as [(r & _ & [=])|(s3 & c & t3 & t3' & -> & [-> Hc]%runs_does & Hr)].
  apply runs_and_then in Hr as [(r & _ & [=])|(s4 & o & t4 & t4' & -> & Hm & Hr)].
  destruct (yields_runs _ _ _ _ (model_keeping turn c s1) Hm) as [Hev Hrep]. cbn in Hev, Hrep.
  assert (forall s5 t5 t5', ss_evidence s5 = ss_evidence s5 -> t4' = t5 ++ t5' -> forall m,
    runs (turns owner incident binding l m s5) t5' (Ok (s', inr (final, reason))) ->
    final = [] \/ reason = SR_FINISHED /\ exists c s0 tr1 tr2 tr3, t1 ++ t2 ++ t3 ++ t4 ++ t4' = tr1 ++ tr2 ++ tr3 /\
      runs (context owner incident s0) tr2 (Ok c) /\ ss_evidence s0 = ss_evidence s' /\
      decided (ss_evidence s') c final) as Hlater.
  { intros s5 t5 t5' _ -> m Hrun. destruct (IH _ _ _ Hrun) as [|(? & c' & s0 & u1 & u2 & u3 & -> & ? & ? & ?)];
      [by left|]. right. split; [done|]. exists c', s0, (t1 ++ t2 ++ t3 ++ t4 ++ t5 ++ u1), u2, u3. by rewrite <-!app_assoc. }
  destruct (mo_status o); try by apply runs_ret_ok in Hr as [_ [=]].
  - destruct (mo_decision o) as [d|] eqn:Hd;
      [|by apply runs_bind_ok in Hr as (? & ? & ? & _ & ?%runs_raise_ok & _)].
    destruct (eqb_of (dec_kind d) finish).
    + apply runs_and_then in Hr as [(r & _ & [=])|(s5 & f & t5 & t5' & -> & [-> Hs]%runs_does & Hr)].
      apply runs_ret_ok in Hr as [-> [= -> <- <-]]. apply runs_lift_ok in Hs as [-> Hs].
      right. split; [done|]. exists c, s1, (t1 ++ t2), t3, t4. rewrite !app_nil_r, <-!app_assoc. split_and!; [done|done|done|].
      split; [|exists d; split; [by apply Hrep|done]]. rewrite Hev.
      refine (yields_runs _ _ _ _ _ Hc). apply yields_on_files, build_context_drawn.
    + apply runs_and_then in Hr as [(r & _ & [=])|(s5 & [] & t5 & t5' & -> & _ & Hr)]. by eapply Hlater.
  - destruct (1 <? n + 1); [by apply runs_ret_ok in Hr as [_ [=]]|].
    apply runs_and_then in Hr as [(r & _ & [=])|(s5 & [] & t5 & t5' & -> & _ & Hr)]. by eapply Hlater.
Qed.

(** A granted authority: the last answer is the refresh of the identity, granted in time. *)
Lemma authority_granted op settings tr :
  runs (authority (on_model op) settings) tr (Ok AU_OK) ->
  exists tr' timeout t, tr = tr' ++ [existT (LModel op (MAwaitAuthority timeout)) (Ok (Some (true, t)))].
Proof.
  unfold authority. intros (closed & t1 & t1' & -> & _ & Hr)%runs_bind_ok.
  apply runs_bind_ok in Hr as (got & t2 & t2' & -> & _ & Hr).
  destruct got; cbn [negb] in Hr; [|by apply runs_ret_ok in Hr as [_ [=]]].
  apply runs_bind_ok in Hr as (d & t3 & t3' & -> & _ & Hr).
  apply runs_catch in Hr as [[Hr _]|(e & u1 & u2 & -> & _ & _ & Hr)]; [|by apply runs_ret_ok in Hr as [_ [=]]].
  apply runs_bind_ok in Hr as (timeout & t4 & t4' & -> & _ & Hr).
  apply runs_bind_ok in Hr as (out & t5 & t5' & -> & Hout & Hr).
  pose proof (runs_call_ok (R:=loop_answer) (LModel op (MAwaitAuthority timeout)) _ _ Hout) as ->.
  destruct out as [[[] t]|]; [..|by apply runs_ret_ok in Hr as [_ [=]]].
  - case_match; [by apply runs_ret_ok in Hr as [_ [=]]|]. apply runs_ret_ok in Hr as [-> _].
    exists (t1 ++ t2 ++ t3 ++ t4), timeout, t. by rewrite app_nil_r, <-!app_assoc.
  - case_match; by apply runs_ret_ok in Hr as [_ [=]].
Qed.
(** What [session_run] published *)
Lemma session_run_final initial tr r :
  runs (session_run owner incident binding initial) tr (Ok r) ->
  lr_run_id r = incident_id incident /\
  (stop_reason r = SR_FINISHED -> exists tr' op timeout t,
     tr = tr' ++ [existT (LModel op (MAwaitAuthority timeout)) (Ok (Some (true, t)))]) /\
  (lr_hypotheses r = [] \/ stop_reason r = SR_FINISHED /\
   exists c s0 tr1 tr2 tr3, tr = tr1 ++ tr2 ++ tr3 /\ runs (context owner incident s0) tr2 (Ok c) /\
     ss_evidence s0 = lr_evidence r /\ decided (lr_evidence r) c (lr_hypotheses r)).
Proof.
  unfold session_run. intros (? & t1 & t1' & -> & _ & Hr)%runs_bind_ok.
  apply runs_bind_ok in Hr as ([s out] & t2 & t2' & -> & Hturns & Hr). cbv zeta in Hr. cbn [fst snd] in Hr.
  destruct (match out with inl r => _ | inr p => _ end) as [final reason] eqn:Hout.
  apply runs_bind_ok in Hr as (? & t3 & t3' & -> & _ & Hr).
  apply runs_bind_ok in Hr as ([final' reason'] & t4 & t4' & -> & Ha & Hr).
  apply runs_lift_ok in Hr as [-> Hr]. apply LoopResult_validate_ok in Hr as ->. cbn.
  rewrite app_nil_r. split; [done|].
  assert (final = [] \/ reason = SR_FINISHED /\
    exists c s0 tr1 tr2 tr3, t2 = tr1 ++ tr2 ++ tr3 /\ runs (context owner incident s0) tr2 (Ok c) /\
    ss_evidence s0 = ss_evidence s /\ decided (ss_evidence s) c final) as Hfinal.
  { destruct out as [x1|[f x2]]; injection Hout as <- <-; [by left|]. by eapply turns_final. }
  assert (reason' = SR_FINISHED -> final' = final /\ reason = SR_FINISHED /\ exists tr' timeout t,
    t4 = tr' ++ [existT (LModel (the_run incident, "authority") (MAwaitAuthority timeout)) (Ok (Some (true, t)))])
    as Hgrant.
  { destruct_eqb reason SR_FINISHED.
    - apply runs_bind_ok in Ha as (g & u1 & u2 & -> & Hg & [-> Hx]%runs_ret_ok). rewrite app_nil_r.
      destruct_eqb g AU_OK; injection Hx as <- <-; [|by destruct g].
      intros _. split_and!; [done|done|]. subst g. by apply authority_granted in Hg.
    - apply runs_ret_ok in Ha as [-> [= <- <-]]. done. }
  assert (reason' <> SR_FINISHED -> final' = []) as Hnone.
  { intros Hne. destruct_eqb reason SR_FINISHED.
    - apply runs_bind_ok in Ha as (g & u1 & u2 & -> & Hg & [-> Hx]%runs_ret_ok).
      destruct (eqb_of g AU_OK); injection Hx as <- <-; done.
    - apply runs_ret_ok in Ha as [-> [= <- <-]]. by destruct Hfinal as [|[? _]]. }
  split.
  - intros (_ & _ & tr' & timeout & t & ->)%Hgrant.
    exists (t1 ++ t2 ++ t3 ++ tr'), (the_run incident, "authority"), timeout, t. by rewrite <-!app_assoc.
  - destruct_eqb reason' SR_FINISHED; [|left; by apply Hnone]. destruct (Hgrant Heq) as (-> & _ & _).
    destruct Hfinal as [|(_ & c & s0 & u1 & u2 & u3 & -> & ? & ? & ?)]; [by left|]. right. split; [done|].
    exists c, s0, (t1 ++ u1), u2, (u3 ++ t3 ++ t4). by rewrite <-!app_assoc.
Qed.
End sessions.
