(* ===== verification/LoopStory.v ===== *)
(** * A concrete run of the loop

    Instances of what the loop is given, and a run: a collector retains two observations, a
    local model asks for the logs, then names the leak they show; a second worker replays. *)

From stdpp Require Import pretty.
From S2P Require Import Prelude Text Json Digest Contracts Effects Reasoning Budget Investigation Baseline.
From S2P Require Import BudgetTheorems Diagnostics Artifacts Context Registry Runtime Records Loop LoopSafety.

Open Scope string_scope.
Open Scope list_scope.
Open Scope Z_scope.
Open Scope result_scope.
Open Scope prog_scope.

(** ** Decisions as texts *)

#[local] Instance ToolName_countable : Countable ToolName.
Proof.
  refine (inj_countable' (fun t => match t with workload_status => 0%N | pod_events => 1%N | recent_logs => 2%N
      | payment_snapshot => 3%N | runbook_search => 4%N | incident_search => 5%N end)
    (fun n => match n with 0%N => workload_status | 1%N => pod_events | 2%N => recent_logs
      | 3%N => payment_snapshot | 4%N => runbook_search | _ => incident_search end) _).
  by intros [].
Defined.

#[local] Instance Service_countable : Countable Service.
Proof.
  refine (inj_countable' (fun t => match t with payments_api => 0%N | processor_adapter => 1%N | risk_sim => 2%N
      | ledger_sim => 3%N | webhook_sim => 4%N end)
    (fun n => match n with 0%N => payments_api | 1%N => processor_adapter | 2%N => risk_sim
      | 3%N => ledger_sim | _ => webhook_sim end) _).
  by intros [].
Defined.

#[local] Instance ReadRequest_countable : Countable ReadRequest.
Proof.
  refine (inj_countable' (fun r => (tool r, service r, query_text r))
    (fun '(t, s, q) => {| tool := t; service := s; query_text := q |}) _).
  by intros [].
Defined.

#[local] Instance spec_float_countable : Countable spec_float.
Proof.
  refine (inj_countable' (fun f => match f with
      | S754_zero s => inl (inl s) | S754_infinity s => inl (inr s) | S754_nan => inr (inl tt)
      | S754_finite s m e => inr (inr (s, m, e)) end)
    (fun x => match x with
      | inl (inl s) => S754_zero s | inl (inr s) => S754_infinity s | inr (inl _) => S754_nan
      | inr (inr (s, m, e)) => S754_finite s m e end) _).
  by intros [].
Defined.

#[local] Instance RankedCause_countable : Countable RankedCause.
Proof.
  refine (inj_countable' (fun c => (rc_cause_code c, rc_confidence c, rc_supporting c, rc_refuting c, rc_missing c))
    (fun '(a, b, c, d, e) => {| rc_cause_code := a; rc_confidence := b; rc_supporting := c;
       rc_refuting := d; rc_missing := e |}) _).
  by intros [].
Defined.

#[local] Instance ReasoningDecision_eq_dec : EqDecision ReasoningDecision.
Proof. solve_decision. Defined.

#[local] Instance ReasoningDecision_countable : Countable ReasoningDecision.
Proof.
  refine (inj_countable' (fun d => (match dec_kind d with read => 0%N | finish => 1%N | refuse => 2%N end,
      dec_summary d, dec_reads d, dec_hypotheses d))
    (fun '(k, s, r, h) => {| dec_kind := match k with 0%N => read | 1%N => finish | _ => refuse end;
       dec_summary := s; dec_reads := r; dec_hypotheses := h |}) _).
  by intros [[] ? ? ?].
Defined.

(** The binary digits of a number, lowest first, as hexadecimal letters [a] and [b] *)
Definition letter_a : Ascii.ascii := Ascii.ascii_of_nat 97.
Definition letter_b : Ascii.ascii := Ascii.ascii_of_nat 98.
Fixpoint digits_of (p : BinNums.positive) : string :=
  match p with xH => EmptyString | xO p => String letter_a (digits_of p) | xI p => String letter_b (digits_of p) end.
Fixpoint of_digits (s : string) : BinNums.positive :=
  match s with
  | EmptyString => xH
  | String c s => if eqb_of c letter_a then xO (of_digits s) else xI (of_digits s)
  end.
Lemma of_digits_of p : of_digits (digits_of p) = p.
Proof. induction p as [p IH|p IH|]; cbn; [by rewrite IH..|done]. Qed.

#[export] Instance decoded : JsonLoads := fun _ _ s =>
  match decode (A:=ReasoningDecision) (of_digits s) with
  | Some d => Ok (decision_json d)
  | None => Err (ValueError "JSONDecodeError")
  end.

#[export] Instance encoded : DecisionText.
Proof.
  refine {| decision_text d := digits_of (encode d) |}.
  intros d _. unfold json_loads, decoded. by rewrite of_digits_of, decode_encode.
Defined.

(** ** Files *)

Inductive content : Type :=
  | CObject (name : string) (o : list (string * json))
  | CTurn (t : PreparedTurn)
  | CModelReceipt (r : ModelReceipt)
  | CReadReceipt (r : ReadReceipt)
  | CBinding (version : string).

#[export] Instance contents : Blob := {|
  blob := content;
  blob_text b := match b with
    | CObject name _ => "object " +:+ name
    | CTurn t => "turn " +:+ pt_operation_id t
    | CModelReceipt r => "model " +:+ mr_operation_id r
    | CReadReceipt r => "reads " +:+ rdr_operation_id r
    | CBinding v => "binding " +:+ v
    end;
  read_object b := match b with CObject _ o => Ok o | _ => Err (ValueError "object") end;
|}.

#[export] Instance documents : LoopCodec := {|
  turn_blob := CTurn;
  read_turn b := match b with CTurn t => Some t | _ => None end;
  model_receipt_blob := CModelReceipt;
  read_model_receipt b := match b with CModelReceipt r => Some r | _ => None end;
  read_receipt_blob := CReadReceipt;
  read_read_receipt b := match b with CReadReceipt r => Some r | _ => None end;
  binding_blob v _ _ _ _ _ _ := CBinding v;
|}.

#[export] Instance short_text : PydanticText := {| iso_text t := pretty t; compact_text _ := EmptyString |}.
#[export] Instance short_prompt : PromptText :=
  {| dumps _ := "data"; decision_schema := JNull; request_schema := JNull |}.
#[export] Instance no_time : PyText := {| fromisoformat _ := None; str_of _ := EmptyString |}.
#[export] Instance no_derived : SourceChecks := {|
  verify_payment_window _ := Raise (ValueError "window");
  verify_trace_span _ := Raise (ValueError "span");
  verify_trace_log _ := Raise (ValueError "log");
  verify_retrieval_evidence _ := Raise (ValueError "lineage");
|}.

(** ** The story *)

Definition retained (id name : string) (s : Source) (payload : json) : EvidenceItem * content :=
  let digest := sha256_hex ("object " +:+ name) in
  let e := {| evidence_id := id; ev_incident_id := "inc-1"; source := s; observed_at := 5; collected_at := 6;
              query := "q"; resource := "payments-api"; artifact_uri := "sha256://" +:+ digest;
              artifact_sha256 := digest; summary := "s" |} in
  (e, CObject name [("evidence", JObj (without ["artifact_uri"; "artifact_sha256"] (dump_evidence e)));
                    ("payload", payload)]).

Definition pod : EvidenceItem * content :=
  Eval vm_compute in retained "ev-pod" "pod" KUBERNETES (JObj [("ready", JBool true)]).
Definition heap : EvidenceItem * content :=
  Eval vm_compute in retained "ev-heap" "heap" KUBERNETES (JObj [("samples", JList
    [JObj [("retained_bytes", JInt 1)]; JObj [("retained_bytes", JInt 2)]; JObj [("retained_bytes", JInt 3)]])]).

Definition host : ReasoningLoop := {|
  settings := {| ms_provider := "local_llama"; ms_model := "qwen"; ms_fixture := false;
    input_token_limit := 4000; ms_output_limit := 500; timeout_seconds := float_of_Z 20;
    ms_price := {| input_nano_usd := 0; cached_input_nano_usd := 0; output_nano_usd := 0 |};
    ms_accounting := provider_ceiling |};
  subject := "worker"; causes := {["MEMORY_LEAK"; "CPU_THROTTLING"]};
  loop_limits := {| lim_model_calls := 3; lim_tokens := 20000; lim_cost_nano_usd := 0; lim_tool_calls := 4;
    lim_backend_reads := 8; lim_provider_requests := 6 |};
  deadline_ceiling := float_of_Z 30 |}.

Definition alert : Incident :=
  {| incident_id := "inc-1"; request := {| title := "t"; req_namespace := "payops-sandbox";
       req_service := "payments-api"; severity := warning |}; created_at := 4; report := None |}.

Definition wanted : ReadRequest := {| tool := workload_status; service := payments_api; query_text := None |}.

Definition first_answer : ReasoningDecision :=
  {| dec_kind := read; dec_summary := "s"; dec_reads := [wanted]; dec_hypotheses := [] |}.
Definition last_answer : ReasoningDecision :=
  {| dec_kind := finish; dec_summary := "s"; dec_reads := [];
     dec_hypotheses := [{| rc_cause_code := "MEMORY_LEAK"; rc_confidence := float_of_Z 1;
       rc_supporting := ["ev-heap"]; rc_refuting := []; rc_missing := [] |}] |}.

Definition model_said (d : ReasoningDecision) : option CompletedModel :=
  Some {| cm_observation := {| mo_status := MS_OK; mo_decision := Some d; mo_usage := None;
            provider_seconds := None; output_sha256 := None; provider_details := None |};
          finished_at := float_of_Z 1 |}.

(** Everybody answers at once; the ledger and the files do what they were asked. *)
Definition story (c : loop_call) (w : loop_world) : result (loop_answer c) * loop_world :=
  match c return result (loop_answer c) * loop_world with
  | LLedger q => ((ledger_exec w.1 q).1, ((ledger_exec w.1 q).2, w.2))
  | LArt q => ((art_exec w.2 q).1, (w.1, (art_exec w.2 q).2))
  | LModel op q =>
      (match q return result (rt_answer q) with
       | MClosed => Ok false
       | MAcquire => Ok true
       | MMonotonic => Ok (float_of_Z 1)
       | MTokens _ => Ok 4000
       | MAwaitAuthority _ => Ok (Some (true, float_of_Z 1))
       | MAwaitCall _ => Ok (model_said (if decide (op.2 = "model-01") then first_answer else last_answer))
       | MRelease | MSubmitAuthority | MSubmitCall _ _ _ _ | MClose => Ok tt
       end, w)
  | LRead op q =>
      (match q return result (reg_answer q) with
       | GClosed => Ok false
       | GAcquire => Ok true
       | GMonotonic => Ok (float_of_Z 1)
       | GAwait _ _ => Ok (Some {| rc_result := {| rr_request := wanted; rr_status := RD_OK; rr_evidence := [heap.1] |};
                                   rc_completed_at := float_of_Z 1 |})
       | GAwaitRefresh _ => Ok (Some (RD_OK, float_of_Z 1))
       | GRelease | GSubmit _ _ | GSubmitRefresh | GClose => Ok tt
       end, w)
  | LLock _ => (Ok tt, w)
  end.

Lemma story_answers c w : loop_answers w c (story c w).1 (story c w).2.
Proof.
  destruct c as [q|q|op q|op q|name].
  - apply loop_ledger, ledger_done.
  - apply loop_files, art_done.
  - by apply loop_other.
  - by apply loop_other.
  - by apply loop_other.
Qed.

Definition workers : list (prog loop_answer unit) :=
  [let* _ := on_files (store_write pod.2) in Ret tt;
   let* _ := on_files (store_write heap.2) in Ret tt;
   let* _ := loop_run host alert [pod.1] in Ret tt;
   let* _ := loop_run host alert [pod.1] in Ret tt].

Definition played : list (result unit) * loop_world * list (obs loop_answer) :=
  play_all story workers empty_world [].
Definition after_story : system loop_answer loop_world unit :=
  {| threads := []; shared := played.1.2; history := played.2 |}.

Lemma after_story_reachable : loop_reachable after_story.
Proof.
  apply (play_all_reachable loop_answers loop_program story story_answers).
  apply Forall_cons; split; [exact (run_collector pod.2)|].
  apply Forall_cons; split; [exact (run_collector heap.2)|].
  apply Forall_cons; split; [exact (run_loop host alert [pod.1])|].
  apply Forall_cons; split; [exact (run_loop host alert [pod.1])|]. apply Forall_nil_2.
Qed.

(** The first worker's run on its own, with what was retained before *)
Definition investigated : result LoopResult * loop_world * list (obs loop_answer) :=
  play story (loop_run host alert [pod.1]) (play_all story (take 2 workers) empty_world []).1.2 [].
