(* ===== verification/LoopTheorems.v ===== *)
(** * What the reasoning loop guarantees *)

From S2P Require Import Prelude Text Json Digest Contracts Effects Permits Reasoning Budget BudgetSafety Investigation.
From S2P Require Import Baseline Diagnostics DiagnosticsTheorems Artifacts Context Registry Runtime Records.
From S2P Require Import BudgetTheorems Loop LoopSafety LoopOutcome LoopStory.

Open Scope string_scope.
Open Scope list_scope.
Open Scope Z_scope.
Open Scope result_scope.
Open Scope prog_scope.

(** C24: every reservation is dispatched at most once.  However any number of loops
    interleave over one ledger and one store, crashed, restarted or replayed at any moment,
    no provider call and no read of a batch is submitted to a worker twice for the same
    operation of a run, and what was submitted stays charged to the run in the ledger.  The
    worker of a submission, in turn, makes the provider generate at most once, and calls the
    reader it was submitted for at most once. *)
Theorem dispatched_once
  `{BudgetCodec, Blob, !LoopCodec, PydanticText, JsonLoads, PyText, !SourceChecks, PromptText, !DecisionText} x :
  loop_reachable x ->
  (forall i, NoDup (spent (loop_spend i) (history x)) /\
     forall op, op ∈ spent (loop_spend i) (history x) ->
       exists r, holds (shared x).1 op.1 r /\ op.2 ∈ map operation_id (charges r)) /\
  (forall settings p ids cs deadline tr out,
     runs (run_call_model settings p ids cs deadline) tr out -> (length (spent generation tr) <= 1)%nat) /\
  (forall own r tr out,
     runs (registry_read own r) tr out -> (length (spent reading tr) <= 1)%nat).
Proof.
  intros Hx. split_and!.
  - intros i. pose proof (spent_once loop_answers loop_program loop_ok loop_inv loop_claimed loop_grant
      (loop_spend i) (loop_program_guarded i) empty_world x) as Hspent.
    destruct Hspent as (_ & Hnd & Hcl); [|exact Hx|split; [exact Hnd|exact Hcl]].
    intros id p Hp. cbn in Hp. by rewrite (lookup_empty (M:=gmap string)) in Hp.
  - intros settings p ids cs d tr out Hr. exact (guarded_runs_once _ _ _ _ _ _ (run_call_model_once _ _ _ _ _) Hr).
  - intros own r tr out Hr. exact (guarded_runs_once _ _ _ _ _ _ (registry_read_once _ _) Hr).
Qed.

Lemma dispatched_once_witness :
  spent (loop_spend 0) (history after_story) = [("inc-1", "model-01"); ("inc-1", "reads-01"); ("inc-1", "model-02")] /\
  NoDup (spent (loop_spend 0) (history after_story)).
Proof.
  split; [vm_compute; reflexivity|].
  exact (proj1 (proj1 (dispatched_once after_story after_story_reachable) 0%nat)).
Defined.

Lemma indexed_elem index cause id : id ∈ indexed index cause -> exists ids, (cause, ids) ∈ index /\ id ∈ ids.
Proof.
  unfold indexed. destruct (List.find _ index) as [[c ids]|] eqn:Hf; cbn; [|by intros ?%elem_of_nil].
  apply List.find_some in Hf as [Hin Hc]. cbn in Hc. apply eqb_of_true in Hc as ->.
  intros Hid. exists ids. split; [by apply list_elem_of_In|done].
Qed.

Lemma hypotheses_of_elem d values h :
  hypotheses_of d = Ok values -> h ∈ values -> exists c, c ∈ dec_hypotheses d /\ h = cause_hypothesis c.
Proof.
  unfold hypotheses_of. case_match; [done|]. revert values.
  induction (dec_hypotheses d) as [|c l IH]; intros values; cbn.
  - by intros [= <-] ?%elem_of_nil.
  - destruct (RootCauseHypothesis_valid _); cbn; [|done].
    intros (hs & Hhs & [= <-])%rbind_inr [->|Hin]%elem_of_cons.
    + exists c. split; [apply list_elem_of_here|done].
    + destruct (IH _ Hhs Hin) as (c' & ? & ?). exists c'. split; [by apply list_elem_of_further|done].
Qed.

Lemma hypotheses_of_causes d values : hypotheses_of d = Ok values -> map cause_code values = map rc_cause_code (dec_hypotheses d).
Proof.
  unfold hypotheses_of. case_match; [done|]. revert values.
  induction (dec_hypotheses d) as [|c l IH]; intros values; cbn; [by intros [= <-]|].
  destruct (RootCauseHypothesis_valid _); cbn; [|done].
  intros (hs & Hhs & [= <-])%rbind_inr. cbn. by rewrite (IH _ Hhs).
Qed.

Lemma map_filter_sublist {A B} (f : A -> B) (p : A -> bool) l : map f (List.filter p l) `sublist_of` map f l.
Proof. induction l as [|x l IH]; cbn; [done|]. destruct (p x); cbn; by constructor. Qed.

(** What [supported] leaves: hypotheses of the decision, for a local model only those whose
    every citation is predicate support. *)
Lemma supported_elem `{PyText} owner d c final h :
  supported owner d c = Ok final -> h ∈ final ->
  (exists rc, rc ∈ dec_hypotheses d /\ h = cause_hypothesis rc) /\
  (is_local owner = true -> refuting_evidence_ids h = [] /\
     forall id, id ∈ supporting_evidence_ids h -> observed (included c) (cause_code h) id).
Proof.
  unfold supported. intros (values & Hv & Hf)%rbind_inr Hh. destruct (is_local owner); cbn [negb] in Hf.
  - apply rbind_inr in Hf as (index & Hi & [= <-]).
    apply list_elem_of_In, List.filter_In in Hh as [Hh Hsup]. apply list_elem_of_In in Hh.
    split; [by eapply hypotheses_of_elem|]. intros _. unfold hypothesis_supported in Hsup.
    apply andb_true_iff in Hsup as [Hall Href]. split; [by destruct (refuting_evidence_ids h)|].
    intros id Hid. rewrite forallb_forall in Hall.
    specialize (Hall id (proj1 (list_elem_of_In _ _) Hid)). apply bool_decide_eq_true in Hall.
    apply indexed_elem in Hall as (ids & Hin & ?). by eapply support_index_observed.
  - injection Hf as <-. split; [by eapply hypotheses_of_elem|done].
Qed.

Lemma supported_causes_distinct `{PyText} owner d c final :
  supported owner d c = Ok final -> NoDup (map rc_cause_code (dec_hypotheses d)) -> NoDup (map cause_code final).
Proof.
  unfold supported. intros (values & Hv & Hf)%rbind_inr. rewrite <-(hypotheses_of_causes _ _ Hv). intros Hnd.
  destruct (is_local owner); cbn [negb] in Hf; [|by injection Hf as <-].
  apply rbind_inr in Hf as (index & _ & [= <-]). eapply sublist_NoDup; [exact Hnd|apply map_filter_sublist].
Qed.

(** C25: what a run publishes is checked and freshly authorized.  Whatever the provider, the
    readers and the stored receipts say, a run of the loop that returns has a result of its
    own incident; unless it stopped as [FINISHED] it names no cause; if it did, the very last
    thing asked was the identity refresh, and it was granted.  Each hypothesis names a
    distinct cause of the host's vocabulary and cites only evidence of the result, never on
    both sides.  For a local model every citation is moreover an observation whose own
    verified facts, in the context the run built last, satisfy a diagnostic predicate for
    that cause, and nothing refutes it. *)
Theorem published_supported
  `{BudgetCodec, Blob, !LoopCodec, PydanticText, JsonLoads, PyText, !SourceChecks, PromptText, !DecisionText}
  owner i initial tr r :
  runs (loop_run owner i initial) tr (Ok r) ->
  lr_run_id r = incident_id i /\
  (stop_reason r <> SR_FINISHED -> lr_hypotheses r = []) /\
  (stop_reason r = SR_FINISHED -> exists tr' op timeout t,
     tr = tr' ++ [existT (LModel op (MAwaitAuthority timeout)) (Ok (Some (true, t)))]) /\
  NoDup (map cause_code (lr_hypotheses r)) /\
  (forall h, h ∈ lr_hypotheses r -> cause_code h ∈ causes owner /\
     (forall id, id ∈ supporting_evidence_ids h ++ refuting_evidence_ids h ->
        exists e, e ∈ lr_evidence r /\ evidence_id e = id) /\
     (forall id, id ∈ supporting_evidence_ids h -> id ∉ refuting_evidence_ids h)) /\
  (is_local owner = true -> lr_hypotheses r <> [] -> exists c s tr1 tr2 tr3,
     tr = tr1 ++ tr2 ++ tr3 /\ runs (context owner i s) tr2 (Ok c) /\ ss_evidence s = lr_evidence r /\
     forall h, h ∈ lr_hypotheses r -> refuting_evidence_ids h = [] /\
       forall id, id ∈ supporting_evidence_ids h -> observed (included c) (cause_code h) id).
Proof.
  unfold loop_run. intros (i' & t1 & t1' & -> & [-> Hi]%runs_lift_ok & Hr)%runs_bind_ok.
  apply Incident_validate_same in Hi as ->.
  apply runs_bind_ok in Hr as (binding & t2 & t2' & -> & _ & Hr).
  apply runs_bind_ok in Hr as ([] & t3 & t3' & -> & _ & Hr).
  apply runs_bind_ok in Hr as (record & t4 & t4' & -> & _ & Hr).
  apply session_run_final in Hr as (Hid & Hgrant & Hfinal). cbn. split_and!; [done| | | | |].
  - intros Hne. by destruct Hfinal as [|[? _]].
  - intros (tr' & op & timeout & t & ->)%Hgrant. exists (t2 ++ t3 ++ t4 ++ tr'), op, timeout, t. by rewrite <-!app_assoc.
  - destruct Hfinal as [->|(_ & c & s & u1 & u2 & u3 & -> & _ & _ & [_ (d & Hd & Hs)])]; [constructor|].
    eapply supported_causes_distinct; [exact Hs|apply Hd].
  - intros h Hh. destruct Hfinal as [Hn|(_ & c & s & u1 & u2 & u3 & -> & _ & _ & [Hdr (d & Hd & Hs)])];
      [rewrite Hn in Hh; by apply elem_of_nil in Hh|].
    destruct (supported_elem owner d c _ h Hs Hh) as [(rc & Hrc & ->) _]. cbn. split_and!.
    + by apply Hd.
    + intros id Hcite. apply (resolved_cited _ _ _ Hd rc id Hrc) in Hcite.
      apply elem_of_list_to_set, list_elem_of_fmap in Hcite as (e & -> & He). exists (evidence e).
      split; [by apply Hdr|done].
    + intros id. by apply (resolved_disjoint _ _ _ Hd).
  - intros Hl Hne. destruct Hfinal as [|(_ & c & s & u1 & u2 & u3 & -> & Hc & Hev & [_ (d & Hd & Hs)])]; [done|].
    exists c, s, (t2 ++ t3 ++ t4 ++ u1), u2, u3. rewrite <-!app_assoc. split_and!; [done|done|done|].
    intros h Hh. by apply (supported_elem owner d c _ h Hs Hh).
Qed.

Lemma published_supported_witness :
  exists r, investigated.1.1 = Ok r /\ stop_reason r = SR_FINISHED /\
    map cause_code (lr_hypotheses r) = ["MEMORY_LEAK"] /\
    exists tr' op timeout t, investigated.2 = tr' ++ [existT (LModel op (MAwaitAuthority timeout)) (Ok (Some (true, t)))].
Proof.
  assert (exists r, investigated.1.1 = Ok r /\ stop_reason r = SR_FINISHED /\
    map cause_code (lr_hypotheses r) = ["MEMORY_LEAK"]) as (r & Hr & Hs & Hc)
    by (eexists; split_and!; vm_compute; reflexivity).
  exists r. split_and!; [exact Hr|exact Hs|exact Hc|].
  assert (runs (loop_run host alert [pod.1]) investigated.2 (Ok r)) as Hruns
    by (rewrite <-Hr; exact (play_runs_nil story (loop_run host alert [pod.1]) _)).
  exact (proj1 (proj2 (proj2 (published_supported host alert [pod.1] investigated.2 r Hruns))) Hs).
Defined.
