(* ===== verification/AdaptersTheorems.v ===== *)
(** * What the provider adapters do between a reservation and a decision

    The stages of an invocation are its count request, its question to the host and its
    generation request.  They are the protocol [Runtime] uses an adapter by. *)

From S2P Require Import Prelude Json Digest Effects Reasoning Budget Runtime Wire Adapters.

Open Scope string_scope.
Open Scope list_scope.
Open Scope Z_scope.
Open Scope result_scope.
Open Scope prog_scope.

(** ** Stages *)

Inductive stage : Type :=
  | Counting (body : string)
  | Asking (count : Z) (granted : result bool)
  | Generating (body : string).

Definition stage_of (o : obs ad_answer) : option stage :=
  match o with
  | existT (AStream path body _) _ =>
      Some (if String.eqb path CREATE_PATH || String.eqb path "/completion" then Generating body else Counting body)
  | existT (AHook n) r => Some (Asking n r)
  | _ => None
  end.
Definition stages (h : list (obs ad_answer)) : list stage := omap stage_of h.

(** The host is asked once, with a count within the reserved ceiling, after counting and
    before generating; only its consent leads to a generation, and to at most one. *)
Inductive staged (ceiling : Z) : list stage -> Prop :=
  | staged_none : staged ceiling []
  | staged_count b : staged ceiling [Counting b]
  | staged_ask b n r : 0 <= n <= ceiling -> staged ceiling [Counting b; Asking n r]
  | staged_all b n b' : 0 <= n <= ceiling -> staged ceiling [Counting b; Asking n (Ok true); Generating b'].

(** A message accounts for the invocation it was made by. *)
Record accounts (s : list stage) (output_limit : Z) (m : ValidatedAIMessage) (d : ProviderDetails) : Prop := {
  accounts_stages : exists b b', s = [Counting b; Asking (counted_input_tokens d) (Ok true); Generating b'];
  accounts_details : vm_details m = Some d /\ ProviderDetails_validate d = Ok d;
  accounts_usage u : vm_usage m = Some u ->
    input_tokens u = counted_input_tokens d /\ output_tokens u <= output_limit /\ ProviderUsage_validate u = Ok u;
  accounts_text : vm_content m <> EmptyString /\ str_len (vm_content m) <= 16384;
  accounts_shape : vm_shape_sha256 m = request_shape_sha256 d;
  accounts_refusal : vm_refusal m = normalized_refusal d /\ (vm_refusal m = true -> vm_content m = REFUSAL);
}.

(** The slot was taken. *)
Definition took_slot (o : obs ad_answer) : bool :=
  match o with existT AAcquire (inr true) => true | _ => false end.

Definition contract (ceiling output_limit : Z) (s : list stage) (out : result ValidatedAIMessage) : Prop :=
  staged ceiling s /\ forall m, out = Ok m -> exists d, accounts s output_limit m d.

(** ** Following the stages of a program *)

Definition quiet (c : ad_call) : Prop := match c with AStream _ _ _ | AHook _ => False | _ => True end.

Definition staging {A} (s : list stage) (m : dprog A) (Q : list stage -> result A -> Prop) : Prop :=
  forall h, stages h = s -> hoare (fun _ _ => True) h m (fun h' out => Q (stages h') out).

Lemma stages_app h h' : stages (h ++ h') = stages h ++ stages h'.
Proof. apply omap_app. Qed.

Lemma staging_ret {A} s (a : A) (Q : list stage -> result A -> Prop) : Q s (inr a) -> staging s (Ret a) Q.
Proof. by intros HQ h <-. Qed.

Lemma staging_raise {A} s e (Q : list stage -> result A -> Prop) : Q s (inl e) -> staging s (Raise e) Q.
Proof. by intros HQ h <-. Qed.

Lemma staging_bind {A B} s (m : dprog A) (f : A -> dprog B) (Q : list stage -> result B -> Prop) :
  staging s m (fun s' out => match out with inr a => staging s' (f a) Q | inl e => Q s' (inl e) end) ->
  staging s (bind m f) Q.
Proof.
  intros Hm h Hh. apply hoare_bind. eapply hoare_mono; [by apply Hm|]. cbn. intros h' [e|a] HQ; [done|].
  by apply HQ.
Qed.

Lemma staging_catch {A} s (m : dprog A) (x : exn -> dprog A) (Q : list stage -> result A -> Prop) :
  staging s m (fun s' out => match out with inl e => staging s' (x e) Q | inr a => Q s' (inr a) end) ->
  staging s (catch m (fun _ => true) x) Q.
Proof.
  intros Hm h Hh. apply hoare_catch. eapply hoare_mono; [by apply Hm|]. cbn. intros h' [e|a] HQ; [|done].
  by apply HQ.
Qed.

Lemma staging_quiet {A} s (m : dprog A) (Q : list stage -> result A -> Prop) :
  issues quiet m -> (forall out, Q s out) -> staging s m Q.
Proof.
  intros Hm HQ h Hh. revert h Hh. induction m as [a|e|c k IH]; cbn in *.
  - by intros h ->.
  - by intros h ->.
  - destruct Hm as [Hc Hk]. intros h Hh. split; [done|]. intros r. apply IH; [done|].
    rewrite stages_app, Hh. unfold stages. cbn. destruct c; try done; cbn; by rewrite app_nil_r.
Qed.

Lemma staging_call {A} s (c : ad_call) (f : ad_answer c -> dprog A) (Q : list stage -> result A -> Prop) :
  (forall r, match r with
             | inr a => staging (s ++ stages [existT c r]) (f a) Q
             | inl e => Q (s ++ stages [existT c r]) (inl e)
             end) ->
  staging s (bind (dask c) f) Q.
Proof.
  intros Hf h Hh. cbn. split; [done|]. intros r. specialize (Hf r). destruct r as [e|a]; cbn.
  - by rewrite stages_app, Hh.
  - apply Hf. by rewrite stages_app, Hh.
Qed.

(** Straight-line code without a stage of its own *)
Lemma staging_step {A B} s (m : dprog A) (f : A -> dprog B) (Q : list stage -> result B -> Prop) :
  issues quiet m -> (forall e, Q s (inl e)) -> (forall a, staging s (f a) Q) -> staging s (bind m f) Q.
Proof. intros Hm He Hf. apply staging_bind, staging_quiet; [done|]. intros [e|a]; [apply He|apply Hf]. Qed.

Lemma staging_lift {A B} s (m : result A) (f : A -> dprog B) (Q : list stage -> result B -> Prop) :
  (forall e, Q s (inl e)) -> (forall a, m = Ok a -> staging s (f a) Q) -> staging s (bind (lift m) f) Q.
Proof. intros He Hf. destruct m as [e|a]; [apply staging_raise, He|by apply Hf]. Qed.

Lemma staging_finally {A} s (m : dprog A) f (Q : list stage -> result A -> Prop) :
  issues quiet f -> (forall s' out e, Q s' out -> Q s' (inl e)) -> staging s m Q -> staging s (finally m f) Q.
Proof.
  intros Hf Hweak Hm h Hh. unfold finally. apply hoare_bind. specialize (Hm h Hh).
  clear Hh. revert h Hm. induction m as [a|e|c k IH]; cbn; intros h Hm.
  - apply hoare_bind. eapply hoare_mono; [by apply (staging_quiet (stages h) f (fun s' _ => s' = stages h))|].
    cbn. intros h' [e|[]] ->; cbn; [by eapply Hweak|done].
  - apply hoare_bind. eapply hoare_mono; [by apply (staging_quiet (stages h) f (fun s' _ => s' = stages h))|].
    cbn. intros h' [e'|[]] ->; cbn; [by eapply Hweak|done].
  - destruct Hm as [_ Hk]. split; [done|]. intros r. by apply IH.
Qed.

Create HintDb stages discriminated.

Section contract.
Context `{WireText, Schemas}.
Context (frames : nat).

#[local] Ltac quiet := repeat first
  [ solve [auto 2 with stages nocore] | progress cbv zeta | apply issues_finally | apply issues_bind; [|intros ?] | apply issues_catch; [|intros ?]
  | apply (issues_call (R:=ad_answer)); exact I | apply issues_lift | case_match | exact I ].

Lemma remaining_quiet deadline : issues quiet (remaining deadline).
Proof. unfold remaining. quiet. Qed.

#[local] Hint Resolve remaining_quiet : stages.

Lemma logging_quiet : issues quiet logging_safe.
Proof. unfold logging_safe. quiet. Qed.

Lemma read_body_quiet rounds limit deadline data : issues quiet (read_body rounds limit deadline data).
Proof. revert data. induction rounds; intros data; cbn [read_body]; quiet. Qed.

Lemma read_local_quiet rounds deadline data : issues quiet (read_local rounds deadline data).
Proof. revert data. induction rounds; intros data; cbn [read_local]; quiet. Qed.

#[local] Hint Resolve logging_quiet read_body_quiet read_local_quiet : stages.

(** A POST is one stage, or fails before it. *)
Lemma provider_post_stage s path body limit deadline (Q : list stage -> result (list (string * json)) -> Prop) :
  (forall e, Q s (inl e)) ->
  (forall out, Q (s ++ stages [existT (AStream path body float_zero) (inl AssertionError)]) out) ->
  staging s (provider_post path body limit deadline) Q.
Proof.
  intros He Ho. unfold provider_post. case_match; [by apply staging_raise|].
  apply staging_step; [apply remaining_quiet|done|]. intros rest. apply staging_call. intros [e|head]; [apply Ho|].
  apply staging_quiet; [|apply Ho]. quiet.
Qed.

Lemma local_post_stage s path payload deadline (Q : list stage -> result (list (string * json)) -> Prop) :
  (forall e, Q s (inl e)) ->
  (forall out, Q (s ++ stages [existT (AStream path (dumps compact payload) float_zero) (inl AssertionError)]) out) ->
  staging s (local_post path payload deadline) Q.
Proof.
  intros He Ho. unfold local_post. apply staging_step; [quiet|done|]. intros now. cbv zeta.
  case_match; [by apply staging_raise|]. apply staging_call. intros [e|head]; [apply Ho|].
  apply staging_quiet; [|apply Ho]. quiet.
Qed.

Lemma local_tokens_ok raw limit tokens : local_tokens raw limit = Ok tokens -> 0 <= len tokens <= limit.
Proof.
  unfold local_tokens. destruct (dget raw "tokens"); try by intros [=]. pass_guard. intros [= ->].
  match goal with H : _ || _ || _ = false |- _ => apply orb_false_iff in H as [[_ H%Z.ltb_ge]%orb_false_iff _] end.
  unfold len in *. lia.
Qed.

Lemma ProviderDetails_same d d' : ProviderDetails_validate d = Ok d' -> d' = d.
Proof. unfold ProviderDetails_validate. case_match; [by intros [= ->]|done]. Qed.

Lemma validated_message_ok raw details limit model m :
  validated_message raw details limit model = Ok m ->
  vm_details m = Some details /\ vm_shape_sha256 m = request_shape_sha256 details /\ vm_refusal m = false /\
  vm_content m <> EmptyString /\ str_len (vm_content m) <= 16384 /\
  forall u, vm_usage m = Some u ->
    input_tokens u = counted_input_tokens details /\ output_tokens u <= limit /\ ProviderUsage_validate u = Ok u.
Proof.
  unfold validated_message. intros (value & _ & Hm)%rbind_inr. revert Hm.
  destruct (dget value "content") as [| | | |text| |]; try by intros [=]. pass_guard.
  intros (measured & _ & (output & _ & (timings & _ & (c & _ & (cached & _ & Hm)
    %rbind_inr)%rbind_inr)%rbind_inr)%rbind_inr)%rbind_inr. revert Hm. pass_guard.
  intros (u & Hu & [= <-])%rbind_inr. cbn.
  pose proof (ProviderUsage_same _ _ Hu) as ->. pybool. split_and!; try done; try tauto; try lia.
  intros u [= <-]. cbn. split_and!; [lia|lia|done].
Qed.

Lemma contract_error ceiling limit s e : staged ceiling s -> contract ceiling limit s (inl e).
Proof. by split. Qed.

(** The stages so far, or those of a failed request *)
Ltac so_far := intros; apply contract_error; cbn; solve [auto using staged].
Ltac quietly := apply staging_step; [quiet|so_far|].
Ltac guarded := lazymatch goal with |- staging _ (if ?b then _ else _) _ => destruct b eqn:? end;
  [apply staging_raise; so_far|].

Lemma openai_contract settings messages limit :
  staging [] (openai_stages settings messages limit) (contract (input_token_limit settings) limit).
Proof.
  unfold openai_stages. quietly. intros now. cbv zeta. guarded. quietly. intros _.
  apply staging_lift; [so_far|]. intros shaped _. quietly. intros started.
  apply staging_bind, provider_post_stage; [so_far|]. intros [e|counted]; [so_far|].
  apply staging_lift; [so_far|]. intros n Hn%server_count_ok. quietly. intros counting. quietly. intros _.
  apply staging_call. intros [e|granted]; [so_far|]. guarded. destruct granted; [|done].
  quietly. intros _. quietly. intros _. apply staging_lift; [so_far|]. intros generation _.
  quietly. intros generating. apply staging_bind, provider_post_stage; [so_far|].
  intros [e|raw]; [so_far|]. quietly. intros generated.
  apply staging_lift; [so_far|]. intros usage Hu. apply staging_lift; [so_far|]. intros [text refused] Ht.
  quietly. intros _. apply staging_lift; [so_far|]. intros d Hd. apply staging_ret.
  split; [by constructor|]. intros m [= <-]. pose proof (ProviderDetails_same _ _ Hd) as ->.
  apply response_text_ok in Ht as (Hne & Hlen & Href).
  eexists. split; try done; cbn; [by eexists _, _|]. intros u ->. by apply raw_usage_ok in Hu.
Qed.

Lemma llama_contract settings messages limit :
  staging [] (llama_stages frames settings messages limit) (contract (input_token_limit settings) limit).
Proof.
  unfold llama_stages. quietly. intros now. cbv zeta. guarded. apply staging_lift; [so_far|]. intros prompt _.
  quietly. intros started. apply staging_bind, local_post_stage; [so_far|]. intros [e|raw]; [so_far|].
  apply staging_lift; [so_far|]. intros tokens Hn%local_tokens_ok. quietly. intros counted.
  apply staging_call. intros [e|granted]; [so_far|].
  apply staging_bind. destruct granted; cbn [negb]; [|apply staging_ret, staging_raise; so_far].
  apply staging_quiet; [quiet|]. intros [e|late]; [so_far|]. guarded.
  quietly. intros generating. apply staging_lift; [so_far|]. intros final _.
  apply staging_lift; [so_far|]. intros schema _. apply staging_bind, local_post_stage; [so_far|].
  intros [e|raw']; [so_far|]. quietly. intros generated. apply staging_lift; [so_far|]. intros d Hd.
  pose proof (ProviderDetails_same _ _ Hd) as ->.
  destruct (validated_message _ _ _ _) as [e|m] eqn:Hm; [apply staging_raise; so_far|]. apply staging_ret.
  split; [by constructor|]. intros m' [= <-]. eexists.
  apply validated_message_ok in Hm as (Hdet & Hsha & Href & Hne & Hlen & Hu).
  split; try done; cbn; [by eexists _, _|by rewrite Href].
Qed.

(** The two forms a run through the slot can have *)
Lemma slotted_runs {A} busy (m : dprog A) tr out :
  runs (slotted busy m) tr out ->
  (stages tr = [] /\ (exists e, out = inl e) /\ existsb took_slot tr = false) \/
  (exists tr0 out0 r, tr = existT AClosed (Ok false) :: existT AAcquire (Ok true) :: tr0 ++ [existT AReleaseSlot r] /\
     runs m tr0 out0 /\ (out = out0 \/ exists e, out = inl e)).
Proof.
  unfold slotted. intros (r & t1 & -> & Hr)%runs_call_inv. destruct r as [e|closed]; cbn in Hr.
  { apply runs_raise_inv in Hr as [-> ->]. left. split_and!; [done|eauto|done]. }
  destruct closed; cbn in Hr.
  { apply runs_raise_inv in Hr as [-> ->]. left. split_and!; [done|eauto|done]. }
  apply runs_call_inv in Hr as (r & t2 & -> & Hr). destruct r as [e|got]; cbn in Hr.
  { apply runs_raise_inv in Hr as [-> ->]. left. split_and!; [done|eauto|done]. }
  destruct got; cbn in Hr; [|apply runs_raise_inv in Hr as [-> ->]; left; split_and!; [done|eauto|done]].
  right. unfold finally in Hr.
  apply runs_bind in Hr as [(e & (o & [=] & _)%runs_attempt & _)|(o & t3 & t4 & -> & Hm & Hr)].
  apply runs_attempt in Hm as (o' & [= <-] & Hm). apply runs_call_inv in Hr as (r & t5 & -> & Hr).
  destruct r as [e|[]]; cbn in Hr.
  - apply runs_raise_inv in Hr as [-> ->]. exists t3, o, (inl e). eauto.
  - apply runs_lift in Hr as [-> ->]. exists t3, o, (inr tt). eauto.
Qed.

(** C26: Whichever provider is configured, and however slowly, wrongly or not at all it answers,
    an invocation asks the host at most once, after counting and before generating, with a
    count the reservation covers; it generates at most once and only after consent; a message
    accounts for exactly that count, stays within the output allowance, and holds a bounded
    text; and whoever took the slot of the adapter gives it back. *)
Theorem staged_contract which settings messages limit tr out :
  runs (invoke_staged frames which settings messages limit) tr out ->
  contract (input_token_limit settings) limit (stages tr) out /\
  (existsb took_slot tr = true -> exists tr0 r, tr = tr0 ++ [existT AReleaseSlot r]).
Proof.
  intros Hr.
  assert (exists busy m, invoke_staged frames which settings messages limit = slotted busy m /\
            staging [] m (contract (input_token_limit settings) limit)) as (busy & m & Heq & Hm).
  { destruct which; cbn [invoke_staged]; [|by eexists _, _; split; [|apply llama_contract]].
    eexists _, _. split; [done|]. apply staging_catch. intros h Hh.
    eapply hoare_mono; [by apply openai_contract|]. cbn. intros h' [e|m] Hc; [|done].
    apply staging_raise. by apply contract_error, Hc. }
  rewrite Heq in Hr. apply slotted_runs in Hr as [(Hs & (e & ->) & Hno)|(tr0 & out0 & r & -> & Hr & Hout)].
  - rewrite Hs, Hno. split; [|done]. apply contract_error. constructor.
  - split; [|intros _; by eexists (_ :: _ :: tr0), r].
    change (contract (input_token_limit settings) limit (stages (tr0 ++ [existT AReleaseSlot r])) out).
    rewrite stages_app. cbn. rewrite app_nil_r.
    destruct (hoare_sound _ _ _ _ _ _ (Hm [] eq_refl) Hr) as [Hc _]. cbn [app] in Hc.
    destruct Hout as [->|(e & ->)]; [done|]. apply contract_error, Hc.
Qed.
End contract.

(** ** A concrete invocation

    A provider that counts 12 tokens and answers with a text, over a decoder that knows its
    two bodies. *)

Definition counted_body : json := JObj [("object", JStr "response.input_tokens"); ("input_tokens", JInt 12)].
Definition created_body : json :=
  JObj [("object", JStr "response"); ("model", JStr PROVIDER_MODEL); ("service_tier", JStr "default");
        ("status", JStr "completed");
        ("output", JList [JObj [("type", JStr "message"); ("role", JStr "assistant");
           ("status", JStr "completed");
           ("content", JList [JObj [("type", JStr "output_text"); ("text", JStr "decision")]])]]);
        ("usage", JObj [("input_tokens", JInt 12); ("output_tokens", JInt 5); ("total_tokens", JInt 17);
           ("input_tokens_details", JObj [("cached_tokens", JInt 4)]);
           ("output_tokens_details", JObj [("reasoning_tokens", JInt 0)])])].

#[local] Instance two_bodies : WireText := {|
  wire_loads _ _ _ raw :=
    if decide (raw = "C") then Ok counted_body else if decide (raw = "R") then Ok created_body else Ok (JObj []);
  float_of_text _ := float_zero;
  dumps _ _ := "body" |}.

#[local] Instance no_schemas : Schemas := {|
  local_schema _ := [("$defs", JObj [])]; decision_schema := JNull;
  object_of_text _ := Err (ValueError "object") |}.

Definition provider_settings : ModelSettings :=
  {| ms_provider := "openai"; ms_model := PROVIDER_MODEL; ms_fixture := false; input_token_limit := 4000;
     ms_output_limit := 256; timeout_seconds := float_of_Z 20; ms_price := STANDARD_PRICE;
     ms_accounting := provider_ceiling |}.

Definition provider_head : http_head :=
  {| status_code := 200; content_encoding := None; content_type := Some "application/json; charset=utf-8";
     content_length := Some "1" |}.

(** The state counts the chunks that were read. *)
Definition provider_answers (c : ad_call) (chunks : nat) : result (ad_answer c) * nat :=
  match c with
  | AClosed | ALoggers => (Ok false, chunks)
  | AAcquire | AHook _ => (Ok true, chunks)
  | AReleaseSlot | ACloseStream | AShutdown => (Ok tt, chunks)
  | AMonotonic => (Ok float_zero, chunks)
  | AStream _ _ _ => (Ok provider_head, chunks)
  | AChunk => (Ok match chunks with
                  | 0%nat => Some (Ascii.ascii_of_nat 67, EmptyString)
                  | 2%nat => Some (Ascii.ascii_of_nat 82, EmptyString)
                  | _ => None
                  end, S chunks)
  end.

Definition two_messages : list base_message := [SystemMessage (Some "system"); HumanMessage (Some "data")].

Definition provider_story : result ValidatedAIMessage * nat * list (obs ad_answer) :=
  play provider_answers (invoke_staged 64 openai provider_settings two_messages 256) 0%nat [].

Lemma provider_story_message :
  exists d, provider_story.1.1 = Ok (from_validated "decision"
    (Some {| input_tokens := 12; output_tokens := 5; total_tokens := 17; cached_input_tokens := 4 |})
    d (sha256_hex "body") false) /\ counted_input_tokens d = 12.
Proof. eexists. split; [vm_compute; reflexivity|reflexivity]. Qed.

Lemma staged_contract_witness :
  runs (invoke_staged 64 openai provider_settings two_messages 256) provider_story.2 provider_story.1.1 /\
  contract 4000 256 (stages provider_story.2) provider_story.1.1.
Proof.
  split; [apply play_runs_nil|].
  apply (staged_contract 64 openai provider_settings two_messages 256), play_runs_nil.
Defined.
