(* ===== verification/SandboxTheorems.v ===== *)
(** * One execution per sample

    A reservation of the sample store is a lock: while it is pending nobody else executes the
    sample, and once its result is stored nobody executes it again. *)

From S2P Require Import Prelude Json Effects SandboxModels Sandbox Permits.

Open Scope string_scope.
Open Scope list_scope.
Open Scope Z_scope.
Open Scope prog_scope.

(** ** The lock *)

Definition payload_id (p : Payload) : string := match p with Plain s | Enveloped s => sample_id s end.

(** A reservation that was not a replay; what gives it back; what only its holder does. *)
Definition reserves (c : box_call) : result (box_answer c) -> option (string * unit) :=
  match c with
  | BReserve s => fun r => match r with inr None => Some (sample_id s, tt) | _ => None end
  | _ => fun _ => None
  end.
Definition settles (c : box_call) : result (box_answer c) -> option string :=
  match c with
  | BComplete id _ => fun r => match r with inr _ => Some id | inl _ => None end
  | BAbandon id => fun _ => Some id
  | _ => fun _ => None
  end.
Definition executes (c : box_call) : option (string * unit) :=
  match c with
  | BComplete id _ | BAbandon id | BMemAdmit id | BMemRecord id _ | BCpuAdmit id | BProbeRecord id _ _ =>
      Some (id, tt)
  | BPeer _ _ payload => Some (payload_id payload, tt)
  | _ => None
  end.
Definition pending (p : process) (id : string) : Prop := exists print, entries p !! id = Some (print, None).

Create HintDb sandbox discriminated.

Section sandbox.
Context `{ModelText, UrlText, DriverErrors}.
Context (config : SandboxConfig).

#[local] Instance reservation_laws : LockLaws (box_done config) reserves settles executes pending.
Proof.
  split.
  - intros s c r s' id [] Hd Hr. destruct Hd as [x r p' Hs| | | | | | | |c r Hc]; try done; [|by destruct c].
    unfold reserves in Hr. destruct r as [|[|]]; try done. injection Hr as <-. unfold store_reserve in Hs.
    destruct (entries s !! sample_id x) as [[print [res|]]|] eqn:Hx.
    + by destruct (eqb_of _ _).
    + done.
    + destruct (_ <=? _); [done|]. injection Hs as <-. unfold pending. cbn. rewrite Hx.
      split; [by intros (? & ?)|]. eexists. apply lookup_insert_eq.
  - intros s c r s' id Hd (print & Hp) Hne. unfold pending.
    destruct Hd as [x r p' Hs|id' res r p' Hs|id' r p' Hs|id' co r p' Hs|r p' Hs|id' su r p' Hs|r p' Hs|r|c r Hc];
      cbn in Hne; [| | |revert Hs..|by exists print|by exists print].
    + unfold store_reserve in Hs. destruct (entries s !! sample_id x) as [[p0 [res|]]|] eqn:Hx.
      * destruct (eqb_of _ _); injection Hs as <- <-; by exists print.
      * injection Hs as <- <-; by exists print.
      * destruct (_ <=? _); injection Hs as <- <-; [by exists print|]. exists print. cbn.
        rewrite lookup_insert_ne; [done|]. congruence.
    + unfold store_complete in Hs. destruct (entries s !! id') as [[p0 o]|]; injection Hs as <- <-; [|by exists print].
      exists print. cbn. rewrite lookup_insert_ne; [done|congruence].
    + unfold store_abandon in Hs. injection Hs as <- <-. exists print. cbn. rewrite lookup_delete_ne; [done|congruence].
    + unfold memory_admit. repeat destruct_guard; try destruct co; intros [= <- <-]; by exists print.
    + intros [= <- <-]. by exists print.
    + unfold cpu_admit. repeat destruct_guard; try destruct su; intros [= <- <-]; by exists print.
    + intros [= <- <-]. by exists print.
  - intros c r x. destruct c; cbn; try done.
  - intros c r id. destruct c; cbn; try done; [destruct r; [done|]|]; intros [= <-]; by exists tt.
Qed.

(** ** Handlers hold what they execute *)

Abbreviation holds := (holding reserves settles executes).
Abbreviation free := (entitled reserves settles executes).

#[local] Ltac free := repeat first
  [ solve [auto 2 with sandbox nocore] | progress cbv zeta | apply issues_finally | apply issues_bind; [|intros ?]
  | apply issues_catch; [|intros ?] | apply issues_attempt
  | apply (issues_call (R:=box_answer)); split; cbn; [by intros ? [=]|done]
  | apply (issues_call (R:=box_answer)); split; cbn; [by intros ? [= <-]|done]
  | apply issues_lift | case_match | exact I ].

Lemma fault_apply_free o s : issues (free o) (fault_apply s).
Proof. unfold fault_apply. free. Qed.

Lemma memory_run_free id : issues (free (Some (id, tt))) (memory_run id).
Proof. unfold memory_run. free. Qed.

Lemma cpu_run_free id : issues (free (Some (id, tt))) (cpu_run id).
Proof. unfold cpu_run. free. Qed.

Lemma probe_free o kind : issues (free o) (probe kind).
Proof. unfold probe. free. Qed.

#[local] Hint Resolve fault_apply_free memory_run_free cpu_run_free probe_free : sandbox.

Lemma dependency_check_free kind id : issues (free (Some (id, tt))) (dependency_check kind id).
Proof. unfold dependency_check. free. Qed.

Lemma call_peer_free r s : issues (free (Some (sample_id s, tt))) (call_peer r s config).
Proof.
  unfold call_peer. cbv zeta. apply issues_bind; [apply issues_lift|]. intros url.
  apply issues_bind; [|intros reply; apply issues_lift]. apply issues_catch; [|done].
  apply (issues_call (R:=box_answer)). split; cbn; [|done]. intros x [= <-]. by case_match.
Qed.

Lemma payment_loop_free roles s : issues (free (Some (sample_id s, tt))) (payment_loop roles s config).
Proof.
  induction roles as [|r roles IH]; cbn [payment_loop]; [done|].
  apply issues_bind; [apply call_peer_free|]. intros res. by case_match.
Qed.
#[local] Hint Resolve dependency_check_free payment_loop_free : sandbox.

Lemma execute_sample_free r s : issues (free (Some (sample_id s, tt))) (execute_sample r s config).
Proof. unfold execute_sample, payment_path. free. Qed.

(** Whatever happens, a reservation ends with its result stored, or given back. *)
Lemma process_sample_holds r s : holds None (process_sample r s config) (fun o _ => o = None).
Proof.
  unfold process_sample. apply holding_call; [done|done|done|]. intros [res|]; [done|].
  apply holding_catch, holding_step; [apply execute_sample_free| |].
  - intros e. apply holding_call; [by intros x [= <-]|done|done|done].
  - intros res. apply holding_call; [by intros x [= <-]|done| |done].
    intros e. apply holding_call; [by intros x [= <-]|done|done|done].
Qed.

Definition plain_call (c : box_call) : Prop := unrelated reserves settles executes c.

Lemma plain_disciplined {A} (m : bprog A) : issues plain_call m -> disciplined reserves settles executes None m.
Proof.
  intros Hm. apply (holding_disciplined _ _ _ _ _ (fun _ _ => True)), holding_entitled; [|done].
  eapply issues_weaken; [|exact Hm]. intros c. apply unrelated_entitled.
Qed.

#[local] Ltac plain := repeat first
  [ solve [auto 2 with sandbox nocore] | progress cbv zeta | apply issues_finally | apply issues_bind; [|intros ?]
  | apply issues_catch; [|intros ?] | apply issues_attempt
  | apply (issues_call (R:=box_answer)); split; [by cbn|]; intros ?; split; done
  | apply issues_lift | case_match | exact I ].

Lemma hash_rounds_plain n index started : issues plain_call (hash_rounds n index started).
Proof. revert index. induction n as [|n IH]; intros index; cbn [hash_rounds]; plain. Qed.
#[local] Hint Resolve hash_rounds_plain : sandbox.

Lemma cpu_execute_plain id : issues plain_call (cpu_execute config id).
Proof. unfold cpu_execute, observed_work, hash_work. plain. Qed.

Lemma simulate_holds r payload : holds None (simulate r payload config) (fun _ _ => True).
Proof.
  unfold simulate. apply holding_step; [apply issues_lift|done|]. intros s.
  apply holding_call; [done|done|done|]. intros started.
  apply holding_bind, holding_attempt.
  eapply (holding_mono _ _ _ _ _ (fun o' _ => o' = None)).
  - apply holding_catch. eapply holding_mono; [apply process_sample_holds|]. intros o [e|res] ->; [|done].
    cbv beta. destruct (is_conflict e); [|done]. apply holding_entitled; [|done]. plain.
  - intros o out ->. apply holding_entitled; [|done]. plain.
Qed.

(** ** The system: handlers of one process, and its CPU worker *)

Inductive box_program : bprog (option SimulationResult) -> Prop :=
  | run_simulate r payload : box_program (let* res := simulate r payload config in Ret (Some res))
  | run_worker id : box_program (let* _ := cpu_execute config id in Ret None).

Lemma box_program_disciplined m : box_program m -> disciplined reserves settles executes None m.
Proof.
  intros [r payload|id].
  - apply (holding_disciplined _ _ _ _ _ (fun _ _ => True)), holding_bind.
    eapply holding_mono; [apply simulate_holds|]. by intros o [e|res].
  - apply plain_disciplined, issues_bind; [apply cpu_execute_plain|done].
Qed.

(** The results callers were given for a sample: stored by its execution, or replayed to a
    caller with a sample of his own. *)
Definition given (o : obs box_answer) : option (string * option Sample * SimulationResult) :=
  match o with
  | existT (BComplete id res) (inr _) => Some (id, None, res)
  | existT (BReserve s) (inr (Some res)) => Some (sample_id s, Some s, res)
  | _ => None
  end.

Definition completion (o : obs box_answer) : option string :=
  match o with existT (BComplete id _) (inr _) => Some id | _ => None end.
Definition completions (h : list (obs box_answer)) : list string := omap completion h.

Lemma completions_snoc h o :
  completions (h ++ [o]) = completions h ++ match completion o with Some id => [id] | None => [] end.
Proof. unfold completions. rewrite omap_app. cbn. by destruct (completion o). Qed.

Definition stored (p : process) (id print : string) (res : SimulationResult) : Prop :=
  entries p !! id = Some (print, Some res).

(** What a reachable state says of its history *)
Record served (p : process) (h : list (obs box_answer)) : Prop := {
  served_given id who res o : o ∈ h -> given o = Some (id, who, res) ->
    exists print, stored p id print res /\ forall s, who = Some s -> print = fingerprint s;
  served_once : NoDup (completions h);
  served_idle h1 c r h2 id : h = h1 ++ existT c r :: h2 -> executes c = Some (id, tt) -> id ∉ completions h1;
}.

Lemma completed_given id h : id ∈ completions h -> exists o res, o ∈ h /\ given o = Some (id, None, res).
Proof.
  intros ([c r] & Hin & Ho)%list_elem_of_omap. exists (existT c r).
  destruct c; try done. destruct r as [|[]]; try done. injection Ho as <-. eauto.
Qed.

(** A stored result stays: only the holder of a reservation changes its entry. *)
Lemma stored_kept p c r p' id print res :
  box_done config p c r p' -> (forall id, executes c = Some (id, tt) -> pending p id) ->
  stored p id print res -> stored p' id print res.
Proof.
  intros Hd Hneed Hs. unfold stored in *.
  assert (forall id', executes c = Some (id', tt) -> id' <> id) as Hne.
  { intros id' Hx ->. destruct (Hneed _ Hx) as (print' & Hp). congruence. }
  destruct Hd as [x r p' Hd|id' res' r p' Hd|id' r p' Hd|id' co r p' Hd|r p' Hd|id' su r p' Hd|r p' Hd|r|c r Hc];
    cbn in Hne; [| | |revert Hd..|done|done].
  - unfold store_reserve in Hd. destruct (entries p !! sample_id x) as [[p0 [res0|]]|] eqn:Hx.
    + destruct (eqb_of _ _); by injection Hd as <- <-.
    + by injection Hd as <- <-.
    + destruct (_ <=? _); injection Hd as <- <-; [done|]. cbn. rewrite lookup_insert_ne; [done|congruence].
  - unfold store_complete in Hd. destruct (entries p !! id') as [[p0 o]|]; injection Hd as <- <-; [|done].
    cbn. rewrite lookup_insert_ne; [done|by apply Hne].
  - injection Hd as <- <-. cbn. rewrite lookup_delete_ne; [done|by apply Hne].
  - unfold memory_admit. repeat destruct_guard; try destruct co; by intros [= <- <-].
  - by intros [= <- <-].
  - unfold cpu_admit. repeat destruct_guard; try destruct su; by intros [= <- <-].
  - by intros [= <- <-].
Qed.

(** A result that is given now is the one now stored. *)
Lemma given_stored p c r p' id who res :
  box_done config p c r p' -> given (existT c r) = Some (id, who, res) ->
  exists print, stored p' id print res /\ forall s, who = Some s -> print = fingerprint s.
Proof.
  intros Hd Hg. unfold stored.
  destruct Hd as [x r p' Hd|id' res' r p' Hd|id' r p' Hd|id' co r p' Hd|r p' Hd|id' su r p' Hd|r p' Hd|r|c r Hc];
    cbn in Hg; try done.
  - destruct r as [|[res'|]]; try done. injection Hg as <- <- <-. unfold store_reserve in Hd.
    destruct (entries p !! sample_id x) as [[p0 [res0|]]|] eqn:Hx; [|done|by destruct (_ <=? _)].
    destruct_eqb p0 (fingerprint x); [|done]. injection Hd as -> <-. exists p0. split; [done|]. by intros s [= <-].
  - destruct r as [|[]]; [done|]. injection Hg as <- <- <-. unfold store_complete in Hd.
    destruct (entries p !! id') as [[p0 o]|]; [|done]. injection Hd as <-. exists p0. split; [|done].
    cbn. apply lookup_insert_eq.
  - by destruct c.
Qed.

Lemma served_step p h c r p' :
  served p h -> box_done config p c r p' -> (forall id, executes c = Some (id, tt) -> pending p id) ->
  served p' (h ++ [existT c r]).
Proof.
  intros [Hg Ho Hi] Hd Hneed.
  assert (forall id, executes c = Some (id, tt) -> id ∉ completions h) as Hfresh.
  { intros id Hx (o & res & Hin & Hgo)%completed_given. destruct (Hg _ _ _ _ Hin Hgo) as (print & Hs & _).
    destruct (Hneed _ Hx) as (print' & Hp). unfold stored in Hs. congruence. }
  split.
  - intros id who res o [Hin| ->%list_elem_of_singleton]%elem_of_app Hgo; [|by eapply given_stored].
    destruct (Hg _ _ _ _ Hin Hgo) as (print & Hs & Hw). exists print. split; [|done]. by eapply stored_kept.
  - rewrite completions_snoc. apply NoDup_app. split; [done|].
    destruct (completion (existT c r)) as [id|] eqn:Hc; [|split; [by intros ? _ ?%elem_of_nil|constructor]].
    assert (executes c = Some (id, tt)) as Hx by (destruct c; try done; destruct r; try done; by injection Hc as ->).
    split; [|apply NoDup_singleton]. intros id' Hin ->%list_elem_of_singleton. by apply (Hfresh id).
  - intros h1 c' r' h2 id Heq Hx. destruct h2 as [|o h2 _] using rev_ind.
    + apply app_inj_tail in Heq as [-> Heq]. apply (f_equal (@projT1 _ _)) in Heq as [= ->]. by apply Hfresh.
    + rewrite app_comm_cons, app_assoc in Heq. apply app_inj_tail in Heq as [-> _]. by eapply Hi.
Qed.

(** C27: Whatever requests a process serves, concurrently, failing or abandoned at any point, a
    sample is executed to completion at most once: no peer, CPU, memory or dependency is used
    for it afterwards, and everybody given a result for it is given the same one, for the same
    content. *)
Theorem sample_served_once x :
  reachable (box_done config) box_program new_process x ->
  NoDup (completions (history x)) /\
  (forall o1 o2 id w1 w2 r1 r2, o1 ∈ history x -> o2 ∈ history x ->
     given o1 = Some (id, w1, r1) -> given o2 = Some (id, w2, r2) ->
     r1 = r2 /\ forall s1 s2, w1 = Some s1 -> w2 = Some s2 -> fingerprint s1 = fingerprint s2) /\
  (forall h1 c r h2 id, history x = h1 ++ existT c r :: h2 -> executes c = Some (id, tt) ->
     id ∉ completions h1).
Proof.
  intros Hx.
  assert (served (shared x) (history x)) as [Hg Ho Hi].
  { revert x Hx. apply (lock_reachable (box_done config) box_program reserves settles executes pending).
    - apply box_program_disciplined.
    - split; [by intros ? ? ? ? ?%elem_of_nil|constructor|]. by intros [] ? ? ? ?.
    - intros p h c r p' Hs Hd Hneed _. eapply served_step; [done|done|]. intros id Hx.
      by destruct (Hneed _ _ Hx). }
  split_and!; [done| |done]. intros o1 o2 id w1 w2 r1 r2 I1 I2 G1 G2.
  destruct (Hg _ _ _ _ I1 G1) as (p1 & S1 & W1), (Hg _ _ _ _ I2 G2) as (p2 & S2 & W2).
  unfold stored in *. split; [congruence|]. intros s1 s2 -> ->. rewrite <-(W1 s1), <-(W2 s2); congruence.
Qed.

(** ** Bounded work *)

Definition memory_event (o : obs box_answer) : Z :=
  match o with
  | existT (BMemAdmit _) (inr true) => 1
  | existT BMemLeave _ => -1
  | _ => 0
  end.
(** The allocations admitted and not yet released *)
Definition allocations (h : list (obs box_answer)) : Z := sum_of memory_event h.

Definition cpu_taken (o : obs box_answer) : bool :=
  match o with existT (BCpuAdmit _) (inr true) => true | _ => false end.
Definition cpu_event (working : bool) (o : obs box_answer) : bool :=
  match o with
  | existT (BCpuAdmit _) (inr true) => true
  | existT BCpuFree _ => false
  | _ => working
  end.
Definition cpu_working (h : list (obs box_answer)) : bool := foldl cpu_event false h.

Lemma allocations_snoc h o : allocations (h ++ [o]) = allocations h + memory_event o.
Proof. unfold allocations, sum_of. induction h as [|o' h IH]; cbn; [lia|]. rewrite IH. lia. Qed.

(** What a request does to the admissions *)
Lemma admissions_step p c r p' :
  box_done config p c r p' ->
  mem_active p' = mem_active p + memory_event (existT c r) /\
  (memory_event (existT c r) = 1 -> mem_active p < MAX_ACTIVE) /\
  cpu_busy p' = cpu_event (cpu_busy p) (existT c r) /\
  (cpu_taken (existT c r) = true -> cpu_busy p = false).
Proof.
  intros Hd.
  destruct Hd as [x r p' Hd|id' res' r p' Hd|id' r p' Hd|id' co r p' Hd|r p' Hd|id' su r p' Hd|r p' Hd|r|c r Hc].
  - assert (p' = p \/ exists e, p' = set_entries p e) as [->|(e & ->)].
    { unfold store_reserve in Hd. repeat case_match; injection Hd as <- <-; eauto. }
    all: cbn; split_and!; [lia|lia|done|done].
  - assert (p' = p \/ exists e, p' = set_entries p e) as [->|(e & ->)].
    { unfold store_complete in Hd. repeat case_match; injection Hd as <- <-; eauto. }
    all: cbn; split_and!; [lia|lia|done|done].
  - injection Hd as <- <-. cbn. split_and!; [lia|lia|done|done].
  - unfold memory_admit in Hd. destruct (mem_closed p); [injection Hd as <- <-; cbn; split_and!; by try lia|].
    destruct (negb (concurrency_memory config)); [injection Hd as <- <-; cbn; split_and!; by try lia|].
    destruct (negb (sample_id_ok id')); [injection Hd as <- <-; cbn; split_and!; by try lia|].
    destruct (MAX_ACTIVE <=? mem_active p) eqn:Hm; [injection Hd as <- <-; cbn; split_and!; by try lia|].
    apply Z.leb_gt in Hm. destruct co; injection Hd as <- <-; cbn; split_and!; by try lia.
  - injection Hd as <- <-. cbn. split_and!; by try lia.
  - unfold cpu_admit in Hd. destruct (cpu_closed p || cpu_busy p) eqn:Hb; [injection Hd as <- <-; cbn; split_and!; by try lia|].
    apply orb_false_iff in Hb as [_ Hb].
    destruct (cpu_rounds config =? 0); [injection Hd as <- <-; cbn; split_and!; by try lia|].
    destruct su; injection Hd as <- <-; cbn; split_and!; by try lia.
  - injection Hd as <- <-. cbn. split_and!; by try lia.
  - cbn. split_and!; by try lia.
  - destruct c; try done; cbn; split_and!; by try lia.
Qed.

(** In every reachable state at most eight memory allocations are admitted and not yet
    released, whatever is started, refused, cancelled or closed, and CPU work is admitted only
    when no admitted work is still running. *)
Theorem work_bounded x :
  reachable (box_done config) box_program new_process x ->
  mem_active (shared x) = allocations (history x) /\ allocations (history x) <= MAX_ACTIVE /\
  forall h1 o h2, history x = h1 ++ o :: h2 -> cpu_taken o = true -> cpu_working h1 = false.
Proof.
  intros Hx.
  assert (mem_active (shared x) = allocations (history x) /\ allocations (history x) <= MAX_ACTIVE /\
          cpu_busy (shared x) = cpu_working (history x) /\
          forall h1 o h2, history x = h1 ++ o :: h2 -> cpu_taken o = true -> cpu_working h1 = false)
    as (? & ? & _ & ?); [|done].
  revert x Hx. apply (history_reachable (box_done config) box_program new_process
    (fun p h => mem_active p = allocations h /\ allocations h <= MAX_ACTIVE /\ cpu_busy p = cpu_working h /\
       forall h1 o h2, h = h1 ++ o :: h2 -> cpu_taken o = true -> cpu_working h1 = false)).
  - split_and!; [done|done|done|]. by intros [] ? ? ?.
  - intros p h c r p' (Hm & Hb & Hc & Hcpu) Hd.
    destruct (admissions_step _ _ _ _ Hd) as (Em & Lm & Ec & Hfree). rewrite allocations_snoc.
    assert (memory_event (existT c r) <= 1) as Hle by (destruct c; try done; cbn; repeat case_match; done).
    split_and!.
    + lia.
    + destruct (decide (memory_event (existT c r) = 1)) as [He|He]; [specialize (Lm He)|]; lia.
    + rewrite Ec, Hc. unfold cpu_working. by rewrite foldl_app.
    + intros h1 o h2 Heq Ho. destruct h2 as [|o' h2 _] using rev_ind.
      * apply app_inj_tail in Heq as [-> <-]. rewrite <-Hc. by apply Hfree.
      * rewrite app_comm_cons, app_assoc in Heq. apply app_inj_tail in Heq as [-> _]. by eapply Hcpu.
Qed.

(** ** Every handler settles *)

(** C28: A handler that ends has settled what it reserved: it stored the result it returns, or it
    gave the reservation back and raised; a handler that reserved nothing did nothing else. *)
Theorem handler_settles r s tr out :
  runs (process_sample r s config) tr out ->
  exists a tr', tr = existT (BReserve s) a :: tr' /\
    match a with
    | inl e => tr' = [] /\ out = inl e
    | inr (Some res) => tr' = [] /\ out = inr res
    | inr None =>
        exists tr1 c ans, tr' = tr1 ++ [existT c ans] /\
        match out with
        | inr res => c = BComplete (sample_id s) res /\ exists u, ans = inr u
        | inl e => c = BAbandon (sample_id s)
        end
    end.
Proof.
  unfold process_sample.
  intros [(e & (a & -> & <-)%(runs_call_out (R:=box_answer)) & ->)|(a & t1 & t2 & -> & Hc & Hr)]%runs_bind.
  { by eexists (inl e), []. }
  apply (runs_call_ok (R:=box_answer)) in Hc as ->. exists (inr a), t2. split; [done|].
  destruct a as [res|]; [by apply runs_ret_inv in Hr as [-> ->]|].
  apply runs_catch in Hr as [[Hr Hno]|(e & t1 & t3 & -> & _ & _ & Hr)].
  - destruct out as [e|res]; [by specialize (Hno e eq_refl)|].
    apply runs_bind_ok in Hr as (res' & t1 & t3 & -> & _ & Hr). run_ok.
    exists t1, (BComplete (sample_id s) res), (inr a). eauto.
  - apply runs_bind in Hr as [(e' & (ans & -> & <-)%(runs_call_out (R:=box_answer)) & ->)|(ans & t4 & t5 & -> & Hc & Hr)].
    + by exists t1, (BAbandon (sample_id s)), (inl e').
    + apply (runs_call_ok (R:=box_answer)) in Hc as ->. apply runs_raise_inv in Hr as [-> ->].
      by exists t1, (BAbandon (sample_id s)), (inr ans).
Qed.
End sandbox.

(** ** A concrete process

    The risk service serves one sample twice, the second time from its store; a caller with
    other content is refused. *)

#[local] Instance no_text : ModelText := fun _ => None.
#[local] Instance no_urls : UrlText := {| urlsplit _ := inl (ValueError "url"); is_loopback _ := None |}.
#[local] Instance no_drivers : DriverErrors := {|
  operational _ := None; is_redis_error _ := false; is_cancelled _ := false; is_http_timeout _ := false;
  is_request_error _ := false |}.

Definition box_handle (c : box_call) (p : process) : result (box_answer c) * process :=
  match c with
  | BReserve s => store_reserve 10000 s p
  | BComplete id res => store_complete id res p
  | BAbandon id => store_abandon id p
  | BMemAdmit id => memory_admit false id (inr tt) p
  | BMemLeave => memory_leave p
  | BCpuAdmit _ => cpu_admit 0 (inr tt) p
  | BCpuFree => cpu_free p
  | BClose => (inr tt, memory_close (cpu_close p))
  | BFaults => (inr no_fault, p)
  | BCpuAwait | BMonotonic | BThreadTime | BPerfCounter => (inr float_zero, p)
  | BPing => (inr true, p)
  | BSelect => (inr (JList [JInt 1]), p)
  | BPeer _ _ _ => (inr {| reply_status := 503; reply_text := EmptyString |}, p)
  | BSleep _ | BMemRecord _ _ | BAllocate | BSnapshot | BWorkRecord _ _ | BSlotTake | BSlotGive
  | BProbeRecord _ _ _ | BConflict | BMetric _ _ _ | BArchived => (inr tt, p)
  end.

Lemma box_handled c p : box_done default_config p c (box_handle c p).1 (box_handle c p).2.
Proof.
  destruct c; cbn [box_handle]; try (by apply done_other); try (by constructor).
  - apply done_reserve, surjective_pairing.
  - apply done_complete, surjective_pairing.
  - apply (done_mem_admit _ _ _ (inr tt)), surjective_pairing.
  - apply (done_cpu_admit _ _ _ (inr tt)), surjective_pairing.
Qed.

Definition a_sample : Sample := default_sample "synthetic-1".
Definition other_sample : Sample :=
  {| sample_id := "synthetic-1"; sample_processor := proc_b; sample_region := us; sample_method := credit |}.

Definition box_story : list (result (option SimulationResult)) * process * list (obs box_answer) :=
  play_all box_handle
    [(let* res := simulate risk (Plain a_sample) default_config in Ret (Some res));
     (let* res := simulate risk (Plain a_sample) default_config in Ret (Some res));
     (let* res := simulate risk (Plain other_sample) default_config in Ret (Some res))]%prog
    new_process [].

Definition after_box : system box_answer process (option SimulationResult) :=
  {| threads := []; shared := box_story.1.2; history := box_story.2 |}.

Lemma box_story_results :
  let res := {| res_sample_id := "synthetic-1"; res_role := risk; res_accepted := true |} in
  box_story.1.1 = [inr (Some res); inr (Some res); inl (HTTPException 409 "synthetic idempotency conflict")] /\
  completions box_story.2 = ["synthetic-1"].
Proof. vm_compute. done. Qed.

Lemma after_box_reachable : reachable (box_done default_config) (box_program default_config) new_process after_box.
Proof.
  apply (play_all_reachable (box_done default_config) (box_program default_config) box_handle box_handled).
  constructor; [exact (run_simulate _ risk (Plain a_sample))|].
  constructor; [exact (run_simulate _ risk (Plain a_sample))|].
  constructor; [exact (run_simulate _ risk (Plain other_sample))|constructor].
Qed.

Lemma sample_served_once_witness :
  completions (history after_box) = ["synthetic-1"] /\ NoDup (completions (history after_box)).
Proof. split; [vm_compute; reflexivity|apply (sample_served_once default_config after_box after_box_reachable)]. Defined.

Lemma work_bounded_witness :
  reachable (box_done default_config) (box_program default_config) new_process after_box /\
  allocations (history after_box) <= MAX_ACTIVE.
Proof. split; [apply after_box_reachable|apply (work_bounded default_config after_box after_box_reachable)]. Defined.

Lemma handler_settles_witness :
  runs (process_sample risk a_sample default_config)
    (play box_handle (process_sample risk a_sample default_config) new_process []).2
    (play box_handle (process_sample risk a_sample default_config) new_process []).1.1 /\
  exists a tr', (play box_handle (process_sample risk a_sample default_config) new_process []).2 =
                existT (BReserve a_sample) a :: tr'.
Proof.
  split; [apply play_runs_nil|].
  destruct (handler_settles default_config risk a_sample _ _
    (play_runs_nil box_handle (process_sample risk a_sample default_config) new_process)) as (a & tr' & -> & _).
  eauto.
Defined.
