(* ===== verification/RunnerSafety.v ===== *)
(** * What a run of a scenario knows

    A program logic for the runner: what it has captured, what it may write, and when the
    captured state counts as restored.  Steps that write nothing keep all of it. *)

From S2P Require Import Prelude Text Json Effects Baseline Deployment Diagnostics.
From S2P Require Import SandboxModels Recipes Scenario.

Open Scope string_scope.
Open Scope list_scope.
Open Scope Z_scope.
Open Scope prog_scope.

(** ** Histories of a run *)

(** The specs a run wrote, with the Deployments *)
Definition write_of (o : obs sc_answer) : option (string * list (string * json)) :=
  match o with existT (SReplace _ name _ spec) _ => Some (name, spec) | _ => None end.
Definition writes (h : list (obs sc_answer)) : list (string * list (string * json)) := omap write_of h.

Lemma writes_app h h' : writes (h ++ h') = writes h ++ writes h'.
Proof. apply omap_app. Qed.

(** The history grew without a write. *)
Definition calm (h h' : list (obs sc_answer)) : Prop := exists k, h' = h ++ k /\ writes k = [].

Lemma calm_refl h : calm h h.
Proof. exists []. by rewrite app_nil_r. Qed.

Lemma calm_trans h h' h'' : calm h h' -> calm h' h'' -> calm h h''.
Proof. intros (k & -> & Hk) (k' & -> & Hk'). exists (k ++ k'). by rewrite <-app_assoc, writes_app, Hk, Hk'. Qed.

Lemma calm_snoc h o : write_of o = None -> calm h (h ++ [o]).
Proof. intros Ho. exists [o]. split; [done|]. unfold writes. cbn. by rewrite Ho. Qed.

Lemma calm_elem h h' o : calm h h' -> o ∈ h -> o ∈ h'.
Proof. intros (k & -> & _) Ho. apply elem_of_app. by left. Qed.

(** A guard that was passed *)
#[local] Ltac pass_guard :=
  cbv beta zeta; lazymatch goal with |- (if ?b then _ else _) = _ -> _ => destruct b eqn:?; [by intros [=]|] end.

(** Two conclusions about the same program *)
Lemma hoare_and {A} (I : list (obs sc_answer) -> sc_call -> Prop) (m : scprog A) h
  (Q Q' : list (obs sc_answer) -> result A -> Prop) :
  hoare I h m Q -> hoare I h m Q' -> hoare I h m (fun h' out => Q h' out /\ Q' h' out).
Proof. revert h. induction m as [a|e|x k IH]; cbn; [auto..|]. intros h [? ?] [_ ?]. split; auto. Qed.

Create HintDb runner discriminated.

Section runner.
Context `{PyText, ModelText, UrlText, IntText, RunnerText}.
Context (c : CaseId).

(** The captured document was read from the cluster, is a reviewed baseline, and was saved. *)
Definition captured (h : list (obs sc_answer)) (doc spec : list (string * json)) : Prop :=
  existT (SDeployment (target c)) (inr doc) ∈ h /\ validate_baseline doc (target c) = inr spec /\
  exists id name, existT (SSave id name doc) (inr tt) ∈ h.

(** A spec the runner may write: the captured one, its fault, or its control *)
Definition reviewed (spec new : list (string * json)) : Prop :=
  new = spec \/ fault_spec c spec = inr new \/ memory_control_spec spec = inr new.

(** The captured spec was observed to have converged again, then a healthy payment, and nothing
    was written since. *)
Definition restored (h : list (obs sc_answer)) (spec : list (string * json)) : Prop :=
  exists h1 observed h2 payment h3,
    h = h1 ++ existT (SObserve (target c)) (inr observed) :: h2 ++ existT SHealthy (inr payment) :: h3 /\
    ready_with spec observed = inr true /\ sample_healthy payment = inr true /\
    writes h2 = [] /\ writes h3 = [].

Definition clean (h : list (obs sc_answer)) : Prop :=
  writes h = [] \/ exists doc spec, captured h doc spec /\ restored h spec.

(** What a run may ask for, after its history *)
Definition allowed (h : list (obs sc_answer)) (x : sc_call) : Prop :=
  match x with
  | SReplace _ name _ new => name = target c /\ exists doc spec, captured h doc spec /\ reviewed spec new
  | SUnlatch _ => clean h
  | _ => True
  end.

Lemma captured_calm h h' doc spec : calm h h' -> captured h doc spec -> captured h' doc spec.
Proof.
  intros Hc (Hd & Hv & (id & name & Hs)). split_and!; [by eapply calm_elem|done|].
  exists id, name. by eapply calm_elem.
Qed.

Lemma restored_calm h h' spec : calm h h' -> restored h spec -> restored h' spec.
Proof.
  intros (k & -> & Hk) (h1 & ob & h2 & pay & h3 & -> & Hr & Hs & H2' & H3'). exists h1, ob, h2, pay, (h3 ++ k).
  split_and!; try done; [by rewrite <-app_assoc; cbn; rewrite <-app_assoc|by rewrite writes_app, H3', Hk].
Qed.

(** ** Following a run *)

Definition follows {A} (h : list (obs sc_answer)) (s : Session) (m : act A)
  (Q : list (obs sc_answer) -> Session -> result A -> Prop) : Prop :=
  hoare allowed h (m s) (fun h' out => match out with inr (o, s') => Q h' s' o | inl _ => True end).

(** What quiet actions leave alone *)
Record keeps (s s' : Session) : Prop := {
  keeps_original : original s' = original s;
  keeps_injected : injected s' = injected s;
  keeps_intermediate : intermediate s' = intermediate s;
  keeps_verified : cleanup_verified (receipt s') = cleanup_verified (receipt s);
}.

Lemma keeps_refl s : keeps s s.
Proof. by split. Qed.

Lemma keeps_trans s s' s'' : keeps s s' -> keeps s' s'' -> keeps s s''.
Proof. intros [] []. split; congruence. Qed.

(** Chains of quiet steps *)
#[local] Ltac calmly :=
  first
    [ eassumption | apply calm_refl | apply keeps_refl | apply calm_snoc; done
    | match goal with
      | Hc : calm ?h _ |- calm ?h _ => apply (calm_trans _ _ _ Hc); clear Hc; calmly
      | Hk : keeps ?s _ |- keeps ?s _ => apply (keeps_trans _ _ _ Hk); clear Hk; calmly
      | _ : calm (?h ++ [?o]) _ |- calm ?h _ =>
          apply (calm_trans _ _ _ (calm_snoc h o ltac:(done))); calmly
      | |- calm _ (_ ++ [_]) => eapply calm_trans; [|apply calm_snoc; done]; calmly
      end ].

Definition quiet_call (x : sc_call) : Prop := match x with SReplace _ _ _ _ | SUnlatch _ => False | _ => True end.

(** Requests that only look at the cluster and the clocks *)
Definition observing (x : sc_call) : Prop :=
  match x with
  | SCreateLatch _ | SRewriteLatch _ | SUnlatch _ | SSave _ _ _ | SWriteReceipt _ | SReplace _ _ _ _ => False
  | _ => True
  end.

Lemma observing_quiet {A} (m : scprog A) : issues observing m -> issues quiet_call m.
Proof. apply issues_weaken. by intros []. Qed.

(** A quiet action writes nothing and assigns nothing the restoration depends on. *)
Definition quiet_act {A} (m : act A) : Prop :=
  forall h s Q, (forall h' s' o, calm h h' -> keeps s s' -> Q h' s' o) -> follows h s m Q.

Lemma follows_then {A B} h s (m : act A) (f : A -> act B) Q :
  follows h s m (fun h' s' o => match o with inr a => follows h' s' (f a) Q | inl e => Q h' s' (inl e) end) ->
  follows h s (then_do m f) Q.
Proof.
  intros Hm. apply hoare_bind. eapply hoare_mono; [exact Hm|]. cbn. intros h' [e|[[e|a] s']]; cbn; auto.
Qed.

Lemma follows_mono {A} h s (m : act A) (Q Q' : list (obs sc_answer) -> Session -> result A -> Prop) :
  follows h s m Q -> (forall h' s' o, Q h' s' o -> Q' h' s' o) -> follows h s m Q'.
Proof. intros Hm HQ. eapply hoare_mono; [exact Hm|]. cbn. intros h' [e|[o s']]; auto. Qed.

(** Straight-line code *)
Lemma follows_quiet {A B} h s (m : act A) (f : A -> act B) Q :
  quiet_act m -> (forall h' s' e, calm h h' -> keeps s s' -> Q h' s' (inl e)) ->
  (forall h' s' a, calm h h' -> keeps s s' -> follows h' s' (f a) Q) -> follows h s (then_do m f) Q.
Proof. intros Hm He Hf. apply follows_then, Hm. intros h' s' [e|a] Hc Hk; auto. Qed.

Lemma follows_pure {A B} h s (m : result A) (f : A -> act B) Q :
  (forall e, m = inl e -> Q h s (inl e)) -> (forall a, m = inr a -> follows h s (f a) Q) ->
  follows h s (then_do (pure m) f) Q.
Proof. intros He Hf. destruct m as [e|a]; cbn; [by apply He|by apply Hf]. Qed.

(** One request, with its answer *)
Lemma follows_call {B} h s x (f : sc_answer x -> act B) Q :
  allowed h x -> (forall e, Q (h ++ [existT x (inl e)]) s (inl e)) ->
  (forall a, follows (h ++ [existT x (inr a)]) s (f a) Q) -> follows h s (then_do (doing (scask x)) f) Q.
Proof. intros Ha He Hf. split; [done|]. intros [e|a]; cbn; [apply He|apply Hf]. Qed.

Lemma follows_sets {B} h s g (f : unit -> act B) Q : follows h (g s) (f tt) Q -> follows h s (then_do (sets g) f) Q.
Proof. done. Qed.

Lemma quiet_did {A} (a : A) : quiet_act (did a).
Proof. intros h s Q HQ. apply HQ; [apply calm_refl|apply keeps_refl]. Qed.

Lemma quiet_fails {A} e : quiet_act (fails (A:=A) e).
Proof. intros h s Q HQ. apply HQ; [apply calm_refl|apply keeps_refl]. Qed.

Lemma quiet_pure {A} (m : result A) : quiet_act (pure m).
Proof. intros h s Q HQ. apply HQ; [apply calm_refl|apply keeps_refl]. Qed.

Lemma quiet_session : quiet_act session.
Proof. intros h s Q HQ. apply HQ; [apply calm_refl|apply keeps_refl]. Qed.

Lemma quiet_then {A B} (m : act A) (f : A -> act B) :
  quiet_act m -> (forall a, quiet_act (f a)) -> quiet_act (then_do m f).
Proof.
  intros Hm Hf h s Q HQ. apply follows_quiet; [done|auto|]. intros h' s' a Hc Hk. apply Hf. intros h'' s'' o Hc' Hk'.
  apply HQ; [by eapply calm_trans|by eapply keeps_trans].
Qed.

Lemma quiet_calm {A} (m : scprog A) h : issues quiet_call m -> hoare allowed h m (fun h' _ => calm h h').
Proof.
  revert h. induction m as [a|e|x k IH]; cbn; intros h Hm; [apply calm_refl..|]. destruct Hm as [Hx Hk].
  split; [by destruct x|]. intros r. eapply hoare_mono; [by apply IH|]. intros h' out Hc.
  eapply calm_trans; [|exact Hc]. apply calm_snoc. by destruct x.
Qed.

Lemma quiet_doing {A} (m : scprog A) : issues quiet_call m -> quiet_act (doing m).
Proof.
  intros Hm h s Q HQ. apply hoare_bind. eapply hoare_mono; [by apply quiet_calm, issues_attempt|]. cbn.
  intros h' [e|o] Hc; [done|]. apply HQ; [done|apply keeps_refl].
Qed.

Lemma quiet_puts a : a <> SetCleanupVerified -> quiet_act (puts a).
Proof.
  intros Ha h s Q HQ. apply HQ; [apply calm_refl|]. split; try done. by destruct a.
Qed.

Lemma quiet_save name data : quiet_act (save name data).
Proof.
  apply quiet_then; [apply quiet_session|]. intros s. cbv zeta.
  apply quiet_then; [by apply quiet_doing, (issues_call (R:=sc_answer))|]. intros _.
  apply quiet_then; [by apply quiet_doing, (issues_call (R:=sc_answer))|]. intros now. by apply quiet_puts.
Qed.

Lemma follows_or_else {A} h s (m : act A) (x : exn -> act A) Q :
  follows h s m (fun h' s' o => match o with inl e => follows h' s' (x e) Q | inr a => Q h' s' (inr a) end) ->
  follows h s (or_else_do m x) Q.
Proof.
  intros Hm. apply hoare_bind. eapply hoare_mono; [exact Hm|]. cbn. intros h' [e|[[e|a] s']]; cbn; auto.
Qed.

Lemma follows_finally {A} h s (m : act A) (f : act unit) Q :
  follows h s m (fun h' s' o => follows h' s' f (fun h'' s'' done =>
    Q h'' s'' (match done with inl e => inl e | inr _ => o end))) ->
  follows h s (finally_do m f) Q.
Proof.
  intros Hm. apply hoare_bind. eapply hoare_mono; [exact Hm|]. cbn. intros h' [e|[o s']]; cbn; [done|].
  intros Hf. apply hoare_bind. eapply hoare_mono; [exact Hf|]. cbn. by intros h'' [e|[d s'']].
Qed.

Lemma quiet_or_else {A} (m : act A) (x : exn -> act A) :
  quiet_act m -> (forall e, quiet_act (x e)) -> quiet_act (or_else_do m x).
Proof.
  intros Hm Hx h s Q HQ. apply follows_or_else, Hm. intros h' s' [e|a] Hc Hk; [|by apply HQ].
  apply Hx. intros h'' s'' o Hc' Hk'. apply HQ; [by eapply calm_trans|by eapply keeps_trans].
Qed.

(** ** Waiting *)

Section waiting.
Context (timeout poll_seconds : spec_float) (fuel : nat).

Lemma quiet_wait name collect accept :
  issues observing collect -> (forall o, issues observing (accept o)) -> quiet_act (wait timeout fuel name collect accept).
Proof.
  intros Hc%observing_quiet Ha. assert (forall o, issues quiet_call (accept o)) as Ha' by by intros o; apply observing_quiet.
  clear Ha. apply quiet_then; [by apply quiet_doing, (issues_call (R:=sc_answer))|]. intros now.
  generalize (float_add now timeout) as deadline. clear now. intros deadline.
  induction fuel as [|n IH]; cbn [wait_loop]; [apply quiet_fails|].
  apply quiet_then; [by apply quiet_doing|]. intros observed. apply quiet_then; [apply quiet_save|]. intros _.
  apply quiet_then; [by apply quiet_doing|]. intros [|]; [apply quiet_did|].
  apply quiet_then; [by apply quiet_doing, (issues_call (R:=sc_answer))|]. intros now.
  destruct (SFleb deadline now); [apply quiet_fails|].
  apply quiet_then; [by apply quiet_doing, (issues_call (R:=sc_answer))|]. done.
Qed.

(** What a wait that ended well has observed last; [ob a] is the collection answered [a]. *)
Lemma wait_observes h s name collect (ob : list (string * json) -> obs sc_answer) test
  (Q : list (obs sc_answer) -> Session -> result (list (string * json)) -> Prop) :
  (forall h s Q', (forall h' e, calm h h' -> Q' h' s (inl e)) -> (forall a, Q' (h ++ [ob a]) s (inr a)) ->
     follows h s (doing collect) Q') ->
  (forall a, write_of (ob a) = None) ->
  (forall h' s' e, calm h h' -> keeps s s' -> Q h' s' (inl e)) ->
  (forall h1 a k s', calm h h1 -> writes k = [] -> test a = inr true -> keeps s s' ->
     Q (h1 ++ ob a :: k) s' (inr a)) ->
  follows h s (wait timeout fuel name collect (fun a => lift (test a))) Q.
Proof.
  intros Hcollect Hob He Ho.
  apply follows_quiet; [by apply quiet_doing, (issues_call (R:=sc_answer))|auto|].
  intros h0 s0 now Hc0 Hk0. generalize (float_add now timeout) as deadline. clear now. intros deadline.
  revert h0 s0 Hc0 Hk0. induction fuel as [|n IH]; intros h0 s0 Hc0 Hk0; cbn [wait_loop]; [by apply He|].
  apply follows_then, Hcollect; [intros h' e Hc; apply He; [by eapply calm_trans|done]|]. intros a.
  assert (calm h0 (h0 ++ [ob a])) as Hca.
  { exists [ob a]. split; [done|]. unfold writes. cbn. by rewrite Hob. }
  apply follows_quiet; [apply quiet_save| |].
  { intros h' s' e Hc Hk. apply He; [|by eapply keeps_trans]. eapply calm_trans; [|exact Hc]. by eapply calm_trans. }
  intros h1 s1 _ Hc1 Hk1.
  assert (doing (lift (test a)) = pure (test a)) as -> by by destruct (test a).
  assert (calm h h1 /\ keeps s s1) as [Hc2 Hk2].
  { split; [|by eapply keeps_trans]. eapply calm_trans; [|exact Hc1]. by eapply calm_trans. }
  apply follows_pure; [intros e _; by apply He|]. intros ok Ht. destruct ok.
  - destruct Hc1 as (k & -> & Hk). rewrite <-app_assoc. by apply Ho.
  - apply follows_quiet; [by apply quiet_doing, (issues_call (R:=sc_answer))| |].
    { intros h' s' e Hc Hk. apply He; [by eapply calm_trans|by eapply keeps_trans]. }
    intros h2 s2 now Hc3 Hk3. destruct (SFleb deadline now).
    { apply He; [by eapply calm_trans|by eapply keeps_trans]. }
    apply follows_quiet; [by apply quiet_doing, (issues_call (R:=sc_answer))| |].
    { intros h' s' e Hc Hk. apply He; [eapply calm_trans; [|exact Hc]; by eapply calm_trans|].
      eapply keeps_trans; [|exact Hk]. by eapply keeps_trans. }
    intros h3 s3 _ Hc4 Hk4. apply IH; [|eapply keeps_trans; [|exact Hk4]; by eapply keeps_trans].
    eapply calm_trans; [|exact Hc4]. by eapply calm_trans.
Qed.

Lemma collects_call x (ob : sc_answer x -> obs sc_answer) h s
  (Q : list (obs sc_answer) -> Session -> result (sc_answer x) -> Prop) :
  quiet_call x -> (forall a, ob a = existT x (inr a)) ->
  (forall h' e, calm h h' -> Q h' s (inl e)) -> (forall a, Q (h ++ [ob a]) s (inr a)) ->
  follows h s (doing (scask x)) Q.
Proof.
  intros Hq Hob He Ho. split; [by destruct x|]. intros [e|a]; cbn.
  - apply He. exists [existT x (inl e)]. split; [done|]. by destruct x.
  - rewrite <-Hob. apply Ho.
Qed.

(** ** Capturing *)

Lemma validate_baseline_spec doc name spec :
  validate_baseline doc name = inr spec -> object_at doc "spec" = inr spec.
Proof.
  unfold validate_baseline, object_at. intros (m & _ & (metadata & _ & Hv)%rbind_inr)%rbind_inr. revert Hv.
  pass_guard. intros (labels & _ & Hv)%rbind_inr. revert Hv. pass_guard.
  intros (v & Hs & (spec' & Ho & (item & _ & Hv)%rbind_inr)%rbind_inr)%rbind_inr. revert Hv.
  pass_guard. intros (env & _ & (foreign & _ & Hv)%rbind_inr)%rbind_inr. revert Hv.
  pass_guard. pass_guard. intros (u & _ & [= <-])%rbind_inr. by rewrite Hs.
Qed.

Lemma save_saved {B} h s name data (f : unit -> act B) Q :
  (forall h' s' e, calm h h' -> keeps s s' -> Q h' s' (inl e)) ->
  (forall h' s', calm h h' -> keeps s s' -> (exists id fname, existT (SSave id fname data) (inr tt) ∈ h') ->
     follows h' s' (f tt) Q) ->
  follows h s (then_do (save name data) f) Q.
Proof.
  intros He Hf. apply follows_then, follows_quiet; [apply quiet_session|auto|]. intros h0 s0 s1 Hc0 Hk0. cbv zeta.
  apply follows_call; [done|intros e; apply He; calmly|]. intros [].
  apply follows_quiet; [by apply quiet_doing, (issues_call (R:=sc_answer))|intros; apply He; calmly|].
  intros h' s' now Hc Hk. apply quiet_puts; [done|]. intros h'' s'' [e|[]] Hc' Hk'; [apply He; calmly|].
  apply Hf; [calmly|calmly|]. eexists _, _. eapply calm_elem; [exact Hc'|]. eapply calm_elem; [exact Hc|].
  apply elem_of_app. right. apply list_elem_of_here.
Qed.

Lemma baseline_captures h s (Q : list (obs sc_answer) -> Session -> result (list (string * json)) -> Prop) :
  (forall h' s' e, calm h h' -> keeps s s' -> Q h' s' (inl e)) ->
  (forall h' s' doc spec, calm h h' -> keeps s s' -> captured h' doc spec -> object_at doc "spec" = inr spec ->
     Q h' s' (inr doc)) ->
  follows h s (baseline timeout fuel c) Q.
Proof.
  intros He Ho. unfold baseline.
  apply follows_quiet; [by apply quiet_doing, (issues_call (R:=sc_answer))|auto|]. intros h1 s1 scope Hc1 Hk1.
  apply follows_quiet; [apply quiet_save|intros; apply He; calmly|].
  intros h2 s2 _ Hc2 Hk2. apply follows_call; [done|intros e; apply He; calmly|]. intros doc.
  apply follows_pure; [intros e _; apply He; calmly|]. intros spec Hv.
  apply save_saved; [intros; apply He; calmly|]. intros h4 s4 Hc4 Hk4 Hsaved.
  assert (captured h4 doc spec) as Hcap.
  { split_and!; [|done|done]. eapply calm_elem; [exact Hc4|]. apply elem_of_app. right. apply list_elem_of_here. }
  apply follows_quiet; [|intros; apply He; calmly|].
  { apply quiet_wait; [by apply (issues_call (R:=sc_answer))|]. intros o. apply issues_lift. }
  intros h5 s5 _ Hc5 Hk5. apply follows_quiet; [|intros; apply He; calmly|].
  { apply quiet_wait; [by apply (issues_call (R:=sc_answer))|]. intros o. apply issues_lift. }
  intros h6 s6 _ Hc6 Hk6. apply (Ho h6 s6 doc spec); [calmly|calmly| |by eapply validate_baseline_spec].
  eapply captured_calm; [|exact Hcap]. calmly.
Qed.

(** ** What the attempt may change *)

Definition preserves {A} (I : list (obs sc_answer) -> Session -> Prop) (m : act A) : Prop :=
  forall h s, I h s -> follows h s m (fun h' s' _ => I h' s').

Lemma preserves_then {A B} I (m : act A) (f : A -> act B) :
  preserves I m -> (forall a, preserves I (f a)) -> preserves I (then_do m f).
Proof.
  intros Hm Hf h s Hi. apply follows_then. eapply follows_mono; [by apply Hm|]. intros h' s' [e|a] Hi'; [done|].
  by apply Hf.
Qed.

Lemma preserves_or_else {A} I (m : act A) (x : exn -> act A) :
  preserves I m -> (forall e, preserves I (x e)) -> preserves I (or_else_do m x).
Proof.
  intros Hm Hx h s Hi. apply follows_or_else. eapply follows_mono; [by apply Hm|]. intros h' s' [e|a] Hi'; [|done].
  by apply Hx.
Qed.

(** What a quiet step keeps *)
Definition stable (I : list (obs sc_answer) -> Session -> Prop) : Prop :=
  forall h s h' s', I h s -> calm h h' -> keeps s s' -> I h' s'.

Lemma preserves_quiet {A} I (m : act A) : stable I -> quiet_act m -> preserves I m.
Proof. intros HI Hm h s Hi. apply Hm. intros h' s' _ Hc Hk. by eapply HI. Qed.

(** The run holds the captured document, and what it may write follows from it. *)
Record armed (doc spec fault : list (string * json)) (h : list (obs sc_answer)) (s : Session) : Prop := {
  armed_verified : cleanup_verified (receipt s) = false;
  armed_original : original s = Some doc;
  armed_injected : injected s = Some fault;
  armed_captured : captured h doc spec;
}.

Lemma armed_stable doc spec fault : stable (armed doc spec fault).
Proof. intros h s h' s' [] Hc []. split; [congruence..|by eapply captured_calm]. Qed.

Lemma replace_armed doc spec fault expected new :
  reviewed spec new -> preserves (armed doc spec fault) (replace_spec (target c) expected new).
Proof.
  intros Hr h s Ha. unfold replace_spec. split; [split; [done|by eexists _, _; split; [apply Ha|]]|].
  destruct Ha as [? ? ? (? & ? & id & name & ?)].
  intros r. assert (captured (h ++ [existT (SReplace (run_id (receipt s)) (target c) expected new) r]) doc spec).
  { split_and!; [apply elem_of_app; by left|done|]. exists id, name. apply elem_of_app. by left. }
  by destruct r.
Qed.


(** What the observations ask for *)
#[local] Ltac plain := repeat first
  [ solve [auto 2 with runner nocore] | progress cbv zeta | apply issues_lift | by apply (issues_call (R:=sc_answer))
  | apply issues_bind; [|intros ?] | case_match | exact I ].

Lemma latest_loop_observes lines : issues observing (latest_loop lines).
Proof. induction lines as [|line lines IH]; cbn [latest_loop]; plain. Qed.
#[local] Hint Resolve latest_loop_observes : runner.

Lemma control_holding_observes o : issues observing (control_holding o).
Proof. unfold control_holding, latest_holding. plain. Qed.

Lemma pfilter_observes {A} (f : A -> scprog bool) l :
  (forall x, issues observing (f x)) -> issues observing (pfilter f l).
Proof. intros Hf. induction l as [|x l IH]; cbn [pfilter]; plain. Qed.

Lemma pany_observes {A} (f : A -> scprog bool) l :
  (forall x, issues observing (f x)) -> issues observing (pany f l).
Proof. intros Hf. induction l as [|x l IH]; cbn [pany]; plain. Qed.

Lemma pod_matches_observes pod replicas deployment expected lower :
  issues observing (pod_matches pod replicas deployment expected lower).
Proof. unfold pod_matches. plain. Qed.
#[local] Hint Resolve control_holding_observes pfilter_observes pany_observes pod_matches_observes : runner.

Lemma current_pods_observes observed previous expected requested_at name :
  issues observing (current_pods observed previous expected requested_at name).
Proof. unfold current_pods. plain. Qed.

Lemma recent_oom_observes pod : issues observing (recent_oom pod).
Proof. unfold recent_oom. plain. Qed.
#[local] Hint Resolve current_pods_observes recent_oom_observes : runner.

Lemma fault_activated_observes observed previous expected requested_at uids :
  issues observing (fault_activated observed previous expected requested_at uids).
Proof. unfold fault_activated. apply issues_bind; [plain|]. intros pods. apply pany_observes. intros pod. plain. Qed.

Lemma control_observation_observes original control requested_at :
  issues observing (control_observation original control requested_at).
Proof. unfold control_observation. plain. Qed.

Lemma observe_activation_observes : issues observing (observe_activation c).
Proof. unfold observe_activation. plain. Qed.
#[local] Hint Resolve fault_activated_observes control_observation_observes observe_activation_observes : runner.

(** Every step of the attempt keeps the run armed. *)
#[local] Ltac waits := apply quiet_wait; [plain|intros ?; plain].
#[local] Ltac quietly := first
  [ apply quiet_did | apply quiet_fails | apply quiet_pure | apply quiet_session | apply quiet_save
  | by apply quiet_puts | by apply quiet_doing, (issues_call (R:=sc_answer)) | waits ].
#[local] Ltac armedly := repeat first
  [ progress cbv zeta | apply preserves_quiet; [apply armed_stable|quietly] | apply preserves_then; [|intros ?]
  | case_match ].

Lemma memory_control_armed doc spec fault original control injected :
  c = OOM_01 -> memory_control_spec spec = inr control ->
  preserves (armed doc spec fault) (memory_control timeout fuel original control injected).
Proof.
  intros Hc Hs. unfold memory_control. do 5 (apply preserves_then; [armedly|intros ?]).
  apply preserves_then; [|intros ?; armedly]. replace "payments-api" with (target c) by by rewrite Hc.
  apply replace_armed. by right; right.
Qed.

Lemma inject_armed doc spec fault expected :
  fault_spec c spec = inr fault -> preserves (armed doc spec fault) (inject timeout fuel c expected fault).
Proof.
  intros Hf. unfold inject. do 4 (apply preserves_then; [armedly|intros ?]).
  apply preserves_then; [|intros ?; unfold package_activation; armedly].
  destruct (py_eq _ _); [armedly|]. apply replace_armed. by right; left.
Qed.

Lemma investigate_armed doc spec fault callback : preserves (armed doc spec fault) (investigate callback).
Proof.
  unfold investigate. destruct callback; [|armedly]. apply preserves_or_else; [armedly|]. intros e. armedly.
Qed.

(** ** The attempt *)

(** Nothing was written, or the run is armed *)
Definition safe (h : list (obs sc_answer)) (s : Session) : Prop :=
  cleanup_verified (receipt s) = false /\ injected s = None /\ writes h = [] \/
  exists doc spec fault, armed doc spec fault h s /\ object_at doc "spec" = inr spec.

Lemma safe_stable : stable safe.
Proof.
  intros h s h' s' [(Hv & Hi & Hw)|(doc & spec & fault & Ha & Ho)] Hc Hk.
  - left. destruct Hc as (k & -> & Hk'). rewrite writes_app, Hw, Hk'. destruct Hk. split_and!; [congruence..|done].
  - right. exists doc, spec, fault. split; [by eapply armed_stable|done].
Qed.

Lemma attempt_safe callback h s :
  cleanup_verified (receipt s) = false -> injected s = None -> writes h = [] ->
  follows h s (attempt_case timeout fuel c callback) (fun h' s' _ => safe h' s').
Proof.
  intros Hv Hi Hw. assert (safe h s) as Hs by by left.
  unfold attempt_case. apply follows_then, baseline_captures; [by intros; eapply safe_stable|].
  intros h' s' doc spec Hc Hk Hcap Hspec. apply follows_sets.
  set (s1 := set_original doc s'). assert (safe h' s1) as Hs1.
  { left. destruct Hc as (k & -> & Hk'). rewrite writes_app, Hw, Hk'. destruct Hk. cbn. split_and!; congruence. }
  apply follows_pure; [done|]. intros spec' Hspec'. rewrite Hspec in Hspec'. injection Hspec' as <-.
  apply follows_pure; [done|]. intros fault Hfault.
  assert (armed doc spec fault h' (set_injected fault s1)) as Ha.
  { split; try done. destruct Hk. unfold s1. cbn. congruence. }
  eapply (follows_mono _ _ _ (fun h' s' _ => armed doc spec fault h' s')); [|by right; eexists _, _, _].
  apply follows_sets. revert h' s1 Hc Hcap Hs1 Ha. intros h1 s1 _ _ _ Ha.
  revert Ha. generalize (set_injected fault s1). intros s2 Ha. revert h1 s2 Ha. clear s1.
  change (preserves (armed doc spec fault)
    (let^ expected := (if eqb_of c OOM_01 then
       let^ control := pure (memory_control_spec spec) in
       do^ sets (set_intermediate control) in memory_control timeout fuel doc control fault
     else did doc) in do^ inject timeout fuel c expected fault in investigate callback)).
  apply preserves_then.
  - destruct (eqb_of c OOM_01) eqn:Hoom; [|armedly]. apply eqb_of_true_1 in Hoom. intros h1 s2 Ha.
    apply follows_pure; [done|]. intros control Hcontrol. apply follows_sets.
    apply memory_control_armed; [done|done|]. by destruct Ha.
  - intros expected. apply preserves_then; [by apply inject_armed|]. intros _. apply investigate_armed.
Qed.

(** ** The restoration *)

(** The run remembers what it captured, and it is verified only when restored. *)
Definition settled (doc spec : list (string * json)) (h : list (obs sc_answer)) (s : Session) : Prop :=
  captured h doc spec /\ injected s <> None /\ (cleanup_verified (receipt s) = true -> restored h spec).

Lemma settled_stable doc spec : stable (settled doc spec).
Proof.
  intros h s h' s' (Hcap & Hi & Hv) Hc []. split_and!; [by eapply captured_calm|congruence|]. intros Hv'.
  eapply restored_calm; [done|]. apply Hv. congruence.
Qed.

Lemma armed_settled doc spec fault h s : armed doc spec fault h s -> settled doc spec h s.
Proof. intros []. split_and!; [done|congruence..]. Qed.

(** The two waits of the restoration, after the last write *)
Lemma convergence_restores {A} doc spec fault h s (k : act A) :
  armed doc spec fault h s ->
  (forall h' s', captured h' doc spec -> injected s' <> None -> restored h' spec -> follows h' s' k (fun h' s' _ => settled doc spec h' s')) ->
  follows h s
    (do^ wait timeout fuel "restored" (scask (SObserve (target c))) (fun observed => lift (ready_with spec observed)) in
     do^ wait timeout fuel "healthy-after" (scask SHealthy) (fun observed => lift (sample_healthy observed)) in k)
    (fun h' s' _ => settled doc spec h' s').
Proof.
  intros Ha Hk. apply follows_then.
  apply (wait_observes _ _ _ _ (fun a => existT (SObserve (target c)) (inr a) : obs sc_answer)); [|done| |].
  { intros h0 s0 Q' He Ho. by apply (collects_call (SObserve (target c))
      (fun a => existT (SObserve (target c)) (inr a) : obs sc_answer)). }
  { intros h' s' e Hc Hkeep. eapply armed_settled, armed_stable; done. }
  intros h1 observed k1 s1 Hc1 Hk1 Hready Hs1.
  assert (armed doc spec fault (h1 ++ existT (SObserve (target c)) (inr observed) :: k1) s1) as Ha1.
  { eapply armed_stable; [exact Ha| |done]. eapply calm_trans; [exact Hc1|]. by eexists. }
  apply follows_then.
  apply (wait_observes _ _ _ _ (fun a => existT SHealthy (inr a) : obs sc_answer)); [|done| |].
  { intros h0 s0 Q' He Ho. by apply (collects_call SHealthy (fun a => existT SHealthy (inr a) : obs sc_answer)). }
  { intros h' s' e Hc Hkeep. eapply armed_settled, armed_stable; done. }
  intros h2 payment k2 s2 (j & -> & Hj) Hk2 Hhealthy Hs2. apply Hk.
  - eapply captured_calm; [|apply Ha1]. exists (j ++ existT SHealthy (inr payment) :: k2).
    split; [by rewrite <-app_assoc|]. rewrite writes_app, Hj. exact Hk2.
  - destruct Ha1 as [_ _ Hi _], Hs2. congruence.
  - exists h1, observed, (k1 ++ j), payment, k2. split_and!; [|done|done|by rewrite writes_app, Hk1|done].
    by rewrite <-!app_assoc.
Qed.

Lemma restore_settles doc spec fault injected intermediate h s :
  object_at doc "spec" = inr spec -> armed doc spec fault h s ->
  follows h s (restore_spec timeout fuel c doc injected intermediate) (fun h' s' _ => settled doc spec h' s').
Proof.
  intros Hspec Ha. unfold restore_spec. pose proof (armed_settled _ _ _ _ _ Ha) as Hset.
  apply follows_call; [done|intros e; eapply settled_stable; [done| |apply keeps_refl]; calmly|]. intros current.
  assert (armed doc spec fault (h ++ [existT (SDeployment (target c)) (inr current)]) s) as Ha'.
  { eapply armed_stable; [exact Ha| |apply keeps_refl]. calmly. }
  clear Ha Hset. set (h1 := h ++ _) in *. clearbody h1. clear h. rename h1 into h, Ha' into Ha.
  pose proof (armed_settled _ _ _ _ _ Ha) as Hset.
  apply follows_pure; [done|]. intros current_spec _. apply follows_pure; [done|]. rewrite Hspec. intros ? [= <-].
  do 4 (apply follows_pure; [done|]; intros ? _). destruct (negb _); [done|].
  apply follows_then. eapply (follows_mono _ _ _ (fun h' s' _ => armed doc spec fault h' s')).
  { revert h s Ha Hset. intros h s Ha _. destruct (py_eq _ _); [done|]. destruct (_ && _); [done|].
    apply replace_armed; [by left|done]. }
  clear h s Ha Hset. intros h s [e|[]] Ha; [by eapply armed_settled|].
  apply (convergence_restores doc spec fault); [done|]. clear h s Ha. intros h s Hcap Hi Hres.
  apply follows_sets.
  assert (settled doc spec h (set_receipt (assign SetCleanupVerified (receipt s)) s)) as Hset by done.
  revert Hset. generalize (set_receipt (assign SetCleanupVerified (receipt s)) s). clear s Hres Hcap Hi. intros s Hset.
  apply follows_quiet; [by apply quiet_doing, (issues_call (R:=sc_answer))|by intros; eapply settled_stable|].
  intros h' s' now Hc Hk. apply quiet_puts; [done|]. intros h'' s'' _ Hc' Hk'. eapply settled_stable; [done|calmly..].
Qed.

(** What the end of the run knows *)
Definition closing (h : list (obs sc_answer)) (s : Session) : Prop :=
  injected s = None /\ writes h = [] \/ exists doc spec, settled doc spec h s.

Lemma closing_clean h s :
  closing h s -> negb (bool_decide (is_Some (injected s))) || cleanup_verified (receipt s) = true -> clean h.
Proof.
  intros [[_ Hw]|(doc & spec & Hcap & Hi & Hv)] Hb; [by left|]. right. exists doc, spec. split; [done|]. apply Hv.
  apply orb_true_iff in Hb as [Hb|Hb]; [|done]. destruct (injected s); [|done]. by rewrite bool_decide_true in Hb.
Qed.

Lemma closing_stable : stable closing.
Proof.
  intros h s h' s' [[Hi Hw]|(doc & spec & Hs)] Hc Hk.
  - left. destruct Hc as (k & -> & Hk'). rewrite writes_app, Hw, Hk'. destruct Hk. split; [congruence|done].
  - right. exists doc, spec. by eapply settled_stable.
Qed.

Lemma settled_closing doc spec h s : settled doc spec h s -> closing h s.
Proof. right. by exists doc, spec. Qed.

Lemma cleanup_closes h s :
  safe h s ->
  follows h s
    (match original s, injected s with
     | Some original, Some injected =>
         let^ now := doing (scask STimestamp) in
         do^ puts (SetCleanupStarted now) in
         or_else_do (restore_spec timeout fuel c original injected (intermediate s))
           (fun e =>
              if is_exit e then fails e
              else
                do^ puts (SetCleanupFailure (exception_text e)) in
                let^ s := session in doing (scask (SRewriteLatch (receipt s))))
     | _, _ => did tt
     end) (fun h' s' _ => closing h' s').
Proof.
  intros [(Hv & Hi & Hw)|(doc & spec & fault & Ha & Hspec)].
  { rewrite Hi. destruct (original s); by left. }
  pose proof Ha as [_ Ho Hi _]. rewrite Ho, Hi.
  pose proof (armed_settled _ _ _ _ _ Ha) as Hset.
  apply follows_quiet; [by apply quiet_doing, (issues_call (R:=sc_answer))| |].
  { intros; eapply settled_closing, settled_stable; done. }
  intros h1 s1 now Hc1 Hk1. apply follows_quiet; [by apply quiet_puts| |].
  { intros; eapply settled_closing, settled_stable; [done|calmly..]. }
  intros h2 s2 _ Hc2 Hk2. apply follows_or_else. eapply follows_mono.
  { apply (restore_settles doc spec fault); [done|]. eapply armed_stable; [exact Ha|calmly..]. }
  intros h3 s3 [e|[]] Hset3; [|by eapply settled_closing]. destruct (is_exit e); [by eapply settled_closing|].
  eapply (follows_mono _ _ _ (fun h' s' _ => settled doc spec h' s')); [|by intros; eapply settled_closing].
  revert h3 s3 Hset3. change (preserves (settled doc spec) (do^ puts (SetCleanupFailure (exception_text e)) in
    let^ s := session in doing (scask (SRewriteLatch (receipt s))))).
  apply preserves_quiet; [apply settled_stable|]. apply quiet_then; [quietly|]. intros _.
  apply quiet_then; [quietly|]. intros s3. quietly.
Qed.

Lemma finish_allowed h s : safe h s -> follows h s (finish_run timeout fuel c) (fun _ _ _ => True).
Proof.
  intros Hs. unfold finish_run. apply (follows_then h s session). apply follows_then.
  eapply follows_mono; [by apply cleanup_closes|]. clear h s Hs. intros h s [e|[]] Hcl; [done|].
  apply follows_quiet; [quietly|done|]. intros h1 s1 now Hc1 Hk1.
  apply follows_quiet; [quietly|done|]. intros h2 s2 _ Hc2 Hk2. apply (follows_then h2 s2 session).
  apply follows_quiet; [quietly|done|]. intros h3 s3 _ Hc3 Hk3.
  assert (closing h3 s3) as Hcl3 by by eapply closing_stable; [exact Hcl|calmly..].
  destruct Hk3 as [_ Hi3 _ Hv3]. destruct (_ || _) eqn:Hb; [|done]. split; [|by intros []].
  eapply closing_clean; [exact Hcl3|]. by rewrite Hi3, Hv3.
Qed.

Lemma start_fresh h :
  hoare allowed h (start c) (fun _ out => match out with inr r => cleanup_verified r = false | _ => True end).
Proof.
  unfold start. apply hoare_bind, hoare_call; [done|]. intros [e|latched]; [done|]. destruct latched; [done|].
  do 3 (apply hoare_bind, hoare_call; [done|]; intros [?|?]; [done|]). cbv zeta.
  apply hoare_bind, hoare_call; [done|]. intros [e|created]; [done|]. destruct (negb created); [done|].
  apply hoare_bind, hoare_call; [done|]. by intros [].
Qed.

Lemma run_allowed callback : hoare allowed [] (scenario_run timeout fuel c callback) (fun _ _ => True).
Proof.
  unfold scenario_run. case_bool_decide; [done|]. apply hoare_bind.
  eapply hoare_mono; [apply hoare_and; [apply quiet_calm; unfold start; plain|apply start_fresh]|].
  cbv beta. intros h [e|r] [(k & -> & Hw) Hfresh]; [done|]. apply hoare_bind.
  eapply hoare_mono; [|intros h' [e|[[e|a] s]] _; [done..|]; exact I].
  apply (follows_finally _ (new_session r) _ _ (fun _ _ _ => True)). apply follows_or_else.
  eapply follows_mono; [by apply attempt_safe|].
  intros h1 s1 [e|[]] Hs; [|by apply finish_allowed].
  eapply follows_mono; [|intros h' s' o Hs'; exact (finish_allowed h' s' Hs')].
  apply preserves_then; [apply preserves_quiet; [apply safe_stable|quietly]|intros _|done].
  apply preserves_quiet; [apply safe_stable|]. destruct (is_exit e); quietly.
Qed.
End waiting.
End runner.
