(* ===== verification/RunnerTheorems.v ===== *)
(** * What a scenario leaves behind

    The latch of the sandbox is removed only when nothing was changed or the captured spec was
    observed again after the last change; every change is a reviewed one, made while the
    latch is held. *)

From S2P Require Import Prelude Text Json Effects Baseline Deployment Diagnostics Permits.
From S2P Require Import SandboxModels Recipes Scenario RunnerSafety.

Open Scope string_scope.
Open Scope list_scope.
Open Scope Z_scope.
Open Scope prog_scope.

Section runner.
Context `{PyText, ModelText, UrlText, IntText, RunnerText}.
Context (c : CaseId) (timeout : spec_float) (fuel : nat).

(** C29: Whatever the cluster answers, and whatever fails, every spec a run writes is the captured
    baseline, its reviewed fault or its reviewed control, written to the target of the case after
    the baseline was saved; and the run removes the latch only if it wrote nothing, or if, after
    its last write, it observed the captured spec converged and then a healthy payment. *)
Theorem latch_released_clean callback tr out tr1 x r tr2 :
  runs (scenario_run timeout fuel c callback) tr out -> tr = tr1 ++ existT x r :: tr2 ->
  match x with
  | SReplace _ name _ new => name = target c /\ exists doc spec, captured c tr1 doc spec /\ reviewed c spec new
  | SUnlatch _ => writes tr1 = [] \/ exists doc spec, captured c tr1 doc spec /\ restored c tr1 spec
  | _ => True
  end.
Proof.
  intros Hr ->. destruct (hoare_sound _ _ _ _ _ _ (run_allowed c timeout fuel callback) Hr) as [_ Ha].
  exact (Ha tr1 x r tr2 eq_refl).
Qed.
End runner.

(** ** Exclusion

    The latch file is the lock of the sandbox, labelled with the run that created it. *)

Definition creates_latch (x : sc_call) : result (sc_answer x) -> option (unit * string) :=
  match x with
  | SCreateLatch r => fun a => match a with inr true => Some (tt, run_id r) | _ => None end
  | _ => fun _ => None
  end.
Definition removes_latch (x : sc_call) (_ : result (sc_answer x)) : option unit :=
  match x with SUnlatch _ => Some tt | _ => None end.
(** What only the owner of the latch does *)
Definition exclusive (x : sc_call) : option (unit * string) :=
  match x with
  | SReplace id _ _ _ | SUnlatch id | SSave id _ _ => Some (tt, id)
  | SRewriteLatch r | SWriteReceipt r => Some (tt, run_id r)
  | _ => None
  end.

(** The state says whether the file exists.  A creation is exclusive; one that fails may have
    left the file, and a removal that fails may have removed it. *)
Inductive latch_done : bool -> forall x : sc_call, result (sc_answer x) -> bool -> Prop :=
  | done_latched s : latch_done s SLatched (inr s) s
  | done_create r : latch_done false (SCreateLatch r) (inr true) true
  | done_create_exists r : latch_done true (SCreateLatch r) (inr false) true
  | done_create_fails s r e b : latch_done s (SCreateLatch r) (inl e) (s || b)
  | done_rewrite s r a b : latch_done s (SRewriteLatch r) a (s || b)
  | done_unlatch s id : latch_done s (SUnlatch id) (inr tt) false
  | done_unlatch_fails s id e b : latch_done s (SUnlatch id) (inl e) (s && b)
  | done_plain s x a :
      match x with SLatched | SCreateLatch _ | SRewriteLatch _ | SUnlatch _ => False | _ => True end ->
      latch_done s x a s
  | done_latched_fails s e : latch_done s SLatched (inl e) s.

#[local] Instance latch_laws : LockLaws latch_done creates_latch removes_latch exclusive (fun s _ => s = true).
Proof.
  split.
  - intros s x a s' [] id Hd Ha. destruct Hd; try done. by destruct x.
  - intros s x a s' [] Hd Hs Hr. destruct Hd; try done; try (by destruct Hr); by rewrite Hs.
  - intros x a o Ha. by destruct x.
  - intros x a k Hr. destruct x; try done. injection Hr as <-. by eexists.
Qed.

Section exclusion.
Context `{PyText, ModelText, UrlText, IntText, RunnerText}.

Abbreviation held id := (Some (tt, id)).
Abbreviation holds := (holding creates_latch removes_latch exclusive).
Abbreviation free := (entitled creates_latch removes_latch exclusive).
Abbreviation owner h := (holder creates_latch removes_latch h tt).

(** An action of the owner that keeps the latch *)
Definition tame {A} (id : string) (m : act A) : Prop :=
  forall s, run_id (receipt s) = id ->
  holds (held id) (m s) (fun o out => match out with
                                      | inr (_, s') => o = held id /\ run_id (receipt s') = id
                                      | inl _ => True end).

Lemma tame_then {A B} id (m : act A) (f : A -> act B) :
  tame id m -> (forall a, tame id (f a)) -> tame id (then_do m f).
Proof.
  intros Hm Hf s Hs. apply holding_bind. eapply holding_mono; [by apply Hm|].
  intros o [e|[[e|a] s']]; cbn; [done|done|]. intros [-> Hs']. by apply Hf.
Qed.

Lemma tame_or_else {A} id (m : act A) (x : exn -> act A) :
  tame id m -> (forall e, tame id (x e)) -> tame id (or_else_do m x).
Proof.
  intros Hm Hx s Hs. apply holding_bind. eapply holding_mono; [by apply Hm|].
  intros o [e|[[e|a] s']]; cbn; [done| |done]. intros [-> Hs']. by apply Hx.
Qed.

Lemma tame_doing {A} id (m : scprog A) : issues (free (held id)) m -> tame id (doing m).
Proof.
  intros Hm s Hs. apply holding_bind, holding_attempt, holding_entitled; [done|]. by intros out.
Qed.

Lemma observing_free id x : observing x -> free (held id) x.
Proof. intros Hx. split; [by destruct x|]. intros a. by destruct x. Qed.

Lemma tame_observing {A} id (m : scprog A) : issues observing m -> tame id (doing m).
Proof. intros Hm. apply tame_doing. eapply issues_weaken; [apply observing_free|done]. Qed.

(** A request of the owner, under its own name *)
Lemma tame_owned id x : exclusive x = held id -> (forall i, x <> SUnlatch i) -> tame id (doing (scask x)).
Proof.
  intros Hx Hno. apply tame_doing, (issues_call (R:=sc_answer)). split; [congruence|]. intros a.
  destruct x; try done. by destruct (Hno id0).
Qed.

Lemma tame_session {A} id (f : Session -> act A) :
  (forall s, run_id (receipt s) = id -> tame id (f s)) -> tame id (then_do session f).
Proof. intros Hf s Hs. by apply Hf. Qed.

Lemma tame_pure {A} id (m : result A) : tame id (pure m).
Proof. by intros s Hs. Qed.
Lemma tame_did {A} id (a : A) : tame id (did a).
Proof. by intros s Hs. Qed.
Lemma tame_fails {A} id e : tame id (fails (A:=A) e).
Proof. by intros s Hs. Qed.
Lemma tame_sets id f : (forall s, run_id (receipt (f s)) = run_id (receipt s)) -> tame id (sets f).
Proof. intros Hf s Hs. split; [done|]. by rewrite Hf. Qed.
Lemma tame_puts id a : tame id (puts a).
Proof. by apply tame_sets. Qed.

Lemma tame_save id name data : tame id (save name data).
Proof.
  apply tame_session. intros s Hs. cbv zeta. apply tame_then; [apply tame_owned; [by rewrite <-Hs|done]|]. intros _.
  apply tame_then; [by apply tame_observing, (issues_call (R:=sc_answer))|]. intros now. apply tame_puts.
Qed.

Lemma tame_replace id name expected spec : tame id (replace_spec name expected spec).
Proof. apply tame_session. intros s Hs. apply tame_owned; [by rewrite <-Hs|done]. Qed.

Lemma tame_wait id timeout fuel name collect accept :
  issues observing collect -> (forall o, issues observing (accept o)) ->
  tame id (wait timeout fuel name collect accept).
Proof.
  intros Hc Ha. apply tame_then; [by apply tame_observing, (issues_call (R:=sc_answer))|]. intros now.
  generalize (float_add now timeout) as deadline. clear now. intros deadline.
  induction fuel as [|n IH]; cbn [wait_loop]; [apply tame_fails|].
  apply tame_then; [by apply tame_observing|]. intros observed. apply tame_then; [apply tame_save|]. intros _.
  apply tame_then; [by apply tame_observing|]. intros [|]; [apply tame_did|].
  apply tame_then; [by apply tame_observing, (issues_call (R:=sc_answer))|]. intros now.
  destruct (SFleb deadline now); [apply tame_fails|].
  apply tame_then; [by apply tame_observing, (issues_call (R:=sc_answer))|]. done.
Qed.

#[local] Hint Resolve control_holding_observes fault_activated_observes control_observation_observes
  observe_activation_observes : runner.

#[local] Ltac looks := repeat first
  [ solve [auto 2 with runner nocore] | progress cbv zeta | apply issues_lift | by apply (issues_call (R:=sc_answer))
  | apply issues_bind; [|intros ?] | case_match | exact I ].
#[local] Ltac tamely := repeat (cbv zeta; lazymatch goal with
  | |- tame _ (did _) => apply tame_did
  | |- tame _ (fails _) => apply tame_fails
  | |- tame _ (pure _) => apply tame_pure
  | |- tame _ (puts _) => apply tame_puts
  | |- tame _ (sets _) => by apply tame_sets
  | |- tame _ (save _ _) => apply tame_save
  | |- tame _ (replace_spec _ _ _) => apply tame_replace
  | |- tame _ (wait _ _ _ _ _) => apply tame_wait; [looks|intros ?; looks]
  | |- tame _ (then_do session _) => apply tame_session; intros ? ?
  | |- tame _ (then_do _ _) => apply tame_then; [|intros ?]
  | |- tame _ (or_else_do _ _) => apply tame_or_else; [|intros ?]
  | |- tame _ (doing _) =>
      first [by apply tame_observing, (issues_call (R:=sc_answer)) | apply tame_owned; [cbn; congruence|done]]
  | |- tame _ (match _ with _ => _ end) => case_match
  end).

Lemma baseline_tame id timeout fuel c : tame id (baseline timeout fuel c).
Proof. unfold baseline. tamely. Qed.

Lemma inject_tame id timeout fuel c expected fault : tame id (inject timeout fuel c expected fault).
Proof. unfold inject, package_activation. tamely. Qed.

Lemma memory_control_tame id timeout fuel original control injected :
  tame id (memory_control timeout fuel original control injected).
Proof. unfold memory_control. tamely. Qed.

Lemma attempt_tame id timeout fuel c callback : tame id (attempt_case timeout fuel c callback).
Proof.
  unfold attempt_case, investigate. apply tame_then; [apply baseline_tame|]. intros doc.
  do 4 (apply tame_then; [tamely|]; intros ?).
  apply tame_then; [destruct (eqb_of _ _); [|tamely]|].
  - do 2 (apply tame_then; [tamely|]; intros ?). apply memory_control_tame.
  - intros expected. apply tame_then; [apply inject_tame|]. intros _. tamely.
Qed.

Lemma restore_tame id timeout fuel c original injected intermediate :
  tame id (restore_spec timeout fuel c original injected intermediate).
Proof. unfold restore_spec. tamely. Qed.

(** The end of a run, which gives the latch back or leaves it *)
Definition ends {A} (id : string) (m : act A) : Prop :=
  forall s, run_id (receipt s) = id -> holds (held id) (m s) (fun _ _ => True).

Lemma ends_then {A B} id (m : act A) (f : A -> act B) :
  tame id m -> (forall a, ends id (f a)) -> ends id (then_do m f).
Proof.
  intros Hm Hf s Hs. apply holding_bind. eapply holding_mono; [by apply Hm|].
  intros o [e|[[e|a] s']]; cbn; [done|done|]. intros [-> Hs']. by apply Hf.
Qed.

Lemma ends_session {A} id (f : Session -> act A) :
  (forall s, run_id (receipt s) = id -> ends id (f s)) -> ends id (then_do session f).
Proof. intros Hf s Hs. by apply Hf. Qed.

Lemma finish_ends id timeout fuel c : ends id (finish_run timeout fuel c).
Proof.
  unfold finish_run. apply ends_session. intros s Hs. apply ends_then.
  { destruct (original s), (injected s); [|apply tame_did..].
    do 2 (apply tame_then; [tamely|intros ?]). apply tame_or_else; [apply restore_tame|]. intros e. tamely. }
  intros _. do 2 (apply ends_then; [tamely|intros ?]). apply ends_session. intros s' Hs'.
  apply ends_then; [tamely|]. intros _ s'' _. destruct (_ || _); [|done].
  apply holding_bind, holding_attempt. split; [by cbn; intros x [= <-]; rewrite <-Hs'|]. split; [done|]. by intros [e|[]].
Qed.

Lemma start_holds c :
  holds None (start c) (fun o out => match out with inr r => o = held (run_id r) | inl _ => True end).
Proof.
  unfold start. apply holding_call; [done|done|done|]. intros latched. destruct latched; [done|].
  do 3 (apply holding_call; [done|done|done|]; intros ?). cbv zeta.
  apply holding_call; [done|by intros|done|]. intros created. destruct created; [|done].
  apply holding_call; [done|done|done|]. by intros [].
Qed.

(** Runs of any case, with any limits *)
Inductive scenario_program : scprog ScenarioReceipt -> Prop :=
  | a_run timeout fuel c callback : scenario_program (scenario_run timeout fuel c callback).

Lemma scenario_disciplined m : scenario_program m -> disciplined creates_latch removes_latch exclusive None m.
Proof.
  intros [timeout fuel c callback]. apply (holding_disciplined _ _ _ _ _ (fun _ _ => True)).
  unfold scenario_run. case_bool_decide; [done|]. apply holding_bind.
  eapply holding_mono; [apply start_holds|]. intros o [e|r]; [done|]. intros ->. apply holding_bind.
  eapply (holding_mono _ _ _ _ _ (fun _ _ => True)); [|by intros o [e|[[e|a] s]]].
  apply holding_bind. eapply holding_mono.
  { assert (tame (run_id r) (or_else_do (attempt_case timeout fuel c callback)
      (fun e => do^ puts (SetFailure (exception_text e)) in if is_exit e then fails e else did tt))) as Hm; [|by apply Hm].
    apply tame_or_else; [apply attempt_tame|]. intros e. tamely. }
  intros o [e|[out s]]; [done|]. intros [-> Hs]. apply holding_bind. eapply holding_mono; [by apply finish_ends|].
  by intros o [e|[d s']].
Qed.

(** C30: In any interleaving of runs, of processes too, some of them lost at any point: a spec is
    replaced, a file saved and the latch rewritten or removed only by the run that created the
    latch last, which nobody has removed since; a latch is created only while no run owns it; and
    while a run owns it, the file is there. *)
Theorem one_scenario_at_a_time x :
  reachable latch_done scenario_program false x ->
  (forall h1 call answer h2 id,
     history x = h1 ++ existT call answer :: h2 ->
     (exclusive call = Some (tt, id) -> owner h1 = Some id) /\
     (creates_latch call answer = Some (tt, id) -> owner h1 = None)) /\
  (forall id, owner (history x) = Some id -> shared x = true).
Proof.
  revert x. apply (lock_reachable latch_done scenario_program creates_latch removes_latch exclusive
    (fun s _ => s = true) scenario_disciplined false (fun s h =>
    (forall h1 call answer h2 id, h = h1 ++ existT call answer :: h2 ->
       (exclusive call = Some (tt, id) -> owner h1 = Some id) /\
       (creates_latch call answer = Some (tt, id) -> owner h1 = None)) /\
    (forall id, owner h = Some id -> s = true))).
  - split; [by intros []|done].
  - intros s h call r s' [Hpast Howner] Ha Hneed Hacq. split.
    + intros h1 call' r' h2 id Heq. destruct h2 as [|o h2 _] using rev_ind.
      * apply app_inj_tail in Heq as [<- Heq]. revert call' r' Heq.
        assert (forall o : obs sc_answer, existT call r = o ->
          (exclusive (projT1 o) = Some (tt, id) -> owner h = Some id) /\
          (creates_latch (projT1 o) (projT2 o) = Some (tt, id) -> owner h = None)) as Hlast; [|intros c' r'; exact (Hlast (existT c' r'))].
        intros o <-. cbn. split; [by intros [_ ?]%Hneed|]. intros Hc. specialize (Hacq _ _ Hc).
        destruct (owner h) as [id'|] eqn:Hh; [|done]. by destruct Hacq; eapply Howner.
      * rewrite app_comm_cons, app_assoc in Heq. apply app_inj_tail in Heq as [-> _]. by eapply Hpast.
    + intros id. rewrite (holder_snoc creates_latch removes_latch h). unfold lock_event. cbn.
      destruct (creates_latch call r) as [[[] l]|] eqn:Hc; [intros _|].
      { destruct latch_laws as [Hfree _ _ _]. by destruct (Hfree _ _ _ _ _ _ Ha Hc). }
      destruct (removes_latch call r) as [[]|] eqn:Hr; [by rewrite decide_True|]. intros Hid.
      destruct latch_laws as [_ Hkept _ _]. apply (Hkept _ _ _ _ tt Ha); [by eapply Howner|]. by rewrite Hr.
Qed.
End exclusion.

(** ** A concrete run

    The processor is scaled to zero, the payment fails, and the captured spec is put back. *)

#[local] Instance plain_text : PyText := {| fromisoformat _ := None; str_of _ := EmptyString |}.
#[local] Instance accepting : ModelText := fun _ =>
  Some (JObj [("sample_id", JStr "synthetic-1"); ("role", JStr "payments"); ("status", JStr "accepted")]).
#[local] Instance no_urls : UrlText := {| urlsplit _ := inl (ValueError "url"); is_loopback _ := None |}.
#[local] Instance no_numerals : IntText := fun _ => inl (ValueError "int").
#[local] Instance plain_errors : RunnerText := {|
  exception_text _ := "error"; is_exit _ := false; indented _ := EmptyString |}.

Definition spec_with (replicas : Z) : list (string * json) :=
  [("replicas", JInt replicas);
   ("template", JObj [("spec", JObj [("containers",
      JList [JObj [("name", JStr "sandbox"); ("image", JStr "payops-sandbox:local")]])])])].
Definition deployment_with (spec : list (string * json)) : list (string * json) :=
  [("metadata", JObj [("name", JStr "processor-adapter"); ("namespace", JStr "payops-sandbox");
                      ("labels", JObj [("app.kubernetes.io/part-of", JStr "payops")]);
                      ("uid", JStr "u-1"); ("generation", JInt 1)]);
   ("spec", JObj spec);
   ("status", JObj [("observedGeneration", JInt 1); ("replicas", dget spec "replicas");
                    ("updatedReplicas", dget spec "replicas"); ("readyReplicas", dget spec "replicas");
                    ("availableReplicas", dget spec "replicas")])].

(** The state is the spec of the cluster. *)
Definition cluster (x : sc_call) (spec : list (string * json)) : result (sc_answer x) * list (string * json) :=
  match x with
  | SReplace _ _ _ new => (inr tt, new)
  | SDeployment _ => (inr (deployment_with spec), spec)
  | SObserve _ => (inr [("deployment", JObj (deployment_with spec)); ("pods", JList [])], spec)
  | SHealthy => (inr [("sample_status", JInt (if py_eq (dget spec "replicas") (JInt 0) then 503 else 200));
                      ("sample_body", JStr "{}")], spec)
  | SMemory | SScope | SPackageA _ => (inr [], spec)
  | SCreateLatch _ => (inr true, spec)
  | SLatched | SMode => (inr false, spec)
  | SUuid => (inr "run-1", spec)
  | STimestamp => (inr "2025-01-01T00:00:00Z", spec)
  | SNow => (inr 0, spec)
  | SMonotonic => (inr float_zero, spec)
  | SRewriteLatch _ | SUnlatch _ | SMkdir _ | SSave _ _ _ | SWriteReceipt _ | SSleep | SCallback => (inr tt, spec)
  end.

Definition outage : result ScenarioReceipt * list (string * json) * list (obs sc_answer) :=
  play cluster (scenario_run (float_of_Z 180) 3 DEP_01 false) (spec_with 1) [].

Lemma latch_released_clean_witness :
  runs (scenario_run (float_of_Z 180) 3 DEP_01 false) outage.2 outage.1.1 /\
  outage.2 = take 44 outage.2 ++ [existT (SUnlatch "run-1") (inr tt)] /\
  length (writes (take 44 outage.2)) = 2%nat /\
  (writes (take 44 outage.2) = [] \/
   exists doc spec, captured DEP_01 (take 44 outage.2) doc spec /\ restored DEP_01 (take 44 outage.2) spec).
Proof.
  split_and!; [apply play_runs_nil|vm_compute; reflexivity|vm_compute; reflexivity|].
  apply (latch_released_clean DEP_01 (float_of_Z 180) 3 false outage.2 outage.1.1 (take 44 outage.2)
    (SUnlatch "run-1") (inr tt) []); [apply play_runs_nil|vm_compute; reflexivity].
Defined.

(** Two runs, one after the other, on a cluster that ignores what is written *)
Definition latch_handle (x : sc_call) (latched : bool) : result (sc_answer x) * bool :=
  match x with
  | SLatched => (inr latched, latched)
  | SCreateLatch _ => (inr (negb latched), true)
  | SRewriteLatch _ => (inr tt, true)
  | SUnlatch _ => (inr tt, false)
  | x => ((cluster x (spec_with 1)).1, latched)
  end.

Lemma latch_handled x latched : latch_done latched x (latch_handle x latched).1 (latch_handle x latched).2.
Proof.
  destruct x; cbn; try by apply done_plain.
  - apply done_latched.
  - destruct latched; [apply done_create_exists|apply done_create].
  - pose proof (done_rewrite latched r (inr tt) true) as Hd. by rewrite orb_true_r in Hd.
  - apply done_unlatch.
Qed.

Definition two_runs : list (scprog ScenarioReceipt) :=
  [scenario_run (float_of_Z 180) 2 DEP_01 false; scenario_run (float_of_Z 180) 2 ROLLOUT_01 false].
Definition both : list (result ScenarioReceipt) * bool * list (obs sc_answer) := play_all latch_handle two_runs false [].
Definition after_both : system sc_answer bool ScenarioReceipt :=
  {| threads := []; shared := both.1.2; history := both.2 |}.

Lemma after_both_reachable : reachable latch_done scenario_program false after_both.
Proof.
  apply (play_all_reachable latch_done scenario_program latch_handle latch_handled).
  constructor; [apply a_run|]. constructor; [apply a_run|constructor].
Qed.

Lemma one_scenario_at_a_time_witness :
  reachable latch_done scenario_program false after_both /\
  (exists spec answer h2, history after_both = take 23 (history after_both) ++
     existT (SReplace "run-1" "processor-adapter" (deployment_with (spec_with 1)) spec) answer :: h2) /\
  holder creates_latch removes_latch (take 23 (history after_both)) tt = Some "run-1".
Proof.
  assert (exists spec answer h2, history after_both = take 23 (history after_both) ++
     existT (SReplace "run-1" "processor-adapter" (deployment_with (spec_with 1)) spec) answer :: h2) as Hat.
  { eexists _, _, _. vm_compute. reflexivity. }
  split_and!; [apply after_both_reachable|exact Hat|]. destruct Hat as (spec & answer & h2 & Heq).
  destruct (one_scenario_at_a_time after_both after_both_reachable) as [Hpast _].
  by apply (Hpast _ _ _ _ "run-1" Heq).
Defined.
