(* ===== verification/Numbers.v ===== *)
(** * Python's floats, and what pydantic reads of a decoded value

    [float(text)], true division of integers, [datetime.timestamp], [datetime.fromtimestamp]
    and the whitespace pydantic strips, on exact integers: every rounding is the one IEEE 754
    prescribes. *)

From S2P Require Import Prelude Text Json Contracts.

Open Scope string_scope.
Open Scope list_scope.
Open Scope Z_scope.
Open Scope result_scope.

(** ** Division and text *)

(** [n / d] of integers, [0 < d], correctly rounded *)
Definition float_ratio (n d : Z) : spec_float :=
  match n, d with
  | Z0, _ => float_zero
  | Zpos p, Zpos q => SFdiv 53 1024 (S754_finite false p 0) (S754_finite false q 0)
  | Zneg p, Zpos q => SFdiv 53 1024 (S754_finite true p 0) (S754_finite false q 0)
  | _, _ => S754_nan
  end.

(** The digits at the front of a text, and the rest *)
Fixpoint digits_front (s : string) : string * string :=
  match s with
  | String c s' => if is_digit c then let '(a, b) := digits_front s' in (String c a, b) else (EmptyString, s)
  | EmptyString => (EmptyString, EmptyString)
  end.

(** A sign at the front of a text *)
Definition sign_front (s : string) : bool * string :=
  match s with
  | String c s' => if eqb_of c (Ascii.ascii_of_nat 45) then (true, s') else if eqb_of c (Ascii.ascii_of_nat 43) then (false, s') else (false, s)
  | EmptyString => (false, s)
  end.

Fixpoint rstrip (s : string) : string :=
  match s with
  | EmptyString => EmptyString
  | String c s' =>
      let s' := rstrip s' in
      if eqb_of s' EmptyString && is_space c then EmptyString else String c s'
  end.
Definition strip (s : string) : string := rstrip (lstrip s).

(** Every underscore is between two digits; [prev] says whether a digit is before. *)
Fixpoint underscores_ok (prev : bool) (s : string) : bool :=
  match s with
  | EmptyString => true
  | String c s' =>
      if eqb_of c (Ascii.ascii_of_nat 95)
      then prev && match s' with String d _ => is_digit d | EmptyString => false end && underscores_ok false s'
      else underscores_ok (is_digit c) s'
  end.
Fixpoint without_underscores (s : string) : string :=
  match s with
  | EmptyString => EmptyString
  | String c s' => if eqb_of c (Ascii.ascii_of_nat 95) then without_underscores s' else String c (without_underscores s')
  end.

(** The exponent of a numeral, which is the rest of its text *)
Definition exponent_of (s : string) : option Z :=
  match s with
  | EmptyString => Some 0
  | String c s' =>
      if eqb_of (lower_char c) (Ascii.ascii_of_nat 101) then
        let '(negative, digits) := sign_front s' in
        if is_digits digits then Some (if negative : bool then - digits_value digits else digits_value digits)
        else None
      else None
  end.

(** An unsigned numeral *)
Definition numeral (s : string) : option spec_float :=
  let '(whole, rest) := digits_front s in
  let '(fraction, rest) :=
    match rest with
    | String c rest' => if eqb_of c (Ascii.ascii_of_nat 46) then digits_front rest' else (EmptyString, rest)
    | EmptyString => (EmptyString, rest)
    end in
  if eqb_of (whole +:+ fraction) EmptyString then None
  else
    e ← exponent_of rest;
    let scale := e - str_len fraction in
    let digits := digits_value (whole +:+ fraction) in
    Some (if 0 <=? scale then float_ratio (digits * 10 ^ scale) 1 else float_ratio digits (10 ^ (- scale))).

(** [float(text)]; [None] is a [ValueError]. *)
Definition float_of_string (text : string) : option spec_float :=
  let s := strip text in
  if negb (underscores_ok false s) then None
  else
    let '(negative, body) := sign_front (without_underscores s) in
    f ← (if bool_decide (lower body ∈ ["inf"; "infinity"]) then Some (S754_infinity false)
         else if eqb_of (lower body) "nan" then Some S754_nan
         else numeral body);
    Some (if negative : bool then SFopp f else f).

(** ** Instants *)

(** [instant.timestamp()] *)
Definition float_timestamp (t : datetime) : spec_float := float_ratio t 1000000.

(** [math.trunc] of a finite float *)
Definition float_trunc (f : spec_float) : Z :=
  match f with
  | S754_finite s m e =>
      let v := if 0 <=? e then Zpos m * 2 ^ e else Zpos m / 2 ^ (- e) in if s then - v else v
  | _ => 0
  end.

(** The nearest integer of a finite float, ties to even *)
Definition float_round (f : spec_float) : Z :=
  match f with
  | S754_finite s m e =>
      let v := if 0 <=? e then Zpos m * 2 ^ e
               else
                 let q := Zpos m / 2 ^ (- e) in
                 let r := 2 * (Zpos m mod 2 ^ (- e)) in
                 if (r <? 2 ^ (- e)) || ((r =? 2 ^ (- e)) && Z.even q) then q else q + 1 in
      if s then - v else v
  | _ => 0
  end.

(** [datetime.fromtimestamp(f, UTC)] of a finite [0 <= f]: beyond [time_t], beyond what the
    C library's calendar knows, and beyond the year 9999 *)
Definition fromtimestamp (f : spec_float) : result datetime :=
  let whole := float_trunc f in
  let fraction := float_sub f (float_of_Z whole) in
  let t := seconds whole + float_round (float_mul fraction (float_of_Z 1000000)) in
  if 2 ^ 63 <=? whole then Err (OtherError "OverflowError")
  else if 67767976233532799 <? whole then Err (OSError "EOVERFLOW")
  else if seconds 253402300800 <=? t then Err (ValueError "year is out of range")
  else Ok t.

(** ** Reading models *)

(** How a value is validated: from JSON text, strictly or not, or from Python objects *)
Inductive read_mode : Type := strict_json | lax_json | lax_python.

(** [AwareDatetime] of a decoded value *)
Class Instants : Type := aware_instant : read_mode -> json -> option datetime.

(** The characters pydantic's [strip_whitespace] strips *)
Definition trim_space (c : Ascii.ascii) : bool := ascii_between 9 13 c || ascii_between 32 32 c.
Fixpoint ltrim (s : string) : string :=
  match s with
  | String c s' => if trim_space c then ltrim s' else s
  | EmptyString => EmptyString
  end.
Fixpoint rtrim (s : string) : string :=
  match s with
  | EmptyString => EmptyString
  | String c s' =>
      let s' := rtrim s' in
      if eqb_of s' EmptyString && trim_space c then EmptyString else String c s'
  end.
Definition trim (s : string) : string := rtrim (ltrim s).

(** A [Source] by its name *)
Definition source_of_name (s : string) : option Source :=
  List.find (fun x => eqb_of (source_name x) s)
    [KUBERNETES; PROMETHEUS; LOG; TRACE; DEPLOYMENT; PAYMENT; RUNBOOK; MEMORY].

(** [EvidenceItem(...)] of fields that are texts: summaries are stripped first. *)
Definition EvidenceItem_make (e : EvidenceItem) : option EvidenceItem :=
  let e := {| evidence_id := evidence_id e; ev_incident_id := ev_incident_id e; source := source e;
              observed_at := observed_at e; collected_at := collected_at e; query := trim (query e);
              resource := resource e; artifact_uri := trim (artifact_uri e);
              artifact_sha256 := artifact_sha256 e; summary := trim (summary e) |} in
  if EvidenceItem_valid e then Some e else None.

Definition evidence_keys : list string :=
  ["evidence_id"; "incident_id"; "source"; "observed_at"; "collected_at"; "query"; "resource";
   "artifact_uri"; "artifact_sha256"; "summary"; "untrusted_text"].

Section reading.
Context `{Instants}.

Definition field_instant (mode : read_mode) (d : list (string * json)) (k : string) : option datetime :=
  dict_find d k ≫= aware_instant mode.

(** [EvidenceItem.model_validate] of a decoded value *)
Definition parse_evidence (mode : read_mode) (j : json) : option EvidenceItem :=
  d ← as_object j;
  id ← field_str d "evidence_id";
  incident ← field_str d "incident_id";
  src ← field_str d "source" ≫= source_of_name;
  observed ← field_instant mode d "observed_at";
  collected ← field_instant mode d "collected_at";
  q ← field_str d "query";
  res ← field_str d "resource";
  uri ← field_str d "artifact_uri";
  digest ← field_str d "artifact_sha256";
  text ← field_str d "summary";
  if closed d evidence_keys && is_true (dget_or d "untrusted_text" (JBool true)) then
    EvidenceItem_make {| evidence_id := id; ev_incident_id := incident; source := src; observed_at := observed;
      collected_at := collected; query := q; resource := res; artifact_uri := uri; artifact_sha256 := digest;
      summary := text |}
  else None.
End reading.

(** Finite numbers only, as [json.dumps(..., allow_nan=False)] demands *)
Fixpoint json_finite (j : json) : bool :=
  match j with
  | JFloat f => is_finite f
  | JList l => (fix go (l : list json) := match l with [] => true | x :: l => json_finite x && go l end) l
  | JObj o => (fix go (o : list (string * json)) := match o with [] => true | (_, x) :: o => json_finite x && go o end) o
  | _ => true
  end.

(** ** Tests *)

Example float_tenth : float_of_string " 0.1 " = Some (float_lit 1 10).
Proof. vm_compute. reflexivity. Qed.

Example float_exponent : float_of_string "-1_0.5e-1" = Some (SFopp (float_lit 105 100)).
Proof. vm_compute. reflexivity. Qed.

Example float_rejected : map float_of_string ["."; "1__0"; "e5"; "1e"; "0x1"] = [None; None; None; None; None].
Proof. vm_compute. reflexivity. Qed.

Example instant_round_trip : fromtimestamp (float_timestamp 1767225600123457) = inr 1767225600123457.
Proof. vm_compute. reflexivity. Qed.
