(* ===== verification/Normalize.v ===== *)
(** * From observations to evidence: [payops/evidence/redact.py] and [normalize.py]

    Common secrets are replaced before anything is persisted, an observation becomes an item
    whose digest names the sanitized bytes, and a bounded bundle is selected. *)

From S2P Require Import Prelude Text Json Digest Contracts Effects Numbers Artifacts.

Open Scope string_scope.
Open Scope list_scope.
Open Scope Z_scope.
Open Scope result_scope.
Open Scope prog_scope.

(** ** Redaction *)

Definition REDACTED : string := "[REDACTED]".

(** The words [api] and [key], with at most one character between, at the front of a
    lower-case text *)
Definition api_key_front (s : string) : bool :=
  match after_prefix "api" s with
  | Some rest =>
      starts_with "key" rest ||
      match rest with
      | String c rest => negb (eqb_of c lf) && starts_with "key" rest
      | EmptyString => false
      end
  | None => false
  end.
Fixpoint has_api_key (s : string) : bool :=
  api_key_front s || match s with String _ s => has_api_key s | EmptyString => false end.

Definition sensitive_words : list string :=
  ["password"; "secret"; "token"; "authorization"; "cookie"; "credential"].

(** [SENSITIVE_KEY.search(key) is not None] *)
Definition sensitive_key (key : string) : bool :=
  existsb (fun w => str_contains w (lower key)) sensitive_words || has_api_key (lower key).

(** The rest of a text after a prefix in any case *)
Fixpoint after_prefix_ci (p s : string) : option (string * string) :=
  match p, s with
  | EmptyString, _ => Some (EmptyString, s)
  | String a p', String b s' =>
      if eqb_of a (lower_char b) then '(seen, rest) ← after_prefix_ci p' s'; Some (String b seen, rest) else None
  | String _ _, EmptyString => None
  end.

(** The longest prefix of characters in a class, and the rest *)
Fixpoint span (p : Ascii.ascii -> bool) (s : string) : string * string :=
  match s with
  | String c s' => if p c then let '(a, b) := span p s' in (String c a, b) else (EmptyString, s)
  | EmptyString => (EmptyString, EmptyString)
  end.

(** Whether the last character is a word character, for word boundaries *)
Fixpoint ends_word (before : bool) (s : string) : bool :=
  match s with EmptyString => before | String c s => ends_word (is_word c) s end.

(** A match at the front of a text: the replacement, what was matched, and the rest *)
Definition matcher : Type := string -> option (string * string * string).

(** [BEARER]: the word, white space, and what follows up to white space *)
Definition bearer : matcher := fun s =>
  '(keyword, rest) ← after_prefix_ci "bearer" s;
  let '(spaces, rest) := span is_space rest in
  let '(secret, rest) := span (fun c => negb (is_space c)) rest in
  if eqb_of spaces EmptyString || eqb_of secret EmptyString then None
  else Some ("Bearer " +:+ REDACTED, keyword +:+ spaces +:+ secret, rest).

(** The keyword [api key], with at most one dash or underscore *)
Definition api_keyword (s : string) : option (string * string) :=
  '(api, rest) ← after_prefix_ci "api" s;
  let '(dash, rest) :=
    match rest with
    | String c rest' => if eqb_of c (Ascii.ascii_of_nat 95) || eqb_of c (Ascii.ascii_of_nat 45)
                        then (String c EmptyString, rest') else (EmptyString, rest)
    | EmptyString => (EmptyString, rest)
    end in
  '(key, rest) ← after_prefix_ci "key" rest;
  Some (api +:+ dash +:+ key, rest).

Definition keyword (s : string) : option (string * string) :=
  match after_prefix_ci "password" s, after_prefix_ci "secret" s, after_prefix_ci "token" s with
  | Some m, _, _ | None, Some m, _ | None, None, Some m => Some m
  | None, None, None => api_keyword s
  end.

(** A quoted value, between two of the same quotes *)
Definition quoted (q : Ascii.ascii) (s : string) : option (string * string) :=
  match s with
  | String c s' => if eqb_of c q then '(inside, rest) ← partition q s';
                                      Some (String q (str_snoc inside q), rest)
                   else None
  | EmptyString => None
  end.

(** The value of [ASSIGNMENT]: quoted, or up to white space, a comma or a semicolon *)
Definition secret_value (s : string) : option (string * string) :=
  match quoted (Ascii.ascii_of_nat 34) s, quoted (Ascii.ascii_of_nat 39) s with
  | Some m, _ | None, Some m => Some m
  | None, None =>
      let '(value, rest) := span (fun c => negb (is_space c || eqb_of c (Ascii.ascii_of_nat 44) ||
                                                 eqb_of c (Ascii.ascii_of_nat 59))) s in
      if eqb_of value EmptyString then None else Some (value, rest)
  end.

(** [ASSIGNMENT] *)
Definition credential : matcher := fun s =>
  '(name, rest) ← keyword s;
  let '(gap, rest) := span is_space rest in
  match rest with
  | String c rest =>
      if eqb_of c (Ascii.ascii_of_nat 61) || eqb_of c (Ascii.ascii_of_nat 58) then
        let '(gap', rest) := span is_space rest in
        '(value, rest) ← secret_value rest;
        Some (name +:+ "=" +:+ REDACTED, name +:+ gap +:+ String c gap' +:+ value, rest)
      else None
  | EmptyString => None
  end.

(** [re.sub] of a pattern that starts at a word boundary with a word character: [word] says whether the
    previous character is one; every round consumes a character. *)
Fixpoint sub_loop (m : matcher) (rounds : nat) (word : bool) (s : string) : string :=
  match rounds, s with
  | O, _ | _, EmptyString => s
  | S rounds, String c s' =>
      match (if word then None else m s) with
      | Some (replacement, matched, rest) => replacement +:+ sub_loop m rounds (ends_word word matched) rest
      | None => String c (sub_loop m rounds (is_word c) s')
      end
  end.
Definition sub (m : matcher) (s : string) : string := sub_loop m (String.length s) false s.

(** [redact_text] *)
Definition redact_text (text : string) : string := sub credential (sub bearer text).

(** [redact] *)
Fixpoint redact (depth : Z) (value : json) {struct value} : result json :=
  if 16 <? depth then Err (ValueError "telemetry nesting exceeds budget")
  else match value with
       | JObj o =>
           let sensitive := match dget o "name" with JStr name => sensitive_key name | _ => false end in
           let! o :=
             (fix go (o : list (string * json)) : result (list (string * json)) :=
                match o with
                | [] => Ok []
                | (key, item) :: o =>
                    let! item := (if sensitive_key key ||
                                     (sensitive && bool_decide (key ∈ ["value"; "valueFrom"]))
                                  then Ok (JStr REDACTED) else redact (depth + 1) item) in
                    let! o := go o in Ok ((key, item) :: o)
                end) o in
           Ok (JObj o)
       | JList l =>
           let! l :=
             (fix go (l : list json) : result (list json) :=
                match l with
                | [] => Ok []
                | item :: l => let! item := redact (depth + 1) item in let! l := go l in Ok (item :: l)
                end) l in
           Ok (JList l)
       | JStr text => Ok (JStr (redact_text text))
       | _ => Ok value
       end.

(** ** Normalization *)

Record Observation : Type := {
  obs_source : Source;
  obs_resource : string;
  obs_observed_at : datetime;
  obs_query : string;
  obs_summary : string;
  obs_payload : list (string * json);
}.

(** [Observation(...)]: summaries are stripped first. *)
Definition Observation_make (o : Observation) : result Observation :=
  let o := {| obs_source := obs_source o; obs_resource := obs_resource o; obs_observed_at := obs_observed_at o;
              obs_query := trim (obs_query o); obs_summary := trim (obs_summary o);
              obs_payload := obs_payload o |} in
  if identifier_ok (obs_resource o) && summary_ok (obs_query o) && summary_ok (obs_summary o)
  then Ok o else Err (ValueError "Observation").

Definition evidence_of (m : option EvidenceItem) : result EvidenceItem :=
  match m with Some e => Ok e | None => Err (ValueError "EvidenceItem") end.

(** The text [ArtifactStore.write] hashes *)
Class ObjectText `{Blob} : Type := object_blob : list (string * json) -> blob.

Section normalize.
Context `{Blob, PydanticText, !ObjectText}.

Inductive ev_call : Type :=
  | VNewId
  | VNow
  | VArt (c : art_call).

Definition ev_answer (c : ev_call) : Type :=
  match c with VNewId => string | VNow => datetime | VArt c => art_answer c end.

Abbreviation vprog := (prog ev_answer).
Abbreviation vask := (call (R:=ev_answer)) (only parsing).

Definition from_store {A} (m : prog art_answer A) : vprog A := embed (Q:=ev_answer) VArt (fun _ r => r) m.

(** [ArtifactStore.write] of a decoded value *)
Definition write_object (payload : list (string * json)) : prog art_answer (string * string) :=
  if json_finite (JObj payload) then store_write (object_blob payload)
  else Raise (ValueError "Out of range float values are not JSON compliant").

(** The metadata of [normalize], with what names its artifact *)
Definition metadata (o : Observation) (incident id : string) (now : datetime) (uri digest : string) : EvidenceItem :=
  {| evidence_id := id; ev_incident_id := incident; source := obs_source o; observed_at := obs_observed_at o;
     collected_at := now; query := redact_text (obs_query o); resource := obs_resource o;
     artifact_uri := uri; artifact_sha256 := digest; summary := redact_text (obs_summary o) |}.

Definition zeros : string := foldr String EmptyString (replicate 64 (Ascii.ascii_of_nat 48)).

Definition envelope (provisional : EvidenceItem) (payload : json) : list (string * json) :=
  [("evidence", JObj (without ["artifact_uri"; "artifact_sha256"] (dump_evidence provisional)));
   ("payload", payload); ("transformation", JStr "common-secret-redaction-v1")].

(** [normalize] *)
Definition normalize (o : Observation) (incident : string) (start stop : datetime) : vprog EvidenceItem :=
  if negb ((start <=? obs_observed_at o) && (obs_observed_at o <=? stop)) then
    Raise (ValueError "observation outside aware incident window")
  else
    let* id := vask VNewId in
    let* now := vask VNow in
    let* provisional := lift (evidence_of (EvidenceItem_make (metadata o incident id now "pending://artifact" zeros))) in
    let* payload := lift (redact 0 (JObj (obs_payload o))) in
    let* (uri, digest) := from_store (write_object (envelope provisional payload)) in
    lift (evidence_of (EvidenceItem_make (metadata o incident id now uri digest))).

(** ** Selection *)

(** The loop of [select_context] *)
Fixpoint select_loop (max_characters max_items used : Z) (chosen : list EvidenceItem) (l : list EvidenceItem)
  : prog art_answer (list EvidenceItem) :=
  match l with
  | [] => Ret chosen
  | e :: l =>
      do* store_verify e in
      let size := str_len (compact_text (JObj (dump_evidence e))) in
      if (len chosen <? max_items) && (used + size <=? max_characters)
      then select_loop max_characters max_items (used + size) (chosen ++ [e]) l
      else select_loop max_characters max_items used chosen l
  end.

(** [select_context] *)
Definition select_context (l : list EvidenceItem) (max_characters max_items : Z)
  : prog art_answer (list EvidenceItem) :=
  if (max_characters <? 0) || negb (between 0 64 max_items) then Raise (ValueError "invalid context budget")
  else if 1 <? len (remove_dups (map ev_incident_id l)) then
    Raise (EvidenceIntegrityError "mixed incident context")
  else if negb (distinct (map evidence_id l)) then
    Raise (EvidenceIntegrityError "duplicate context evidence")
  else select_loop max_characters max_items 0 [] l.
End normalize.
Arguments ev_call {_}.
Arguments ev_answer {_} c.

(** ** Tests *)

Example redacted_texts :
  map redact_text
    ["Authorization: bearer   abc.def next"; "token = 'a b' and API-KEY:zz, xtoken=1"; "secret=,"] =
  ["Authorization: Bearer [REDACTED] next"; "token=[REDACTED] and API-KEY=[REDACTED], xtoken=1"; "secret=,"].
Proof. vm_compute. reflexivity. Qed.

(** ** What a verified item says about the store *)

(** A part of a trace is within it. *)
Ltac within_app := intros ? ?; rewrite !elem_of_app; tauto.

(** The run went on past a guard. *)
Ltac past_guard Hr E :=
  match type of Hr with
  | runs (if ?b then Raise _ else _) _ _ => destruct b eqn:E; [exfalso; exact (runs_raise_ok _ _ _ Hr)|]
  end.

Section store.
Context `{Blob, PydanticText}.

(** A file with this digest was read, and its text hashes to that digest. *)
Definition file_read (tr : list (obs art_answer)) (digest : string) (content : blob) : Prop :=
  (existT (ARead digest) (inr content) : obs art_answer) ∈ tr /\ artifact_digest content = digest.

(** [payload] is what the artifact of an item holds, and it names that item. *)
Definition stored (tr : list (obs art_answer)) (e : EvidenceItem) (payload : list (string * json)) : Prop :=
  artifact_uri e = "sha256://" +:+ artifact_sha256 e /\
  (exists content, file_read tr (artifact_sha256 e) content /\ read_object content = inr payload) /\
  py_eq (dget payload "evidence") (JObj (without ["artifact_uri"; "artifact_sha256"] (dump_evidence e))) = true.

Lemma stored_weaken tr tr' e payload : tr ⊆ tr' -> stored tr e payload -> stored tr' e payload.
Proof. intros Hs (Huri & (b & (Hin & Hd) & Hr) & Heq). split_and!; [done| |done]. exists b. by split; [split; [apply Hs|]|]. Qed.

Lemma path_for_ok digest tr u :
  runs (path_for digest) tr (inr u) -> digest_ok digest = true.
Proof. unfold path_for. destruct (digest_ok digest); cbn; [done|]. by intros [_ [=]]%runs_raise_inv. Qed.

Lemma store_open_ok digest tr content :
  runs (store_open digest) tr (inr content) -> (existT (ARead digest) (inr content) : obs art_answer) ∈ tr.
Proof.
  unfold store_open. intros Hr. run_ok. apply elem_of_app. right. by apply list_elem_of_singleton.
Qed.

(** A successful [verify] *)
Lemma store_verify_ok e tr payload : runs (store_verify e) tr (inr payload) -> stored tr e payload.
Proof.
  unfold store_verify. destruct (negb _) eqn:Huri; [by intros ?%runs_raise_ok|]. intros Hr.
  apply runs_bind_ok in Hr as (content & t1 & t2 & -> & Hc & Hr).
  apply runs_catch in Hc as [[Hc _]|(? & ? & ? & _ & _ & _ & ?%runs_raise_ok)]; [|done].
  apply store_open_ok in Hc. run_ok. pybool. destruct Heqb as [_ Hd].
  split_and!; [done| |done]. exists content. split; [|done]. split; [|done].
  apply elem_of_app. by left.
Qed.
End store.

(** ** What [normalize] returns *)

(** An item has the fields of its metadata. *)
Lemma EvidenceItem_make_ok e e' :
  EvidenceItem_make e = Some e' ->
  EvidenceItem_valid e' = true /\
  e' = {| evidence_id := evidence_id e; ev_incident_id := ev_incident_id e; source := source e;
          observed_at := observed_at e; collected_at := collected_at e; query := trim (query e);
          resource := resource e; artifact_uri := trim (artifact_uri e);
          artifact_sha256 := artifact_sha256 e; summary := trim (summary e) |}.
Proof. unfold EvidenceItem_make. destruct (EvidenceItem_valid _) eqn:Hv; [|done]. by intros [= <-]. Qed.

Lemma Observation_make_ok o o' :
  Observation_make o = inr o' ->
  obs_source o' = obs_source o /\ obs_resource o' = obs_resource o /\ obs_observed_at o' = obs_observed_at o /\
  obs_query o' = trim (obs_query o) /\ obs_payload o' = obs_payload o.
Proof. unfold Observation_make. destruct (_ && _); [|done]. by intros [= <-]. Qed.

Section normalized.
Context `{Blob, PydanticText, !ObjectText}.

Lemma normalize_ok o incident start stop tr e :
  runs (normalize o incident start stop) tr (inr e) ->
  exists id now payload uri digest,
    start <= obs_observed_at o <= stop /\ redact 0 (JObj (obs_payload o)) = inr payload /\
    is_Some (EvidenceItem_make (metadata o incident id now "pending://artifact" zeros)) /\
    EvidenceItem_make (metadata o incident id now uri digest) = Some e.
Proof.
  unfold normalize. destruct (negb _) eqn:Hw; [by intros ?%runs_raise_ok|]. intros Hr. pybool.
  apply runs_bind_ok in Hr as (id & t1 & t2 & -> & _ & Hr).
  apply runs_bind_ok in Hr as (now & t3 & t4 & -> & _ & Hr).
  apply runs_bind_ok in Hr as (prov & t5 & t6 & -> & Hp & Hr). apply runs_lift_ok in Hp as [-> Hp].
  apply runs_bind_ok in Hr as (payload & t7 & t8 & -> & Hpl & Hr). apply runs_lift_ok in Hpl as [-> Hpl].
  apply runs_bind_ok in Hr as ([uri digest] & t9 & t10 & -> & _ & Hr). apply runs_lift_ok in Hr as [-> Hr].
  exists id, now, payload, uri, digest. split_and!; [lia|lia|done| |].
  - destruct (EvidenceItem_make (metadata o incident id now "pending://artifact" zeros)); [by eexists|done].
  - destruct (EvidenceItem_make (metadata o incident id now uri digest)); cbn in Hr; congruence.
Qed.

(** The fields a caller relies on *)
Lemma normalize_fields o incident start stop tr e :
  runs (normalize o incident start stop) tr (inr e) ->
  ev_incident_id e = incident /\ source e = obs_source o /\ resource e = obs_resource o /\
  observed_at e = obs_observed_at o /\ start <= observed_at e <= stop.
Proof. intros (id & now & p & uri & d & Hw & _ & _ & [_ ->]%EvidenceItem_make_ok)%normalize_ok. done. Qed.
End normalized.
