(* ===== verification/Windows.v ===== *)
(** * Payment windows: [payops/evidence/payment_window.py]

    Two raw Prometheus snapshots of one process, and the differences of their counters.  Both
    snapshots are re-read from the store whenever a window is verified, and the arithmetic is
    done again. *)

From S2P Require Import Prelude Text Json Digest Contracts Effects Baseline Numbers Artifacts Normalize.
From S2P Require Import SandboxModels.

Open Scope string_scope.
Open Scope list_scope.
Open Scope Z_scope.
Open Scope result_scope.
Open Scope prog_scope.

(** ** Contracts *)

Definition services : list string :=
  ["payments-api"; "processor-adapter"; "risk-sim"; "ledger-sim"; "webhook-sim"].

Inductive Status : Type := complete | missing | reset | mixed_epoch.
#[export] Instance Status_eq_dec : EqDecision Status.
Proof. solve_decision. Defined.
Definition window_status_name (s : Status) : string :=
  match s with complete => "complete" | missing => "missing" | reset => "reset" | mixed_epoch => "mixed_epoch" end.

Definition Labels : Type := list (string * string).
Definition Key : Type := (string * Labels)%type.

Definition REQUESTS : string := "payment_requests_total".
Definition COUNT : string := "payment_authorization_latency_seconds_count".
Definition SUM : string := "payment_authorization_latency_seconds_sum".
Definition CONFLICTS : string := "payment_idempotency_conflicts_total".
Definition EPOCH : string := "sandbox_process_start_time_seconds".
Definition NAMES : list string := [REQUESTS; COUNT; SUM; CONFLICTS; EPOCH; "up"].
Definition DERIVED_QUERY : string := "payment.window.v1".

Record MeasurementInterval : Type := { mi_incident_id : string; mi_start : datetime; mi_end : datetime }.
#[export] Instance MeasurementInterval_eq_dec : EqDecision MeasurementInterval.
Proof. solve_decision. Defined.

(** [MeasurementInterval.bounded], and its fields *)
Definition MeasurementInterval_valid (i : MeasurementInterval) : bool :=
  identifier_ok (mi_incident_id i) && (0 <? mi_end i - mi_start i) && (mi_end i - mi_start i <=? seconds 180).

Record Delta : Type := { metric : string; delta_labels : Labels; delta_value : spec_float }.

Definition Delta_valid (d : Delta) : bool := is_finite (delta_value d) && SFleb float_zero (delta_value d).

Record PaymentWindow : Type := {
  window_service : string;
  interval : MeasurementInterval;
  inputs : EvidenceItem * EvidenceItem;
  window_status : Status;
  window_start : option datetime;
  window_end : option datetime;
  before_epoch : option spec_float;
  after_epoch : option spec_float;
  request_counts : list Delta;
  latency : list Delta;
  conflicts : list Delta;
}.

Record Parsed : Type := {
  evaluated_at : spec_float;
  watermark : option spec_float;
  epoch : option spec_float;
  available : bool;
  values : list (Key * spec_float);
}.

(** ** Queries and series *)

Definition quote : string := chr 34.

(** [snapshot_queries] *)
Definition snapshot_queries (service : string) : result (string * string) :=
  if negb (bool_decide (service ∈ services)) then Err (ValueError "Service")
  else
    let scope := "job=" +:+ quote +:+ "payops-sandbox" +:+ quote +:+ ",service=" +:+ quote +:+ service +:+ quote in
    let names := foldr (fun n s => if eqb_of s EmptyString then n else n +:+ "|" +:+ s) EmptyString NAMES in
    Ok ("{__name__=~" +:+ quote +:+ names +:+ quote +:+ "," +:+ scope +:+ "}",
        "timestamp(" +:+ EPOCH +:+ "{" +:+ scope +:+ "})").

(** [itertools.product] *)
Definition product {A B} (l : list A) (l' : list B) : list (A * B) := flat_map (fun x => map (pair x) l') l.

Definition processor_regions : list (string * string) := product ["A"; "B"] ["us"; "eu"].

(** [_required] *)
Definition required : list Key :=
  (CONFLICTS, []) ::
  map (fun '(p, r, m, s) =>
         (REQUESTS, [("payment_method", m); ("processor", p); ("region", r); ("status", s)]))
    (product (product processor_regions ["credit"; "debit"]) ["accepted"; "declined"; "error"]) ++
  map (fun '(p, r, n) => (n, [("processor", p); ("region", r)])) (product processor_regions [COUNT; SUM]).

(** The order of Python tuples of texts *)
Definition str_leb (a b : string) : bool := String.leb a b.
Fixpoint labels_leb (a b : Labels) : bool :=
  match a, b with
  | [], _ => true
  | _ :: _, [] => false
  | (k, v) :: a, (k', v') :: b =>
      if negb (eqb_of k k') then str_leb k k'
      else if negb (eqb_of v v') then str_leb v v' else labels_leb a b
  end.
Definition series_leb (a b : Key) : bool :=
  if negb (eqb_of a.1 b.1) then str_leb a.1 b.1 else labels_leb a.2 b.2.

(** [sorted] of items whose keys are distinct *)
Fixpoint insert_item {A B} (leb : A -> A -> bool) (x : A * B) (l : list (A * B)) : list (A * B) :=
  match l with
  | [] => [x]
  | y :: l' => if leb x.1 y.1 then x :: l else y :: insert_item leb x l'
  end.
Definition sort_items {A B} (leb : A -> A -> bool) (l : list (A * B)) : list (A * B) :=
  foldr (insert_item leb) [] l.

Definition find_key (d : list (Key * spec_float)) (k : Key) : option spec_float :=
  snd <$> List.find (fun kv => eqb_of kv.1 k) d.
(** [d.pop(k, None)], the rest *)
Definition without_key (d : list (Key * spec_float)) (k : Key) : list (Key * spec_float) :=
  List.filter (fun kv => negb (eqb_of kv.1 k)) d.

(** ** Parsing a snapshot *)

Definition invalid {A} (msg : string) : result A := Err (EvidenceIntegrityError msg).

(** [_object] *)
Definition source_object (j : json) : result (list (string * json)) :=
  match j with JObj o => Ok o | _ => invalid "expected source object" end.

(** [_finite] *)
Definition finite_number (j : json) : result spec_float :=
  match j with
  | JInt z =>
      let f := float_of_Z z in
      if negb (is_finite f) then invalid "numeric value exceeds finite range"
      else if SFltb f float_zero then invalid "expected finite nonnegative value" else Ok f
  | JFloat f =>
      if negb (is_finite f) || SFltb f float_zero then invalid "expected finite nonnegative value" else Ok f
  | _ => invalid "expected numeric timestamp"
  end.

Definition one_ms : spec_float := float_lit 1 1000.

(** [_value] *)
Definition sample_value (row : list (string * json)) (at_time : spec_float) : result spec_float :=
  match dget row "value" with
  | JList [stamp; JStr text] =>
      let! t := finite_number stamp in
      if SFltb one_ms (SFabs (float_sub t at_time))
      then invalid "sample timestamp disagrees with pinned evaluation"
      else match float_of_string text with
           | Some f => finite_number (JFloat f)
           | None => invalid "invalid counter value"
           end
  | _ => invalid "expected Prometheus timestamp/string pair"
  end.

(** [_rows] *)
Definition vector_rows (j : json) : result (list (list (string * json))) :=
  let! response := source_object j in
  if negb (is_str (dget response "status") "success") || truthy (dget response "warnings")
  then invalid "Prometheus query failed or warned"
  else
    let! data := source_object (dget response "data") in
    match dget data "result" with
    | JList rows =>
        if negb (is_str (dget data "resultType") "vector") || (128 <? len rows)
        then invalid "bounded instant vector required" else rmap source_object rows
    | _ => invalid "bounded instant vector required"
    end.

Definition is_text (j : json) : bool := match j with JStr _ => true | _ => false end.

(** [_labels] *)
Definition target_labels (row : list (string * json)) (service : string) : result (list (string * json)) :=
  let! labels := source_object (dget row "metric") in
  if negb (is_str (dget labels "job") "payops-sandbox" && is_str (dget labels "service") service &&
           is_str (dget labels "instance") (service +:+ ".payops-sandbox.svc.cluster.local:8080"))
  then invalid "metric target is outside snapshot scope"
  else if negb (forallb (fun kv => is_text kv.2) labels) then invalid "metric labels must be strings"
  else Ok labels.

Section snapshot.
Context `{PyText}.

(** The labels a series keeps, sorted *)
Definition kept_labels (labels : list (string * json)) : Labels :=
  sort_items str_leb
    (map (fun kv => (kv.1, py_str kv.2))
       (List.filter (fun kv => negb (bool_decide (kv.1 ∈ ["__name__"; "job"; "service"; "instance"]))) labels)).

Definition allowed_series : list Key := required ++ [(EPOCH, []); ("up", [])].

(** The loop of [_metric_values] *)
Fixpoint metric_loop (rows : list (list (string * json))) (service : string) (at_time : spec_float)
  (found : list (Key * spec_float)) : result (list (Key * spec_float)) :=
  match rows with
  | [] => Ok found
  | row :: rows =>
      let! labels := target_labels row service in
      let key := (match dict_find labels "__name__" with Some n => py_str n | None => "None" end,
                  kept_labels labels) in
      if negb (bool_decide (key ∈ allowed_series)) || bool_decide (key ∈ found.*1)
      then invalid "unknown or duplicated metric series"
      else
        let! v := sample_value row at_time in
        metric_loop rows service at_time (found ++ [(key, v)])
  end.

(** [_metric_values] *)
Definition metric_values (raw : list (string * json)) (service : string) (at_time : spec_float)
  : result (list (Key * spec_float)) :=
  let! rows := vector_rows (dget raw "metrics") in metric_loop rows service at_time [].

(** [_watermark] *)
Definition watermark_of (raw : list (string * json)) (service : string) (at_time : spec_float)
  : result (option spec_float) :=
  let! rows := vector_rows (dget raw "watermark") in
  match rows with
  | [] => Ok None
  | [row] =>
      let! labels := target_labels row service in
      if negb (bool_decide (list_to_set (C:=gset string) labels.*1 = list_to_set ["job"; "service"; "instance"]))
      then invalid "unexpected watermark labels"
      else
        let! mark := sample_value row at_time in
        if SFltb at_time mark then invalid "future scrape watermark" else Ok (Some mark)
  | _ => invalid "ambiguous scrape watermark"
  end.

Definition payload_keys : list string := ["evaluated_at"; "query"; "watermark_query"; "metrics"; "watermark"].

Definition float_after (a b : option spec_float) : bool :=
  match a, b with Some a, Some b => SFltb b a | _, _ => false end.

(** [_parse_payload] *)
Definition parse_payload (payload : list (string * json)) (service : string) : result Parsed :=
  if negb (bool_decide (list_to_set (C:=gset string) payload.*1 = list_to_set payload_keys))
  then invalid "unexpected raw snapshot payload fields"
  else
    let! (q, watermark_query) := snapshot_queries service in
    if negb (is_str (dget payload "query") q) || negb (is_str (dget payload "watermark_query") watermark_query)
    then invalid "snapshot query provenance disagrees"
    else
      let! at_time := finite_number (dget payload "evaluated_at") in
      let! found := metric_values payload service at_time in
      let! mark := watermark_of payload service at_time in
      let started := find_key found (EPOCH, []) in
      let up := match find_key found ("up", []) with Some f => float_is_int f 1 | None => false end in
      if float_after started mark then invalid "process epoch is after its scrape"
      else Ok {| evaluated_at := at_time; watermark := mark; epoch := started; available := up;
                 values := sort_items series_leb (without_key (without_key found (EPOCH, [])) ("up", [])) |}.

(** The time a snapshot was observed at *)
Definition snapshot_time (p : Parsed) : spec_float := default (evaluated_at p) (watermark p).

Definition py_bool (b : bool) : string := if b then "True" else "False".

(** [snapshot_observation], at the time [now] *)
Definition snapshot_observation (payload : list (string * json)) (service : string) (now : datetime)
  : result Observation :=
  let! parsed := parse_payload payload service in
  if SFltb (float_timestamp now) (evaluated_at parsed) then invalid "snapshot timestamp is after collection"
  else
    let! observed := fromtimestamp (snapshot_time parsed) in
    let! (q, _) := snapshot_queries service in
    Observation_make
      {| obs_source := PROMETHEUS; obs_resource := service; obs_observed_at := observed; obs_query := q;
         obs_summary := "Payment snapshot for " +:+ service +:+ "; target available: " +:+ py_bool (available parsed);
         obs_payload := payload |}.

(** [_parse] *)
Definition parse_item (e : EvidenceItem) (payload : list (string * json)) (service : string) : result Parsed :=
  let! parsed := parse_payload payload service in
  let! (q, _) := snapshot_queries service in
  if negb (eqb_of (query e) q) then invalid "snapshot query provenance disagrees"
  else if SFltb (float_timestamp (collected_at e)) (evaluated_at parsed) || (collected_at e <? observed_at e)
  then invalid "snapshot timestamp is after collection"
  else if SFltb one_ms (SFabs (float_sub (float_timestamp (observed_at e)) (snapshot_time parsed)))
  then invalid "observation metadata disagrees with source time"
  else Ok parsed.

(** ** Arithmetic *)

Definition keys_exactly (d : list (Key * spec_float)) : bool :=
  forallb (fun k => bool_decide (k ∈ required)) d.*1 && forallb (fun k => bool_decide (k ∈ d.*1)) required.

(** [after[key] < value for key, value in before.items()], over equal sets of keys *)
Definition went_back (before after : list (Key * spec_float)) : bool :=
  existsb (fun kv => match find_key after kv.1 with Some v => SFltb v kv.2 | None => false end) before.

(** [_coverage] *)
Definition coverage (first last : Parsed) (i : MeasurementInterval) : Status :=
  let start := float_timestamp (mi_start i) in
  let stop := float_timestamp (mi_end i) in
  match epoch first, epoch last, watermark first, watermark last with
  | Some e1, Some e2, Some w1, Some w2 =>
      if negb (available first) || negb (available last) then missing
      else if negb (SFeqb e1 e2) then mixed_epoch
      else if negb (SFleb (float_sub start (float_of_Z 15)) w1 && SFleb w1 (evaluated_at first) &&
                    SFleb (evaluated_at first) start) ||
              negb (SFleb stop w2 && SFleb w2 (evaluated_at last) &&
                    SFleb (evaluated_at last) (float_add stop (float_of_Z 30)))
      then missing
      else if negb (keys_exactly (values first)) || negb (keys_exactly (values last)) then missing
      else if went_back (values first) (values last) then reset else complete
  | _, _, _, _ => missing
  end.

(** [{key: value - earlier[key] for key, value in last.values}] *)
Definition differences (earlier last : list (Key * spec_float)) : list (Key * spec_float) :=
  map (fun kv => (kv.1, float_sub kv.2 (default float_zero (find_key earlier kv.1)))) last.

Definition label_of (l : Labels) (k : string) : option string := snd <$> List.find (fun kv => eqb_of kv.1 k) l.

(** The requests of one processor and region *)
Definition requests_of (delta : list (Key * spec_float)) (p r : string) : spec_float :=
  float_sum (map snd (List.filter (fun kv => eqb_of kv.1.1 REQUESTS &&
    eqb_of (label_of kv.1.2 "processor") (Some p) && eqb_of (label_of kv.1.2 "region") (Some r)) delta)).

(** [_consistent], of differences over all the required series *)
Definition counts_consistent (delta : list (Key * spec_float)) : bool :=
  forallb (fun '(p, r) =>
    let labels := [("processor", p); ("region", r)] in
    match find_key delta (COUNT, labels), find_key delta (SUM, labels) with
    | Some n, Some duration =>
        SFeqb n (requests_of delta p r) && negb (SFeqb n float_zero && negb (SFeqb duration float_zero))
    | _, _ => false
    end) processor_regions.

(** [_date] *)
Definition date_of (f : option spec_float) : result (option datetime) :=
  match f with
  | None => Ok None
  | Some f => let! t := fromtimestamp f in Ok (Some t)
  end.

Definition make_delta (kv : Key * spec_float) : result Delta :=
  let d := {| metric := kv.1.1; delta_labels := kv.1.2; delta_value := kv.2 |} in
  if Delta_valid d then Ok d else Err (ValueError "Delta").

Definition of_metric (names : list string) (points : list Delta) : list Delta :=
  List.filter (fun d => bool_decide (metric d ∈ names)) points.

(** The end of [_compute]: the window of two parsed snapshots *)
Definition window_of (before after : EvidenceItem) (i : MeasurementInterval) (first last : Parsed)
  : result PaymentWindow :=
  let status := coverage first last i in
  let delta := match status with complete => differences (values first) (values last) | _ => [] end in
  let (status, delta) :=
    match status with
    | complete => if counts_consistent delta then (complete, delta) else (missing, [])
    | _ => (status, delta)
    end in
  let! points := rmap make_delta (sort_items series_leb delta) in
  let! start := date_of (watermark first) in
  let! stop := date_of (watermark last) in
  Ok {| window_service := resource before; interval := i; inputs := (before, after); window_status := status;
        window_start := start; window_end := stop; before_epoch := epoch first; after_epoch := epoch last;
        request_counts := of_metric [REQUESTS] points; latency := of_metric [COUNT; SUM] points;
        conflicts := of_metric [CONFLICTS] points |}.

(** ** Windows *)

Context `{Blob, PydanticText, !ObjectText, !Instants}.

Abbreviation aprog := (prog art_answer) (only parsing).

(** [_compute] *)
Definition compute_window (before after : EvidenceItem) (i : MeasurementInterval) : aprog PaymentWindow :=
  let* first := store_verify before in
  let* first_payload := lift (source_object (dget first "payload")) in
  let* last := store_verify after in
  let* last_payload := lift (source_object (dget last "payload")) in
  if eqb_of (evidence_id before) (evidence_id after) || negb (eqb_of (ev_incident_id before) (mi_incident_id i))
     || negb (eqb_of (ev_incident_id after) (mi_incident_id i)) || negb (eqb_of (resource before) (resource after))
     || negb (eqb_of (source before) PROMETHEUS) || negb (eqb_of (source after) PROMETHEUS)
  then Raise (EvidenceIntegrityError "raw snapshot lineage crosses ownership or source scope")
  else if negb (bool_decide (resource before ∈ services)) then Raise (ValueError "Service")
  else
    let* first := lift (parse_item before first_payload (resource before)) in
    let* last := lift (parse_item after last_payload (resource before)) in
    lift (window_of before after i first last).

(** [window.model_dump(mode="json")] *)
Definition dump_labels (l : Labels) : json := JList (map (fun kv => JList [JStr kv.1; JStr kv.2]) l).
Definition dump_delta (d : Delta) : json :=
  JObj [("metric", JStr (metric d)); ("labels", dump_labels (delta_labels d)); ("value", JFloat (delta_value d))].
Definition dump_instant (t : option datetime) : json := match t with Some t => JStr (iso_text t) | None => JNull end.
Definition dump_float (f : option spec_float) : json := match f with Some f => JFloat f | None => JNull end.
Definition dump_window (w : PaymentWindow) : list (string * json) :=
  [("kind", JStr "payment_slice_window"); ("transformation", JStr "payment-counter-window-v1");
   ("service", JStr (window_service w));
   ("interval", JObj [("incident_id", JStr (mi_incident_id (interval w)));
                      ("start", JStr (iso_text (mi_start (interval w))));
                      ("end", JStr (iso_text (mi_end (interval w))))]);
   ("inputs", JList [JObj (dump_evidence (inputs w).1); JObj (dump_evidence (inputs w).2)]);
   ("status", JStr (window_status_name (window_status w)));
   ("window_start", dump_instant (window_start w)); ("window_end", dump_instant (window_end w));
   ("before_epoch", dump_float (before_epoch w)); ("after_epoch", dump_float (after_epoch w));
   ("request_counts", JList (map dump_delta (request_counts w))); ("latency", JList (map dump_delta (latency w)));
   ("conflicts", JList (map dump_delta (conflicts w)))].

(** [derive_payment_window] *)
Definition derive_payment_window (before after : EvidenceItem) (i : MeasurementInterval)
  : prog ev_answer EvidenceItem :=
  let* w := from_store (compute_window before after i) in
  let* o := lift (Observation_make
    {| obs_source := PAYMENT; obs_resource := window_service w;
       obs_observed_at := default (observed_at after) (window_end w); obs_query := DERIVED_QUERY;
       obs_summary := "Payment counter window: " +:+ window_status_name (window_status w);
       obs_payload := dump_window w |}) in
  normalize o (mi_incident_id i) (Z.min (observed_at before) (mi_start i)) (Z.max (collected_at after) (mi_end i)).

(** ** Reading a window back *)

Definition parse_pair (j : json) : option (string * string) :=
  match j with JList [JStr k; JStr v] => Some (k, v) | _ => None end.

Definition finite_float (j : json) : option spec_float :=
  f ← as_float j; if is_finite f then Some f else None.

Definition parse_delta (j : json) : option Delta :=
  d ← as_object j;
  name ← field_str d "metric";
  labels ← field_items parse_pair d "labels";
  v ← dict_find d "value" ≫= finite_float;
  let delta := {| metric := name; delta_labels := labels; delta_value := v |} in
  if closed d ["metric"; "labels"; "value"] && Delta_valid delta then Some delta else None.

Definition parse_deltas (d : list (string * json)) (k : string) : option (list Delta) :=
  match dict_find d k with Some (JList l) => mapM parse_delta l | Some _ => None | None => Some [] end.

Definition parse_interval (j : json) : option MeasurementInterval :=
  d ← as_object j;
  id ← field_str d "incident_id";
  start ← field_instant strict_json d "start";
  stop ← field_instant strict_json d "end";
  let i := {| mi_incident_id := id; mi_start := start; mi_end := stop |} in
  if closed d ["incident_id"; "start"; "end"] && MeasurementInterval_valid i then Some i else None.

Definition parse_inputs (j : json) : option (EvidenceItem * EvidenceItem) :=
  match j with
  | JList [a; b] => a ← parse_evidence lax_json a; b ← parse_evidence lax_json b; Some (a, b)
  | _ => None
  end.

(** A field that may be [null] *)
Definition nullable {A} (read : json -> option A) (j : json) : option (option A) :=
  match j with JNull => Some None | j => x ← read j; Some (Some x) end.

Definition window_keys : list string :=
  ["kind"; "transformation"; "service"; "interval"; "inputs"; "status"; "window_start"; "window_end";
   "before_epoch"; "after_epoch"; "request_counts"; "latency"; "conflicts"].

(** [PaymentWindow.model_validate_json] of a decoded value *)
Definition parse_window (j : json) : option PaymentWindow :=
  d ← as_object j;
  service ← field_str d "service";
  i ← dict_find d "interval" ≫= parse_interval;
  sources ← dict_find d "inputs" ≫= parse_inputs;
  status ← dict_find d "status" ≫=
    named [("complete", complete); ("missing", missing); ("reset", reset); ("mixed_epoch", mixed_epoch)];
  start ← dict_find d "window_start" ≫= nullable (aware_instant strict_json);
  stop ← dict_find d "window_end" ≫= nullable (aware_instant strict_json);
  e1 ← dict_find d "before_epoch" ≫= nullable finite_float;
  e2 ← dict_find d "after_epoch" ≫= nullable finite_float;
  requests ← parse_deltas d "request_counts";
  latencies ← parse_deltas d "latency";
  clashes ← parse_deltas d "conflicts";
  if closed d window_keys && bool_decide (service ∈ services) &&
     is_str (dget_or d "kind" (JStr "payment_slice_window")) "payment_slice_window" &&
     is_str (dget_or d "transformation" (JStr "payment-counter-window-v1")) "payment-counter-window-v1"
  then Some {| window_service := service; interval := i; inputs := sources; window_status := status;
               window_start := start; window_end := stop; before_epoch := e1; after_epoch := e2;
               request_counts := requests; latency := latencies; conflicts := clashes |}
  else None.

(** Python's [==] of two windows: floats compare as numbers. *)
Definition option_same {A} (same : A -> A -> bool) (x y : option A) : bool :=
  match x, y with Some x, Some y => same x y | None, None => true | _, _ => false end.
Fixpoint list_same {A} (same : A -> A -> bool) (l l' : list A) : bool :=
  match l, l' with [], [] => true | x :: l, y :: l' => same x y && list_same same l l' | _, _ => false end.
Definition delta_same (a b : Delta) : bool :=
  eqb_of (metric a) (metric b) && eqb_of (delta_labels a) (delta_labels b) && SFeqb (delta_value a) (delta_value b).
Definition window_same (a b : PaymentWindow) : bool :=
  eqb_of (window_service a) (window_service b) && eqb_of (interval a) (interval b) &&
  eqb_of (inputs a) (inputs b) && eqb_of (window_status a) (window_status b) &&
  eqb_of (window_start a) (window_start b) && eqb_of (window_end a) (window_end b) &&
  option_same SFeqb (before_epoch a) (before_epoch b) && option_same SFeqb (after_epoch a) (after_epoch b) &&
  list_same delta_same (request_counts a) (request_counts b) && list_same delta_same (latency a) (latency b) &&
  list_same delta_same (conflicts a) (conflicts b).

(** [verify_payment_window] *)
Definition verify_window (e : EvidenceItem) : aprog PaymentWindow :=
  let* verified := store_verify e in
  let* raw := lift (source_object (dget verified "payload")) in
  if negb (json_finite (JObj raw)) then Raise (ValueError "Out of range float values are not JSON compliant")
  else match parse_window (JObj raw) with
       | None => Raise (ValueError "PaymentWindow")
       | Some w =>
           let* expected := compute_window (inputs w).1 (inputs w).2 (interval w) in
           let observed := default (observed_at (inputs expected).2) (window_end expected) in
           if negb (eqb_of (source e) PAYMENT) || negb (eqb_of (query e) DERIVED_QUERY)
              || negb (eqb_of (resource e) (window_service w))
              || negb (eqb_of (ev_incident_id e) (mi_incident_id (interval w)))
              || negb (eqb_of (observed_at e) observed) || (collected_at e <? observed_at e)
              || negb (window_same w expected)
           then Raise (EvidenceIntegrityError "derived window disagrees with verified raw lineage")
           else Ret expected
       end.
End snapshot.
