(* ===== verification/Spans.v ===== *)
(** * Console spans: [payops/evidence/trace_span.py]

    A bounded container log is framed into candidate objects, each kept, excluded or counted
    as malformed; what was kept is retained as one log item, from which every span is derived
    again whenever it is verified. *)

From stdpp Require Import pretty.
From S2P Require Import Prelude Text Json Digest Contracts Effects Reasoning Baseline Numbers Artifacts Normalize.
From S2P Require Import SandboxModels Wire Windows.

Open Scope string_scope.
Open Scope list_scope.
Open Scope Z_scope.
Open Scope result_scope.
Open Scope prog_scope.

(** ** Contracts *)

(** [ROLES] *)
Definition ROLES (service : string) : option string :=
  snd <$> List.find (fun kv => eqb_of kv.1 service)
    [("payments-api", "payments"); ("risk-sim", "risk"); ("processor-adapter", "processor");
     ("ledger-sim", "ledger"); ("webhook-sim", "webhook")].

Definition MAX_LOG_BYTES : Z := 131072.
Definition MAX_LOG_LINES : Z := 2000.
Definition MAX_SPANS : Z := 128.
Definition TRACE_QUERY : string := "trace.console-span.v1".

Record TraceScope : Type := {
  ts_incident_id : string;
  ts_service : string;
  ts_start : datetime;
  ts_end : datetime;
}.
#[export] Instance TraceScope_eq_dec : EqDecision TraceScope.
Proof. solve_decision. Defined.

(** [TraceScope.bounded], and its fields *)
Definition TraceScope_valid (s : TraceScope) : bool :=
  identifier_ok (ts_incident_id s) && bool_decide (is_Some (ROLES (ts_service s))) &&
  (0 <? ts_end s - ts_start s) && (ts_end s - ts_start s <=? seconds 600).

Record PodIdentity : Type := {
  pod_name : string;
  ident_pod_uid : string;
  deployment_uid : string;
  replica_set_uid : string;
  container_id : string;
  restart_count : Z;
}.
#[export] Instance PodIdentity_eq_dec : EqDecision PodIdentity.
Proof. solve_decision. Defined.

Definition pod_char (c : Ascii.ascii) : bool :=
  lower_or_digit c || ascii_between 45 46 c.
Definition pod_name_ok (s : string) : bool :=
  match s with
  | String c rest => lower_or_digit c && str_all pod_char rest && (str_len rest <=? 126)
  | EmptyString => false
  end.
Definition PodIdentity_valid (p : PodIdentity) : bool :=
  pod_name_ok (pod_name p) && identifier_ok (ident_pod_uid p) && identifier_ok (deployment_uid p) &&
  identifier_ok (replica_set_uid p) && between 1 200 (str_len (container_id p)) && between 0 1000000 (restart_count p).

Inductive SpanKind : Type := CLIENT | SERVER.
#[export] Instance SpanKind_eq_dec : EqDecision SpanKind.
Proof. solve_decision. Defined.
Definition span_kind_name (k : SpanKind) : string := match k with CLIENT => "SpanKind.CLIENT" | SERVER => "SpanKind.SERVER" end.

Inductive StatusCode : Type := UNSET | OK | ERROR.
#[export] Instance StatusCode_eq_dec : EqDecision StatusCode.
Proof. solve_decision. Defined.
Definition status_code_name (s : StatusCode) : string := match s with UNSET => "UNSET" | OK => "OK" | ERROR => "ERROR" end.

Record SourceSpan : Type := {
  span_name : string;
  trace_id : string;
  span_id : string;
  parent_id : option string;
  kind : SpanKind;
  start_time : datetime;
  end_time : datetime;
  span_status : StatusCode;
  service_name : string;
}.
#[export] Instance SourceSpan_eq_dec : EqDecision SourceSpan.
Proof. solve_decision. Defined.

(** An identity of [n] hexadecimal digits after [0x], and whether they are all zero *)
Definition hex_id (n : Z) (s : string) : bool :=
  match after_prefix "0x" s with
  | Some digits => (str_len digits =? n) && str_all is_lower_hex digits
  | None => false
  end.
Definition zero_id (s : string) : bool :=
  match after_prefix "0x" s with
  | Some digits => str_all (fun c => eqb_of c (Ascii.ascii_of_nat 48)) digits
  | None => false
  end.
Definition short_text (n : Z) (s : string) : bool := between 1 n (str_len s).
Definition some_all {A} (p : A -> bool) (x : option A) : bool := match x with Some x => p x | None => true end.

(** The fields of a span, and [SourceSpan.valid] *)
Definition SourceSpan_valid (s : SourceSpan) : bool :=
  short_text 80 (span_name s) && hex_id 32 (trace_id s) && hex_id 16 (span_id s) &&
  some_all (hex_id 16) (parent_id s) && short_text 80 (service_name s) &&
  negb (zero_id (trace_id s)) && negb (zero_id (span_id s)) &&
  some_all (fun p => negb (zero_id p)) (parent_id s) && negb (eqb_of (parent_id s) (Some (span_id s))) &&
  (start_time s <=? end_time s).

(** [check_service]: the kind a span of this name has, by the role *)
Definition expected_kind (service role name : string) : option SpanKind :=
  if eqb_of service "payments-api" &&
     existsb (fun r => eqb_of name ("sandbox.call." +:+ r)) ["risk"; "processor"; "ledger"; "webhook"]
  then Some CLIENT
  else if eqb_of name ("sandbox." +:+ role) then Some SERVER else None.
Definition emitted_by (s : SourceSpan) (service : string) : bool :=
  match ROLES service with
  | Some role => eqb_of (service_name s) ("payops-sandbox-" +:+ role) &&
                 eqb_of (expected_kind service role (span_name s)) (Some (kind s))
  | None => false
  end.

Record CapturedSpan : Type := { captured_span : SourceSpan; log_start : datetime; log_end : datetime }.
#[export] Instance CapturedSpan_eq_dec : EqDecision CapturedSpan.
Proof. solve_decision. Defined.

Definition CapturedSpan_valid (c : CapturedSpan) : bool :=
  (end_time (captured_span c) <=? log_start c) && (log_start c <=? log_end c).

Record ParsedLog : Type := {
  spans : list CapturedSpan;
  raw_bytes : Z;
  line_count : Z;
  partial_candidates : Z;
  malformed_candidates : Z;
  excluded_spans : Z;
  limit_reached : bool;
}.
#[export] Instance ParsedLog_eq_dec : EqDecision ParsedLog.
Proof. solve_decision. Defined.

Definition ParsedLog_valid (p : ParsedLog) : bool :=
  (len (spans p) <=? MAX_SPANS) && between 0 MAX_LOG_BYTES (raw_bytes p) && between 0 MAX_LOG_LINES (line_count p) &&
  (0 <=? partial_candidates p) && (0 <=? malformed_candidates p) && (0 <=? excluded_spans p).

(** ** Parsing a log *)

(** [_pairs] *)
Fixpoint span_pairs_loop (found pairs : list (string * json)) : result (list (string * json)) :=
  match pairs with
  | [] => Ok found
  | (k, v) :: pairs =>
      if dhas found k then Err (ValueError "duplicate span JSON key") else span_pairs_loop (dset found k v) pairs
  end.
Definition span_pairs (pairs : list (string * json)) : result (list (string * json)) := span_pairs_loop [] pairs.

(** [_constant] and [_float] *)
Definition span_constant (value : string) : result json := Err (ValueError "nonfinite span JSON").
Definition span_float (value : string) : result spec_float :=
  match float_of_string value with
  | Some f => if is_finite f then Ok f else Err (ValueError "nonfinite span JSON number")
  | None => Err (ValueError "could not convert string to float")
  end.

(** [_depth] *)
Definition is_char (n : nat) (c : Ascii.ascii) : bool := eqb_of c (Ascii.ascii_of_nat n).
Fixpoint span_depth (depth : Z) (quoted escaped : bool) (s : string) : result unit :=
  match s with
  | EmptyString => Ok tt
  | String c s =>
      if quoted then
        if escaped then span_depth depth true false s
        else if is_char 92 c then span_depth depth true true s
        else span_depth depth (negb (is_char 34 c)) false s
      else if is_char 34 c then span_depth depth true escaped s
      else if is_char 91 c || is_char 123 c then
        if 8 <? depth + 1 then Err (ValueError "span JSON exceeds depth budget")
        else span_depth (depth + 1) false escaped s
      else if is_char 93 c || is_char 125 c then span_depth (depth - 1) false escaped s
      else span_depth depth false escaped s
  end.

Section spans.
Context `{WireText, PyText, !Instants}.

Definition parse_kind : json -> option SpanKind := named [("SpanKind.CLIENT", CLIENT); ("SpanKind.SERVER", SERVER)].
Definition parse_status : json -> option StatusCode := named [("UNSET", UNSET); ("OK", OK); ("ERROR", ERROR)].

Definition span_keys : list string :=
  ["name"; "trace_id"; "span_id"; "parent_id"; "kind"; "start_time"; "end_time"; "status_code"; "service_name"].

(** [SourceSpan.model_validate_json] of a decoded value *)
Definition parse_span (j : json) : option SourceSpan :=
  d ← as_object j;
  name ← field_str d "name";
  trace ← field_str d "trace_id";
  id ← field_str d "span_id";
  parent ← dict_find d "parent_id" ≫= nullable as_str;
  k ← dict_find d "kind" ≫= parse_kind;
  start ← field_instant strict_json d "start_time";
  stop ← field_instant strict_json d "end_time";
  status ← dict_find d "status_code" ≫= parse_status;
  service ← field_str d "service_name";
  let s := {| span_name := name; trace_id := trace; span_id := id; parent_id := parent; kind := k;
              start_time := start; end_time := stop; span_status := status; service_name := service |} in
  if closed d span_keys && SourceSpan_valid s then Some s else None.

(** [_project] *)
Definition project_span (text : string) : result SourceSpan :=
  let! loaded := wire_loads span_pairs span_constant span_float text in
  let! obj := object_of loaded in
  if negb (dhas obj "parent_id") then Err (ValueError "span parent field is missing")
  else match dget obj "context", dget obj "status", dget obj "resource" with
       | JObj ctx, JObj status, JObj res =>
           match dget res "attributes" with
           | JObj attributes =>
               let fields :=
                 [("name", dget obj "name"); ("trace_id", dget ctx "trace_id"); ("span_id", dget ctx "span_id");
                  ("parent_id", dget obj "parent_id"); ("kind", dget obj "kind");
                  ("start_time", dget obj "start_time"); ("end_time", dget obj "end_time");
                  ("status_code", dget status "status_code"); ("service_name", dget attributes "service.name")] in
               match parse_span (JObj fields) with
               | Some s => Ok s
               | None => Err (ValueError "SourceSpan")
               end
           | _ => Err (ValueError "span resource attributes are missing")
           end
       | _, _, _ => Err (ValueError "span nested metadata is missing")
       end.

(** The physical time stamp of a log line *)
Definition two_digits (s : string) : option string :=
  match s with
  | String a (String b rest) => if is_digit a && is_digit b then Some rest else None
  | _ => None
  end.
Definition stamp_ok (s : string) : bool :=
  match
    (rest ← two_digits s; rest ← two_digits rest; rest ← after_prefix "-" rest;
     rest ← two_digits rest; rest ← after_prefix "-" rest; rest ← two_digits rest;
     rest ← after_prefix "T" rest; rest ← two_digits rest; rest ← after_prefix ":" rest;
     rest ← two_digits rest; rest ← after_prefix ":" rest; two_digits rest)
  with
  | Some (String c rest) =>
      if is_char 46 c then
        let '(digits, rest) := digits_front rest in between 1 9 (str_len digits) && eqb_of rest "Z"
      else eqb_of (String c rest) "Z"
  | _ => false
  end.

(** [_log_lines] *)
Definition stamped_line (raw_line : string) : result (datetime * string) :=
  let refused := Err (ValueError "timestamped Kubernetes log line required") in
  match partition (Ascii.ascii_of_nat 32) raw_line with
  | Some (prefix, line) =>
      if negb (stamp_ok prefix) then refused
      else match fromisoformat (with_offset prefix) with
           | Some (t, _) => Ok (t, line)
           | None => Err (ValueError "Invalid isoformat string")
           end
  | None => refused
  end.
Definition stamped_lines (raw : string) : result (list (datetime * string)) :=
  if MAX_LOG_BYTES <? str_len raw then Err (ValueError "trace log exceeds byte budget")
  else
    let lines := splitlines raw in
    if MAX_LOG_LINES <? len lines then Err (ValueError "trace log exceeds line budget")
    else rmap stamped_line lines.

(** An object being framed: its lines, last first, when it started, the time of its last
    line, whether a time stamp went back, and its size *)
Record candidate : Type := {
  cand_lines : list string;
  cand_started : datetime;
  cand_previous : datetime;
  cand_invalid : bool;
  cand_size : Z;
}.

(** What [parse_console_log] counts while it goes on *)
Record framing : Type := {
  open_candidate : option candidate;
  found_spans : list CapturedSpan;
  n_partial : Z;
  n_malformed : Z;
  n_excluded : Z;
}.

(** The lines of a candidate, joined *)
Definition joined (lines : list string) : string :=
  match rev lines with
  | [] => EmptyString
  | first :: rest => foldl (fun s line => s +:+ String lf line) first rest
  end.

(** The [try] block: the span of a complete candidate, which is in scope or not *)
Definition candidate_span (scope : TraceScope) (c : candidate) (emitted : datetime) : result (CapturedSpan * bool) :=
  if cand_invalid c then Err (ValueError "unordered physical log timestamps")
  else
    let text := joined (cand_lines c) in
    let! _ := span_depth 0 false false text in
    let! s := project_span text in
    if negb (emitted_by s (ts_service scope)) then Err (EvidenceIntegrityError "span disagrees with emitting service")
    else
      let captured := {| captured_span := s; log_start := cand_started c; log_end := emitted |} in
      if negb (CapturedSpan_valid captured) then Err (ValueError "inverted log emission interval")
      else Ok (captured, (ts_start scope <=? start_time s) && (start_time s <=? end_time s) &&
                         (end_time s <=? ts_end scope)).

Definition count_partial (f : framing) : framing :=
  {| open_candidate := open_candidate f; found_spans := found_spans f; n_partial := n_partial f + 1;
     n_malformed := n_malformed f; n_excluded := n_excluded f |}.
Definition with_candidate (c : option candidate) (f : framing) : framing :=
  {| open_candidate := c; found_spans := found_spans f; n_partial := n_partial f;
     n_malformed := n_malformed f; n_excluded := n_excluded f |}.

(** A line that would be inside an object *)
Definition stray (line : string) : bool :=
  match lstrip line with String c _ => is_char 34 c || is_char 125 c || is_char 93 c | EmptyString => false end.

(** The candidate, with one more line *)
Definition extended (c : candidate) (emitted : datetime) (line : string) : candidate :=
  {| cand_lines := line :: cand_lines c; cand_started := cand_started c; cand_previous := emitted;
     cand_invalid := cand_invalid c || (emitted <? cand_previous c); cand_size := cand_size c + str_len line + 1 |}.

(** The end of a candidate *)
Definition closed_candidate (scope : TraceScope) (c : candidate) (emitted : datetime) (f : framing) : result framing :=
  match candidate_span scope c emitted with
  | inr (captured, true) =>
      if MAX_SPANS <? len (found_spans f) + 1 then Err (OtherError "OverflowError")
      else Ok {| open_candidate := None; found_spans := found_spans f ++ [captured]; n_partial := n_partial f;
                 n_malformed := n_malformed f; n_excluded := n_excluded f |}
  | inr (_, false) =>
      Ok {| open_candidate := None; found_spans := found_spans f; n_partial := n_partial f;
            n_malformed := n_malformed f; n_excluded := n_excluded f + 1 |}
  | inl e =>
      if is_ValueError e
      then Ok {| open_candidate := None; found_spans := found_spans f; n_partial := n_partial f;
                 n_malformed := n_malformed f + 1; n_excluded := n_excluded f |}
      else Err e
  end.

(** The body of the loop *)
Definition frame_line (scope : TraceScope) (f : framing) (entry : datetime * string) : result framing :=
  let '(emitted, line) := entry in
  if eqb_of line "{" then
    let f := match open_candidate f with Some _ => count_partial f | None => f end in
    Ok (with_candidate (Some {| cand_lines := [line]; cand_started := emitted; cand_previous := emitted;
                                cand_invalid := false; cand_size := 1 |}) f)
  else match open_candidate f with
       | None => Ok (if stray line then count_partial f else f)
       | Some c =>
           let c := extended c emitted line in
           if 8192 <? cand_size c then Err (ValueError "span object exceeds byte budget")
           else if negb (eqb_of line "}") then Ok (with_candidate (Some c) f)
           else closed_candidate scope c emitted f
       end.

Fixpoint frame_lines (scope : TraceScope) (f : framing) (lines : list (datetime * string)) : result framing :=
  match lines with
  | [] => Ok f
  | entry :: lines => let! f := frame_line scope f entry in frame_lines scope f lines
  end.

Definition no_framing : framing :=
  {| open_candidate := None; found_spans := []; n_partial := 0; n_malformed := 0; n_excluded := 0 |}.

(** [parse_console_log] *)
Definition parse_console_log (raw : string) (scope : TraceScope) : result ParsedLog :=
  let! lines := stamped_lines raw in
  let! f := frame_lines scope no_framing lines in
  let p := {| spans := found_spans f; raw_bytes := str_len raw; line_count := len lines;
              partial_candidates := n_partial f + Z_of_bool (bool_decide (is_Some (open_candidate f)));
              malformed_candidates := n_malformed f; excluded_spans := n_excluded f;
              limit_reached := (str_len raw =? MAX_LOG_BYTES) || (len lines =? MAX_LOG_LINES) |} in
  if ParsedLog_valid p then Ok p else Err (ValueError "ParsedLog").

(** ** Retained logs *)

Record TraceLog : Type := {
  log_scope : TraceScope;
  identity : PodIdentity;
  captured_start : datetime;
  captured_end : datetime;
  parsed : ParsedLog;
}.

(** [TraceLog.consistent] *)
Definition record_consistent (l : TraceLog) (r : CapturedSpan) : bool :=
  let s := captured_span r in
  emitted_by s (ts_service (log_scope l)) && (ts_start (log_scope l) <=? start_time s) &&
  (start_time s <=? end_time s) && (end_time s <=? ts_end (log_scope l)) && (end_time s <=? log_start r) &&
  (log_start r <=? log_end r) && (log_end r <=? captured_end l).
Definition TraceLog_valid (l : TraceLog) : bool :=
  (captured_start l <=? captured_end l) && (ts_end (log_scope l) <=? captured_end l) &&
  forallb (record_consistent l) (spans (parsed l)).

Record TraceSpan : Type := {
  tspan_scope : TraceScope;
  tspan_source : EvidenceItem;
  ordinal : Z;
  tspan_trace_id : string;
  tspan_span_id : string;
  tspan_parent_id : option string;
  duration_microseconds : Z;
  record : CapturedSpan;
}.
#[export] Instance TraceSpan_eq_dec : EqDecision TraceSpan.
Proof. solve_decision. Defined.

Definition bare_id (n : Z) (s : string) : bool := (str_len s =? n) && str_all is_lower_hex s.
Definition TraceSpan_valid (t : TraceSpan) : bool :=
  (0 <=? ordinal t) && (ordinal t <? MAX_SPANS) && bare_id 32 (tspan_trace_id t) && bare_id 16 (tspan_span_id t) &&
  some_all (bare_id 16) (tspan_parent_id t) && (0 <=? duration_microseconds t).

Context `{Blob, PydanticText, !ObjectText}.

(** [model_dump(mode="json")] *)
Definition dump_text (s : option string) : json := match s with Some s => JStr s | None => JNull end.
Definition dump_scope (s : TraceScope) : json :=
  JObj [("incident_id", JStr (ts_incident_id s)); ("namespace", JStr "payops-sandbox"); ("service", JStr (ts_service s));
        ("start", JStr (iso_text (ts_start s))); ("end", JStr (iso_text (ts_end s)))].
Definition dump_identity (p : PodIdentity) : json :=
  JObj [("pod_name", JStr (pod_name p)); ("pod_uid", JStr (ident_pod_uid p)); ("deployment_uid", JStr (deployment_uid p));
        ("replica_set_uid", JStr (replica_set_uid p)); ("container", JStr "sandbox");
        ("container_id", JStr (container_id p)); ("restart_count", JInt (restart_count p))].
Definition dump_span (s : SourceSpan) : json :=
  JObj [("name", JStr (span_name s)); ("trace_id", JStr (trace_id s)); ("span_id", JStr (span_id s));
        ("parent_id", dump_text (parent_id s)); ("kind", JStr (span_kind_name (kind s)));
        ("start_time", JStr (iso_text (start_time s))); ("end_time", JStr (iso_text (end_time s)));
        ("status_code", JStr (status_code_name (span_status s))); ("service_name", JStr (service_name s))].
Definition dump_captured (c : CapturedSpan) : json :=
  JObj [("span", dump_span (captured_span c)); ("log_start", JStr (iso_text (log_start c)));
        ("log_end", JStr (iso_text (log_end c)))].
Definition dump_parsed (p : ParsedLog) : json :=
  JObj [("spans", JList (map dump_captured (spans p))); ("raw_bytes", JInt (raw_bytes p));
        ("line_count", JInt (line_count p)); ("partial_candidates", JInt (partial_candidates p));
        ("malformed_candidates", JInt (malformed_candidates p)); ("excluded_spans", JInt (excluded_spans p));
        ("limit_reached", JBool (limit_reached p)); ("sampling", JStr "bounded_sample")].
Definition dump_trace_log (l : TraceLog) : list (string * json) :=
  [("transformation", JStr "trace-console-log-v1"); ("scope", dump_scope (log_scope l));
   ("identity", dump_identity (identity l)); ("captured_start", JStr (iso_text (captured_start l)));
   ("captured_end", JStr (iso_text (captured_end l))); ("parsed", dump_parsed (parsed l))].
Definition dump_trace_span (t : TraceSpan) : list (string * json) :=
  [("transformation", JStr "trace-console-span-v1"); ("diagnostic_only", JBool true);
   ("scope", dump_scope (tspan_scope t)); ("source", JObj (dump_evidence (tspan_source t)));
   ("ordinal", JInt (ordinal t)); ("trace_id", JStr (tspan_trace_id t)); ("span_id", JStr (tspan_span_id t));
   ("parent_id", dump_text (tspan_parent_id t)); ("duration_microseconds", JInt (duration_microseconds t));
   ("record", dump_captured (record t))].

(** [f"{n}"] of a count or a duration *)
Definition log_summary (l : TraceLog) : string :=
  "Bounded console span sample: " +:+ pretty (len (spans (parsed l))) +:+ " records".
Definition span_summary (t : TraceSpan) : string :=
  span_name (captured_span (record t)) +:+ ": " +:+ pretty (duration_microseconds t) +:+ " us; status " +:+
  status_code_name (span_status (captured_span (record t))) +:+ "; bounded sample".

(** [publish_trace_log] *)
Definition publish_trace_log (l : TraceLog) : prog ev_answer EvidenceItem :=
  let* o := lift (Observation_make
    {| obs_source := LOG; obs_resource := ts_service (log_scope l); obs_observed_at := captured_end l;
       obs_query := LOG_QUERY; obs_summary := log_summary l; obs_payload := dump_trace_log l |}) in
  normalize o (ts_incident_id (log_scope l)) (captured_start l) (captured_end l).

(** ** Reading retained logs and spans *)

Definition parse_scope (j : json) : option TraceScope :=
  d ← as_object j;
  id ← field_str d "incident_id";
  service ← field_str d "service";
  start ← field_instant strict_json d "start";
  stop ← field_instant strict_json d "end";
  let s := {| ts_incident_id := id; ts_service := service; ts_start := start; ts_end := stop |} in
  if closed d ["incident_id"; "namespace"; "service"; "start"; "end"] &&
     is_str (dget_or d "namespace" (JStr "payops-sandbox")) "payops-sandbox" && TraceScope_valid s
  then Some s else None.

Definition parse_identity (j : json) : option PodIdentity :=
  d ← as_object j;
  name ← field_str d "pod_name";
  uid ← field_str d "pod_uid";
  deployment ← field_str d "deployment_uid";
  replica ← field_str d "replica_set_uid";
  container ← field_str d "container_id";
  restarts ← dict_find d "restart_count" ≫= as_int;
  let p := {| pod_name := name; ident_pod_uid := uid; deployment_uid := deployment; replica_set_uid := replica;
              container_id := container; restart_count := restarts |} in
  if closed d ["pod_name"; "pod_uid"; "deployment_uid"; "replica_set_uid"; "container"; "container_id"; "restart_count"] &&
     is_str (dget_or d "container" (JStr "sandbox")) "sandbox" && PodIdentity_valid p
  then Some p else None.

Definition parse_captured (j : json) : option CapturedSpan :=
  d ← as_object j;
  s ← dict_find d "span" ≫= parse_span;
  start ← field_instant strict_json d "log_start";
  stop ← field_instant strict_json d "log_end";
  let c := {| captured_span := s; log_start := start; log_end := stop |} in
  if closed d ["span"; "log_start"; "log_end"] && CapturedSpan_valid c then Some c else None.

Definition parse_parsed (j : json) : option ParsedLog :=
  d ← as_object j;
  found ← field_items parse_captured d "spans";
  bytes ← dict_find d "raw_bytes" ≫= as_int;
  lines ← dict_find d "line_count" ≫= as_int;
  partial ← dict_find d "partial_candidates" ≫= as_int;
  malformed ← dict_find d "malformed_candidates" ≫= as_int;
  excluded ← dict_find d "excluded_spans" ≫= as_int;
  limit ← dict_find d "limit_reached" ≫= as_bool;
  let p := {| spans := found; raw_bytes := bytes; line_count := lines; partial_candidates := partial;
              malformed_candidates := malformed; excluded_spans := excluded; limit_reached := limit |} in
  if closed d ["spans"; "raw_bytes"; "line_count"; "partial_candidates"; "malformed_candidates"; "excluded_spans";
               "limit_reached"; "sampling"] &&
     is_str (dget_or d "sampling" (JStr "bounded_sample")) "bounded_sample" && ParsedLog_valid p
  then Some p else None.

(** [TraceLog.model_validate_json] of a decoded value *)
Definition parse_trace_log (j : json) : option TraceLog :=
  d ← as_object j;
  scope ← dict_find d "scope" ≫= parse_scope;
  id ← dict_find d "identity" ≫= parse_identity;
  start ← field_instant strict_json d "captured_start";
  stop ← field_instant strict_json d "captured_end";
  p ← dict_find d "parsed" ≫= parse_parsed;
  let l := {| log_scope := scope; identity := id; captured_start := start; captured_end := stop; parsed := p |} in
  if closed d ["transformation"; "scope"; "identity"; "captured_start"; "captured_end"; "parsed"] &&
     is_str (dget_or d "transformation" (JStr "trace-console-log-v1")) "trace-console-log-v1" && TraceLog_valid l
  then Some l else None.

(** [TraceSpan.model_validate_json] of a decoded value *)
Definition parse_trace_span (j : json) : option TraceSpan :=
  d ← as_object j;
  scope ← dict_find d "scope" ≫= parse_scope;
  src ← dict_find d "source" ≫= parse_evidence lax_json;
  n ← dict_find d "ordinal" ≫= as_int;
  trace ← field_str d "trace_id";
  id ← field_str d "span_id";
  parent ← dict_find d "parent_id" ≫= nullable as_str;
  micros ← dict_find d "duration_microseconds" ≫= as_int;
  r ← dict_find d "record" ≫= parse_captured;
  let t := {| tspan_scope := scope; tspan_source := src; ordinal := n; tspan_trace_id := trace;
              tspan_span_id := id; tspan_parent_id := parent; duration_microseconds := micros; record := r |} in
  if closed d ["transformation"; "diagnostic_only"; "scope"; "source"; "ordinal"; "trace_id"; "span_id"; "parent_id";
               "duration_microseconds"; "record"] &&
     is_str (dget_or d "transformation" (JStr "trace-console-span-v1")) "trace-console-span-v1" &&
     is_true (dget_or d "diagnostic_only" (JBool true)) && TraceSpan_valid t
  then Some t else None.

Abbreviation aprog := (prog art_answer) (only parsing).

(** [schema.model_validate_json(json.dumps(raw, allow_nan=False))] *)
Definition revalidated {A} (parse : json -> option A) (name : string) (raw : json) : result A :=
  if negb (json_finite raw) then Err (ValueError "Out of range float values are not JSON compliant")
  else match parse raw with Some a => Ok a | None => Err (ValueError name) end.

(** [_source], which is also [verify_trace_log] *)
Definition source_log (e : EvidenceItem) : aprog TraceLog :=
  let* verified := store_verify e in
  let* capture := lift (revalidated parse_trace_log "TraceLog" (dget verified "payload")) in
  if negb (eqb_of (source e) LOG) || negb (eqb_of (query e) LOG_QUERY)
     || negb (eqb_of (ev_incident_id e) (ts_incident_id (log_scope capture)))
     || negb (eqb_of (resource e) (ts_service (log_scope capture)))
     || negb (eqb_of (observed_at e) (captured_end capture)) || (collected_at e <? observed_at e)
     || negb (eqb_of (summary e) (log_summary capture))
  then Raise (EvidenceIntegrityError "trace LOG source metadata disagrees") else Ret capture.

(** [s[2:]] *)
Definition drop2 (s : string) : string :=
  match s with String _ (String _ s) => s | _ => EmptyString end.

(** The span at an ordinal of a retained log *)
Definition span_at (src : EvidenceItem) (capture : TraceLog) (n : Z) (r : CapturedSpan) : TraceSpan :=
  let s := captured_span r in
  {| tspan_scope := log_scope capture; tspan_source := src; ordinal := n; tspan_trace_id := drop2 (trace_id s);
     tspan_span_id := drop2 (span_id s); tspan_parent_id := drop2 <$> parent_id s;
     duration_microseconds := end_time s - start_time s; record := r |}.

(** [_derive] *)
Definition derive_span (src : EvidenceItem) (n : Z) : aprog TraceSpan :=
  let* capture := source_log src in
  match (if 0 <=? n then spans (parsed capture) !! Z.to_nat n else None) with
  | None => Raise (EvidenceIntegrityError "trace source ordinal is unavailable")
  | Some r =>
      let t := span_at src capture n r in
      if TraceSpan_valid t then Ret t else Raise (ValueError "TraceSpan")
  end.

(** [derive_trace_span] *)
Definition derive_trace_span (src : EvidenceItem) (n : Z) : prog ev_answer EvidenceItem :=
  let* t := from_store (derive_span src n) in
  let* o := lift (Observation_make
    {| obs_source := TRACE; obs_resource := ts_service (tspan_scope t);
       obs_observed_at := end_time (captured_span (record t)); obs_query := TRACE_QUERY;
       obs_summary := span_summary t; obs_payload := dump_trace_span t |}) in
  normalize o (ts_incident_id (tspan_scope t)) (ts_start (tspan_scope t)) (ts_end (tspan_scope t)).

(** [verify_trace_span] *)
Definition verify_span (e : EvidenceItem) : aprog TraceSpan :=
  let* verified := store_verify e in
  let* derived := lift (revalidated parse_trace_span "TraceSpan" (dget verified "payload")) in
  let* expected := derive_span (tspan_source derived) (ordinal derived) in
  if negb (eqb_of derived expected) || negb (eqb_of (source e) TRACE) || negb (eqb_of (query e) TRACE_QUERY)
     || negb (eqb_of (ev_incident_id e) (ts_incident_id (tspan_scope expected)))
     || negb (eqb_of (resource e) (ts_service (tspan_scope expected)))
     || negb (eqb_of (observed_at e) (end_time (captured_span (record expected))))
     || (collected_at e <? observed_at e) || (collected_at e <? collected_at (tspan_source expected))
     || negb (eqb_of (summary e) (span_summary expected))
  then Raise (EvidenceIntegrityError "derived trace disagrees with direct LOG lineage") else Ret expected.
End spans.
