(* ===== verification/Retrieval.v ===== *)
(** * Retrieval: [payops/memory/data_clients.py]

    Retrieved context keeps the full citation of what it was retrieved from.  A derived item
    is used only after its whole chain of citations has been re-read from the store; the
    cache and the search index are untrusted, and what they return is verified again. *)

From S2P Require Import Prelude Text Json Digest Contracts Effects Reasoning Numbers Artifacts Normalize.
From S2P Require Import Baseline SandboxModels Wire Windows Spans.

Open Scope string_scope.
Open Scope list_scope.
Open Scope Z_scope.
Open Scope result_scope.
Open Scope prog_scope.

(** ** Contracts *)

Definition MAX_CACHE_BYTES : Z := 65536.
Definition MAX_SEARCH_BYTES : Z := 131072.

Inductive Kind : Type := runbook | memory.
#[export] Instance Kind_eq_dec : EqDecision Kind.
Proof. solve_decision. Defined.

Definition source_of_kind (k : Kind) : Source := match k with runbook => RUNBOOK | memory => MEMORY end.
Definition kind_of_source (s : Source) : option Kind :=
  match s with RUNBOOK => Some runbook | MEMORY => Some memory | _ => None end.
Definition kind_text (k : Kind) : string := source_name (source_of_kind k).

Definition INDEXES (k : Kind) : string :=
  match k with runbook => "payops-runbooks-v1" | memory => "payops-memory-v1" end.
Definition is_index (s : string) : bool := bool_decide (s ∈ map INDEXES [runbook; memory]).

Record EvidenceScope : Type := { sc_incident_id : string; sc_namespace : string; sc_service : string }.
#[export] Instance EvidenceScope_eq_dec : EqDecision EvidenceScope.
Proof. solve_decision. Defined.

Definition EvidenceScope_valid (s : EvidenceScope) : bool :=
  identifier_ok (sc_incident_id s) && identifier_ok (sc_namespace s) && identifier_ok (sc_service s).

Record RetrievalLineage : Type := {
  lin_scope : EvidenceScope;
  lin_index : string;
  lin_source : EvidenceItem;
  retrieved_at : datetime;
}.

Record CacheEntry : Type := {
  entry_scope : EvidenceScope;
  created_at : datetime;
  expires_at : datetime;
  entry_evidence : list EvidenceItem;
}.

(** The fields of an entry, and [CacheEntry.valid_lifetime] *)
Definition CacheEntry_valid (c : CacheEntry) : bool :=
  (len (entry_evidence c) <=? 16) && (0 <? expires_at c - created_at c) &&
  (expires_at c - created_at c <=? seconds 300).

Record SearchRequest : Type := {
  req_scope : EvidenceScope;
  req_kind : Kind;
  req_text : string;
  req_size : Z;
}.

(** [SearchRequest(...)]: its text is stripped first. *)
Definition SearchRequest_make (r : SearchRequest) : result SearchRequest :=
  let r := {| req_scope := req_scope r; req_kind := req_kind r; req_text := trim (req_text r);
              req_size := req_size r |} in
  if between 1 256 (str_len (req_text r)) && between 1 5 (req_size r) then Ok r
  else Err (ValueError "SearchRequest").

Record RetrievalDocument : Type := {
  doc_namespace : string;
  doc_service : string;
  doc_kind : Kind;
  doc_evidence : EvidenceItem;
}.

Definition is_elastic (e : EvidenceItem) : bool := starts_with "elasticsearch://" (query e).
Definition match_query (index : string) : string := "elasticsearch://" +:+ index +:+ "/fixed-scope-match".

(** ** Reading the contracts *)

Section reading.
Context `{Instants}.

Definition parse_evidence_scope (j : json) : option EvidenceScope :=
  d ← as_object j;
  id ← field_str d "incident_id";
  ns ← field_str d "namespace";
  service ← field_str d "service";
  let s := {| sc_incident_id := id; sc_namespace := ns; sc_service := service |} in
  if closed d ["incident_id"; "namespace"; "service"] && EvidenceScope_valid s then Some s else None.

Definition lineage_keys : list string :=
  ["transformation"; "scope"; "index"; "source"; "retrieved_at"; "retrieval_only"].

(** [RetrievalLineage.model_validate] *)
Definition parse_lineage (j : json) : option RetrievalLineage :=
  d ← as_object j;
  scope ← dict_find d "scope" ≫= parse_evidence_scope;
  index ← field_str d "index";
  src ← dict_find d "source" ≫= parse_evidence lax_python;
  at_ ← field_instant lax_python d "retrieved_at";
  if closed d lineage_keys && is_index index &&
     is_str (dget_or d "transformation" (JStr "payops-retrieval-v1")) "payops-retrieval-v1" &&
     is_true (dget_or d "retrieval_only" (JBool true))
  then Some {| lin_scope := scope; lin_index := index; lin_source := src; retrieved_at := at_ |} else None.

Definition parse_kind_text : json -> option Kind := named [("RUNBOOK", runbook); ("MEMORY", memory)].

(** [RetrievalDocument.model_validate] *)
Definition parse_document (j : json) : option RetrievalDocument :=
  d ← as_object j;
  ns ← field_str d "namespace";
  service ← field_str d "service";
  k ← dict_find d "kind" ≫= parse_kind_text;
  e ← dict_find d "evidence" ≫= parse_evidence lax_python;
  if closed d ["namespace"; "service"; "kind"; "evidence"] && identifier_ok ns && identifier_ok service
  then Some {| doc_namespace := ns; doc_service := service; doc_kind := k; doc_evidence := e |} else None.

(** [CacheEntry.model_validate_json] of a decoded value *)
Definition parse_entry (j : json) : option CacheEntry :=
  d ← as_object j;
  scope ← dict_find d "scope" ≫= parse_evidence_scope;
  created ← field_instant lax_json d "created_at";
  expires ← field_instant lax_json d "expires_at";
  l ← field_items (parse_evidence lax_json) d "evidence";
  let c := {| entry_scope := scope; created_at := created; expires_at := expires; entry_evidence := l |} in
  if closed d ["scope"; "created_at"; "expires_at"; "evidence"] && CacheEntry_valid c then Some c else None.

Definition validated {A} (name : string) (a : option A) : result A :=
  match a with Some a => Ok a | None => Err (ValueError name) end.
End reading.

Section retrieval.
Context `{Blob, PydanticText, !ObjectText, !Instants}.

Abbreviation aprog := (prog art_answer) (only parsing).

(** [model_dump(mode="json")] *)
Definition dump_evidence_scope (s : EvidenceScope) : json :=
  JObj [("incident_id", JStr (sc_incident_id s)); ("namespace", JStr (sc_namespace s));
        ("service", JStr (sc_service s))].
Definition dump_lineage (l : RetrievalLineage) : list (string * json) :=
  [("transformation", JStr "payops-retrieval-v1"); ("scope", dump_evidence_scope (lin_scope l));
   ("index", JStr (lin_index l)); ("source", JObj (dump_evidence (lin_source l)));
   ("retrieved_at", JStr (iso_text (retrieved_at l))); ("retrieval_only", JBool true)].
Definition dump_cache_entry (c : CacheEntry) : json :=
  JObj [("scope", dump_evidence_scope (entry_scope c)); ("created_at", JStr (iso_text (created_at c)));
        ("expires_at", JStr (iso_text (expires_at c)));
        ("evidence", JList (map (fun e => JObj (dump_evidence e)) (entry_evidence c)))].

(** ** Lineage *)

(** The comparison of an item with its lineage *)
Definition lineage_agrees (e : EvidenceItem) (k : Kind) (l : RetrievalLineage) : bool :=
  let src := lin_source l in
  eqb_of (lin_index l) (INDEXES k) && eqb_of (query e) (match_query (lin_index l)) &&
  eqb_of (ev_incident_id e) (sc_incident_id (lin_scope l)) && eqb_of (resource e) (sc_service (lin_scope l)) &&
  eqb_of (source src) (source e) && eqb_of (resource src) (resource e) && eqb_of (summary e) (summary src) &&
  eqb_of (observed_at e) (observed_at src) && (observed_at src <=? collected_at src) &&
  (collected_at src <=? retrieved_at l) && (retrieved_at l <=? collected_at e).

Definition scope_is (actual : json * json) (ns service : string) : bool :=
  is_str actual.1 ns && is_str actual.2 service.

(** [_source_scope], where [again] is [_verify_retrieval] *)
Definition source_scope (again : EvidenceItem -> list string -> aprog RetrievalLineage) (e : EvidenceItem)
  (seen : list string) : aprog (json * json) :=
  let* verified := store_verify e in
  if is_elastic e then
    let* previous := again e seen in
    Ret (JStr (sc_namespace (lin_scope previous)), JStr (sc_service (lin_scope previous)))
  else match dget verified "payload" with
       | JObj raw => Ret (dget raw "namespace", dget raw "service")
       | _ => Raise (EvidenceIntegrityError "retrieval source payload is invalid")
       end.

(** [_verify_retrieval]; [seen] is the set as it stands when the function is entered, and
    nine rounds are never used up. *)
Fixpoint verify_retrieval_loop (rounds : nat) (e : EvidenceItem) (seen : list string) {struct rounds}
  : aprog RetrievalLineage :=
  match rounds with
  | O => Raise (OtherError "RecursionError")
  | S rounds =>
      if bool_decide (artifact_sha256 e ∈ seen) || (8 <=? len seen) then
        Raise (EvidenceIntegrityError "retrieval lineage cycle or depth exceeded")
      else
        let seen := artifact_sha256 e :: seen in
        let* verified := store_verify e in
        let* lineage := lift (validated "RetrievalLineage" (parse_lineage (dget verified "payload"))) in
        match kind_of_source (source e) with
        | None => Raise (EvidenceIntegrityError "retrieval evidence kind mismatch")
        | Some k =>
            if negb (lineage_agrees e k lineage) then
              Raise (EvidenceIntegrityError "retrieval metadata disagrees with source lineage")
            else
              let* actual := source_scope (verify_retrieval_loop rounds) (lin_source lineage) seen in
              if negb (scope_is actual (sc_namespace (lin_scope lineage)) (sc_service (lin_scope lineage))) then
                Raise (EvidenceIntegrityError "retrieval source scope mismatch")
              else Ret lineage
        end
  end.

Definition LINKS : nat := 9.

(** [verify_retrieval_evidence] *)
Definition verify_retrieval (e : EvidenceItem) : aprog RetrievalLineage := verify_retrieval_loop LINKS e [].

(** [_source_scope(item, artifacts, set())] *)
Definition fresh_source_scope (e : EvidenceItem) : aprog (json * json) :=
  source_scope (verify_retrieval_loop LINKS) e [].

(** ** The transports

    [QPut] and [QRead] are the cache's, [QSearch] opens the response of one POST and [QPart] is
    its next part, never empty, or [None] at its end. *)
Record search_head : Type := { search_status : Z; search_encoding : option string }.

Inductive ret_call : Type :=
  | QEv (c : ev_call)
  | QPut (key value : string) (ttl : Z)
  | QRead (key : string)
  | QMonotonic
  | QSearch (path : string) (query : json)
  | QPart
  | QLeave.

Definition ret_answer (c : ret_call) : Type :=
  match c with
  | QEv c => ev_answer c
  | QPut _ _ _ | QLeave => unit
  | QRead _ => string
  | QMonotonic => spec_float
  | QSearch _ _ => search_head
  | QPart => option (Ascii.ascii * string)
  end.

Abbreviation qprog := (prog ret_answer) (only parsing).
Abbreviation ask := (call (R:=ret_answer)) (only parsing).

Definition on_evidence {A} (m : prog ev_answer A) : qprog A := embed (Q:=ret_answer) QEv (fun _ r => r) m.
Definition on_artifacts {A} (m : aprog A) : qprog A := on_evidence (from_store m).
Definition utc_now : qprog datetime := ask (QEv VNow).

(** ** The cache *)

(** [RedisDerivedCache._key] *)
Definition cache_key (s : EvidenceScope) : string :=
  "payops:evidence:v1:" +:+ sha256_hex (compact_text (dump_evidence_scope s)).

Fixpoint verify_cached (s : EvidenceScope) (l : list EvidenceItem) : aprog unit :=
  match l with
  | [] => Ret tt
  | e :: l =>
      if negb (eqb_of (ev_incident_id e) (sc_incident_id s)) || negb (eqb_of (resource e) (sc_service s)) then
        Raise (EvidenceIntegrityError "cached evidence scope mismatch")
      else
        do* (if is_elastic e then
               let* lineage := verify_retrieval e in
               if eqb_of (lin_scope lineage) s then Ret tt
               else Raise (EvidenceIntegrityError "cached retrieval namespace scope mismatch")
             else do* store_verify e in Ret tt) in
        verify_cached s l
  end.

(** [RedisDerivedCache._verify] *)
Definition verify_entry (c : CacheEntry) (s : EvidenceScope) : aprog unit :=
  if negb (eqb_of (entry_scope c) s) then Raise (EvidenceIntegrityError "cache scope mismatch")
  else if negb (distinct (map evidence_id (entry_evidence c))) then
    Raise (EvidenceIntegrityError "duplicate cached evidence")
  else verify_cached s (entry_evidence c).

(** [RedisDerivedCache.put] *)
Definition cache_put (s : EvidenceScope) (l : list EvidenceItem) (ttl : Z) : qprog unit :=
  if negb (between 1 300 ttl) then Raise (ValueError "cache TTL outside bounds")
  else
    let* now := utc_now in
    let c := {| entry_scope := s; created_at := now; expires_at := now + seconds ttl; entry_evidence := l |} in
    if negb (CacheEntry_valid c) then Raise (ValueError "CacheEntry")
    else
      do* on_artifacts (verify_entry c s) in
      let data := compact_text (dump_cache_entry c) in
      if MAX_CACHE_BYTES <? str_len data then Raise (EvidenceIntegrityError "cache entry exceeds byte budget")
      else ask (QPut (cache_key s) data ttl).

Context `{ModelText}.

(** [RedisDerivedCache.get] *)
Definition cache_get (s : EvidenceScope) : qprog (option (list EvidenceItem)) :=
  let* data := ask (QRead (cache_key s)) in
  if eqb_of data EmptyString then Ret None
  else if MAX_CACHE_BYTES <? str_len data then Raise (EvidenceIntegrityError "cache entry exceeds byte budget")
  else
    let* c := lift (validated "CacheEntry" (model_json data ≫= parse_entry)) in
    do* on_artifacts (verify_entry c s) in
    let* now := utc_now in
    if negb ((created_at c <=? now) && (now <? expires_at c)) then Ret None else Ret (Some (entry_evidence c)).

(** ** Search *)

Definition term (field value : string) : json := JObj [("term", JObj [(field, JStr value)])].

(** The query of [_response] *)
Definition search_query (r : SearchRequest) : json :=
  JObj [("size", JInt (req_size r)); ("timeout", JStr "2s"); ("track_total_hits", JBool false);
        ("_source", JList (map JStr ["namespace"; "service"; "kind"; "evidence"]));
        ("query", JObj [("bool", JObj
          [("filter", JList [term "namespace" (sc_namespace (req_scope r)); term "service" (sc_service (req_scope r));
                             term "kind" (kind_text (req_kind r))]);
           ("must", JList [JObj [("match", JObj [("text", JObj [("query", JStr (req_text r));
                                                                ("operator", JStr "and")])])]])])])].

Definition out_of_time : qprog unit := Raise (EvidenceIntegrityError "retrieval elapsed budget exceeded").

(** [if monotonic() - started > 3: raise] *)
Definition check_elapsed (started : spec_float) : qprog unit :=
  let* now := ask QMonotonic in
  if SFltb (float_of_Z 3) (float_sub now started) then out_of_time else Ret tt.

(** The loop over [response.iter_raw()]: a part has at least one byte, so the byte budget is
    exceeded before the rounds are used up. *)
Fixpoint read_parts (rounds : nat) (started : spec_float) (content : string) : qprog string :=
  match rounds with
  | O => Raise (EvidenceIntegrityError "retrieval exceeds byte budget")
  | S rounds =>
      let* part := ask QPart in
      match part with
      | None => Ret content
      | Some (first, rest) =>
          do* check_elapsed started in
          let content := content +:+ String first rest in
          if MAX_SEARCH_BYTES <? str_len content then
            Raise (EvidenceIntegrityError "retrieval exceeds byte budget")
          else read_parts rounds started content
      end
  end.

(** [ElasticsearchRetrieval._response] *)
Definition search_response (r : SearchRequest) : qprog string :=
  let* started := ask QMonotonic in
  let* head := ask (QSearch ("/" +:+ INDEXES (req_kind r) +:+ "/_search?allow_partial_search_results=false")
                      (search_query r)) in
  let* content :=
    finally
      (if negb (search_status head =? 200) ||
          negb (eqb_of (default "identity" (search_encoding head)) "identity")
       then Raise (EvidenceIntegrityError "retrieval response rejected")
       else read_parts (S (Z.to_nat MAX_SEARCH_BYTES)) started EmptyString)
      (ask QLeave) in
  do* check_elapsed started in
  Ret content.

(** [ElasticsearchRetrieval._item], and the digests seen afterwards *)
Definition search_item (row : json) (r : SearchRequest) (seen : list string)
  : qprog (EvidenceItem * list string) :=
  let* data := lift (object_of row) in
  let* document := lift (validated "RetrievalDocument" (parse_document (dget data "_source"))) in
  let scope := req_scope r in
  let index := INDEXES (req_kind r) in
  if negb (eqb_of (doc_namespace document, doc_service document, doc_kind document)
             (sc_namespace scope, sc_service scope, req_kind r))
  then Raise (EvidenceIntegrityError "retrieval scope mismatch")
  else
    let e := doc_evidence document in
    if bool_decide (artifact_sha256 e ∈ seen) then Raise (EvidenceIntegrityError "duplicate retrieval artifact")
    else
      let seen := artifact_sha256 e :: seen in
      if negb (is_str (dget data "_index") index) || negb (is_str (dget data "_id") (artifact_sha256 e)) then
        Raise (EvidenceIntegrityError "retrieval identity mismatch")
      else if negb (eqb_of (source e) (source_of_kind (req_kind r))) || negb (eqb_of (resource e) (sc_service scope))
      then Raise (EvidenceIntegrityError "retrieval evidence mismatch")
      else
        let* actual := on_artifacts (fresh_source_scope e) in
        if negb (scope_is actual (sc_namespace scope) (sc_service scope)) then
          Raise (EvidenceIntegrityError "retrieval artifact scope mismatch")
        else
          let* now := utc_now in
          let lineage := {| lin_scope := scope; lin_index := index; lin_source := e; retrieved_at := now |} in
          let* o := lift (Observation_make
            {| obs_source := source_of_kind (req_kind r); obs_resource := sc_service scope;
               obs_observed_at := observed_at e; obs_query := match_query index; obs_summary := summary e;
               obs_payload := dump_lineage lineage |}) in
          let* found := on_evidence (normalize o (sc_incident_id scope) (observed_at e) now) in
          do* on_artifacts (verify_retrieval found) in
          Ret (found, seen).

Fixpoint search_items (r : SearchRequest) (seen : list string) (rows : list json) : qprog (list EvidenceItem) :=
  match rows with
  | [] => Ret []
  | row :: rows =>
      let* (found, seen) := search_item row r seen in
      let* l := search_items r seen rows in Ret (found :: l)
  end.

(** What [search] checks of the decoded response; its rows *)
Definition response_rows (payload : list (string * json)) (r : SearchRequest) : result (list json) :=
  match is_false (dget payload "timed_out"), dget payload "_shards" with
  | true, JObj shards =>
      match dget shards "failed" with
      | JInt 0 =>
          match dget payload "hits" with
          | JObj hits =>
              match dget hits "hits" with
              | JList rows => if req_size r <? len rows
                              then Err (EvidenceIntegrityError "retrieval hit budget exceeded") else Ok rows
              | _ => Err (EvidenceIntegrityError "invalid retrieval hits")
              end
          | _ => Err (EvidenceIntegrityError "invalid retrieval hits")
          end
      | _ => Err (EvidenceIntegrityError "partial retrieval response")
      end
  | _, _ => Err (EvidenceIntegrityError "incomplete retrieval response")
  end.

(** [ElasticsearchRetrieval.search] *)
Definition search (r : SearchRequest) : qprog (list EvidenceItem) :=
  let* content := search_response r in
  let* payload := lift (validated "JSON_OBJECT" (model_json content ≫= as_object)) in
  let* rows := lift (response_rows payload r) in
  search_items r [] rows.
End retrieval.
Arguments ret_call {_}.
Arguments ret_answer {_} c.

(** ** The verifiers of derived evidence

    What [verification.py] and [orchestrator/context.py] rely on, discharged by the
    verifiers of windows, spans, logs and retrieved context. *)
Section checks.
Context `{WireText, PyText, !Instants, Blob, PydanticText, !ObjectText}.

#[export] Instance derived_evidence : SourceChecks := {|
  verify_payment_window e :=
    let* w := verify_window e in
    Ret (without ["inputs"] (dump_window w), [evidence_id (inputs w).1; evidence_id (inputs w).2]);
  verify_trace_span e :=
    let* t := verify_span e in Ret (without ["source"] (dump_trace_span t), evidence_id (tspan_source t));
  verify_trace_log e := do* source_log e in Ret tt;
  verify_retrieval_evidence e :=
    let* l := verify_retrieval e in Ret (lin_source l, iso_text (retrieved_at l));
|}.
End checks.
