(* ===== verification/KubeReads.v ===== *)
(** * Kubernetes reads: [payops/tools/kubernetes.py]

    Fixed [kubectl] commands whose bounded answers are checked for scope and ownership and
    projected: status without environment values, annotations or managed fields. *)

From stdpp Require Import pretty.
From S2P Require Import Prelude Text Json Digest Contracts Effects Reasoning Baseline Numbers Artifacts Normalize.
From S2P Require Import SandboxModels Wire Windows Spans.

Open Scope string_scope.
Open Scope list_scope.
Open Scope Z_scope.
Open Scope result_scope.
Open Scope prog_scope.

Definition MAX_BYTES : Z := 262144.

(** [text[:n]] and [text[-n:]] *)
Fixpoint str_take (n : nat) (s : string) : string :=
  match n, s with
  | S n, String c s => String c (str_take n s)
  | _, _ => EmptyString
  end.
Fixpoint str_drop (n : nat) (s : string) : string :=
  match n, s with
  | S n, String _ s => str_drop n s
  | _, _ => s
  end.
Definition str_last (n : nat) (s : string) : string := str_drop (String.length s - n) s.

(** ** Projections *)

(** [object_value] *)
Definition kube_object (j : json) : result (list (string * json)) :=
  match j with JObj o => Ok o | _ => Err (ValueError "expected Kubernetes object") end.

(** [items] *)
Definition items (j : json) (maximum : Z) : result (list (list (string * json))) :=
  match j with
  | JList l => if maximum <? len l then Err (ValueError "invalid or oversized Kubernetes collection")
               else rmap kube_object l
  | _ => Err (ValueError "invalid or oversized Kubernetes collection")
  end.

Definition no_object : json := JObj [].
Definition field_object (d : list (string * json)) (k : string) : result (list (string * json)) :=
  kube_object (dget_or d k no_object).
Definition items_at (d : list (string * json)) (k : string) (maximum : Z) : result (list (list (string * json))) :=
  items (dget_or d k (JList [])) maximum.

(** [selected] *)
Definition selected_keys (d : list (string * json)) (names : list string) : list (string * json) :=
  omap (fun k => v ← dict_find d k; Some (k, v)) names.
Definition selected_fields (j : json) (names : list string) : result (list (string * json)) :=
  let! d := kube_object j in Ok (selected_keys d names).

Section projections.
Context `{PyText}.

(** One container of [project_deployment] *)
Definition project_container (container : list (string * json)) : result json :=
  let projected := selected_keys container ["name"; "resources"; "readinessProbe"] in
  let projected := dset projected "image_fingerprint"
                     (JStr (sha256_hex (py_str (dget_or container "image" (JStr EmptyString))))) in
  let! env := items_at container "env" 64 in
  Ok (JObj (dset projected "env_names" (JList (map (fun entry => dget entry "name") env)))).

(** [project_deployment] *)
Definition project_deployment (value : list (string * json)) : result (list (string * json)) :=
  let! spec := field_object value "spec" in
  let! template := field_object spec "template" in
  let! template := field_object template "spec" in
  let! containers := items_at template "containers" 8 in
  let! containers := rmap project_container containers in
  let! status := selected_fields (dget_or value "status" no_object)
                   ["availableReplicas"; "readyReplicas"; "updatedReplicas"; "conditions"] in
  Ok [("kind", JStr "Deployment"); ("replicas", dget spec "replicas"); ("containers", JList containers);
      ("status", JObj status)].

(** [project_pod] *)
Definition project_pod (value : list (string * json)) : result (list (string * json)) :=
  let! raw_status := field_object value "status" in
  let status := selected_keys raw_status ["phase"; "reason"; "message"; "conditions"] in
  let! containers := items_at raw_status "containerStatuses" 8 in
  let fields := map (fun c => JObj (selected_keys c ["name"; "ready"; "restartCount"; "state"; "lastState"; "imageID"]))
                  containers in
  Ok [("kind", JStr "Pod"); ("status", JObj (dset status "containerStatuses" (JList fields)))].
End projections.

(** ** Commands

    [KInvoke] runs [kubectl] with these arguments after the fixed prefix. *)
Inductive kube_call : Type :=
  | KInvoke (arguments : list string)
  | KNow.

Definition kube_answer (c : kube_call) : Type :=
  match c with KInvoke _ => string | KNow => datetime end.

Abbreviation kprog := (prog kube_answer).
Abbreviation kube := (call (R:=kube_answer)) (only parsing).

Section reads.
Context `{WireText, PyText, !ModelText}.
Context (executable kubeconfig : string).

(** [KubernetesRead._prefix] *)
Definition kube_prefix : list string :=
  [executable; "--kubeconfig"; kubeconfig; "--context"; "kind-payops-dev"; "--namespace"; "payops-sandbox";
   "--request-timeout=8s"].

(** [KubernetesRead._get] *)
Definition kube_get (kind : string) (arguments : list string) : kprog (list (string * json)) :=
  let* raw := kube (KInvoke (kube_prefix ++ ["get"; kind] ++ arguments ++ ["-o"; "json"])) in
  if MAX_BYTES <? str_len raw then Raise (ValueError "Kubernetes response exceeds byte budget")
  else lift (match model_json raw ≫= as_object with
             | Some o => Ok o
             | None => Err (ValueError "JSON_OBJECT")
             end).

Definition service_selector (service : string) : list string := ["-l"; "app.kubernetes.io/name=" +:+ service].

(** [KubernetesRead._observation] *)
Definition kube_observation (raw payload : list (string * json)) (src : Source) : kprog Observation :=
  let* metadata := lift (field_object raw "metadata") in
  if negb (is_str (dget metadata "namespace") "payops-sandbox") then
    Raise (ValueError "Kubernetes response crosses namespace")
  else
    let name := py_str (dget_or metadata "name" (JStr EmptyString)) in
    if negb (pod_name_ok name) then Raise (ValueError "invalid resource name")
    else
      let payload := dset payload "resource_uid" (dget metadata "uid") in
      let payload := dset payload "generation" (dget metadata "generation") in
      let* now := kube KNow in
      lift (Observation_make
        {| obs_source := src; obs_resource := name; obs_observed_at := now;
           obs_query := "kubernetes.status-snapshot"; obs_summary := str_take 3500 (dumps plain (JObj payload));
           obs_payload := payload |}).

(** The loop over the pods of [collect] *)
Fixpoint collect_pods (service : string) (pods : list (list (string * json))) : kprog (list Observation) :=
  match pods with
  | [] => Ret []
  | pod :: pods =>
      let* metadata := lift (field_object pod "metadata") in
      let* labels := lift (field_object metadata "labels") in
      if negb (is_str (dget labels "app.kubernetes.io/name") service) then
        Raise (ValueError "pod response has wrong service ownership")
      else
        let* projected := lift (project_pod pod) in
        let* o := kube_observation pod projected KUBERNETES in
        let* rest := collect_pods service pods in Ret (o :: rest)
  end.

(** [KubernetesRead.collect] *)
Definition kube_collect (service : string) : kprog (list Observation) :=
  if negb (bool_decide (service ∈ services)) then Raise (ValueError "service outside read allowlist")
  else
    let* deployment := kube_get "deployment" [service] in
    let* metadata := lift (field_object deployment "metadata") in
    if negb (is_str (dget metadata "name") service) then
      Raise (ValueError "deployment response has wrong resource identity")
    else
      let* pods := kube_get "pods" (service_selector service) in
      let* observed := kube KNow in
      let* projected := lift (project_deployment deployment) in
      let* first := kube_observation deployment projected DEPLOYMENT in
      let* pods := lift (items_at pods "items" 32) in
      let* found := collect_pods service pods in
      let* last := lift (Observation_make
        {| obs_source := KUBERNETES; obs_resource := service; obs_observed_at := observed;
           obs_query := "pods.count"; obs_summary := "Observed " +:+ pretty (len found) +:+ " pods";
           obs_payload := [("pod_count", JInt (len found))] |}) in
      Ret (first :: found ++ [last]).

(** [KubernetesRead.logs] *)
Definition kube_logs (service : string) : kprog Observation :=
  if negb (bool_decide (service ∈ services)) then Raise (ValueError "service outside read allowlist")
  else
    let* raw := kube (KInvoke (kube_prefix ++
      ["logs"; "deployment/" +:+ service; "--container=sandbox"; "--tail=100"; "--since=5m"; "--timestamps=true";
       "--limit-bytes=32768"])) in
    if 32768 <? str_len raw then Raise (ValueError "log response exceeds byte budget")
    else
      let* now := kube KNow in
      let shown := str_last 3500 raw in
      lift (Observation_make
        {| obs_source := LOG; obs_resource := service; obs_observed_at := now; obs_query := "logs.5m.100";
           obs_summary := if eqb_of shown EmptyString then "No current container log lines" else shown;
           obs_payload := [("lines", JStr raw)] |}).

(** The UIDs of the current pods of a service *)
Definition event_pod (service : string) (pod : list (string * json)) : result string :=
  let! metadata := field_object pod "metadata" in
  let! labels := field_object metadata "labels" in
  match dget metadata "uid" with
  | JStr uid =>
      if is_str (dget labels "app.kubernetes.io/name") service &&
         is_str (dget metadata "namespace") "payops-sandbox"
      then Ok uid else Err (ValueError "event pod ownership is invalid")
  | _ => Err (ValueError "event pod ownership is invalid")
  end.

(** [a or b] *)
Definition py_or (a b : json) : json := if truthy a then a else b.

Definition event_keys : list string :=
  ["reason"; "message"; "count"; "type"; "firstTimestamp"; "lastTimestamp"; "eventTime"; "series"; "involvedObject"].

(** [datetime.fromisoformat(timestamp.replace("Z", "+00:00"))], as an [AwareDatetime] *)
Definition aware_iso (text : string) : result datetime :=
  match fromisoformat (with_offset text) with
  | Some (t, true) => Ok t
  | _ => Err (ValueError "AwareDatetime")
  end.

(** One event of [events]; [None] when it is passed over *)
Definition event_observation (service : string) (pod_uids : list string) (event : list (string * json))
  : result (option Observation) :=
  let! involved := field_object event "involvedObject" in
  if negb (bool_decide (py_str (dget involved "uid") ∈ pod_uids)) then Ok None
  else if negb (is_str (dget involved "namespace") "payops-sandbox") then
    Err (ValueError "event response crosses namespace")
  else
    let! metadata := field_object event "metadata" in
    if negb (is_str (dget metadata "namespace") "payops-sandbox") then
      Err (ValueError "event metadata crosses namespace")
    else
      let! series := kube_object (py_or (dget event "series") no_object) in
      match py_or (py_or (dget series "lastObservedTime") (dget event "lastTimestamp")) (dget event "eventTime") with
      | JStr text =>
          let! at_time := aware_iso text in
          let! o := Observation_make
            {| obs_source := KUBERNETES; obs_resource := service; obs_observed_at := at_time;
               obs_query := "events.current-pod-uid";
               obs_summary := str_take 3500 (py_str (dget_or event "message" (JStr "event")));
               obs_payload := selected_keys event event_keys |} in
          Ok (Some o)
      | _ => Ok None
      end.

(** [KubernetesRead.events] *)
Definition kube_events (service : string) : kprog (list Observation) :=
  if negb (bool_decide (service ∈ services)) then Raise (ValueError "service outside read allowlist")
  else
    let* pods := kube_get "pods" (service_selector service) in
    let* pods := lift (items_at pods "items" 32) in
    let* pod_uids := lift (rmap (event_pod service) pods) in
    let* raw := kube_get "events" ["--field-selector"; "involvedObject.kind=Pod"] in
    let* events := lift (items_at raw "items" 256) in
    let* found := lift (rmap (event_observation service pod_uids) events) in
    Ret (omap id found).
End reads.
