(* ===== verification/Reads.v ===== *)
(** * Operational reads: [payops/tools/payment.py] and [operational_reads.py]

    The trusted bindings of the read registry: its authorization, its reads and its
    verification, over the Kubernetes and Prometheus adapters, the search index and the store
    of artifacts. *)

From S2P Require Import Prelude Text Json Contracts Effects Policy Reasoning Baseline Numbers Artifacts Normalize.
From S2P Require Import SandboxModels Wire Windows Spans Retrieval KubeReads.

Open Scope string_scope.
Open Scope list_scope.
Open Scope Z_scope.
Open Scope result_scope.
Open Scope prog_scope.

(** ** What the bindings ask for

    [DQuery] opens the response of one Prometheus query, whose parts [QPart] reads; [DPrincipal]
    asks the host who is signed in. *)
Section calls.
Context `{Blob}.

Inductive read_call : Type :=
  | DKube (c : kube_call)
  | DRet (c : ret_call)
  | DPrincipal
  | DQuery (query : string) (at_time : spec_float).

Definition read_answer (c : read_call) : Type :=
  match c with
  | DKube c => kube_answer c
  | DRet c => ret_answer c
  | DPrincipal => option Principal
  | DQuery _ _ => search_head
  end.
End calls.

Section reads.
Context `{WireText, PyText, !ModelText, !JsonLoads, !Instants, Blob, PydanticText, !ObjectText}.
Context (executable kubeconfig : string).

Abbreviation rprog := (prog read_answer).
Abbreviation ask := (call (R:=read_answer)) (only parsing).

Definition on_kube {A} (m : prog kube_answer A) : rprog A := embed (Q:=read_answer) DKube (fun _ r => r) m.
Definition on_retrieval {A} (m : prog ret_answer A) : rprog A := embed (Q:=read_answer) DRet (fun _ r => r) m.
Definition from_files {A} (m : prog art_answer A) : rprog A := on_retrieval (on_artifacts m).
Definition clock : rprog datetime := on_retrieval utc_now.
Definition monotonic : rprog spec_float := ask (DRet QMonotonic).

(** ** Payment snapshots *)

(** [unique_object] *)
Fixpoint unique_object_loop (found pairs : list (string * json)) : result (list (string * json)) :=
  match pairs with
  | [] => Ok found
  | (k, v) :: pairs =>
      if dhas found k then Err (ValueError "duplicate provider JSON key")
      else unique_object_loop (dset found k v) pairs
  end.
Definition unique_object (pairs : list (string * json)) : result (list (string * json)) :=
  unique_object_loop [] pairs.

(** The constants [json.loads] knows *)
Definition json_constant (text : string) : result json :=
  Ok (JFloat (if eqb_of text "NaN" then S754_nan else S754_infinity (eqb_of text "-Infinity"))).

Definition MAX_SNAPSHOT_BYTES : Z := 131072.

Definition snapshot_elapsed (started : spec_float) : rprog unit :=
  let* now := monotonic in
  if SFltb (float_of_Z 5) (float_sub now started) then
    Raise (ValueError "payment response elapsed budget exceeded")
  else Ret tt.

(** The loop over the chunks; each has at least one byte. *)
Fixpoint snapshot_chunks (rounds : nat) (started : spec_float) (content : string) : rprog string :=
  match rounds with
  | O => Raise (ValueError "payment response exceeds byte budget")
  | S rounds =>
      let* part := ask (DRet QPart) in
      match part with
      | None => Ret content
      | Some (first, rest) =>
          do* snapshot_elapsed started in
          let content := content +:+ String first rest in
          if MAX_SNAPSHOT_BYTES <? str_len content then Raise (ValueError "payment response exceeds byte budget")
          else snapshot_chunks rounds started content
      end
  end.

(** [PaymentRead._snapshot_query] *)
Definition snapshot_query (query : string) (at_time : spec_float) : rprog (list (string * json)) :=
  let* started := monotonic in
  let* head := ask (DQuery query at_time) in
  let* content :=
    finally
      (if negb (between 200 299 (search_status head)) then Raise (OtherError "HTTPStatusError")
       else if negb (eqb_of (lower (default "identity" (search_encoding head))) "identity") then
         Raise (ValueError "compressed payment response denied")
       else
         let* content := snapshot_chunks (S (Z.to_nat MAX_SNAPSHOT_BYTES)) started EmptyString in
         do* snapshot_elapsed started in
         Ret content)
      (ask (DRet QLeave)) in
  let* loaded := lift (json_loads unique_object json_constant content) in
  lift (object_of loaded).

(** [PaymentRead.snapshot] *)
Definition payment_read (service : string) (at_time : option datetime) : rprog Observation :=
  let* (q, watermark_query) := lift (snapshot_queries service) in
  let* instant := match at_time with Some t => Ret t | None => clock end in
  let* now := clock in
  if now <? instant then Raise (ValueError "snapshot requires a nonfuture aware time")
  else
    let evaluated := float_timestamp instant in
    let* metrics := snapshot_query q evaluated in
    let* mark := snapshot_query watermark_query evaluated in
    let payload := [("evaluated_at", JFloat evaluated); ("query", JStr q); ("watermark_query", JStr watermark_query);
                    ("metrics", JObj metrics); ("watermark", JObj mark)] in
    let* collected := clock in
    lift (snapshot_observation payload service collected).

(** ** The bindings *)

Definition NAMESPACE : string := "payops-sandbox".
Definition FRESH : Z := seconds 300.

Context (bound_incident bound_subject : string).

(** [OperationalReads._authorize] *)
Definition reads_authorize : rprog bool :=
  let* p := ask DPrincipal in
  match p with
  | None => Ret false
  | Some p =>
      if negb (eqb_of (subject p) bound_subject) then Ret false
      else
        let* now := clock in
        Ret (identity_valid (Some p) responder NAMESPACE now)
  end.

Definition own_scope (service : string) : EvidenceScope :=
  {| sc_incident_id := bound_incident; sc_namespace := NAMESPACE; sc_service := service |}.

Definition fresh_at (now observed : datetime) : bool := (now - FRESH <=? observed) && (observed <=? now).

(** The instant whose freshness [_verify] checks *)
Definition observed_instant (e : EvidenceItem) : rprog datetime :=
  match source e with
  | RUNBOOK | MEMORY =>
      let* lineage := from_files (verify_retrieval e) in
      if eqb_of (lin_scope lineage) (own_scope (resource e)) then Ret (retrieved_at lineage)
      else Raise (EvidenceIntegrityError "foreign retrieval scope")
  | PROMETHEUS =>
      let* verified := from_files (store_verify e) in
      match dget verified "payload" with
      | JObj payload =>
          if negb (bool_decide (resource e ∈ services)) then Raise (ValueError "Service")
          else
            let* collected := clock in
            let* parsed := lift (snapshot_observation payload (resource e) collected) in
            if eqb_of (query e) (obs_query parsed) && eqb_of (observed_at e) (obs_observed_at parsed)
            then Ret (observed_at e)
            else Raise (EvidenceIntegrityError "payment snapshot metadata mismatch")
      | _ => Raise (EvidenceIntegrityError "invalid payment snapshot payload")
      end
  | _ =>
      let* verified := from_files (store_verify e) in
      match dget verified "payload" with
      | JObj payload =>
          if scope_is (dget payload "namespace", dget payload "service") NAMESPACE (resource e)
          then Ret (observed_at e)
          else Raise (EvidenceIntegrityError "foreign raw scope")
      | _ => Raise (EvidenceIntegrityError "foreign raw scope")
      end
  end.

(** [OperationalReads._verify] *)
Definition reads_verify (e : EvidenceItem) : rprog unit :=
  do* from_files (verify_evidence e) in
  let* now := clock in
  if negb (eqb_of (ev_incident_id e) bound_incident) then Raise (EvidenceIntegrityError "foreign read incident")
  else
    let* observed := observed_instant e in
    if fresh_at now observed then Ret tt
    else Raise (EvidenceIntegrityError "read evidence outside freshness window").

Definition requested (r : ReadRequest) : string := Reasoning.service_name (service r).

(** [expected] of [_project] *)
Definition expected_reads (t : ToolName) (service : string) : list (Source * string) :=
  match t with
  | pod_events => [(KUBERNETES, "events.current-pod-uid")]
  | recent_logs => [(LOG, "logs.5m.100")]
  | payment_snapshot => match snapshot_queries service with inr (q, _) => [(PROMETHEUS, q)] | inl _ => [] end
  | workload_status =>
      [(DEPLOYMENT, "kubernetes.status-snapshot"); (KUBERNETES, "kubernetes.status-snapshot");
       (KUBERNETES, "pods.count")]
  | _ => []
  end.

(** The name of a pod of the service, in a snapshot of its status *)
Definition pod_resource (r : ReadRequest) (o : Observation) : bool :=
  eqb_of (tool r) workload_status && eqb_of (obs_source o) KUBERNETES &&
  eqb_of (obs_query o) "kubernetes.status-snapshot" && is_str (dget (obs_payload o) "kind") "Pod" &&
  starts_with (requested r +:+ "-") (obs_resource o).

(** A key of a payload that is absent, or has this value *)
Definition absent_or (payload : list (string * json)) (k v : string) : bool :=
  match dict_find payload k with Some j => is_str j v | None => true end.

(** The host's assignments *)
Definition bound_payload (o : Observation) (service : string) : list (string * json) :=
  dset (dset (dset (obs_payload o) "original_resource" (JStr (obs_resource o)))
          "namespace" (JStr NAMESPACE)) "service" (JStr service).

(** [OperationalReads._project] *)
Definition project_read (r : ReadRequest) (o : Observation) (now : datetime) : rprog Observation :=
  let name := requested r in
  let* o := lift (Observation_make o) in
  if negb (bool_decide ((obs_source o, obs_query o) ∈ expected_reads (tool r) name)) then
    Raise (ValueError "read source or query mismatch")
  else if negb (eqb_of (obs_resource o) name) && negb (pod_resource r o) then
    Raise (ValueError "read resource mismatch")
  else if negb (fresh_at now (obs_observed_at o)) then
    Raise (ValueError "raw observation outside freshness window")
  else if eqb_of (obs_source o) PROMETHEUS then
    let* collected := clock in
    let* parsed := lift (snapshot_observation (obs_payload o) name collected) in
    if eqb_of (obs_observed_at o) (obs_observed_at parsed) then Ret o
    else Raise (ValueError "payment snapshot observation time mismatch")
  else if negb (absent_or (obs_payload o) "namespace" NAMESPACE) || negb (absent_or (obs_payload o) "service" name)
  then Raise (ValueError "raw payload scope mismatch")
  else lift (Observation_make
    {| obs_source := obs_source o; obs_resource := name; obs_observed_at := obs_observed_at o;
       obs_query := obs_query o; obs_summary := obs_summary o; obs_payload := bound_payload o name |}).

(** A generator, evaluated in order *)
Fixpoint each {A B} (f : A -> rprog B) (l : list A) : rprog (list B) :=
  match l with
  | [] => Ret []
  | x :: l => let* y := f x in let* ys := each f l in Ret (y :: ys)
  end.

(** [OperationalReads._search] *)
Definition search_kind (t : ToolName) : Kind := match t with runbook_search => runbook | _ => memory end.
Definition read_search (r : ReadRequest) : rprog (list EvidenceItem) :=
  let name := requested r in
  let k := search_kind (tool r) in
  let* request := lift (SearchRequest_make
    {| req_scope := own_scope name; req_kind := k; req_text := default EmptyString (query_text r); req_size := 3 |}) in
  let* found := on_retrieval (search request) in
  if 3 <? len found then Raise (ValueError "retrieval count exceeded")
  else
    do* each (fun e =>
      if negb (eqb_of (source e) (source_of_kind k)) || negb (eqb_of (resource e) name) then
        Raise (ValueError "retrieval source or service mismatch")
      else reads_verify e) found in
    Ret found.

(** The adapter a tool reads *)
Definition read_source (r : ReadRequest) : rprog (list Observation) :=
  let name := requested r in
  match tool r with
  | workload_status => on_kube (kube_collect executable kubeconfig name)
  | pod_events => on_kube (kube_events executable kubeconfig name)
  | recent_logs => let* o := on_kube (kube_logs executable kubeconfig name) in Ret [o]
  | _ => let* o := payment_read name None in Ret [o]
  end.

(** [OperationalReads._read] *)
Definition reads_read (r : ReadRequest) : rprog (list EvidenceItem) :=
  let* r := lift (ReadRequest_validate r) in
  if is_search (tool r) then read_search r
  else
    let* observations := read_source r in
    let* now := clock in
    if 64 <? len observations then Raise (ValueError "read evidence count exceeded")
    else
      let* projected := each (fun o => project_read r o now) observations in
      let* found := each (fun o => on_retrieval (on_evidence (normalize o bound_incident (now - FRESH) now))) projected in
      do* each reads_verify found in
      Ret found.
End reads.
Arguments read_call {_}.
Arguments read_answer {_} c.
