(* ===== verification/Collect.v ===== *)
(** * Collection: [payops/tools/prometheus.py], [collect.py] and [window_collect.py]

    Operator commands that read a fixed plan, keep what could be normalized and verified, and
    record every failure. *)

From S2P Require Import Prelude Text Json Contracts Effects Policy Reasoning Investigation Baseline Numbers Artifacts Normalize.
From S2P Require Import SandboxModels Wire Windows Spans Retrieval KubeReads Reads.

Open Scope string_scope.
Open Scope list_scope.
Open Scope Z_scope.
Open Scope result_scope.
Open Scope prog_scope.

(** ** Contracts *)

(** [type(error).__name__] *)
Class ErrorNames : Type := class_name : exn -> string.

Record WindowPlan : Type := { plan_incident_id : string; plan_services : string * string }.

(** [window_plan] *)
Definition window_plan (i : Incident) : result WindowPlan :=
  let service := req_service (request i) in
  if negb (eqb_of (req_namespace (request i)) "payops-sandbox") then
    Err (ValueError "unsupported payment window scope")
  else if bool_decide (service ∈ ["payments-api"; "processor-adapter"]) then
    Ok {| plan_incident_id := incident_id i; plan_services := ("payments-api", "processor-adapter") |}
  else if eqb_of service "webhook-sim" then
    Ok {| plan_incident_id := incident_id i; plan_services := ("webhook-sim", "payments-api") |}
  else Err (ValueError "unsupported payment window service").

(** [sorted(SERVICES)] *)
Definition sorted_services : list string :=
  ["ledger-sim"; "payments-api"; "processor-adapter"; "risk-sim"; "webhook-sim"].

(** [QUERIES] *)
Definition scrape (metric scope : string) : string :=
  metric +:+ "{job=" +:+ quote +:+ "payops-sandbox" +:+ quote +:+ scope +:+ "}".
Definition payments_scope : string := ",service=" +:+ quote +:+ "payments-api" +:+ quote.
Definition QUERIES : list (string * string) :=
  [("requests", scrape "payment_requests_total" payments_scope);
   ("latency", scrape "payment_authorization_latency_seconds_bucket" payments_scope);
   ("declines", scrape "payment_declines_total" payments_scope);
   ("conflicts", scrape "payment_idempotency_conflicts_total" payments_scope);
   ("targets", scrape "up" EmptyString)].
Definition sorted_signals : list string := ["conflicts"; "declines"; "latency"; "requests"; "targets"].

(** What an attempt of these commands may fail with, and go on *)
Definition is_provider_error (e : exn) : bool :=
  bool_decide (e ∈ map OtherError ["SubprocessError"; "HTTPError"; "HTTPStatusError"]).
Definition is_collected (e : exn) : bool := is_ValueError e || is_OSError e || is_provider_error e.

(** The [float] field of a pydantic model, not strict *)
Class LaxFloat : Type := lax_float : json -> option spec_float.

Section calls.
Context `{Blob}.

(** What is written once, and never overwritten *)
Inductive retained_record : Type :=
  | RPlan (p : WindowPlan)
  | RStart (t : datetime)
  | RInterval (i : MeasurementInterval)
  | RCollection (c : Collection).

(** [CVector] opens the response of a query without a time; [CRetain] creates a file that must
    not exist, [CWrite] writes the collection of [collect_local]. *)
Inductive col_call : Type :=
  | CRead (c : read_call)
  | CVector (query : string)
  | CPrepare
  | CRetain (r : retained_record)
  | CWrite (c : Collection)
  | CSleep (f : spec_float).

Definition col_answer (c : col_call) : Type :=
  match c with
  | CRead c => read_answer c
  | CVector _ => search_head
  | _ => unit
  end.
End calls.

Section collect.
Context `{WireText, PyText, !ModelText, !JsonLoads, !LaxFloat, !ErrorNames, !Instants, Blob, PydanticText, !ObjectText}.
Context (executable kubeconfig : string).

Abbreviation cprog := (prog col_answer).
Abbreviation ask := (call (R:=col_answer)) (only parsing).

Definition on_bindings {A} (m : prog read_answer A) : cprog A := embed (Q:=col_answer) CRead (fun _ r => r) m.
Definition wall_clock : cprog datetime := on_bindings clock.
Definition kept_item (o : Observation) (incident : string) (start now : datetime) : cprog EvidenceItem :=
  let* e := on_bindings (on_retrieval (on_evidence (normalize o incident start (now + seconds 1)))) in
  do* on_bindings (from_files (store_verify e)) in
  Ret e.

(** ** Prometheus signals *)

(** A [VectorSample] *)
Definition vector_sample (j : json) : option (list (string * json) * (spec_float * string)) :=
  d ← as_object j;
  labels ← dict_find d "metric" ≫= as_object;
  v ← match dict_find d "value" with
      | Some (JList [at_time; JStr text]) => t ← lax_float at_time; Some (t, text)
      | _ => None
      end;
  if closed d ["metric"; "value"] && forallb (fun kv => is_text kv.2) labels then Some (labels, v) else None.

Definition sample_ok (signal : string) (sample : list (string * json) * (spec_float * string)) : result unit :=
  let '(labels, (t, text)) := sample in
  if negb (existsb (is_str (dget labels "service")) services) ||
     (negb (eqb_of signal "targets") && negb (is_str (dget labels "service") "payments-api"))
  then Err (ValueError "Prometheus sample has unexpected service scope")
  else match float_of_string text with
       | None => if is_finite t then Err (ValueError "could not convert string to float")
                 else Err (ValueError "Prometheus sample is nonfinite")
       | Some f => if is_finite t && is_finite f then Ok tt else Err (ValueError "Prometheus sample is nonfinite")
       end.

(** [validate_samples] *)
Definition validate_samples (results : list json) (signal : string) : result unit :=
  match mapM vector_sample results with
  | None => Err (ValueError "VectorSample")
  | Some samples => rforeach (sample_ok signal) samples
  end.

(** The loop over the chunks; each has at least one byte. *)
Fixpoint vector_chunks (rounds : nat) (content : string) : cprog string :=
  match rounds with
  | O => Raise (ValueError "Prometheus response exceeds byte budget")
  | S rounds =>
      let* part := ask (CRead (DRet QPart)) in
      match part with
      | None => Ret content
      | Some (first, rest) =>
          let content := content +:+ String first rest in
          if 131072 <? str_len content then Raise (ValueError "Prometheus response exceeds byte budget")
          else vector_chunks rounds content
      end
  end.

(** The rows of the response of [query] *)
Definition signal_rows (payload : list (string * json)) : result (list json) :=
  if negb (is_str (dget payload "status") "success") then Err (ValueError "Prometheus query failed")
  else match dget payload "data" with
       | JObj data =>
           if negb (is_str (dget data "resultType") "vector") then
             Err (ValueError "invalid Prometheus instant-vector response")
           else match dget data "result" with
                | JList l => if 512 <? len l then Err (ValueError "invalid or oversized Prometheus series") else Ok l
                | _ => Err (ValueError "invalid or oversized Prometheus series")
                end
       | _ => Err (ValueError "invalid Prometheus instant-vector response")
       end.

(** [PrometheusRead.query] *)
Definition prometheus_query (signal : string) : cprog Observation :=
  match snd <$> List.find (fun kv => eqb_of kv.1 signal) QUERIES with
  | None => Raise (ValueError "signal outside Prometheus allowlist")
  | Some q =>
      let* head := ask (CVector q) in
      let* content :=
        finally
          (if negb (between 200 299 (search_status head)) then Raise (OtherError "HTTPStatusError")
           else vector_chunks (S (Z.to_nat 131072)) EmptyString)
          (ask (CRead (DRet QLeave))) in
      let* payload := lift (validated "JSON_OBJECT" (model_json content ≫= as_object)) in
      let* rows := lift (signal_rows payload) in
      do* lift (validate_samples rows signal) in
      let* now := wall_clock in
      lift (Observation_make
        {| obs_source := PROMETHEUS;
           obs_resource := if eqb_of signal "targets" then "sandbox-scrapes" else "payments-api";
           obs_observed_at := now; obs_query := q;
           obs_summary := "Prometheus " +:+ signal +:+ ": " +:+ str_take 3300 (py_str (dget payload "data"));
           obs_payload := payload |})
  end.

(** ** The fixed reads *)

Inductive fixed_read : Type :=
  | KubeStatus (service : string)
  | KubeEvents (service : string)
  | KubeLogs (service : string)
  | Signal (signal : string)
  | Snapshot (service : string).

Definition read_tool (r : fixed_read) : string :=
  match r with
  | KubeStatus _ => "kubernetes"
  | KubeEvents _ => "events"
  | KubeLogs _ => "logs"
  | Signal _ => "prometheus"
  | Snapshot _ => "payment_snapshot"
  end.
Definition read_resource (r : fixed_read) : string :=
  match r with KubeStatus s | KubeEvents s | KubeLogs s | Signal s | Snapshot s => s end.

Definition perform (r : fixed_read) : cprog (list Observation) :=
  match r with
  | KubeStatus s => on_bindings (on_kube (kube_collect executable kubeconfig s))
  | KubeEvents s => on_bindings (on_kube (kube_events executable kubeconfig s))
  | KubeLogs s => let* o := on_bindings (on_kube (kube_logs executable kubeconfig s)) in Ret [o]
  | Signal s => let* o := prometheus_query s in Ret [o]
  | Snapshot s => let* o := on_bindings (payment_read s None) in Ret [o]
  end.

(** ** What has been collected so far *)

Record batch : Type := { b_evidence : list EvidenceItem; b_failures : list CollectionFailure }.
Definition empty_batch : batch := {| b_evidence := []; b_failures := [] |}.
Definition add_evidence (e : EvidenceItem) (b : batch) : batch :=
  {| b_evidence := b_evidence b ++ [e]; b_failures := b_failures b |}.
Definition add_failure (tool resource l : string) (b : batch) : batch :=
  {| b_evidence := b_evidence b;
     b_failures := b_failures b ++ [{| cf_tool := tool; cf_resource := resource; error_type := l |}] |}.

(** ** [collect_local] *)

(** The observations of one call; an error ends it. *)
Fixpoint local_items (r : fixed_read) (incident : string) (start : datetime) (b : batch) (l : list Observation)
  : cprog (batch * option exn) :=
  match l with
  | [] => Ret (b, None)
  | o :: l =>
      if obs_observed_at o <? start then
        local_items r incident start (add_failure (read_tool r) (read_resource r) "OutsideQueryWindow" b) l
      else
        let* out := attempt (let* now := wall_clock in kept_item o incident start now) in
        match out with
        | inr e => local_items r incident start (add_evidence e b) l
        | inl e => Ret (b, Some e)
        end
  end.

(** One turn of the loop over the calls *)
Definition local_call (incident : string) (start : datetime) (b : batch) (r : fixed_read) : cprog batch :=
  let* out := attempt (perform r) in
  let* (b, failed) := match out with
                      | inl e => Ret (b, Some e)
                      | inr l => local_items r incident start b l
                      end in
  match failed with
  | None => Ret b
  | Some e => if is_collected e then Ret (add_failure (read_tool r) (read_resource r) (class_name e) b) else Raise e
  end.

Fixpoint local_calls (incident : string) (start : datetime) (b : batch) (l : list fixed_read) : cprog batch :=
  match l with
  | [] => Ret b
  | r :: l => let* b := local_call incident start b r in local_calls incident start b l
  end.

Definition local_plan : list fixed_read :=
  map KubeStatus sorted_services ++ map KubeEvents sorted_services ++ map KubeLogs sorted_services ++
  map Signal sorted_signals.

(** [collect_local] *)
Definition collect_local (given : option string) : cprog Collection :=
  let* incident := match given with
                   | Some id => if eqb_of id EmptyString then ask (CRead (DRet (QEv VNewId))) else Ret id
                   | None => ask (CRead (DRet (QEv VNewId)))
                   end in
  let* now := wall_clock in
  let* b := local_calls incident (now - seconds 300) empty_batch local_plan in
  let c := {| col_incident_id := incident; col_evidence := b_evidence b; col_failures := b_failures b |} in
  do* ask CPrepare in
  do* ask (CWrite c) in
  Ret c.

(** ** [WindowBatch] *)

Section window.
Context (plan : WindowPlan) (window_from : datetime).

(** [WindowBatch.keep] *)
Definition batch_keep (b : batch) (o : Observation) (tool resource : string)
  : cprog (batch * option EvidenceItem) :=
  let* out := attempt (let* now := wall_clock in kept_item o (plan_incident_id plan) window_from now) in
  match out with
  | inr e => Ret (add_evidence e b, Some e)
  | inl e => if is_ValueError e || is_OSError e then Ret (add_failure tool resource (class_name e) b, None) else Raise e
  end.

(** The loop of [WindowBatch.capture] *)
Fixpoint capture_loop (r : fixed_read) (b : batch) (kept : list EvidenceItem) (l : list Observation)
  : cprog (batch * list EvidenceItem) :=
  match l with
  | [] => Ret (b, kept)
  | o :: l =>
      let* out := attempt (batch_keep b o (read_tool r) (read_resource r)) in
      match out with
      | inr (b, Some e) => capture_loop r b (kept ++ [e]) l
      | inr (b, None) => capture_loop r b kept l
      | inl e => if is_collected e then Ret (add_failure (read_tool r) (read_resource r) (class_name e) b, kept)
                 else Raise e
      end
  end.

(** [WindowBatch.capture] *)
Definition capture (b : batch) (r : fixed_read) : cprog (batch * list EvidenceItem) :=
  let* out := attempt (perform r) in
  match out with
  | inr l => capture_loop r b [] l
  | inl e => if is_collected e then Ret (add_failure (read_tool r) (read_resource r) (class_name e) b, []) else Raise e
  end.

Definition plan_pair (p : WindowPlan) : list string := [(plan_services p).1; (plan_services p).2].

(** [WindowCollector._snapshots] *)
Fixpoint snapshots (b : batch) (l : list string) : cprog (batch * list (string * EvidenceItem)) :=
  match l with
  | [] => Ret (b, [])
  | service :: l =>
      let* (b, items) := capture b (Snapshot service) in
      let* (b, rest) := snapshots b l in
      Ret (b, match items with e :: _ => (service, e) :: rest | [] => rest end)
  end.

(** [WindowCollector._workload_reads] *)
Fixpoint workload_reads (b : batch) (l : list fixed_read) : cprog batch :=
  match l with
  | [] => Ret b
  | r :: l => let* (b, _) := capture b r in workload_reads b l
  end.

Definition workload_plan : list fixed_read :=
  flat_map (fun s => [KubeStatus s; KubeEvents s; KubeLogs s]) sorted_services ++ [Signal "targets"].

Definition item_of (d : list (string * EvidenceItem)) (service : string) : result EvidenceItem :=
  match snd <$> List.find (fun kv => eqb_of kv.1 service) d with
  | Some e => Ok e
  | None => Err (KeyError service)
  end.

(** [WindowBatch.derive] *)
Fixpoint batch_derive (before after : list (string * EvidenceItem)) (i : MeasurementInterval) (b : batch)
  (l : list string) : cprog batch :=
  match l with
  | [] => Ret b
  | service :: l =>
      let* out := attempt
        (let* x := lift (item_of before service) in
         let* y := lift (item_of after service) in
         on_bindings (on_retrieval (on_evidence (derive_payment_window x y i)))) in
      match out with
      | inr e => batch_derive before after i (add_evidence e b) l
      | inl e => if is_KeyError e || is_ValueError e || is_OSError e
                 then batch_derive before after i (add_failure "payment_window" service (class_name e) b) l
                 else Raise e
      end
  end.
End window.

(** [WindowCollector.__call__] *)
Definition window_collect (incident : Incident) : cprog Collection :=
  let* plan := lift (window_plan incident) in
  do* ask CPrepare in
  do* ask (CRetain (RPlan plan)) in
  let* now := wall_clock in
  let from := now - seconds 300 in
  let* (b, before) := snapshots plan from empty_batch (plan_pair plan) in
  let* start := wall_clock in
  do* ask (CRetain (RStart start)) in
  let* b := workload_reads plan from b workload_plan in
  let* stop := wall_clock in
  let i := {| mi_incident_id := incident_id incident; mi_start := start; mi_end := stop |} in
  let* b :=
    if negb (MeasurementInterval_valid i) then
      Ret (add_failure "payment_window" (req_service (request incident)) "MeasurementIntervalExceeded" b)
    else
      do* ask (CRetain (RInterval i)) in
      do* ask (CSleep (float_lit 52 10)) in
      let* (b, after) := snapshots plan from b (plan_pair plan) in
      batch_derive before after i b (plan_pair plan) in
  let c := {| col_incident_id := plan_incident_id plan; col_evidence := b_evidence b; col_failures := b_failures b |} in
  do* ask (CRetain (RCollection c)) in
  Ret c.
End collect.
Arguments col_call {_}.
Arguments col_answer {_} c.
