(* ===== verification/Traces.v ===== *)
(** * Trace reads: [payops/tools/traces.py]

    Bounded reads of the logs of identified containers, under one budget of commands, bytes and
    time; the graph of the spans found; and what is retained of them.  The subprocess that runs
    a command is a request. *)

From S2P Require Import Prelude Text Json Digest Contracts Effects Reasoning Baseline Numbers Artifacts Normalize.
From S2P Require Import SandboxModels Wire Windows Spans KubeReads.

Open Scope string_scope.
Open Scope list_scope.
Open Scope Z_scope.
Open Scope result_scope.
Open Scope prog_scope.

Definition MAX_COMMANDS_PER_SERVICE : Z := 8.
Definition MAX_COMMANDS : Z := 40.
Definition MAX_SECONDS : spec_float := float_of_Z 30.
Definition MAX_METADATA_BYTES : Z := 1048576.
Definition MAX_SOURCE_BYTES : Z := 10 * MAX_LOG_BYTES.

(** [datetime.isoformat], in the zone the instant was given in *)
Class StampText : Type := isoformat : datetime -> string.

(** ** Kubernetes objects *)

Definition kobject : Type := list (string * json).

(** [_object] *)
Definition trace_object (j : json) : result kobject :=
  match j with JObj o => Ok o | _ => Err (ValueError "Kubernetes object required") end.

(** [_items] *)
Definition trace_items (j : json) (maximum : Z) : result (list kobject) :=
  match j with
  | JList l => if maximum <? len l then Err (ValueError "Kubernetes list exceeds trace reader scope")
               else rmap trace_object l
  | _ => Err (ValueError "Kubernetes list exceeds trace reader scope")
  end.

(** [_text] *)
Definition trace_text (j : json) : result string :=
  match j with
  | JStr s => if between 1 128 (str_len s) then Ok s else Err (ValueError "Kubernetes identity string required")
  | _ => Err (ValueError "Kubernetes identity string required")
  end.

(** [_metadata] *)
Definition trace_metadata (raw : kobject) (scope : TraceScope) (name : option string) : result kobject :=
  let! metadata := trace_object (dget raw "metadata") in
  let! labels := trace_object (dget metadata "labels") in
  if negb (is_str (dget metadata "namespace") "payops-sandbox")
     || negb (is_str (dget labels "app.kubernetes.io/name") (ts_service scope))
     || negb (some_all (is_str (dget metadata "name")) name)
  then Err (ValueError "trace resource crosses namespace or service ownership")
  else Ok metadata.

(** [_owner] *)
Definition trace_owner (metadata : kobject) (kind : string) : result kobject :=
  let! references := trace_items (dget metadata "ownerReferences") 8 in
  match List.filter (fun owner => is_true (dget owner "controller")) references with
  | [owner] =>
      if is_str (dget owner "kind") kind && is_str (dget owner "apiVersion") "apps/v1" then Ok owner
      else Err (ValueError "trace resource controller ownership is invalid")
  | _ => Err (ValueError "trace resource controller ownership is invalid")
  end.

(** [_identity] *)
Definition trace_identity (raw : kobject) (scope : TraceScope) (deployment_uid replica_uid : string)
  : result PodIdentity :=
  let! metadata := trace_metadata raw scope None in
  let! owner := trace_owner metadata "ReplicaSet" in
  if negb (is_str (dget owner "uid") replica_uid) then Err (ValueError "trace pod controller changed")
  else
    let! status := trace_object (dget raw "status") in
    let! statuses := trace_items (dget status "containerStatuses") 8 in
    match List.filter (fun entry => is_str (dget entry "name") "sandbox") statuses with
    | [entry] =>
        match parse_identity (JObj
          [("pod_name", dget metadata "name"); ("pod_uid", dget metadata "uid");
           ("deployment_uid", JStr deployment_uid); ("replica_set_uid", JStr replica_uid);
           ("container_id", dget entry "containerID"); ("restart_count", dget entry "restartCount")])
        with
        | Some i => Ok i
        | None => Err (ValueError "PodIdentity")
        end
    | _ => Err (ValueError "exact sandbox container status required")
    end.

(** [all(char.isalnum() or char == "-" for char in name)] *)
Definition name_char (c : Ascii.ascii) : bool :=
  ascii_between 48 57 c || ascii_between 65 90 c || ascii_between 97 122 c || is_char 45 c.

(** ** The graph of the spans *)

Definition span_key (s : SourceSpan) : string * string := (trace_id s, span_id s).

(** The values of the dict [nodes], under their keys *)
Definition graph_node (nodes : list SourceSpan) (key : string * string) : option SourceSpan :=
  List.find (fun s => eqb_of (span_key s) key) nodes.

(** The first loop of [summarize_graph] *)
Fixpoint graph_nodes (nodes spans : list SourceSpan) : result (list SourceSpan) :=
  match spans with
  | [] => Ok nodes
  | s :: spans =>
      match graph_node nodes (span_key s) with
      | Some known =>
          if eqb_of known s then graph_nodes nodes spans
          else Err (EvidenceIntegrityError "conflicting duplicate trace span")
      | None => graph_nodes (nodes ++ [s]) spans
      end
  end.

Definition parent_key (s : SourceSpan) : option (string * string) :=
  p ← parent_id s; Some (trace_id s, p).

(** The walk from one node to its ancestors; one round per node is enough. *)
Fixpoint parent_walk (rounds : nat) (nodes : list SourceSpan) (seen : list (string * string)) (current : SourceSpan)
  : result unit :=
  match rounds with
  | O => Err (OtherError "rounds")
  | S rounds =>
      match parent_key current with
      | None => Ok tt
      | Some parent =>
          if bool_decide (parent ∈ seen) then Err (EvidenceIntegrityError "trace parent cycle")
          else match graph_node nodes parent with
               | None => Ok tt
               | Some s => parent_walk rounds nodes (parent :: seen) s
               end
      end
  end.

(** The second loop *)
Fixpoint parent_walks (nodes l : list SourceSpan) : result unit :=
  match l with
  | [] => Ok tt
  | s :: l =>
      let! _ := parent_walk (length nodes) nodes [span_key s] s in
      parent_walks nodes l
  end.

Record GraphSummary : Type := {
  span_count : Z;
  trace_count : Z;
  resolved_parent_edges : Z;
  unresolved_parent_edges : Z;
  null_parents : Z;
  duplicate_records : Z;
}.
#[export] Instance GraphSummary_eq_dec : EqDecision GraphSummary.
Proof. solve_decision. Defined.

Definition GraphSummary_valid (g : GraphSummary) : bool :=
  between 0 MAX_SPANS (span_count g) && between 0 32 (trace_count g) && (0 <=? resolved_parent_edges g) &&
  (0 <=? unresolved_parent_edges g) && (0 <=? null_parents g) && (0 <=? duplicate_records g).

(** [(span.trace_id, span.parent_id) in nodes] *)
Definition edge_resolved (nodes : list SourceSpan) (s : SourceSpan) : bool :=
  match parent_key s with Some key => bool_decide (is_Some (graph_node nodes key)) | None => false end.
Definition is_root (s : SourceSpan) : bool := bool_decide (parent_id s = None).

Definition count_if {A} (p : A -> bool) (l : list A) : Z := len (List.filter p l).

(** [summarize_graph] *)
Definition summarize_graph (spans : list SourceSpan) : result GraphSummary :=
  if MAX_SPANS <? len spans then Err (ValueError "aggregate span budget exceeded")
  else
    let! nodes := graph_nodes [] spans in
    let! _ := parent_walks nodes nodes in
    let edges := count_if (edge_resolved nodes) nodes in
    let roots := count_if is_root nodes in
    let g := {| span_count := len nodes; trace_count := len (remove_dups (map trace_id nodes));
                resolved_parent_edges := edges; unresolved_parent_edges := len nodes - edges - roots;
                null_parents := roots; duplicate_records := len spans - len nodes |} in
    if GraphSummary_valid g then Ok g else Err (ValueError "GraphSummary").

(** ** What is collected *)

Record TraceCollection : Type := {
  tc_sources : list EvidenceItem;
  tc_spans : list EvidenceItem;
  graph : GraphSummary;
  commands_used : Z;
  reserved_commands : Z;
  services_without_pods : list string;
  tc_partial : Z;
  tc_malformed : Z;
  tc_excluded : Z;
  capped_sources : Z;
}.
#[export] Instance TraceCollection_eq_dec : EqDecision TraceCollection.
Proof. solve_decision. Defined.

Definition TraceCollection_valid (c : TraceCollection) : bool :=
  (len (tc_sources c) <=? 10) && (len (tc_spans c) <=? MAX_SPANS) && between 0 MAX_COMMANDS (commands_used c) &&
  between 0 MAX_COMMANDS (reserved_commands c) && (len (services_without_pods c) <=? 5) && (0 <=? tc_partial c) &&
  (0 <=? tc_malformed c) && (0 <=? tc_excluded c) && between 0 10 (capped_sources c).

(** [_Budget], without its clock *)
Record TraceBudget : Type := {
  tb_deadline : spec_float;
  tb_commands : Z;
  tb_metadata : Z;
  tb_source : Z;
}.
Definition one_command (b : TraceBudget) : TraceBudget :=
  {| tb_deadline := tb_deadline b; tb_commands := tb_commands b + 1; tb_metadata := tb_metadata b;
     tb_source := tb_source b |}.
Definition with_bytes (b : TraceBudget) (logs : bool) (n : Z) : TraceBudget :=
  {| tb_deadline := tb_deadline b; tb_commands := tb_commands b;
     tb_metadata := if logs then tb_metadata b else tb_metadata b + n;
     tb_source := if logs then tb_source b + n else tb_source b |}.

(** ** Reading

    [TCommand] is [ReadCommand]: it runs [kubectl] and answers its bounded output, or fails. *)
Section calls.
Context `{Blob}.

Inductive trace_call : Type :=
  | TCommand (arguments : list string) (maximum : Z) (timeout : spec_float)
  | TClock
  | TEv (c : ev_call).

Definition trace_answer (c : trace_call) : Type :=
  match c with TCommand _ _ _ => string | TClock => spec_float | TEv c => ev_answer c end.
End calls.

Section traces.
Context `{WireText, PyText, !ModelText, !Instants, Blob, PydanticText, !ObjectText, !StampText}.
Context (executable kubeconfig : string).

Abbreviation tprog := (prog trace_answer).
Abbreviation ask := (call (R:=trace_answer)) (only parsing).

Definition retaining {A} (m : prog ev_answer A) : tprog A := embed (Q:=trace_answer) TEv (fun _ r => r) m.
Definition now_utc : tprog datetime := retaining (call (R:=ev_answer) VNow).

(** [_Budget.trace_left] *)
Definition trace_left (b : TraceBudget) : tprog spec_float :=
  let* now := ask TClock in
  let left_over := float_sub (tb_deadline b) now in
  if SFleb left_over (float_of_Z 0) then Raise (ValueError "trace collection deadline exceeded")
  else Ret (if SFltb left_over (float_of_Z 12) then left_over else float_of_Z 12).

(** [TraceRead._read] *)
Definition trace_read (arguments : list string) (b : TraceBudget) (logs : bool) : tprog (string * TraceBudget) :=
  let* timeout := trace_left b in
  if MAX_COMMANDS <=? tb_commands b then Raise (ValueError "trace command budget exceeded")
  else
    let b := one_command b in
    let maximum := if logs then MAX_LOG_BYTES else 262144 in
    let* raw := (ask (TCommand (kube_prefix executable kubeconfig ++ arguments) maximum timeout) : tprog string) in
    do* trace_left b in
    if maximum <? str_len raw then Raise (ValueError "trace response exceeds byte budget")
    else
      let b := with_bytes b logs (str_len raw) in
      if (MAX_SOURCE_BYTES <? tb_source b) || (MAX_METADATA_BYTES <? tb_metadata b)
      then Raise (ValueError "aggregate trace bytes exceeded") else Ret (raw, b).

Definition get_command (arguments : list string) : list string := ["get"] ++ arguments ++ ["-o"; "json"].

(** [JSON_OBJECT.validate_json] *)
Definition decoded_object (raw : string) : result kobject :=
  match model_json raw ≫= as_object with Some o => Ok o | None => Err (ValueError "JSON_OBJECT") end.

(** [TraceRead._get] *)
Definition trace_get (arguments : list string) (b : TraceBudget) : tprog (kobject * TraceBudget) :=
  let* (raw, b) := trace_read (get_command arguments) b false in
  let* o := lift (decoded_object raw) in
  Ret (o, b).

Definition logs_command (pod : string) (scope : TraceScope) : list string :=
  ["logs"; pod; "--container=sandbox"; "--tail=2000"; "--since-time=" +:+ isoformat (ts_start scope);
   "--timestamps=true"; "--limit-bytes=131072"].

(** The checks of [_pod] before it reads: the identity of the pod, and its ReplicaSet *)
Definition pod_controller (pod : kobject) (scope : TraceScope) (deployment_uid : string)
  : result (PodIdentity * string * string) :=
  let! metadata := trace_metadata pod scope None in
  let! controller := trace_owner metadata "ReplicaSet" in
  let! replica_uid := trace_text (dget controller "uid") in
  let! i := trace_identity pod scope deployment_uid replica_uid in
  let! replica_name := trace_text (dget controller "name") in
  if negb (starts_with (ts_service scope +:+ "-") replica_name) || negb (str_all name_char replica_name)
  then Err (ValueError "ReplicaSet name outside service scope")
  else Ok (i, replica_uid, replica_name).

(** The ReplicaSet belongs to the deployment. *)
Definition replica_owned (replica : kobject) (scope : TraceScope) (deployment_uid replica_uid replica_name : string)
  : result unit :=
  let! metadata := trace_metadata replica scope (Some replica_name) in
  let! owner := trace_owner metadata "Deployment" in
  if negb (is_str (dget metadata "uid") replica_uid) || negb (is_str (dget owner "uid") deployment_uid)
     || negb (is_str (dget owner "name") (ts_service scope))
  then Err (ValueError "ReplicaSet does not belong to selected deployment")
  else Ok tt.

(** [TraceLog(...)] *)
Definition TraceLog_make (l : TraceLog) : result TraceLog :=
  if TraceLog_valid l then Ok l else Err (ValueError "TraceLog").

(** [TraceRead._pod] *)
Definition trace_pod (pod : kobject) (scope : TraceScope) (deployment_uid : string) (b : TraceBudget)
  : tprog (TraceLog * TraceBudget) :=
  let* (i, replica_uid, replica_name) := lift (pod_controller pod scope deployment_uid) in
  let* (replica, b) := trace_get ["replicaset"; replica_name] b in
  do* lift (replica_owned replica scope deployment_uid replica_uid replica_name) in
  let* started := now_utc in
  let* (raw, b) := trace_read (logs_command (pod_name i) scope) b true in
  let* (after, b) := trace_get ["pod"; pod_name i] b in
  let* again := lift (trace_identity after scope deployment_uid replica_uid) in
  if negb (eqb_of again i) then Raise (ValueError "pod or current container changed during trace read")
  else
    let* ended := now_utc in
    let* p := lift (parse_console_log raw scope) in
    let* l := lift (TraceLog_make
      {| log_scope := scope; identity := i; captured_start := started; captured_end := ended; parsed := p |}) in
    Ret (l, b).

(** ** Collecting *)

Fixpoint trace_pods (pods : list kobject) (scope : TraceScope) (deployment_uid : string) (b : TraceBudget)
  : tprog (list TraceLog * TraceBudget) :=
  match pods with
  | [] => Ret ([], b)
  | pod :: pods =>
      let* (l, b) := trace_pod pod scope deployment_uid b in
      let* (ls, b) := trace_pods pods scope deployment_uid b in
      Ret (l :: ls, b)
  end.

(** One round of the loop over the scopes *)
Definition trace_service (scope : TraceScope) (b : TraceBudget) : tprog (list TraceLog * TraceBudget) :=
  let service := ts_service scope in
  let* (deployment, b) := trace_get ["deployment"; service] b in
  let* metadata := lift (trace_metadata deployment scope (Some service)) in
  let* deployment_uid := lift (trace_text (dget metadata "uid")) in
  let* (pods, b) := trace_get ("pods" :: service_selector service) b in
  let* pods := lift (trace_items (dget pods "items") 2) in
  trace_pods pods scope deployment_uid b.

Fixpoint trace_services (scopes : list TraceScope) (b : TraceBudget) : tprog (list TraceLog * TraceBudget) :=
  match scopes with
  | [] => Ret ([], b)
  | scope :: scopes =>
      let* (ls, b) := trace_service scope b in
      let* (rest, b) := trace_services scopes b in
      Ret (ls ++ rest, b)
  end.

(** The spans of one retained log, from an ordinal on *)
Fixpoint retain_spans (b : TraceBudget) (item : EvidenceItem) (ordinals : list Z) : tprog (list EvidenceItem) :=
  match ordinals with
  | [] => Ret []
  | n :: ordinals =>
      do* trace_left b in
      let* e := retaining (derive_trace_span item n) in
      let* rest := retain_spans b item ordinals in
      Ret (e :: rest)
  end.

Definition ordinals (l : TraceLog) : list Z := seqZ 0 (len (spans (parsed l))).

(** The last loop of [collect] *)
Fixpoint retain_logs (b : TraceBudget) (captures : list TraceLog) : tprog (list EvidenceItem * list EvidenceItem) :=
  match captures with
  | [] => Ret ([], [])
  | l :: captures =>
      do* trace_left b in
      let* item := retaining (publish_trace_log l) in
      let* found := retain_spans b item (ordinals l) in
      let* (items, rest) := retain_logs b captures in
      Ret (item :: items, found ++ rest)
  end.

Definition graph_spans (captures : list TraceLog) : list SourceSpan :=
  captures ≫= fun l => map captured_span (spans (parsed l)).

Definition total_of (f : ParsedLog -> Z) (captures : list TraceLog) : Z := foldr (fun l n => f (parsed l) + n) 0 captures.

(** The result of [collect] *)
Definition collection_of (scopes : list TraceScope) (captures : list TraceLog) (items found : list EvidenceItem)
  (g : GraphSummary) (b : TraceBudget) : TraceCollection :=
  {| tc_sources := items; tc_spans := found; graph := g; commands_used := tb_commands b;
     reserved_commands := len scopes * MAX_COMMANDS_PER_SERVICE;
     services_without_pods :=
       List.filter (fun s => negb (existsb (fun l => eqb_of (ts_service (log_scope l)) s) captures)) (map ts_service scopes);
     tc_partial := total_of partial_candidates captures; tc_malformed := total_of malformed_candidates captures;
     tc_excluded := total_of excluded_spans captures;
     capped_sources := total_of (fun p => Z_of_bool (limit_reached p)) captures |}.

(** One incident and one interval *)
Definition same_window (a b : TraceScope) : bool :=
  eqb_of (ts_incident_id a) (ts_incident_id b) && (ts_start a =? ts_start b) && (ts_end a =? ts_end b).

(** The end of [collect]: the graph, and what is retained *)
Definition finish_collection (scopes : list TraceScope) (captures : list TraceLog) (b : TraceBudget)
  : tprog TraceCollection :=
  let* g := lift (summarize_graph (graph_spans captures)) in
  let* (items, found) := retain_logs b captures in
  do* trace_left b in
  let c := collection_of scopes captures items found g b in
  if TraceCollection_valid c then Ret c else Raise (ValueError "TraceCollection").

(** [TraceRead.collect] *)
Definition trace_collect (scopes : list TraceScope) : tprog TraceCollection :=
  match scopes with
  | [] => Raise (ValueError "unique bounded trace service scopes required")
  | first :: _ =>
      if (5 <? len scopes) || negb (distinct (map ts_service scopes)) then
        Raise (ValueError "unique bounded trace service scopes required")
      else if negb (forallb (same_window first) scopes) then
        Raise (ValueError "trace collection crosses incident or time scope")
      else
        let* now := now_utc in
        if now <? ts_end first then Raise (ValueError "trace incident window ends in the future")
        else
          let* clock := ask TClock in
          let b := {| tb_deadline := float_add clock MAX_SECONDS; tb_commands := 0; tb_metadata := 0; tb_source := 0 |} in
          let* (captures, b) := trace_services scopes b in
          finish_collection scopes captures b
  end.
End traces.
