(* ===== verification/EvidenceStory.v ===== *)
(** * Concrete evidence

    Instances of what the evidence layer is given, a store, and items in it: an observation of
    the logs, a runbook, and the runbook as it was retrieved for an incident. *)

From stdpp Require Import pretty.
From S2P Require Import Prelude Text Json Digest Canonical Contracts Effects Reasoning Numbers Artifacts Normalize.
From S2P Require Import Baseline SandboxModels Wire Windows Spans Retrieval KubeReads Reads.

Open Scope string_scope.
Open Scope list_scope.
Open Scope Z_scope.
Open Scope result_scope.
Open Scope prog_scope.

(** ** Texts *)

Definition show_float (f : spec_float) : string :=
  match f with
  | S754_finite s m e => (if s then "-" else "+") +:+ pretty (Zpos m) +:+ "e" +:+ pretty e
  | S754_zero _ => "0.0"
  | S754_infinity _ => "Infinity"
  | S754_nan => "NaN"
  end.

Fixpoint show (j : json) : string :=
  match j with
  | JNull => "null"
  | JBool b => if b then "true" else "false"
  | JInt z => pretty z
  | JFloat f => show_float f
  | JStr s => quote +:+ s +:+ quote
  | JList l => "[" +:+ (fix go (l : list json) := match l with [] => "]" | x :: l => show x +:+ "," +:+ go l end) l
  | JObj o => "{" +:+ (fix go (o : list (string * json)) :=
      match o with [] => "}" | (k, x) :: o => k +:+ ":" +:+ show x +:+ "," +:+ go o end) o
  end.

Definition digits_instant (j : json) : option datetime :=
  match j with JStr s => if is_digits s then Some (digits_value s) else None | _ => None end.

#[export] Instance object_blobs : Blob := {|
  blob := string * list (string * json);
  blob_text b := b.1;
  read_object b := Ok b.2;
|}.
#[export] Instance object_texts : ObjectText := fun d => (show (JObj d), d).
#[export] Instance shown : PydanticText := {| iso_text t := pretty t; compact_text := show |}.
#[export] Instance instants : Instants := fun _ => digits_instant.

(** What was played, as a run *)
Lemma played {C} {R : C -> Type} {S A} (handle : forall c, S -> result (R c) * S) (m : prog R A) (s : S) a :
  (play handle m s []).1.1 = inr a -> runs m (play handle m s []).2 (inr a).
Proof. intros <-. apply play_runs_nil. Qed.

(** ** A store

    One identity and one time at a time, and the files. *)
Definition files : Type := gmap string (string * list (string * json)).

Definition files_world (c : art_call) (f : files) : result (art_answer c) * files := art_exec f c.

Definition ev_world (id : string) (now : datetime) (c : ev_call) (f : files) : result (ev_answer c) * files :=
  match c return result (ev_answer c) * files with
  | VNewId => (Ok id, f)
  | VNow => (Ok now, f)
  | VArt c => art_exec f c
  end.

(** ** A runbook, retrieved *)

Definition NOON : datetime := 1767225600000000.

Definition leak_book : Observation :=
  {| obs_source := RUNBOOK; obs_resource := "payments-api"; obs_observed_at := NOON; obs_query := "runbook.v1";
     obs_summary := "Restart the leaking workers"; 
     obs_payload := [("namespace", JStr "payops-sandbox"); ("service", JStr "payments-api"); ("text", JStr "steps")] |}.

Definition published : result EvidenceItem * files :=
  run (ev_world "runbook-1" (NOON + seconds 1)) (normalize leak_book "catalog" NOON (NOON + seconds 1)) ∅.

Definition no_item : EvidenceItem :=
  {| evidence_id := EmptyString; ev_incident_id := EmptyString; source := LOG; observed_at := 0; collected_at := 0;
     query := EmptyString; resource := EmptyString; artifact_uri := EmptyString; artifact_sha256 := EmptyString;
     summary := EmptyString |}.
Definition item_or_none (r : result EvidenceItem) : EvidenceItem := match r with inr e => e | inl _ => no_item end.

Definition book_item : EvidenceItem := item_or_none published.1.

Definition incident_scope : EvidenceScope :=
  {| sc_incident_id := "incident-1"; sc_namespace := "payops-sandbox"; sc_service := "payments-api" |}.

Definition book_lineage : RetrievalLineage :=
  {| lin_scope := incident_scope; lin_index := INDEXES runbook; lin_source := book_item;
     retrieved_at := NOON + seconds 2 |}.

Definition retrieved_run : result EvidenceItem * files :=
  run (ev_world "context-1" (NOON + seconds 2))
    (normalize {| obs_source := RUNBOOK; obs_resource := "payments-api"; obs_observed_at := NOON;
                  obs_query := match_query (INDEXES runbook); obs_summary := "Restart the leaking workers";
                  obs_payload := dump_lineage book_lineage |} "incident-1" NOON (NOON + seconds 2))
    published.2.

Definition context_item : EvidenceItem := item_or_none retrieved_run.1.

Example retrieved_context :
  (play files_world (verify_retrieval context_item) retrieved_run.2 []).1.1 = inr book_lineage.
Proof. vm_compute. reflexivity. Qed.

(** ** The cache holds it *)

Definition cached : CacheEntry :=
  {| entry_scope := incident_scope; created_at := NOON + seconds 3; expires_at := NOON + seconds 63;
     entry_evidence := [context_item] |}.

(** The texts the world knows *)
#[export] Instance known_texts : ModelText := fun text => List.find (fun j => eqb_of (show j) text) [dump_cache_entry cached].

Definition ret_world (now : datetime) (c : ret_call) (f : files) : result (ret_answer c) * files :=
  match c return result (ret_answer c) * files with
  | QEv c => ev_world "item" now c f
  | QPut _ _ _ | QLeave => (Ok tt, f)
  | QRead _ => (Ok (show (dump_cache_entry cached)), f)
  | QMonotonic => (Ok float_zero, f)
  | QSearch _ _ => (Ok {| search_status := 200; search_encoding := None |}, f)
  | QPart => (Ok None, f)
  end.

Abbreviation cache_run := (play (ret_world (NOON + seconds 4)) (cache_get incident_scope) retrieved_run.2 []).
Example cache_hit : cache_run.1.1 = inr (Some [context_item]).
Proof. vm_compute. reflexivity. Qed.

(** ** The logs are read *)

Definition iso_minute : PyText := {| fromisoformat _ := Some (NOON, true); str_of := show |}.
#[export] Existing Instance iso_minute.
#[export] Instance no_wire : WireText :=
  {| wire_loads _ _ _ _ := Err (ValueError "JSONDecodeError"); float_of_text _ := float_zero; dumps _ := show |}.
#[export] Instance no_json : JsonLoads := fun _ _ _ => Err (ValueError "JSONDecodeError").

Definition sample_lines : string := "2026-01-01T00:00:00Z worker out of memory".

Definition read_world (c : read_call) (f : files) : result (read_answer c) * files :=
  match c return result (read_answer c) * files with
  | DKube (KInvoke _) => (Ok sample_lines, f)
  | DKube KNow => (Ok (NOON + seconds 5), f)
  | DRet c => ret_world (NOON + seconds 6) c f
  | DPrincipal => (Ok None, f)
  | DQuery _ _ => (Ok {| search_status := 200; search_encoding := None |}, f)
  end.

Definition logs_request : ReadRequest := {| tool := recent_logs; service := payments_api; query_text := None |}.
Abbreviation logs_run := (play read_world (reads_read "kubectl" "config" "incident-1" logs_request) ∅ []).
Definition items_or_none (r : result (list EvidenceItem)) : list EvidenceItem :=
  match r with inr l => l | inl _ => [] end.
Definition log_items : list EvidenceItem := Eval vm_compute in items_or_none logs_run.1.1.
Example logs_read : logs_run.1.1 = inr log_items /\ map resource log_items = ["payments-api"].
Proof. vm_compute. split; reflexivity. Qed.

(** ** A window over two snapshots *)

Definition shop : string := "payments-api".
Definition DAY : Z := 1767225600.

(** The text of a series when [n] requests of each kind were made *)
Definition counter (n : Z) (k : Key) : string :=
  if eqb_of k.1 REQUESTS then pretty n
  else if eqb_of k.1 COUNT then pretty (6 * n)
  else if eqb_of k.1 SUM then pretty n +:+ ".5"
  else if eqb_of k.1 CONFLICTS then "0"
  else if eqb_of k.1 EPOCH then pretty (DAY - 600)
  else "1".

Definition target : list (string * json) :=
  [("job", JStr "payops-sandbox"); ("service", JStr shop);
   ("instance", JStr (shop +:+ ".payops-sandbox.svc.cluster.local:8080"))].
Definition series (at_time : Z) (labels : list (string * json)) (text : string) : json :=
  JObj [("metric", JObj labels); ("value", JList [JInt at_time; JStr text])].
Definition vector (rows : list json) : json :=
  JObj [("status", JStr "success"); ("data", JObj [("resultType", JStr "vector"); ("result", JList rows)])].

Definition snapshot_payload (n at_time mark : Z) : list (string * json) :=
  match snapshot_queries shop with
  | inr (q, w) =>
      [("evaluated_at", JInt at_time); ("query", JStr q); ("watermark_query", JStr w);
       ("metrics", vector (map (fun k => series at_time
          (("__name__", JStr k.1) :: target ++ map (fun l => (l.1, JStr l.2)) k.2) (counter n k)) allowed_series));
       ("watermark", vector [series at_time target (pretty mark)])]
  | inl _ => []
  end.

Definition take_snapshot (id : string) (n at_time mark : Z) (f : files) : result EvidenceItem * files :=
  match snapshot_observation (snapshot_payload n at_time mark) shop (seconds at_time) with
  | inr o => run (ev_world id (seconds at_time)) (normalize o "incident-1" (seconds DAY) (seconds at_time)) f
  | inl e => (inl e, f)
  end.

Definition before_run := take_snapshot "before" 1 (DAY + 8) (DAY + 6) ∅.
Definition after_run := take_snapshot "after" 2 (DAY + 75) (DAY + 72) before_run.2.
Definition measured : MeasurementInterval :=
  {| mi_incident_id := "incident-1"; mi_start := seconds (DAY + 10); mi_end := seconds (DAY + 70) |}.
Definition window_run :=
  run (ev_world "window" (seconds (DAY + 80)))
    (derive_payment_window (item_or_none before_run.1) (item_or_none after_run.1) measured) after_run.2.

Definition window_files : files := Eval vm_compute in window_run.2.
Definition window_item : EvidenceItem := Eval vm_compute in item_or_none window_run.1.
