(* ===== verification/EvidenceCodec.v ===== *)
(** * A codec of decoded values

    A concrete pair of functions that write a value as a text and read it back, on which the
    laws the evidence layer assumes of pydantic hold. *)

From S2P Require Import Prelude Json Artifacts Normalize LoopStory.

Open Scope string_scope.
Open Scope list_scope.
Open Scope Z_scope.
Open Scope result_scope.

#[local] Existing Instance spec_float_countable.

Definition leaf : Type := string + (Z + (spec_float + (bool + unit))).

Fixpoint to_tree (j : json) : gen_tree leaf :=
  match j with
  | JNull => GenLeaf (inr (inr (inr (inr tt))))
  | JBool b => GenLeaf (inr (inr (inr (inl b))))
  | JInt z => GenLeaf (inr (inl z))
  | JFloat f => GenLeaf (inr (inr (inl f)))
  | JStr s => GenLeaf (inl s)
  | JList l => GenNode 0 (map to_tree l)
  | JObj o => GenNode 1 (map (fun '(k, x) => GenNode 2 [GenLeaf (inl k); to_tree x]) o)
  end.

Fixpoint of_tree (t : gen_tree leaf) : json :=
  match t with
  | GenLeaf (inl s) => JStr s
  | GenLeaf (inr (inl z)) => JInt z
  | GenLeaf (inr (inr (inl f))) => JFloat f
  | GenLeaf (inr (inr (inr (inl b)))) => JBool b
  | GenLeaf (inr (inr (inr (inr _)))) => JNull
  | GenNode 0 l => JList (map of_tree l)
  | GenNode 1 l =>
      JObj (map (fun t => match t with
                          | GenNode _ [GenLeaf (inl k); x] => (k, of_tree x)
                          | _ => (EmptyString, JNull)
                          end) l)
  | GenNode _ _ => JNull
  end.

Lemma of_to_tree j : of_tree (to_tree j) = j.
Proof.
  induction j as [|b|z|f|s|l IH|o IH] using json_ind'; cbn; try done; f_equal.
  - induction IH as [|x l Hx _ IHl]; cbn; [done|]. by rewrite Hx, IHl.
  - induction IH as [|[k x] o Hx _ IHo]; cbn in *; [done|]. by rewrite Hx, IHo.
Qed.

#[export] Instance json_countable : Countable json := inj_countable' to_tree of_tree of_to_tree.

(** A text is the digits of an encoding. *)
Definition encoded_objects : Blob := {|
  blob := string;
  blob_text s := s;
  read_object s := match decode (A:=json) (of_digits s) with
                   | Some (JObj d) => Ok d
                   | _ => Err (ValueError "JSON_OBJECT")
                   end;
|}.
Definition encoded_texts : @ObjectText encoded_objects := fun d => digits_of (encode (JObj d)).

Lemma encoded_read d : @read_object encoded_objects (encoded_texts d) = Ok d.
Proof. cbn. unfold encoded_texts. by rewrite of_digits_of, decode_encode. Qed.
