(* ===== verification/Archive.v ===== *)
(** * The cloud archive: [payops/evidence/gcs.py]

    Evidence is copied to a bucket under its digest, never overwritten, and accepted back only
    as the bytes its item names.  The bucket's client is a request; what an archive promises is
    that what it accepted can be restored. *)

From S2P Require Import Prelude Text Json Digest Contracts Effects Reasoning Numbers Artifacts Normalize.
From S2P Require Import EvidenceStory.

Open Scope string_scope.
Open Scope list_scope.
Open Scope Z_scope.
Open Scope result_scope.
Open Scope prog_scope.

(** [re.fullmatch(r"[a-zA-Z0-9_-]+(?:/[a-zA-Z0-9_-]+)*", prefix)]: [inside] a segment *)
Definition segment_char (c : Ascii.ascii) : bool :=
  ascii_between 97 122 c || ascii_between 65 90 c || ascii_between 48 57 c || ascii_between 95 95 c || ascii_between 45 45 c.
Fixpoint segments_ok (inside : bool) (s : string) : bool :=
  match s with
  | EmptyString => inside
  | String c s => if segment_char c then segments_ok true s else inside && ascii_between 47 47 c && segments_ok false s
  end.

(** [GcsArtifactArchive.__init__] *)
Definition archive_prefix (prefix : string) : result string :=
  if negb (segments_ok false prefix) then Err (ValueError "invalid archive prefix")
  else if 200 <? str_len prefix then Err (ValueError "archive prefix exceeds budget")
  else Ok prefix.

Section archive.
Context `{Blob, PydanticText}.

(** [ArchiveBlob]: [GDownload] answers at most one byte more than an artifact may have,
    [GUpload] says whether the object was created or its precondition failed. *)
Inductive archive_call : Type :=
  | GDownload (name : string)
  | GUpload (name : string) (content : blob)
  | GArt (c : art_call).

Definition archive_answer (c : archive_call) : Type :=
  match c with GDownload _ => blob | GUpload _ _ => bool | GArt c => art_answer c end.

Abbreviation gprog := (prog archive_answer).
Abbreviation ask := (call (R:=archive_answer)) (only parsing).

Definition locally {A} (m : prog art_answer A) : gprog A := embed (Q:=archive_answer) GArt (fun _ r => r) m.

(** [validate_content] *)
Definition validate_content (content : blob) (e : EvidenceItem) : result unit :=
  if oversized content then Err (EvidenceIntegrityError "artifact exceeds byte budget")
  else if negb (eqb_of (artifact_digest content) (artifact_sha256 e)) then
    Err (EvidenceIntegrityError "artifact digest mismatch")
  else
    let! payload := read_object content in
    let expected := JObj (without ["artifact_uri"; "artifact_sha256"] (dump_evidence e)) in
    if negb (py_eq (dget payload "evidence") expected) then
      Err (EvidenceIntegrityError "artifact metadata mismatch")
    else Ok tt.

Context (bucket prefix : string).

(** [GcsArtifactArchive._blob]: the name of the object *)
Definition archive_blob (e : EvidenceItem) : result string :=
  let digest := artifact_sha256 e in
  if negb (digest_ok digest) then Err (EvidenceIntegrityError "invalid artifact digest")
  else if negb (eqb_of (artifact_uri e) ("sha256://" +:+ digest)) then
    Err (EvidenceIntegrityError "artifact URI and digest disagree")
  else Ok (prefix +:+ "/" +:+ digest +:+ ".json").

(** [GcsArtifactArchive._read] *)
Definition archive_read (name : string) (e : EvidenceItem) : gprog blob :=
  let* content := (ask (GDownload name) : gprog blob) in
  do* lift (validate_content content e) in
  Ret content.

(** [GcsArtifactArchive.upload] *)
Definition archive_upload (e : EvidenceItem) : gprog string :=
  let* name := lift (archive_blob e) in
  do* locally (store_verify e) in
  let* content := locally (store_open (artifact_sha256 e)) in
  do* lift (validate_content content e) in
  do* ask (GUpload name content) in
  do* archive_read name e in
  Ret ("gs://" +:+ bucket +:+ "/" +:+ name).

(** [GcsArtifactArchive.restore] *)
Definition archive_restore (e : EvidenceItem) : gprog unit :=
  let* name := lift (archive_blob e) in
  let* content := archive_read name e in
  do* locally (path_for (artifact_sha256 e)) in
  do* locally (publish_once (artifact_sha256 e) content) in
  do* locally (store_verify e) in
  Ret tt.

(** ** The files and the bucket, as they behave when nothing fails *)

Definition archive_state : Type := gmap string blob * gmap string blob.

Definition archive_exec (c : archive_call) (s : archive_state) : result (archive_answer c) * archive_state :=
  match c return result (archive_answer c) * archive_state with
  | GDownload name =>
      (match s.2 !! name with Some b => Ok b | None => Err (OtherError "NotFound") end, s)
  | GUpload name content =>
      match s.2 !! name with
      | Some _ => (Ok false, s)
      | None => (Ok true, (s.1, <[name := content]> s.2))
      end
  | GArt c => let '(r, f) := art_exec s.1 c in (r, (f, s.2))
  end.

(** What only concerns the files runs as it does without a bucket. *)
Lemma locally_run {A} (m : prog art_answer A) f b :
  run archive_exec (locally m) (f, b) =
    let '(r, f') := run (fun c s => art_exec s c) m f in (r, (f', b)).
Proof.
  revert f. induction m as [a|e|c k IH]; intros f; cbn; [done..|].
  destruct (art_exec f c) as [r f'] eqn:He. cbn. apply IH.
Qed.
End archive.

(** ** What the archive promises *)

Section promise.
Context `{Blob, PydanticText}.
Context (bucket prefix : string).

Abbreviation arun := (run archive_exec) (only parsing).
Abbreviation files_run := (run (fun c s => art_exec s c)) (only parsing).

Lemma digest_well_formed e name : archive_blob prefix e = inr name ->
  digest_ok (artifact_sha256 e) = true /\ artifact_uri e = "sha256://" +:+ artifact_sha256 e /\
  name = prefix +:+ "/" +:+ artifact_sha256 e +:+ ".json".
Proof.
  unfold archive_blob. destruct (digest_ok _); cbn [negb]; [|done]. destruct (negb _) eqn:Hu; [done|]. pybool.
  by intros [= <-].
Qed.

Lemma validate_content_ok content e :
  validate_content content e = inr tt <->
  oversized content = false /\ artifact_digest content = artifact_sha256 e /\
  exists payload, read_object content = inr payload /\
    py_eq (dget payload "evidence") (JObj (without ["artifact_uri"; "artifact_sha256"] (dump_evidence e))) = true.
Proof.
  unfold validate_content. destruct (oversized content); [split; [done|by intros [? _]]|].
  destruct (negb (eqb_of (artifact_digest content) _)) eqn:Hd; pybool; [split; [done|by intros (_ & ? & _)]|].
  destruct (read_object content) as [|payload]; cbn [rbind].
  { split; [done|]. by intros (_ & _ & p & [=] & _). }
  destruct (py_eq _ _) eqn:Hp; cbn [negb]; split; try done.
  - intros _. split_and!; [done..|]. by exists payload.
  - intros (_ & _ & p & [= <-] & Hp'). congruence.
Qed.

(** The verification of an item whose file is in the store, and nothing else *)
Lemma present_verifies e f content :
  artifact_uri e = "sha256://" +:+ artifact_sha256 e -> digest_ok (artifact_sha256 e) = true ->
  f !! artifact_sha256 e = Some content -> validate_content content e = inr tt ->
  exists payload, files_run (store_verify e) f = (inr payload, f) /\ read_object content = inr payload.
Proof.
  intros Hu Hd Hf (Ho & Hc & payload & Hp & He)%validate_content_ok. exists payload. split; [|done].
  unfold store_verify. rewrite Hu, (proj2 (eqb_of_true _ _) eq_refl). cbn [negb].
  unfold store_open, path_for. rewrite Hd. cbn -[py_eq without dump_evidence dget]. rewrite Hf.
  cbn -[py_eq without dump_evidence dget]. rewrite Ho, Hc, (proj2 (eqb_of_true _ _) eq_refl).
  cbn -[py_eq without dump_evidence dget]. rewrite Hp. cbn -[py_eq without dump_evidence dget]. by rewrite He.
Qed.

Lemma path_for_run d f : digest_ok d = true -> files_run (path_for d) f = (inr tt, f).
Proof. intros Hd. unfold path_for. by rewrite Hd. Qed.

Lemma publish_once_run d content f :
  files_run (publish_once d content) f =
    match f !! d with
    | None => (inr tt, <[d := content]> f)
    | Some there => if eqb_of (blob_text there) (blob_text content) then (inr tt, f)
                    else (inl (EvidenceIntegrityError "existing artifact is corrupt"), f)
    end.
Proof.
  unfold publish_once. cbn. destruct (f !! d) as [there|] eqn:Hf; cbn; [|done].
  rewrite Hf. cbn. by destruct (eqb_of _ _).
Qed.

(** The bytes read back support the item. *)
Lemma archive_read_run name e f b r s :
  arun (archive_read name e) (f, b) = (inr r, s) ->
  s = (f, b) /\ b !! name = Some r /\ validate_content r e = inr tt.
Proof.
  unfold archive_read. rewrite run_bind. cbn. destruct (b !! name) as [c|]; [|done].
  cbn [run]. rewrite run_bind, run_lift. destruct (validate_content c e) as [|[]] eqn:Hv; [done|]. by intros [= -> <-].
Qed.
(** Reads change no file. *)
Definition only_reads (c : art_call) : Prop := match c with ALink _ _ => False | _ => True end.

Lemma reads_run {A} (m : prog art_answer A) f : issues only_reads m -> (files_run m f).2 = f.
Proof.
  induction m as [a|e|c k IH]; intros Hm; cbn in *; [done..|]. destruct Hm as [Hc Hk].
  assert (art_exec f c = ((art_exec f c).1, f)) as ->.
  { destruct c; cbn in *; try done. by destruct (f !! digest). }
  by apply IH.
Qed.

Lemma store_open_reads d : issues only_reads (store_open d).
Proof.
  unfold store_open, path_for. destruct (negb _); [done|]. apply issues_bind.
  - apply issues_bind; [by apply (issues_call (R:=art_answer))|]. by intros [].
  - intros _. by apply (issues_call (R:=art_answer)).
Qed.

Lemma store_verify_reads e : issues only_reads (store_verify e).
Proof.
  unfold store_verify. destruct (negb _); [done|]. apply issues_bind.
  - apply issues_catch; [apply store_open_reads|done].
  - intros content. destruct (_ || _); [done|]. apply issues_bind; [apply issues_lift|]. intros p. by destruct (negb _).
Qed.

Lemma archive_read_back name e f b content :
  b !! name = Some content -> validate_content content e = inr tt ->
  arun (archive_read name e) (f, b) = (inr content, (f, b)).
Proof.
  intros Hb Hv. unfold archive_read. rewrite run_bind. cbn. rewrite Hb. cbn [run]. by rewrite run_bind, run_lift, Hv.
Qed.

(** Restoring an object that supports the item *)
Lemma archive_restore_run e g b name content :
  archive_blob prefix e = inr name -> b !! name = Some content -> validate_content content e = inr tt ->
  run archive_exec (archive_restore prefix e) (g, b) =
    match files_run (publish_once (artifact_sha256 e) content) g with
    | (inr _, g') =>
        match files_run (store_verify e) g' with (inr _, g'') => (inr tt, (g'', b)) | (inl x, g'') => (inl x, (g'', b)) end
    | (inl x, g') => (inl x, (g', b))
    end.
Proof.
  intros Hn Hb Hv. pose proof (digest_well_formed _ _ Hn) as (Hd & _ & _).
  unfold archive_restore. rewrite run_bind, run_lift, Hn.
  rewrite run_bind, (archive_read_back name e g b content) by done. rewrite run_bind, locally_run, path_for_run by done.
  rewrite run_bind, locally_run. destruct (files_run (publish_once _ content) g) as [[x|[]] g1]; [done|].
  rewrite run_bind, locally_run. by destruct (files_run (store_verify e) g1) as [[x|p] g2].
Qed.

(** An upload that succeeds changes no file, overwrites no object of the bucket, and leaves
    under its digest bytes that support the item: restoring it into a store that lacks it
    succeeds, after which it verifies there; a different file under its digest is kept, and the
    restoration refused. *)
Theorem archived_restores e f b uri f' b' :
  arun (archive_upload bucket prefix e) (f, b) = (inr uri, (f', b')) ->
  f' = f /\ b ⊆ b' /\ uri = "gs://" +:+ bucket +:+ "/" +:+ prefix +:+ "/" +:+ artifact_sha256 e +:+ ".json" /\
  exists content, b' !! (prefix +:+ "/" +:+ artifact_sha256 e +:+ ".json") = Some content /\
    artifact_digest content = artifact_sha256 e /\
    (forall g, g !! artifact_sha256 e = None -> exists g' payload,
       arun (archive_restore prefix e) (g, b') = (inr tt, (g', b')) /\ g ⊆ g' /\
       files_run (store_verify e) g' = (inr payload, g') /\ read_object content = inr payload) /\
    (forall g there, g !! artifact_sha256 e = Some there -> blob_text there <> blob_text content ->
       arun (archive_restore prefix e) (g, b') =
         (inl (EvidenceIntegrityError "existing artifact is corrupt"), (g, b'))).
Proof.
  intros Hr. unfold archive_upload in Hr. rewrite run_bind, run_lift in Hr.
  destruct (archive_blob prefix e) as [|name] eqn:Hn; [done|].
  pose proof (digest_well_formed _ _ Hn) as (Hd & Hu & ->).
  rewrite run_bind, locally_run in Hr. 
  pose proof (reads_run _ f (store_verify_reads e)) as Hf.
  destruct (files_run (store_verify e) f) as [[|payload] f1] eqn:Hv; [done|]. cbn in Hf. subst f1.
  rewrite run_bind, locally_run in Hr. pose proof (reads_run _ f (store_open_reads (artifact_sha256 e))) as Hf.
  destruct (files_run (store_open (artifact_sha256 e)) f) as [[|content] f1] eqn:Ho; [done|]. cbn in Hf. subst f1.
  rewrite run_bind, run_lift in Hr. destruct (validate_content content e) as [|[]] eqn:Hc; [done|].
  remember (prefix +:+ "/" +:+ artifact_sha256 e +:+ ".json") as name eqn:Hname.
  assert (exists b1, b ⊆ b1 /\
    run archive_exec (let* _ := archive_read name e in Ret ("gs://" +:+ bucket +:+ "/" +:+ name))%prog (f, b1) =
      (inr uri, (f', b'))) as (b1 & Hb & Hr').
  { rewrite run_bind in Hr. cbn in Hr. destruct (b !! name) eqn:Hl; [by exists b|].
    exists (<[name := content]> b). split; [by apply insert_subseteq|exact Hr]. }
  clear Hr. rewrite run_bind in Hr'. destruct (run archive_exec (archive_read name e) (f, b1)) as [[|r] s] eqn:Hrd; [done|].
  apply archive_read_run in Hrd as (-> & Hl & Hval). cbn in Hr'. injection Hr' as <- <- <-.
  split_and!; [done..|]. exists r. pose proof Hval as (_ & Hdig & _)%validate_content_ok. split_and!; [done..| |].
  - intros g Hg. destruct (present_verifies e (<[artifact_sha256 e := r]> g) r) as (p & Hp & Hread);
      [done..|by rewrite lookup_insert_eq|done|].
    exists (<[artifact_sha256 e := r]> g), p. split_and!; [|by apply insert_subseteq|done..].
    rewrite (archive_restore_run e g b1 _ r) by done. by rewrite publish_once_run, Hg, Hp.
  - intros g there Hg Hdiff. rewrite (archive_restore_run e g b1 _ r) by done. rewrite publish_once_run, Hg.
    by rewrite (proj2 (eqb_of_false _ _) Hdiff).
Qed.
End promise.

(** ** The runbook, archived and restored elsewhere *)

Definition uploaded : result string * @archive_state object_blobs :=
  run archive_exec (archive_upload "evidence" "payops/evidence" book_item) (published.2, ∅).

Definition archived_uri : string :=
  "gs://" +:+ "evidence" +:+ "/" +:+ "payops/evidence" +:+ "/" +:+ artifact_sha256 book_item +:+ ".json".

Example runbook_archived : uploaded.1 = inr archived_uri /\ archive_prefix "payops/evidence" = inr "payops/evidence".
Proof. vm_compute. split; reflexivity. Qed.

Lemma archived_restores_witness :
  exists s payload, run archive_exec (archive_restore "payops/evidence" book_item) (∅, uploaded.2.2) = (inr tt, s) /\
    run (fun c f => art_exec f c) (store_verify book_item) s.1 = (inr payload, s.1).
Proof.
  pose proof (proj1 runbook_archived) as Hu. destruct uploaded as [r [f b]] eqn:Hr. cbn [fst] in Hu. subst r.
  unfold uploaded in Hr. cbn [snd].
  destruct (@archived_restores object_blobs shown "evidence" "payops/evidence" book_item published.2 ∅ archived_uri f b Hr)
    as (_ & _ & _ & content & _ & _ & Hrestored & _).
  destruct (Hrestored ∅ (lookup_empty _)) as (g & payload & Hrun & _ & Hv & _).
  exists (g, b), payload. split; [exact Hrun|exact Hv].
Defined.
