(* ===== verification/Evaluation.v ===== *)
(** * Offline scoring: [payops/evaluation/metrics.py], [labels.py], [replay_facts.py] and
    [replay_attribution.py]

    Recall over every frozen case, observations selected from hashed sources by pointers, the
    prompt made of them, and the audit of the citations in recorded outputs. *)

From Stdlib Require Import QArith.
From S2P Require Import Prelude Text Json Digest Contracts Effects Reasoning Runtime Diagnostics Numbers Artifacts.
From S2P Require Import SandboxModels Wire.

Open Scope string_scope.
Open Scope list_scope.
Open Scope Z_scope.
Open Scope result_scope.
Open Scope prog_scope.

(** ** [metrics.py] *)

Record RecallScore : Type := { hits : Z; score_total : Z; score_k : Z }.

(** [RecallScore.fraction] *)
Definition quotient (n d : Z) : result Q :=
  match d with
  | Zpos p => Ok (Qmake n p)
  | Zneg p => Ok (Qmake (- n) p)
  | Z0 => Err (OtherError "ZeroDivisionError")
  end.

(** [RecallScore.meets] *)
Definition meets (s : RecallScore) (required_hits required_total : Z) : result bool :=
  if (required_total <=? 0) || negb ((0 <=? required_hits) && (required_hits <=? required_total)) then
    Err (ValueError "invalid recall threshold")
  else
    let! reached := quotient (hits s) (score_total s) in
    let! required := quotient required_hits required_total in
    Ok (Qle_bool required reached).

(** A [Mapping] from cases to causes *)
Definition causes_of (d : list (string * list string)) (case : string) : list string :=
  default [] (snd <$> List.find (fun kv => eqb_of kv.1 case) d).
Definition recall_hit (predictions : list (string * list string)) (k : Z) (entry : string * list string) : bool :=
  existsb (fun c => bool_decide (c ∈ entry.2)) (take (Z.to_nat k) (causes_of predictions entry.1)).

(** [recall_at_k] *)
Definition recall_at_k (gold predictions : list (string * list string)) (k : Z) : result RecallScore :=
  if negb (is_nonempty gold) || (k <=? 0) || negb (forallb (fun kv => bool_decide (kv.1 ∈ map fst gold)) predictions) then
    Err (ValueError "invalid recall suite or k")
  else if existsb (fun kv => negb (is_nonempty kv.2) || negb (distinct kv.2)) gold then
    Err (ValueError "each case requires distinct accepted gold causes")
  else if existsb (fun kv => negb (distinct kv.2)) predictions then
    Err (ValueError "duplicate ranked causes")
  else Ok {| hits := len (List.filter (recall_hit predictions k) gold); score_total := len gold; score_k := k |}.

Inductive Relation : Type := supports_cause | refutes_cause.
#[export] Instance Relation_eq_dec : EqDecision Relation.
Proof. solve_decision. Defined.

Record Attribution : Type := {
  at_incident : string;
  at_cause : string;
  at_evidence : string;
  at_relation : Relation;
}.
#[export] Instance Attribution_eq_dec : EqDecision Attribution.
Proof. solve_decision. Defined.

Record AttributionScore : Type := { correct : Z; attr_total : Z; attr_invalid : Z }.

(** [AttributionScore.accuracy] *)
Definition accuracy (s : AttributionScore) : option spec_float :=
  if attr_total s =? 0 then None else Some (float_div (float_of_Z (correct s)) (float_of_Z (attr_total s))).

Section attribution.
Context `{Blob, PydanticText, !SourceChecks}.

Abbreviation aprog := (prog art_answer) (only parsing).

(** One round of [attribution_accuracy] *)
Definition attributed (gold : list Attribution) (evidence : list (string * EvidenceItem)) (s : AttributionScore)
  (link : Attribution) : aprog AttributionScore :=
  let invalid := {| correct := correct s; attr_total := attr_total s; attr_invalid := attr_invalid s + 1 |} in
  match snd <$> List.find (fun kv => eqb_of kv.1 (at_evidence link)) evidence with
  | None => Ret invalid
  | Some item =>
      if negb (eqb_of (ev_incident_id item) (at_incident link)) || negb (eqb_of (evidence_id item) (at_evidence link))
      then Ret invalid
      else
        let* checked := catch (do* verify_evidence item in Ret true) is_ValueError (fun _ => Ret false) in
        if checked : bool
        then Ret {| correct := correct s + Z_of_bool (bool_decide (link ∈ gold)); attr_total := attr_total s;
                    attr_invalid := attr_invalid s |}
        else Ret invalid
  end.

Fixpoint attribution_loop (gold : list Attribution) (evidence : list (string * EvidenceItem)) (s : AttributionScore)
  (links : list Attribution) : aprog AttributionScore :=
  match links with
  | [] => Ret s
  | link :: links => let* s := attributed gold evidence s link in attribution_loop gold evidence s links
  end.

(** [attribution_accuracy]; a [frozenset] is its elements, in some order. *)
Definition attribution_accuracy (predicted gold : list Attribution) (evidence : list (string * EvidenceItem))
  : aprog AttributionScore :=
  let unique := remove_dups predicted in
  attribution_loop gold evidence {| correct := 0; attr_total := len unique; attr_invalid := 0 |} unique.
End attribution.

(** [sorted] of floats *)
Fixpoint insert_float (x : spec_float) (l : list spec_float) : list spec_float :=
  match l with
  | [] => [x]
  | y :: l' => if SFleb x y then x :: l else y :: insert_float x l'
  end.
Definition sort_floats (l : list spec_float) : list spec_float := foldr insert_float [] l.

(** [math.ceil] of a finite float *)
Definition float_ceil (f : spec_float) : Z :=
  let t := float_trunc f in if SFltb (float_of_Z t) f then t + 1 else t.

(** [percentile] *)
Definition percentile (samples : list spec_float) (q : spec_float) : result spec_float :=
  if negb (is_nonempty samples) || negb (SFltb (float_of_Z 0) q && SFleb q (float_of_Z 1)) then
    Err (ValueError "percentile requires samples and a quantile in (0, 1]")
  else if existsb (fun s => negb (is_finite s) || SFltb s (float_of_Z 0)) samples then
    Err (ValueError "invalid timing sample")
  else
    let rank := float_ceil (float_mul q (float_of_Z (len samples))) in
    match sort_floats samples !! Z.to_nat (rank - 1) with
    | Some s => Ok s
    | None => Err (OtherError "IndexError")
    end.

(** ** [labels.py] *)

Definition groups : list string := ["OOM"; "ROLLOUT"; "SCHED"; "DEP"; "TELEM"; "PAY"].
Definition numbers : list string := ["01"; "02"; "03"; "04"].
Definition EXPECTED : list string := flat_map (fun g => map (fun n => g +:+ "-" +:+ n) numbers) groups.

Definition CONDITION_NAMES : list string :=
  ["UNRELATED_CPU_NOISE"; "ARCHIVED_ERROR_DISTRACTOR"; "TRACE_SAMPLING_GAP"; "DELAYED_METRICS"].
Definition CONDITIONS : list (string * list string) :=
  zip (map (fun n => "TELEM-" +:+ n) numbers) (map (fun c => [c]) CONDITION_NAMES).

Record FrozenLabels : Type := {
  primary_causes : list (string * list string);
  observation_conditions : list (string * list string);
}.

Definition same_keys (d : list (string * list string)) (keys : list string) : bool :=
  forallb (fun kv => bool_decide (kv.1 ∈ keys)) d && forallb (fun k => bool_decide (k ∈ map fst d)) keys.

(** [FrozenLabels.census]; the items of a dict have distinct keys. *)
Definition census (l : FrozenLabels) : result unit :=
  if negb (same_keys (primary_causes l) EXPECTED) || negb (same_keys (observation_conditions l) (map fst CONDITIONS)) then
    Err (ValueError "release label census differs")
  else
    let! _ := recall_at_k (primary_causes l) [] 1 in
    let! _ := recall_at_k (observation_conditions l) [] 1 in
    if negb (forallb (fun kv => eqb_of (causes_of (observation_conditions l) kv.1) kv.2) CONDITIONS) then
      Err (ValueError "version two observation assignments differ")
    else if existsb (fun kv => existsb (fun v => bool_decide (v ∈ CONDITION_NAMES)) kv.2) (primary_causes l) then
      Err (ValueError "an observation condition cannot substitute for an incident cause")
    else Ok tt.

(** [FrozenLabels.cause_vocabulary] *)
Definition cause_vocabulary (l : FrozenLabels) : list string := remove_dups (flat_map snd (primary_causes l)).

(** ** [replay_facts.py] *)

Inductive FactSource : Type := F_kubernetes | F_deployment | F_metrics | F_logs | F_traces | F_http.
Definition fact_source_name (s : FactSource) : string :=
  match s with
  | F_kubernetes => "kubernetes" | F_deployment => "deployment" | F_metrics => "metrics"
  | F_logs => "logs" | F_traces => "traces" | F_http => "http"
  end.

Record FactReference : Type := {
  fact_evidence : string;
  fact_source : FactSource;
  fact_path : string;
  fact_sha256 : string;
  fact_pointer : string;
  fact_line : option Z;
  nonzero_metrics : bool;
}.

Record ReplayCase : Type := {
  case_id : string;
  case_facts : list FactReference;
  supporting_facts : list (string * list string);
}.

Definition slash : Ascii.ascii := Ascii.ascii_of_nat 47.
Definition tilde : Ascii.ascii := Ascii.ascii_of_nat 126.
Definition is_at (c : Ascii.ascii) (n : nat) : bool := eqb_of c (Ascii.ascii_of_nat n).

(** [s.split("/")] *)
Fixpoint split_slash (part s : string) : list string :=
  match s with
  | EmptyString => [part]
  | String c s => if is_at c 47 then part :: split_slash EmptyString s else split_slash (str_snoc part c) s
  end.

(** [re.search(r"~(?![01])", part)] *)
Fixpoint bad_escape (s : string) : bool :=
  match s with
  | EmptyString => false
  | String c s' =>
      (is_at c 126 && negb (match s' with String d _ => is_at d 48 || is_at d 49 | EmptyString => false end)) || bad_escape s'
  end.

(** [s.replace("~<n>", <c>)] *)
Fixpoint unescape (n : nat) (by_char : Ascii.ascii) (s : string) : string :=
  match s with
  | EmptyString => EmptyString
  | String c s' =>
      match s' with
      | String d s'' =>
          if is_at c 126 && is_at d n then String by_char (unescape n by_char s'') else String c (unescape n by_char s')
      | EmptyString => s
      end
  end.
Definition pointer_key (part : string) : string := unescape 48 tilde (unescape 49 slash part).

(** [re.fullmatch(r"0|[1-9][0-9]*", key)] *)
Definition index_key (s : string) : bool :=
  match s with
  | EmptyString => false
  | String c rest => is_digits s && (negb (is_at c 48) || eqb_of rest EmptyString)
  end.

(** One step of [at_pointer] *)
Definition at_part (value : json) (part : string) : result json :=
  if bad_escape part then Err (ValueError "invalid pointer escape")
  else
    let key := pointer_key part in
    match value with
    | JObj o => match dict_find o key with Some v => Ok v | None => Err (KeyError key) end
    | JList l =>
        if index_key key then
          match l !! Z.to_nat (digits_value key) with Some v => Ok v | None => Err (OtherError "IndexError") end
        else Err (ValueError "source pointer does not resolve")
    | _ => Err (ValueError "source pointer does not resolve")
    end.
Fixpoint at_parts (value : json) (parts : list string) : result json :=
  match parts with
  | [] => Ok value
  | part :: parts => let! value := at_part value part in at_parts value parts
  end.

(** [at_pointer] *)
Definition at_pointer (value : json) (pointer : string) : result json :=
  match pointer with
  | EmptyString => Ok value
  | String c rest => if is_at c 47 then at_parts value (split_slash EmptyString rest) else Err (ValueError "invalid source pointer")
  end.

(** [FLocate]: the relative path names a regular file under the root; [FRead] reads at most one
    byte more than the bound. *)
Inductive fact_call : Type :=
  | FLocate (path : string)
  | FRead (path : string).
Definition fact_answer (c : fact_call) : Type := match c with FLocate _ => bool | FRead _ => string end.

Definition MAX_FACT_BYTES : Z := 4194304.

Definition is_number (j : json) : bool := match j with JInt _ | JFloat _ => true | _ => false end.
Definition row_number (j : json) : option json :=
  match j with JObj row => let v := dget row "value" in if is_number v then Some v else None | _ => None end.

(** The [nonzero_metrics] projection *)
Definition nonzero_rows (j : json) : result json :=
  match j with
  | JList rows =>
      if forallb (fun r => bool_decide (is_Some (row_number r))) rows
      then Ok (JList (List.filter (fun r => match row_number r with Some v => negb (py_eq v (JInt 0)) | None => false end) rows))
      else Err (ValueError "nonzero projection requires metric rows")
  | _ => Err (ValueError "nonzero projection requires metric rows")
  end.

Section facts.
Context `{WireText}.

Abbreviation fprog := (prog fact_answer).
Abbreviation ask := (call (R:=fact_answer)) (only parsing).

(** What [read_fact] selects of the bytes *)
Definition select_fact (raw : string) (r : FactReference) : result json :=
  let! decoded := decode raw MAX_FACT_BYTES in
  let! value := at_pointer (JObj decoded) (fact_pointer r) in
  let! value := match fact_line r with
                | None => Ok value
                | Some n =>
                    match value with
                    | JStr text => match splitlines text !! Z.to_nat n with
                                   | Some line => Ok (JStr line) | None => Err (OtherError "IndexError") end
                    | _ => Err (ValueError "line selection requires source text")
                    end
                end in
  if nonzero_metrics r then nonzero_rows value else Ok value.

(** [read_fact] *)
Definition read_fact (r : FactReference) : fprog json :=
  let* inside := (ask (FLocate (fact_path r)) : fprog bool) in
  if negb inside then Raise (ValueError "source path escapes evidence root")
  else
    let* raw := (ask (FRead (fact_path r)) : fprog string) in
    if (MAX_FACT_BYTES <? str_len raw) || negb (eqb_of (sha256_hex raw) (fact_sha256 r)) then
      Raise (ValueError "source evidence checksum differs")
    else lift (select_fact raw r).

(** [re.search] of the identifiers of the experiment, at one position and anywhere *)
Definition names_case (s : string) : bool :=
  existsb (fun g => match after_prefix (g +:+ "-0") s with Some (String c _) => ascii_between 49 52 c | _ => false end) groups ||
  match after_prefix "SANDBOX_" s with Some (String c _) => ascii_between 65 90 c || ascii_between 95 95 c | _ => false end.
Fixpoint leaks_case (s : string) : bool :=
  names_case s || match s with String _ s => leaks_case s | EmptyString => false end.

(** What a model sees of one fact *)
Definition fact_observation (r : FactReference) (value : json) : json :=
  JObj [("id", JStr (fact_evidence r)); ("source", JStr (fact_source_name (fact_source r))); ("value", value)].

Fixpoint fact_observations (l : list FactReference) : fprog (list json) :=
  match l with
  | [] => Ret []
  | r :: l =>
      let* value := read_fact r in
      let* rest := fact_observations l in
      Ret (fact_observation r value :: rest)
  end.

Definition case_ids (c : ReplayCase) : list string := remove_dups (map fact_evidence (case_facts c)).

(** The annotations cite only facts of the case. *)
Definition annotations_cited (c : ReplayCase) : bool :=
  forallb (fun kv => forallb (fun id => bool_decide (id ∈ case_ids c)) kv.2) (supporting_facts c).

(** [prompt_data]; [json.dumps] escapes what is not ASCII. *)
Definition replay_prompt (c : ReplayCase) (vocabulary : list string) : fprog (string * list string) :=
  let ids := case_ids c in
  if negb (len ids =? len (case_facts c)) || negb (is_nonempty vocabulary) then
    Raise (ValueError "duplicate evidence IDs or empty vocabulary")
  else if negb (annotations_cited c) then Raise (ValueError "annotation cites unavailable evidence")
  else
    let* observations := fact_observations (case_facts c) in
    if leaks_case (dumps compact (JList observations)) then
      Raise (ValueError "experiment identifier or injector configuration in model context")
    else
      let data := dumps compact (JObj [("cause_codes", JList (map JStr (sort_strings (remove_dups vocabulary))));
                                       ("untrusted_observations", JList observations)]) in
      if 14000 <? str_len data then Raise (ValueError "offline context exceeds reviewed bound") else Ret (data, ids).

(** ** [replay_attribution.py] *)

Record FactReview : Type := {
  rv_case : string;
  rv_evidence : string;
  rv_sha256 : string;
  supported_causes : list string;
}.

Definition review_key (r : FactReview) : string * string := (rv_case r, rv_evidence r).
Definition fact_keys (cases : list ReplayCase) : list ((string * string) * FactReference) :=
  flat_map (fun c => map (fun f => ((case_id c, fact_evidence f), f)) (case_facts c)) cases.
Definition find_review (reviews : list FactReview) (key : string * string) : option FactReview :=
  List.find (fun r => eqb_of (review_key r) key) reviews.

(** The checks of [verify_review] for one fact *)
Definition review_binds (vocabulary : list string) (r : FactReview) (f : FactReference) : bool :=
  eqb_of (rv_sha256 r) (fact_sha256 f) && distinct (supported_causes r) &&
  forallb (fun c => bool_decide (c ∈ vocabulary)) (supported_causes r).
Fixpoint verify_facts (reviews : list FactReview) (vocabulary : list string) (l : list ((string * string) * FactReference))
  : fprog unit :=
  match l with
  | [] => Ret tt
  | (key, f) :: l =>
      match find_review reviews key with
      | None => Raise (OtherError "KeyError")
      | Some r =>
          if negb (review_binds vocabulary r f) then
            Raise (ValueError "review source binding or cause vocabulary differs")
          else do* read_fact f in verify_facts reviews vocabulary l
      end
  end.

Definition all_cases (l : list string) : bool :=
  forallb (fun c => bool_decide (c ∈ EXPECTED)) l && forallb (fun c => bool_decide (c ∈ l)) EXPECTED.

(** [verify_review] *)
Definition verify_review (cases : list ReplayCase) (reviews : list FactReview) (vocabulary : list string) : fprog unit :=
  let facts := fact_keys cases in
  if negb (len cases =? 24) || negb (all_cases (map case_id cases)) then
    Raise (ValueError "attribution requires all 24 source cases")
  else if negb (distinct (map fst facts)) || negb (distinct (map review_key reviews)) ||
          negb (forallb (fun kv => bool_decide (kv.1 ∈ map review_key reviews)) facts) ||
          negb (forallb (fun r => bool_decide (review_key r ∈ map fst facts)) reviews)
  then Raise (ValueError "review must cover each case-scoped source exactly once")
  else verify_facts reviews vocabulary facts.

(** A link: its case, its cause, the evidence it cites, and the relation *)
Definition link : Type := (string * string) * (string * Relation).
Definition links_of (case : string) (o : ModelObservation) : list link :=
  match mo_status o, mo_decision o with
  | MS_OK, Some d =>
      flat_map (fun h => map (fun id => ((case, rc_cause_code h), (id, supports_cause))) (rc_supporting h) ++
                         map (fun id => ((case, rc_cause_code h), (id, refutes_cause))) (rc_refuting h))
        (dec_hypotheses d)
  | _, _ => []
  end.
Definition decided (o : ModelObservation) : bool :=
  eqb_of (mo_status o) MS_OK && bool_decide (is_Some (mo_decision o)).

Definition link_invalid (reviews : list FactReview) (vocabulary : list string) (l : link) : bool :=
  match find_review reviews (l.1.1, l.2.1) with
  | None => true
  | Some _ => negb (bool_decide (l.1.2 ∈ vocabulary))
  end.
Definition link_correct (reviews : list FactReview) (vocabulary : list string) (l : link) : bool :=
  negb (link_invalid reviews vocabulary l) && eqb_of l.2.2 supports_cause &&
  match find_review reviews (l.1.1, l.2.1) with Some r => bool_decide (l.1.2 ∈ supported_causes r) | None => false end.

Record ReplayAttributionScore : Type := {
  ra_cases : Z;
  cases_without_decision : Z;
  cases_with_citations : Z;
  ra_correct : Z;
  ra_total : Z;
  ra_invalid : Z;
  ra_accuracy : option spec_float;
}.

(** [score_replay_attribution]; [observations] is a [Mapping]. *)
Definition score_replay_attribution (cases : list ReplayCase) (reviews : list FactReview)
  (observations : list (string * ModelObservation)) (vocabulary : list string) : fprog ReplayAttributionScore :=
  do* verify_review cases reviews vocabulary in
  if negb (all_cases (map fst observations)) then
    Raise (ValueError "retain an explicit outcome for every case, including failures")
  else
    let links := remove_dups (flat_map (fun kv => links_of kv.1 kv.2) observations) in
    let right := len (List.filter (link_correct reviews vocabulary) links) in
    Ret {| ra_cases := len cases;
           cases_without_decision := len (List.filter (fun kv => negb (decided kv.2)) observations);
           cases_with_citations := len (remove_dups (map (fun l => l.1.1) links));
           ra_correct := right; ra_total := len links;
           ra_invalid := len (List.filter (link_invalid reviews vocabulary) links);
           ra_accuracy := if len links =? 0 then None else Some (float_div (float_of_Z right) (float_of_Z (len links))) |}.
End facts.

(** ** Recall *)

Lemma count_filter_le {A} (p q : A -> bool) (l : list A) :
  (forall x, p x = true -> q x = true) -> len (List.filter p l) <= len (List.filter q l).
Proof.
  intros Hpq. unfold len. induction l as [|x l IH]; cbn; [done|].
  destruct (p x) eqn:Hp; [rewrite (Hpq x Hp); cbn; lia|]. destruct (q x); cbn; lia.
Qed.

Lemma count_filter_total {A} (p : A -> bool) (l : list A) : 0 <= len (List.filter p l) <= len l.
Proof. unfold len. induction l as [|x l IH]; cbn; [lia|]. destruct (p x); cbn; lia. Qed.

(** A recall score keeps every gold case in its denominator, whatever was predicted, and
    considering more of each ranking never lowers it. *)
Theorem recall_monotone gold predictions k k' s :
  recall_at_k gold predictions k = inr s -> k <= k' ->
  score_total s = len gold /\ 0 <= hits s <= score_total s /\
  exists s', recall_at_k gold predictions k' = inr s' /\ hits s <= hits s' /\ score_total s' = score_total s.
Proof.
  unfold recall_at_k. destruct (_ || _) eqn:Hg; [done|].
  do 2 (destruct (existsb _ _); [done|]). intros [= <-] Hk. cbn. split; [done|]. split; [apply count_filter_total|].
  destruct (negb (is_nonempty gold) || (k' <=? 0) || _) eqn:Hg'.
  { exfalso. apply Bool.orb_false_iff in Hg as [[Hne Hk0]%Bool.orb_false_iff Hp]. rewrite Hne, Hp in Hg'. cbn in Hg'.
    rewrite Bool.orb_false_r in Hg'. pybool. lia. }
  eexists. split; [done|]. cbn. split; [|done]. apply count_filter_le. intros x. unfold recall_hit. rewrite !List.existsb_exists.
  intros (c & Hc & Hin). exists c. split; [|done]. apply list_elem_of_In. apply list_elem_of_In in Hc.
  eapply elem_of_prefix; [exact Hc|]. replace (Z.to_nat k) with (Z.to_nat k `min` Z.to_nat k')%nat by lia.
  rewrite <-take_take. apply prefix_take.
Qed.

(** ** Pointers *)

(** The text of a key in a pointer *)
Fixpoint escape_key (s : string) : string :=
  match s with
  | EmptyString => EmptyString
  | String c s =>
      if is_at c 126 then String tilde (String (Ascii.ascii_of_nat 48) (escape_key s))
      else if is_at c 47 then String tilde (String (Ascii.ascii_of_nat 49) (escape_key s))
      else String c (escape_key s)
  end.
Fixpoint pointer_of (keys : list string) : string :=
  match keys with
  | [] => EmptyString
  | k :: keys => String slash (escape_key k +:+ pointer_of keys)
  end.

(** The value under a path of keys *)
Definition at_key (value : json) (key : string) : result json :=
  match value with
  | JObj o => match dict_find o key with Some v => Ok v | None => Err (KeyError key) end
  | JList l =>
      if index_key key then
        match l !! Z.to_nat (digits_value key) with Some v => Ok v | None => Err (OtherError "IndexError") end
      else Err (ValueError "source pointer does not resolve")
  | _ => Err (ValueError "source pointer does not resolve")
  end.
Fixpoint at_keys (value : json) (keys : list string) : result json :=
  match keys with
  | [] => Ok value
  | key :: keys => let! value := at_key value key in at_keys value keys
  end.

Lemma is_at_char c n : is_at c n = true -> c = Ascii.ascii_of_nat n.
Proof. apply eqb_of_true_1. Qed.

(** An ordinary character of a part *)
Lemma split_slash_char p c s : is_at c 47 = false -> split_slash p (String c s) = split_slash (str_snoc p c) s.
Proof. intros Hc. cbn [split_slash]. by rewrite Hc. Qed.

(** An escaped key is one part. *)
Lemma split_slash_escape p k rest :
  split_slash p (escape_key k +:+ rest) = split_slash (p +:+ escape_key k) rest.
Proof.
  revert p. induction k as [|c k IH]; intros p; cbn [escape_key].
  { f_equal. induction p as [|a p IHp]; [done|]. exact (f_equal (String a) IHp). }
  destruct (is_at c 126) eqn:Ht; [|destruct (is_at c 47) eqn:Hs]; rewrite !app_String, !split_slash_char by done;
    by rewrite IH, !str_snoc_app.
Qed.

Lemma split_slash_pointer p keys : split_slash p (pointer_of keys) = p :: map escape_key keys.
Proof.
  revert p. induction keys as [|k keys IH]; intros p; cbn [pointer_of map]; [done|].
  change (split_slash p (String slash (escape_key k +:+ pointer_of keys)))
    with (p :: split_slash EmptyString (escape_key k +:+ pointer_of keys)).
  f_equal. rewrite split_slash_escape. apply IH.
Qed.

Lemma unescape_char n b c s : is_at c 126 = false -> unescape n b (String c s) = String c (unescape n b s).
Proof. intros Hc. destruct s as [|d s]; cbn [unescape]; [done|]. by rewrite Hc. Qed.

Lemma unescape_tilde n b d s :
  unescape n b (String tilde (String d s)) = if is_at d n then String b (unescape n b s) else String tilde (unescape n b (String d s)).
Proof. reflexivity. Qed.

(** Only the tildes are escaped. *)
Fixpoint escape_tilde (s : string) : string :=
  match s with
  | EmptyString => EmptyString
  | String c s =>
      if is_at c 126 then String tilde (String (Ascii.ascii_of_nat 48) (escape_tilde s)) else String c (escape_tilde s)
  end.

Lemma unescape_slashes k : unescape 49 slash (escape_key k) = escape_tilde k.
Proof.
  induction k as [|c k IH]; cbn [escape_key escape_tilde]; [done|]. destruct (is_at c 126) eqn:Ht.
  - rewrite unescape_tilde. change (is_at (Ascii.ascii_of_nat 48) 49) with false. cbv iota.
    by rewrite unescape_char, IH.
  - destruct (is_at c 47) eqn:Hs.
    + rewrite unescape_tilde. change (is_at (Ascii.ascii_of_nat 49) 49) with true. cbv iota.
      by rewrite IH, (is_at_char _ _ Hs).
    + by rewrite unescape_char, IH.
Qed.

Lemma unescape_tildes k : unescape 48 tilde (escape_tilde k) = k.
Proof.
  induction k as [|c k IH]; cbn [escape_tilde]; [done|]. destruct (is_at c 126) eqn:Ht.
  - rewrite unescape_tilde. change (is_at (Ascii.ascii_of_nat 48) 48) with true. cbv iota.
    by rewrite IH, (is_at_char _ _ Ht).
  - by rewrite unescape_char, IH.
Qed.

Lemma escape_well_formed k : bad_escape (escape_key k) = false.
Proof.
  induction k as [|c k IH]; cbn [escape_key]; [done|].
  destruct (is_at c 126) eqn:Ht; [|destruct (is_at c 47) eqn:Hs]; cbn [bad_escape]; rewrite ?Ht, IH; done.
Qed.

(** The pointer written for a path of keys, escaped, selects exactly what following the keys
    selects, errors included. *)
Theorem pointer_round_trip keys value : at_pointer value (pointer_of keys) = at_keys value keys.
Proof.
  destruct keys as [|k keys]; [done|]. unfold at_pointer. cbn [pointer_of].
  change (is_at slash 47) with true. cbv iota. rewrite split_slash_escape, split_slash_pointer.
  change (EmptyString +:+ escape_key k) with (escape_key k).
  change (escape_key k :: map escape_key keys) with (map escape_key (k :: keys)).
  generalize (k :: keys). clear k keys. intros keys. revert value.
  induction keys as [|k keys IH]; intros value; cbn [map at_parts at_keys]; [done|].
  assert (at_part value (escape_key k) = at_key value k) as ->.
  { unfold at_part, pointer_key. by rewrite escape_well_formed, unescape_slashes, unescape_tildes. }
  destruct (at_key value k); cbn [rbind]; [done|apply IH].
Qed.

(** ** What the scores rest on *)

Section audit.
Context `{WireText}.

(** The bytes of a fact were read, and hash to what its reference records. *)
Definition fact_checked (tr : list (obs fact_answer)) (f : FactReference) : Prop :=
  exists raw value, (existT (FRead (fact_path f)) (inr raw) : obs fact_answer) ∈ tr /\
    sha256_hex raw = fact_sha256 f /\ select_fact raw f = inr value.

Lemma fact_checked_weaken tr tr' f : tr ⊆ tr' -> fact_checked tr f -> fact_checked tr' f.
Proof. intros Hs (raw & v & Hin & Hrest). exists raw, v. split; [by apply Hs|done]. Qed.

Lemma read_fact_ok f tr value : runs (read_fact f) tr (inr value) -> fact_checked tr f.
Proof.
  intros Hr. unfold read_fact in Hr. apply runs_bind_ok in Hr as (inside & t1 & t2 & -> & _ & Hr).
  destruct (negb inside); [by apply runs_raise_ok in Hr|].
  apply runs_bind_ok in Hr as (raw & t3 & t4 & -> & Hc & Hr).
  apply (runs_call_ok (R:=fact_answer) (FRead _)) in Hc as ->.
  destruct (_ || _) eqn:Hd; [by apply runs_raise_ok in Hr|]. apply runs_lift_ok in Hr as [-> Hv]. pybool.
  exists raw, value. split_and!; [|naive_solver..]. rewrite !elem_of_app, !elem_of_cons. right. left. by left.
Qed.

(** Every fact was checked, and its review names the same bytes. *)
Lemma verify_facts_ok reviews vocabulary l tr u :
  runs (verify_facts reviews vocabulary l) tr (inr u) ->
  forall key f, (key, f) ∈ l -> exists r, find_review reviews key = Some r /\ rv_sha256 r = fact_sha256 f /\ fact_checked tr f.
Proof.
  revert tr. induction l as [|[key f] l IH]; cbn [verify_facts]; intros tr Hr key' f'; [by intros ?%elem_of_nil|].
  destruct (find_review reviews key) as [r|] eqn:Hf; [|by apply runs_raise_ok in Hr].
  destruct (negb _) eqn:Hb; [by apply runs_raise_ok in Hr|]. unfold review_binds in Hb. pybool.
  apply runs_bind_ok in Hr as (v & t1 & t2 & -> & Hv & Hr). apply read_fact_ok in Hv.
  intros [[= -> ->]|Hin]%elem_of_cons.
  - exists r. split_and!; [done|naive_solver|]. eapply fact_checked_weaken; [|exact Hv]. intros ? ?. rewrite elem_of_app. tauto.
  - destruct (IH _ Hr _ _ Hin) as (r' & Hr' & Hs & Hc). exists r'. split_and!; [done..|].
    eapply fact_checked_weaken; [|exact Hc]. intros ? ?. rewrite elem_of_app. tauto.
Qed.

Lemma find_review_key reviews key r : find_review reviews key = Some r -> r ∈ reviews /\ review_key r = key.
Proof. intros [Hin Hk]%List.find_some. split; [by apply list_elem_of_In|by apply eqb_of_true_1]. Qed.

(** An audit of replayed citations counts every distinct link once, as correct, invalid or
    neither; a case without a decision adds no link; and a link counted as correct cites a fact
    of its case whose bytes were read, hash to what its reviewer recorded, and which the
    reviewer says supports its cause. *)
Theorem audit_grounded cases reviews observations vocabulary tr s :
  runs (score_replay_attribution cases reviews observations vocabulary) tr (inr s) ->
  exists links, NoDup links /\ ra_total s = len links /\
    (forall l, l ∈ links <-> exists case o, (case, o) ∈ observations /\ l ∈ links_of case o) /\
    ra_correct s + ra_invalid s <= ra_total s /\
    ra_correct s = len (List.filter (link_correct reviews vocabulary) links) /\
    forall l, l ∈ links -> link_correct reviews vocabulary l = true ->
      l.2.2 = supports_cause /\ exists r f, r ∈ reviews /\ review_key r = (l.1.1, l.2.1) /\
        ((l.1.1, l.2.1), f) ∈ fact_keys cases /\ rv_sha256 r = fact_sha256 f /\ fact_checked tr f /\
        l.1.2 ∈ supported_causes r.
Proof.
  intros Hr. unfold score_replay_attribution in Hr.
  apply runs_bind_ok in Hr as (u & t1 & t2 & -> & Hv & Hr).
  destruct (negb _); [by apply runs_raise_ok in Hr|]. cbv zeta in Hr. apply runs_ret_ok in Hr as [-> <-].
  cbn [ra_total ra_correct ra_invalid].
  set (links := remove_dups _). exists links. split_and!; [apply NoDup_remove_dups|done| | |done|].
  - intros l. unfold links. rewrite elem_of_remove_dups, list_elem_of_In, in_flat_map. split.
    + intros ([case o] & Hin & Hl). exists case, o. by rewrite !list_elem_of_In.
    + intros (case & o & Hin & Hl). exists (case, o). by rewrite <-!list_elem_of_In.
  - generalize links. intros ls. unfold len. induction ls as [|l ls IH]; cbn [List.filter length]; [done|].
    assert (Hx : link_correct reviews vocabulary l = true -> link_invalid reviews vocabulary l = false).
    { unfold link_correct. by destruct (link_invalid _ _ _). }
    destruct (link_correct reviews vocabulary l); [rewrite Hx by done; cbn [length]; lia|].
    destruct (link_invalid reviews vocabulary l); cbn [length]; lia.
  - intros l _ Hc. unfold link_correct in Hc. destruct (find_review reviews (l.1.1, l.2.1)) as [r|] eqn:Hf; [|by rewrite Bool.andb_false_r in Hc].
    apply Bool.andb_true_iff in Hc as [[_ Hs]%Bool.andb_true_iff Hin]. apply bool_decide_eq_true in Hin. pybool.
    split; [done|]. pose proof (find_review_key _ _ _ Hf) as [Hrin Hkey].
    unfold verify_review in Hv. cbv zeta in Hv. destruct (_ || _); [by apply runs_raise_ok in Hv|].
    destruct (_ || _) eqn:Hcover in Hv; [by apply runs_raise_ok in Hv|].
    apply Bool.orb_false_iff in Hcover as [_ Hcover]. apply Bool.negb_false_iff in Hcover.
    rewrite forallb_forall in Hcover. specialize (Hcover r (proj1 (list_elem_of_In _ _) Hrin)).
    apply bool_decide_eq_true in Hcover. rewrite Hkey in Hcover. apply list_elem_of_fmap in Hcover as ([key f] & Hk & Hfin).
    cbn in Hk. subst key. destruct (verify_facts_ok _ _ _ _ _ Hv _ _ Hfin) as (r' & Hf' & Hsha & Hchk).
    assert (r' = r) as -> by congruence. exists r, f. split_and!; [done..| |done].
    eapply fact_checked_weaken; [|exact Hchk]. intros ? ?. rewrite elem_of_app. tauto.
Qed.

(** What a replayed model is shown depends only on the facts of a case, not on which case it
    is or what its reviewers annotated; and it never holds an identifier of the experiment. *)
Theorem prompt_hides_labels c c' vocabulary :
  case_facts c = case_facts c' -> annotations_cited c = annotations_cited c' ->
  replay_prompt c vocabulary = replay_prompt c' vocabulary /\
  forall tr data ids, runs (replay_prompt c vocabulary) tr (inr (data, ids)) ->
    exists observations, leaks_case (dumps compact (JList observations)) = false /\ str_len data <= 14000 /\
      data = dumps compact (JObj [("cause_codes", JList (map JStr (sort_strings (remove_dups vocabulary))));
                                  ("untrusted_observations", JList observations)]).
Proof.
  intros Hf Ha. split; [unfold replay_prompt, case_ids; by rewrite Ha, Hf|].
  intros tr data ids Hr. unfold replay_prompt in Hr. cbv zeta in Hr.
  do 2 (destruct (_ : bool) in Hr; [by apply runs_raise_ok in Hr|]).
  apply runs_bind_ok in Hr as (os & t1 & t2 & -> & _ & Hr).
  destruct (leaks_case _) eqn:Hleak; [by apply runs_raise_ok in Hr|].
  destruct (14000 <? _) eqn:Hlen; [by apply runs_raise_ok in Hr|]. apply runs_ret_ok in Hr as [_ [= <- _]].
  pybool. exists os. by split_and!.
Qed.
End audit.

(** ** Tests *)

Example census_example :
  census {| primary_causes := map (fun c => (c, ["CAUSE"])) EXPECTED; observation_conditions := CONDITIONS |} = inr tt /\
  census {| primary_causes := map (fun c => (c, ["TRACE_SAMPLING_GAP"])) EXPECTED; observation_conditions := CONDITIONS |} =
    inl (ValueError "an observation condition cannot substitute for an incident cause").
Proof. vm_compute. split; reflexivity. Qed.

Example recall_example :
  recall_at_k [("a", ["x"; "y"]); ("b", ["z"])] [("a", ["q"; "y"])] 2 = inr {| hits := 1; score_total := 2; score_k := 2 |} /\
  recall_at_k [("a", ["x"; "y"]); ("b", ["z"])] [("c", ["q"])] 2 = inl (ValueError "invalid recall suite or k") /\
  meets {| hits := 1; score_total := 2; score_k := 2 |} 2 4 = inr true.
Proof. vm_compute. split_and!; reflexivity. Qed.

Example pointer_example :
  at_pointer (JObj [("a/b", JList [JInt 1; JObj [("~", JStr "x")]])]) "/a~1b/1/~0" = inr (JStr "x") /\
  at_pointer (JObj [("a", JList [])]) "/a/01" = inl (ValueError "source pointer does not resolve") /\
  at_pointer JNull "/~2" = inl (ValueError "invalid pointer escape").
Proof. vm_compute. split_and!; reflexivity. Qed.

Example percentile_example :
  percentile (map float_of_Z [4; 1; 3; 2]) (float_lit 1 2) = inr (float_of_Z 2) /\
  percentile (map float_of_Z [4; 1; 3; 2]) (float_of_Z 1) = inr (float_of_Z 4).
Proof. vm_compute. split; reflexivity. Qed.

Example leaks : map leaks_case ["see OOM-03 here"; "OOM-05"; "SANDBOX_PORT"; "sandbox"] = [true; false; true; false].
Proof. vm_compute. reflexivity. Qed.
