(* ===== verification/EvidenceTheorems.v ===== *)
(** * Evidence is sanitized, retained and read back

    What is persisted holds no value under a sensitive key or of a sensitive entry, at any depth,
    and no credential in a text; what [normalize] returned verifies against the store from then
    on. *)

From S2P Require Import Prelude Text Json Digest Contracts Effects Reasoning Numbers Artifacts Normalize.
From S2P Require Import BaselineTheorems EvidenceStory EvidenceCodec.

Open Scope string_scope.
Open Scope list_scope.
Open Scope Z_scope.
Open Scope result_scope.
Open Scope prog_scope.

(** ** Credentials in a text *)

(** A word, in any case, and white space: what a bearer credential starts with *)
Definition bearer_lead (s : string) : Prop :=
  exists w g, s = w +:+ g /\ lower w = "bearer" /\ g <> EmptyString /\ str_all is_space g = true.

(** One of the names, in any case, and a separator, with white space around it: what an assigned
    credential starts with *)
Definition credential_names : list string := ["password"; "secret"; "token"; "apikey"; "api_key"; "api-key"].
Definition assignment_lead (s : string) : Prop :=
  exists w g sep g', s = w +:+ g +:+ sep +:+ g' /\ lower w ∈ credential_names /\
    str_all is_space g = true /\ sep ∈ ["="; ":"] /\ str_all is_space g' = true.

(** What cannot be the first character of the credential *)
Definition bearer_stop (c : Ascii.ascii) : bool := is_space c.
Definition assignment_stop (c : Ascii.ascii) : bool := is_space c || bool_decide (String c EmptyString ∈ [","; ";"]).

(** Nothing follows, or no credential *)
Definition no_value (stop : Ascii.ascii -> bool) (s : string) : Prop :=
  s = EmptyString \/ exists c t, s = String c t /\ stop c = true.
(** What follows is no credential, or the replacement. *)
Definition no_secret (stop : Ascii.ascii -> bool) (s : string) : Prop :=
  no_value stop s \/ exists t, s = "[REDACTED]" +:+ t.

(** Wherever a lead occurs in the text, at the beginning of a word, what follows it is [ok]. *)
Definition everywhere (lead ok : string -> Prop) (s : string) : Prop :=
  forall before l after, s = before +:+ l +:+ after -> ends_word false before = false -> lead l -> ok after.

(** No credential is left in a text; and there was none in it. *)
Definition redacted (s : string) : Prop :=
  everywhere bearer_lead (no_secret bearer_stop) s /\ everywhere assignment_lead (no_secret assignment_stop) s.
Definition innocent (s : string) : Prop :=
  everywhere bearer_lead (no_value bearer_stop) s /\ everywhere assignment_lead (no_value assignment_stop) s.

(** A whole credential, up to its end: [matched] is one where [rest] follows, and [repl] is written
    for it.  A value is between quotes, or reaches to the first stop. *)
Definition unquoted (stop : Ascii.ascii -> bool) (v rest : string) : Prop :=
  v <> EmptyString /\ str_all (fun c => negb (stop c)) v = true /\ no_value stop rest.
Definition bearer_credential (matched rest repl : string) : Prop :=
  exists l v, matched = l +:+ v /\ bearer_lead l /\ unquoted bearer_stop v rest /\ repl = "Bearer [REDACTED]".
Definition between_quotes (v : string) : Prop :=
  exists q t, (q = Ascii.ascii_of_nat 34 \/ q = Ascii.ascii_of_nat 39) /\
    v = String q (t +:+ String q EmptyString) /\ str_all (fun c => negb (eqb_of c q)) t = true.
Definition assigned_credential (matched rest repl : string) : Prop :=
  exists w l v, matched = w +:+ l +:+ v /\ lower w ∈ credential_names /\ assignment_lead (w +:+ l) /\
    (between_quotes v \/ unquoted assignment_stop v rest) /\ repl = w +:+ "=[REDACTED]".

(** The second text is the first, with some of these credentials replaced; the flag says whether a
    word goes on. *)
Inductive hides (cred : string -> string -> string -> Prop) : bool -> string -> string -> Prop :=
  | hides_end w : hides cred w EmptyString EmptyString
  | hides_kept w c s s' : hides cred (is_word c) s s' -> hides cred w (String c s) (String c s')
  | hides_one matched rest repl s' :
      cred matched rest repl -> hides cred (ends_word false matched) rest s' ->
      hides cred false (matched +:+ rest) (repl +:+ s').

(** [s'] is [s] without its credentials: bearers are replaced, then assignments, whole and nothing
    else; no credential is left; and where there was none, the text is as it was. *)
Definition cleaned (s s' : string) : Prop :=
  (exists mid, hides bearer_credential false s mid /\ hides assigned_credential false mid s') /\
  redacted s' /\ (innocent s -> s' = s).

(** *** Texts *)

Lemma str_all_app q a b : str_all q (a +:+ b) = str_all q a && str_all q b.
Proof. induction a as [|x a IH]; [done|]. rewrite ?app_String. cbn. by rewrite IH, andb_assoc. Qed.

Lemma str_all_impl (p q : Ascii.ascii -> bool) s :
  (forall c, p c = true -> q c = true) -> str_all p s = true -> str_all q s = true.
Proof.
  intros Hpq. induction s as [|c s IH]; cbn; [done|]. rewrite !andb_true_iff. intros [Hc Hs]. auto.
Qed.

Lemma ends_word_app w a b : ends_word w (a +:+ b) = ends_word (ends_word w a) b.
Proof. revert w. induction a as [|x a IH]; intros w; [done|]. rewrite ?app_String. cbn. apply IH. Qed.

Lemma lower_app a b : lower (a +:+ b) = lower a +:+ lower b.
Proof. induction a as [|x a IH]; [done|]. rewrite ?app_String. cbn. by rewrite IH. Qed.

Lemma lower_length a : String.length (lower a) = String.length a.
Proof. induction a as [|x a IH]; [done|]. rewrite ?app_String. cbn. by rewrite IH. Qed.

Lemma str_app_length (a b : string) : String.length (a +:+ b) = (String.length a + String.length b)%nat.
Proof. induction a as [|x a IH]; [done|]. rewrite ?app_String. cbn. by rewrite IH. Qed.

(** Prefixes of one length are one. *)
Lemma str_app_inj (a b a' b' : string) :
  String.length a = String.length a' -> a +:+ b = a' +:+ b' -> a = a' /\ b = b'.
Proof.
  revert a'. induction a as [|x a IH]; intros [|x' a']; rewrite ?app_String; cbn; try done.
  intros [= Hl] [= -> Heq]. by destruct (IH a' Hl Heq) as [-> ->].
Qed.

Lemma is_word_lower c : is_word (lower_char c) = is_word c.
Proof. destruct c as [[] [] [] [] [] [] [] []]; reflexivity. Qed.

Lemma lower_lower c : lower_char (lower_char c) = lower_char c.
Proof. destruct c as [[] [] [] [] [] [] [] []]; reflexivity. Qed.

Lemma space_no_word c : is_space c = true -> is_word c = false.
Proof. destruct c as [[] [] [] [] [] [] [] []]; done. Qed.

Lemma span_ok p s : exists a b, span p s = (a, b) /\ s = a +:+ b /\ str_all p a = true /\
  (b = EmptyString \/ exists c t, b = String c t /\ p c = false).
Proof.
  induction s as [|c s IH]; cbn.
  { exists EmptyString, EmptyString. split_and!; try done. by left. }
  destruct (p c) eqn:Hc.
  - destruct IH as (a & b & -> & -> & Ha & Hb). exists (String c a), b. rewrite app_String. split_and!; [done|done|cbn; by rewrite Hc, Ha|done].
  - exists EmptyString, (String c s). split_and!; try done. right. by exists c, s.
Qed.

Lemma span_app p a c t : str_all p a = true -> p c = false -> span p (a +:+ String c t) = (a, String c t).
Proof.
  intros Ha Hc. induction a as [|x a IH]; [rewrite app_Empty; cbn; by rewrite Hc|]. rewrite app_String. cbn in *. apply andb_true_iff in Ha as [-> Ha].
  by rewrite IH.
Qed.

Lemma after_prefix_ci_ok p s a b : after_prefix_ci p s = Some (a, b) -> s = a +:+ b /\ lower a = p.
Proof.
  revert s a b. induction p as [|x p IH]; intros [|y s] a b; cbn; try done.
  1,2: by intros [= <- <-].
  destruct_eqb x (lower_char y); [|done]. intros ([a' b'] & [-> <-]%IH & [= <- <-])%bind_Some. split; [done|cbn; by rewrite Heq].
Qed.

Lemma after_prefix_ci_app p a b : lower a = p -> after_prefix_ci p (a +:+ b) = Some (a, b).
Proof.
  intros <-. induction a as [|x a IH]; [done|]. rewrite ?app_String. cbn. by rewrite eqb_of_refl, IH.
Qed.

(** *** Everywhere, character by character *)

Fixpoint from (lead ok : string -> Prop) (w : bool) (s : string) : Prop :=
  (w = false -> forall l after, s = l +:+ after -> lead l -> ok after) /\
  match s with EmptyString => True | String c s => from lead ok (is_word c) s end.

Lemma from_ok lead ok w s :
  from lead ok w s <->
  forall before l after, s = before +:+ l +:+ after -> ends_word w before = false -> lead l -> ok after.
Proof.
  revert w. induction s as [|c s IH]; intros w; cbn [from].
  - split.
    + intros [H _] [|x b] l after; [intros Heq Hw; by apply (H Hw)|done].
    + intros H. split; [|done]. intros -> l after Heq. by apply (H EmptyString l after).
  - rewrite IH. split.
    + intros [H H'] [|x b] l after; [intros Heq Hw; by apply (H Hw)|]. rewrite app_String. intros [= -> ->]. by apply H'.
    + intros H. split; [intros -> l after Heq; by apply (H EmptyString l after)|]. intros b l after -> Hw. by apply (H (String c b)).
Qed.

Lemma from_app lead ok w a b : from lead ok w (a +:+ b) -> from lead ok (ends_word w a) b.
Proof.
  rewrite !from_ok. intros H before l after -> Hw. apply (H (a +:+ before)); [by rewrite str_app_assoc|].
  by rewrite ends_word_app.
Qed.

(** No occurrence can begin in [l], where occurrences begin with characters of [start]. *)
Fixpoint unbegun (start : Ascii.ascii -> bool) (w : bool) (l : string) : bool :=
  match l with
  | EmptyString => true
  | String c l => (w || negb (start (lower_char c))) && unbegun start (is_word c) l
  end.

Lemma inert_app start w a b : unbegun start w (a +:+ b) = unbegun start w a && unbegun start (ends_word w a) b.
Proof. revert w. induction a as [|x a IH]; intros w; [done|]. rewrite app_String. cbn. by rewrite IH, andb_assoc. Qed.

Lemma inert_lower start w a : unbegun start w (lower a) = unbegun start w a.
Proof. revert w. induction a as [|x a IH]; intros w; [done|]. cbn. by rewrite lower_lower, is_word_lower, IH. Qed.

Lemma ends_word_lower w a : ends_word w (lower a) = ends_word w a.
Proof. revert w. induction a as [|x a IH]; intros w; [done|]. cbn. by rewrite is_word_lower, IH. Qed.

(** Where an occurrence of the lead begins *)
Definition begins (lead : string -> Prop) (start : Ascii.ascii -> bool) : Prop :=
  forall l, lead l -> exists c l', l = String c l' /\ start (lower_char c) = true.

Lemma from_inert lead ok start w a b :
  begins lead start -> unbegun start w a = true -> from lead ok (ends_word w a) b -> from lead ok w (a +:+ b).
Proof.
  intros Hb. revert w. induction a as [|c a IH]; intros w; [done|]. rewrite app_String.
  cbn [unbegun ends_word from]. intros [Hc Ha]%andb_true_iff Hf. split; [|by apply IH].
  intros -> l after Heq Hl. destruct (Hb l Hl) as (c' & l' & -> & Hs). rewrite app_String in Heq. injection Heq as <- _.
  by rewrite Hs in Hc.
Qed.

(** After a word that ended, the flag makes no difference. *)
Lemma from_between lead ok start b :
  begins lead start -> (forall c, start (lower_char c) = true -> is_word c = true) ->
  b = EmptyString \/ (exists c t, b = String c t /\ is_word c = false) -> from lead ok true b -> from lead ok false b.
Proof.
  intros Hb Hword Hs Hf. destruct Hs as [->|(c & t & -> & Hc)]; cbn in *; (split; [|by apply Hf]); intros _ l after Heq Hl;
    destruct (Hb l Hl) as (c' & l' & -> & Hs); [done|]. rewrite app_String in Heq. injection Heq as -> _.
  apply Hword in Hs. congruence.
Qed.

(** *** A substitution *)
Section pass.
Context (m : matcher) (start : Ascii.ascii -> bool).
Context (m_begins : forall c s, start (lower_char c) = false -> m (String c s) = None)
  (start_word : forall c, start (lower_char c) = true -> is_word c = true)
  (m_hit : forall s repl matched rest, m s = Some (repl, matched, rest) ->
     s = matched +:+ rest /\ matched <> EmptyString /\ (exists c t, repl = String c t /\ start (lower_char c) = true) /\
     (ends_word false matched = true -> rest = EmptyString \/ exists c t, rest = String c t /\ is_word c = false)).

(** What cannot begin a match is copied. *)
Lemma sub_copies l w r t :
  unbegun start w l = true -> (String.length (l +:+ t) <= r)%nat ->
  exists r', (String.length t <= r')%nat /\ sub_loop m r w (l +:+ t) = l +:+ sub_loop m r' (ends_word w l) t.
Proof.
  revert w r. induction l as [|c l IH]; intros w r; [by exists r|]. rewrite !app_String. cbn [unbegun ends_word String.length].
  intros [Hc Hl]%andb_true_iff Hr. destruct r as [|r]; [lia|]. cbn [sub_loop].
  assert ((if w then None else m (String c (l +:+ t))) = None) as ->.
  { destruct w; [done|]. apply m_begins. by apply negb_true_iff. }
  destruct (IH (is_word c) r Hl) as (r' & Hr' & Heq); [lia|]. exists r'. split; [done|]. by rewrite Heq.
Qed.

(** What cannot begin a match, in the result, was copied. *)
Lemma sub_copied l w r s after :
  unbegun start w l = true -> (String.length s <= r)%nat -> sub_loop m r w s = l +:+ after ->
  exists r' after0, s = l +:+ after0 /\ (String.length after0 <= r')%nat /\ after = sub_loop m r' (ends_word w l) after0.
Proof.
  revert w r s. induction l as [|c l IH]; intros w r s; [by exists r, s|]. rewrite app_String. cbn [unbegun ends_word].
  intros [Hc Hl]%andb_true_iff Hr Heq. destruct r as [|r], s as [|d s]; cbn [sub_loop String.length] in *; try done; [lia|].
  destruct (if w then None else m (String d s)) as [[[repl matched] rest]|] eqn:Hm.
  - destruct w; [done|]. apply m_hit in Hm as (_ & _ & (e & t & -> & He) & _). rewrite app_String in Heq.
    injection Heq as -> _. by rewrite He in Hc.
  - injection Heq as -> Heq. destruct (IH (is_word c) r s Hl) as (r' & a & -> & Hr' & ->); [lia|done|]. by exists r', a.
Qed.

Lemma sub_between r b :
  (String.length b <= r)%nat -> b = EmptyString \/ (exists c t, b = String c t /\ is_word c = false) ->
  sub_loop m r true b = EmptyString \/ (exists c t, sub_loop m r true b = String c t /\ is_word c = false).
Proof.
  intros Hr [->|(c & t & -> & Hc)]; [by left; destruct r|]. right. destruct r as [|r]; cbn in *; [lia|].
  by exists c, (sub_loop m r (is_word c) t).
Qed.

Section output.
Context (lead ok : string -> Prop) (lstart : Ascii.ascii -> bool) (from_input : bool -> string -> Prop).
Context (lead_begins : begins lead lstart) (lstart_word : forall c, lstart (lower_char c) = true -> is_word c = true)
  (lead_inert : forall c l, lead (String c l) -> unbegun start (is_word c) l = true)
  (ok_sub : forall r w s, (String.length s <= r)%nat -> ok s -> ok (sub_loop m r w s))
  (input_front : forall s, from_input false s -> m s = None -> forall l after, s = l +:+ after -> lead l -> ok after)
  (input_next : forall w c s, from_input w (String c s) -> from_input (is_word c) s)
  (input_hit : forall s repl matched rest, from_input false s -> m s = Some (repl, matched, rest) ->
     from_input (ends_word false matched) rest)
  (output_hit : forall s repl matched rest out, m s = Some (repl, matched, rest) ->
     from lead ok false out -> from lead ok false (repl +:+ out)).

Lemma from_empty w : from lead ok w EmptyString.
Proof.
  split; [|done]. intros _ l after Heq Hl. destruct (lead_begins l Hl) as (c & l' & -> & _). done.
Qed.

Lemma sub_from r w s : (String.length s <= r)%nat -> from_input w s -> from lead ok w (sub_loop m r w s).
Proof.
  revert w s. induction r as [|r IH]; intros w [|c s]; cbn [String.length]; intros Hr Hin;
    [apply from_empty|lia|apply from_empty|]. cbn [sub_loop].
  destruct (if w then None else m (String c s)) as [[[repl matched] rest]|] eqn:Hm.
  - destruct w; [done|]. apply (output_hit _ _ _ _ _ Hm).
    pose proof (input_hit _ _ _ _ Hin Hm) as Hrest. apply m_hit in Hm as (Heq & Hne & _ & Hword).
    assert (String.length rest <= r)%nat as Hlen.
    { apply (f_equal String.length) in Heq. rewrite str_app_length in Heq. cbn in Heq. destruct matched; [done|]. cbn in Heq. lia. }
    specialize (IH _ _ Hlen Hrest). destruct (ends_word false matched); [|done].
    apply (from_between _ _ lstart); [done|done| |done]. by apply sub_between; [|apply Hword].
  - cbn [from]. split; [|apply IH; [lia|by eapply input_next]].
    intros -> l after Heq Hl. destruct (lead_begins l Hl) as (d & l' & -> & _). rewrite app_String in Heq.
    injection Heq as -> Heq. apply sub_copied in Heq as (r' & a & -> & Hr' & ->); [|by apply lead_inert|lia].
    apply ok_sub; [done|]. by apply (input_front (String d (l' +:+ a)) Hin Hm (String d l')).
Qed.
End output.

(** A text without a match is left as it is. *)
Lemma sub_none (lead ok : string -> Prop) r w s :
  (forall s repl matched rest, m s = Some (repl, matched, rest) -> exists l after, s = l +:+ after /\ lead l /\ ~ ok after) ->
  from lead ok w s -> sub_loop m r w s = s.
Proof.
  intros Hhit. revert w s. induction r as [|r IH]; intros w [|c s]; try done. cbn [from sub_loop]. intros [Hf Hs].
  destruct (if w then None else m (String c s)) as [[[repl matched] rest]|] eqn:Hm.
  - destruct w; [done|]. destruct (Hhit _ _ _ _ Hm) as (l & after & Heq & Hl & Hok). destruct Hok. by eapply Hf.
  - f_equal. by apply IH.
Qed.

(** Stops and the replacement are left. *)
Lemma sub_no_secret stop r w s :
  (forall c, stop c = true -> is_word c = false) -> (forall b, unbegun start b "[REDACTED]" = true) ->
  (String.length s <= r)%nat -> no_secret stop s -> no_secret stop (sub_loop m r w s).
Proof.
  intros Hstop Hred Hr [[->|(c & t & -> & Hc)]|(t & ->)].
  - left. left. by destruct r.
  - left. right. destruct r as [|r]; cbn in *; [lia|].
    assert ((if w then None else m (String c t)) = None) as ->.
    { destruct w; [done|]. apply m_begins. destruct (start (lower_char c)) eqn:Hs; [|done].
      apply start_word in Hs. rewrite Hstop in Hs by done. done. }
    by exists c, (sub_loop m r (is_word c) t).
  - right. destruct (sub_copies "[REDACTED]" w r t (Hred w) Hr) as (r' & _ & ->). by eexists.
Qed.
End pass.

(** *** The two patterns *)

Definition bearer_start (c : Ascii.ascii) : bool := eqb_of (String c EmptyString) "b".
Definition name_start (c : Ascii.ascii) : bool := bool_decide (String c EmptyString ∈ ["p"; "s"; "t"; "a"]).

Lemma bearer_begins c s : bearer_start (lower_char c) = false -> bearer (String c s) = None.
Proof. destruct c as [[] [] [] [] [] [] [] []]; done. Qed.
Lemma credential_begins c s : name_start (lower_char c) = false -> credential (String c s) = None.
Proof. destruct c as [[] [] [] [] [] [] [] []]; done. Qed.
Lemma bearer_start_word c : bearer_start (lower_char c) = true -> is_word c = true.
Proof. destruct c as [[] [] [] [] [] [] [] []]; done. Qed.
Lemma name_start_word c : name_start (lower_char c) = true -> is_word c = true.
Proof. destruct c as [[] [] [] [] [] [] [] []]; done. Qed.
Lemma bearer_stop_word c : bearer_stop c = true -> is_word c = false.
Proof. apply space_no_word. Qed.
Lemma assignment_stop_word c : assignment_stop c = true -> is_word c = false.
Proof. destruct c as [[] [] [] [] [] [] [] []]; done. Qed.

Lemma inert_spaces start w g :
  (forall c, start (lower_char c) = true -> is_word c = true) -> str_all is_space g = true -> unbegun start w g = true.
Proof.
  intros Hw. revert w. induction g as [|c g IH]; cbn; intros w; [done|]. intros [Hc Hg]%andb_true_iff.
  destruct (start (lower_char c)) eqn:Hs; [apply Hw in Hs; rewrite space_no_word in Hs by done; done|].
  by rewrite orb_true_r, IH.
Qed.

Lemma bearer_some s repl matched rest :
  bearer s = Some (repl, matched, rest) ->
  exists w g c t, s = (w +:+ g) +:+ String c t +:+ rest /\ matched = w +:+ g +:+ String c t /\ repl = "Bearer [REDACTED]" /\
    lower w = "bearer" /\ g <> EmptyString /\ str_all is_space g = true /\ is_space c = false /\
    (rest = EmptyString \/ exists d r, rest = String d r /\ is_word d = false).
Proof.
  unfold bearer. intros ([w r0] & [-> Hw]%after_prefix_ci_ok & Hr)%bind_Some.
  destruct (span_ok is_space r0) as (g & r1 & Hsp & -> & Hg & _). rewrite Hsp in Hr.
  destruct (span_ok (fun c => negb (is_space c)) r1) as (v & r2 & Hsp' & -> & Hv & Hrest). rewrite Hsp' in Hr.
  destruct_eqb g EmptyString; cbn in Hr; [done|]. destruct v as [|c v]; cbn in Hr; [done|].
  injection Hr as <- <- <-. cbn in Hv. apply andb_true_iff in Hv as [Hc _]. rewrite negb_true_iff in Hc.
  exists w, g, c, v. rewrite str_app_assoc. split_and!; try done.
  destruct Hrest as [->|(d & r & -> & Hd)]; [by left|right]. exists d, r. split; [done|].
  apply space_no_word. by rewrite negb_false_iff in Hd.
Qed.

Lemma bearer_found w g c t :
  lower w = "bearer" -> g <> EmptyString -> str_all is_space g = true -> is_space c = false ->
  bearer (w +:+ g +:+ String c t) <> None.
Proof.
  intros Hw Hne Hg Hc. unfold bearer. rewrite (after_prefix_ci_app _ _ _ Hw). cbn [mbind option_bind].
  rewrite (span_app _ _ _ _ Hg Hc). cbn [span]. rewrite Hc. cbn [negb].
  destruct (span _ t) as [a b]. destruct_eqb g EmptyString; [done|]. by cbn.
Qed.

Lemma bearer_hit s repl matched rest :
  bearer s = Some (repl, matched, rest) ->
  s = matched +:+ rest /\ matched <> EmptyString /\
  (exists c t, repl = String c t /\ bearer_start (lower_char c) = true) /\
  (ends_word false matched = true -> rest = EmptyString \/ exists c t, rest = String c t /\ is_word c = false).
Proof.
  intros (w & g & c & t & -> & -> & -> & Hw & _ & _ & _ & Hr)%bearer_some. split_and!.
  - by rewrite !str_app_assoc.
  - by destruct w.
  - by eexists _, _.
  - done.
Qed.

Lemma bearer_lead_begins : begins bearer_lead bearer_start.
Proof.
  intros l (w & g & -> & Hw & _ & _). destruct w as [|c w]; [done|]. exists c, (w +:+ g). split; [done|].
  injection Hw as Hc _. by rewrite Hc.
Qed.

(** A lead can only begin an occurrence, of either pattern, with its first character. *)
Lemma bearer_lead_inert start c l :
  (forall c, start (lower_char c) = true -> is_word c = true) -> bearer_lead (String c l) -> unbegun start (is_word c) l = true.
Proof.
  intros Hs (w & g & Heq & Hw & _ & Hg). destruct w as [|d w]; [done|]. rewrite app_String in Heq. injection Heq as -> ->.
  injection Hw as Hd Hw. rewrite inert_app, (inert_spaces _ _ _ Hs Hg), andb_true_r, <-inert_lower, Hw.
  rewrite <-is_word_lower, Hd. reflexivity.
Qed.

Lemma bearer_pass r s :
  (String.length s <= r)%nat -> from bearer_lead (no_secret bearer_stop) false (sub_loop bearer r false s).
Proof.
  intros Hr. apply (sub_from bearer bearer_start bearer_hit _ _ bearer_start
    (fun _ _ => True)); try done.
  - exact bearer_lead_begins.
  - exact bearer_start_word.
  - intros c l. apply bearer_lead_inert, bearer_start_word.
  - intros r' w s'. apply (sub_no_secret bearer bearer_start); auto using bearer_begins, bearer_start_word, bearer_stop_word.
    by intros [].
  - intros s' _ Hm l after -> (w & g & -> & Hw & Hne & Hg). left. destruct after as [|c t]; [by left|right].
    exists c, t. split; [done|]. unfold bearer_stop. destruct (is_space c) eqn:Hc; [done|].
    rewrite str_app_assoc in Hm. by destruct (bearer_found w g c t Hw Hne Hg Hc).
  - intros s' repl matched rest out (_ & _ & _ & _ & _ & _ & -> & _)%bearer_some Hout.
    change ("Bearer [REDACTED]" +:+ out) with (String (Ascii.ascii_of_nat 66) ("earer [REDACTED]" +:+ out)).
    split; [|by apply (from_inert _ _ bearer_start); [exact bearer_lead_begins|done|]].
    intros _ l after Heq (w & g & -> & Hw & Hne & Hg). right. exists out.
    change (String (Ascii.ascii_of_nat 66) ("earer [REDACTED]" +:+ out)) with ("Bearer" +:+ " [REDACTED]" +:+ out) in Heq.
    rewrite str_app_assoc in Heq. apply str_app_inj in Heq as [<- Heq];
      [|apply (f_equal String.length) in Hw; rewrite lower_length in Hw; done].
    destruct g as [|c g]; [done|]. cbn in Hg. apply andb_true_iff in Hg as [_ Hg].
    rewrite !app_String in Heq. injection Heq as <- Heq. destruct g as [|d g]; [done|].
    rewrite app_String in Heq. injection Heq as <- _. done.
Qed.

Lemma lower_split w p q : lower w = p +:+ q -> exists a b, w = a +:+ b /\ lower a = p /\ lower b = q.
Proof.
  revert w. induction p as [|c p IH]; intros w; [intros Hw; by exists EmptyString, w|]. rewrite app_String.
  destruct w as [|d w]; [done|]. cbn. intros [= <- (a & b & -> & <- & <-)%IH]. by exists (String d a), b.
Qed.

Lemma lower_dash c : lower_char c = Ascii.ascii_of_nat 95 \/ lower_char c = Ascii.ascii_of_nat 45 ->
  lower_char c = c /\ eqb_of c (Ascii.ascii_of_nat 95) || eqb_of c (Ascii.ascii_of_nat 45) = true.
Proof. intros [Hc|Hc]; destruct c as [[] [] [] [] [] [] [] []]; done. Qed.

Lemma api_keyword_ok s w rest :
  api_keyword s = Some (w, rest) -> s = w +:+ rest /\ lower w ∈ credential_names.
Proof.
  unfold api_keyword. intros ([a r0] & [-> Ha]%after_prefix_ci_ok & Hr)%bind_Some.
  assert (exists d r1, r0 = d +:+ r1 /\ d ∈ [EmptyString; "_"; "-"] /\
    ('(key, r2) ← after_prefix_ci "key" r1; Some (a +:+ d +:+ key, r2)) = Some (w, rest)) as (d & r1 & -> & Hd & Hk).
  { destruct r0 as [|c r0]; [exists EmptyString, EmptyString; split_and!; [done|set_solver|done]|].
    destruct (eqb_of c (Ascii.ascii_of_nat 95)) eqn:H1; [apply eqb_of_true in H1 as ->; exists "_", r0; split_and!; [done|set_solver|done]|].
    destruct (eqb_of c (Ascii.ascii_of_nat 45)) eqn:H2; [apply eqb_of_true in H2 as ->; exists "-", r0; split_and!; [done|set_solver|done]|].
    exists EmptyString, (String c r0). split_and!; [done|set_solver|done]. }
  apply bind_Some in Hk as ([k r2] & [-> Hk]%after_prefix_ci_ok & [= <- <-]). rewrite !str_app_assoc. split; [done|].
  rewrite !lower_app, Ha, Hk. unfold credential_names. rewrite !elem_of_cons in *.
  destruct Hd as [->|[->|[->|?%elem_of_nil]]]; cbn; tauto.
Qed.

Lemma keyword_ok s w rest : keyword s = Some (w, rest) -> s = w +:+ rest /\ lower w ∈ credential_names.
Proof.
  assert (forall p a b, p ∈ ["password"; "secret"; "token"] -> after_prefix_ci p s = Some (a, b) ->
    s = a +:+ b /\ lower a ∈ credential_names) as Hp.
  { intros p a b Hp [-> Ha]%after_prefix_ci_ok. split; [done|]. rewrite Ha. unfold credential_names. set_solver. }
  unfold keyword. destruct (after_prefix_ci "password" s) as [[a b]|] eqn:H1; [intros [= <- <-]; eapply Hp; [|done]; set_solver|].
  destruct (after_prefix_ci "secret" s) as [[a b]|] eqn:H2; [intros [= <- <-]; eapply Hp; [|done]; set_solver|].
  destruct (after_prefix_ci "token" s) as [[a b]|] eqn:H3; [intros [= <- <-]; eapply Hp; [|done]; set_solver|].
  apply api_keyword_ok.
Qed.

(** A text of another first letter *)
Lemma after_prefix_ci_other c p w t q : lower w = String c q -> match p with String d _ => d <> c | EmptyString => False end ->
  after_prefix_ci p (w +:+ t) = None.
Proof.
  destruct w as [|x w], p as [|d p]; try done. intros [= Hx _] Hd. rewrite app_String. cbn. rewrite Hx.
  by destruct_eqb d c.
Qed.

Lemma keyword_found w t : lower w ∈ credential_names -> keyword (w +:+ t) = Some (w, t).
Proof.
  unfold credential_names. rewrite !elem_of_cons. unfold keyword.
  intros [Hw|[Hw|[Hw|[Hw|[Hw|[Hw|?%elem_of_nil]]]]]]; [..|done].
  - by rewrite (after_prefix_ci_app _ _ _ Hw).
  - rewrite (after_prefix_ci_other _ _ _ _ _ Hw) by done. by rewrite (after_prefix_ci_app _ _ _ Hw).
  - rewrite !(after_prefix_ci_other _ _ _ _ _ Hw) by done. by rewrite (after_prefix_ci_app _ _ _ Hw).
  - rewrite !(after_prefix_ci_other _ _ _ _ _ Hw) by done. apply (lower_split w "api" "key") in Hw as (a & b & -> & Ha & Hb).
    unfold api_keyword. rewrite str_app_assoc, (after_prefix_ci_app _ _ _ Ha). cbn [mbind option_bind].
    destruct b as [|c b]; [done|]. rewrite app_String.
    assert (eqb_of c (Ascii.ascii_of_nat 95) || eqb_of c (Ascii.ascii_of_nat 45) = false) as ->.
    { injection Hb as Hb _. destruct c as [[] [] [] [] [] [] [] []]; done. }
    change (String c (b +:+ t)) with (String c b +:+ t). by rewrite (after_prefix_ci_app _ _ _ Hb).
  - rewrite !(after_prefix_ci_other _ _ _ _ _ Hw) by done. apply (lower_split w "api" "_key") in Hw as (a & b & -> & Ha & Hb).
    destruct b as [|c b]; [done|]. injection Hb as Hc Hb.
    unfold api_keyword. rewrite str_app_assoc, (after_prefix_ci_app _ _ _ Ha). cbn [mbind option_bind]. rewrite app_String.
    destruct (lower_dash c) as [_ ->]; [by left|]. by rewrite (after_prefix_ci_app _ _ _ Hb).
  - rewrite !(after_prefix_ci_other _ _ _ _ _ Hw) by done. apply (lower_split w "api" "-key") in Hw as (a & b & -> & Ha & Hb).
    destruct b as [|c b]; [done|]. injection Hb as Hc Hb.
    unfold api_keyword. rewrite str_app_assoc, (after_prefix_ci_app _ _ _ Ha). cbn [mbind option_bind]. rewrite app_String.
    destruct (lower_dash c) as [_ ->]; [by right|]. by rewrite (after_prefix_ci_app _ _ _ Hb).
Qed.

Lemma ends_word_snoc w p c : ends_word w (str_snoc p c) = is_word c.
Proof. unfold str_snoc. by rewrite ends_word_app. Qed.

Lemma quoted_ok q s v rest :
  quoted q s = Some (v, rest) -> is_word q = false ->
  exists t, v = String q t /\ s = v +:+ rest /\ ends_word false v = false.
Proof.
  unfold quoted. destruct s as [|c s]; [done|]. destruct_eqb c q; [|done].
  intros ([a b] & Hp%partition_join & [= <- <-])%bind_Some Hq. subst. exists (str_snoc a q).
  rewrite app_String, str_snoc_app. split_and!; [done|done|]. cbn. by rewrite ends_word_snoc.
Qed.

Lemma secret_value_ok s v rest :
  secret_value s = Some (v, rest) ->
  exists c t, v = String c t /\ s = v +:+ rest /\ (is_space c = false -> assignment_stop c = false) /\
    (ends_word false v = true -> rest = EmptyString \/ exists d r, rest = String d r /\ is_word d = false).
Proof.
  unfold secret_value. destruct (quoted (Ascii.ascii_of_nat 34) s) as [[v1 r1]|] eqn:H1.
  { intros [= <- <-]. apply quoted_ok in H1 as (t & -> & Hs & He); [|done]. exists (Ascii.ascii_of_nat 34), t. rewrite He. by split_and!. }
  destruct (quoted (Ascii.ascii_of_nat 39) s) as [[v1 r1]|] eqn:H2.
  { intros [= <- <-]. apply quoted_ok in H2 as (t & -> & Hs & He); [|done]. exists (Ascii.ascii_of_nat 39), t. rewrite He. by split_and!. }
  match goal with |- context [span ?q s] => destruct (span_ok q s) as (a & b & -> & -> & Ha & Hb) end.
  destruct a as [|c a]; [done|]. destruct (eqb_of (String c a) EmptyString) eqn:He; [by apply eqb_of_true in He|]. intros [= <- <-].
  exists c, a. split_and!; [done|done| |].
  - intros Hc. cbn in Ha. apply andb_true_iff in Ha as [Ha _]. unfold assignment_stop. rewrite Hc.
    destruct c as [[] [] [] [] [] [] [] []]; done.
  - intros _. destruct Hb as [->|(d & r & -> & Hd)]; [by left|right]. exists d, r. split; [done|].
    destruct d as [[] [] [] [] [] [] [] []]; done.
Qed.

Lemma secret_value_found c t : assignment_stop c = false -> secret_value (String c t) <> None.
Proof.
  intros Hc. unfold secret_value. destruct (quoted _ _) as [[? ?]|]; [done|]. destruct (quoted _ _) as [[? ?]|]; [done|].
  cbn [span].
  assert (negb (is_space c || eqb_of c (Ascii.ascii_of_nat 44) || eqb_of c (Ascii.ascii_of_nat 59)) = true) as ->
    by (destruct c as [[] [] [] [] [] [] [] []]; done).
  by destruct (span _ t) as [a b].
Qed.

(** An assignment, and what is made of it *)
Record assigned (s w g sep g' : string) (c : Ascii.ascii) (t rest : string) : Prop := {
  assigned_text : s = (w +:+ g +:+ sep +:+ g') +:+ String c t +:+ rest;
  assigned_name : lower w ∈ credential_names;
  assigned_spaces : str_all is_space g = true /\ str_all is_space g' = true;
  assigned_sep : sep ∈ ["="; ":"];
  assigned_value : assignment_stop c = false;
}.

Lemma credential_some s repl matched rest :
  credential s = Some (repl, matched, rest) ->
  exists w g sep g' c t, assigned s w g sep g' c t rest /\ repl = w +:+ "=[REDACTED]" /\
    matched = (w +:+ g +:+ sep +:+ g') +:+ String c t /\
    (ends_word false (String c t) = true -> rest = EmptyString \/ exists d r, rest = String d r /\ is_word d = false).
Proof.
  unfold credential. intros ([w r0] & [-> Hw]%keyword_ok & Hr)%bind_Some.
  destruct (span_ok is_space r0) as (g & r1 & Hsp & -> & Hg & _). rewrite Hsp in Hr.
  destruct r1 as [|x r1]; [done|].
  destruct (eqb_of x (Ascii.ascii_of_nat 61) || eqb_of x (Ascii.ascii_of_nat 58)) eqn:Hx; [|done].
  destruct (span_ok is_space r1) as (g' & r2 & Hsp' & -> & Hg' & Hhead). rewrite Hsp' in Hr.
  apply bind_Some in Hr as ([v r3] & (c & t & -> & -> & Hc & Hend)%secret_value_ok & [= <- <- <-]).
  exists w, g, (String x EmptyString), g', c, t. split_and!; try done.
  - split; try done.
    + by rewrite !str_app_assoc.
    + apply orb_true_iff in Hx as [->%eqb_of_true | ->%eqb_of_true]; set_solver.
    + apply Hc. destruct Hhead as [?|(d & r & Heq & Hd)]; [done|]. rewrite app_String in Heq. by injection Heq as <- _.
  - rewrite !str_app_assoc. done.
Qed.

Lemma credential_found s w g sep g' c t rest : assigned s w g sep g' c t rest -> credential s <> None.
Proof.
  intros [-> Hw [Hg Hg'] Hsep Hc]. unfold credential. rewrite !str_app_assoc, (keyword_found _ _ Hw). cbn [mbind option_bind].
  assert (exists x, sep = String x EmptyString /\ is_space x = false /\
    eqb_of x (Ascii.ascii_of_nat 61) || eqb_of x (Ascii.ascii_of_nat 58) = true) as (x & -> & Hx & Hs).
  { rewrite !elem_of_cons in Hsep. destruct Hsep as [->|[->|?%elem_of_nil]]; [by eexists; split_and!..|done]. }
  rewrite app_String, app_Empty, (span_app _ _ _ _ Hg Hx), Hs.
  assert (is_space c = false) as Hcs by (unfold assignment_stop in Hc; by apply orb_false_iff in Hc as [? _]).
  rewrite app_String, (span_app _ _ _ _ Hg' Hcs).
  destruct (secret_value _) as [[v r]|] eqn:Hv; [done|]. by apply secret_value_found in Hv.
Qed.

Lemma credential_hit s repl matched rest :
  credential s = Some (repl, matched, rest) ->
  s = matched +:+ rest /\ matched <> EmptyString /\
  (exists c t, repl = String c t /\ name_start (lower_char c) = true) /\
  (ends_word false matched = true -> rest = EmptyString \/ exists c t, rest = String c t /\ is_word c = false).
Proof.
  intros (w & g & sep & g' & c & t & [-> Hw _ _ _] & -> & -> & Hend)%credential_some.
  destruct w as [|x w]; [unfold credential_names in Hw; set_solver|]. split_and!.
  - by rewrite !str_app_assoc.
  - done.
  - exists x, (w +:+ "=[REDACTED]"). split; [done|]. unfold credential_names in Hw. rewrite !elem_of_cons in Hw.
    cbn in Hw. repeat (destruct Hw as [Hw|Hw]; [injection Hw as -> _; done|]). by apply elem_of_nil in Hw.
  - rewrite ends_word_app. exact Hend.
Qed.

Lemma no_empty_name : lower EmptyString ∈ credential_names -> False.
Proof.
  unfold credential_names. rewrite !elem_of_cons. intros Hw. repeat (destruct Hw as [Hw|Hw]; [done|]). by apply elem_of_nil in Hw.
Qed.

Lemma assignment_lead_begins : begins assignment_lead name_start.
Proof.
  intros l (w & g & sep & g' & -> & Hw & _). destruct w as [|c w]; [by apply no_empty_name in Hw|].
  unfold credential_names in Hw. rewrite !elem_of_cons in Hw. exists c, (w +:+ g +:+ sep +:+ g'). split; [done|].
  repeat (destruct Hw as [Hw|Hw]; [injection Hw as -> _; done|]). by apply elem_of_nil in Hw.
Qed.

Lemma names_inert w c : lower (String c w) ∈ credential_names -> unbegun name_start (is_word c) w = true /\ unbegun bearer_start false (String c w) = true.
Proof.
  intros Hw. split; [rewrite <-inert_lower, <-is_word_lower|rewrite <-inert_lower].
  - unfold credential_names in Hw. rewrite !elem_of_cons in Hw. cbn [lower] in Hw.
    repeat (destruct Hw as [Hw|Hw]; [injection Hw as -> ->; done|]). by apply elem_of_nil in Hw.
  - unfold credential_names in Hw. rewrite !elem_of_cons in Hw.
    repeat (destruct Hw as [Hw|Hw]; [rewrite Hw; done|]). by apply elem_of_nil in Hw.
Qed.

Lemma inert_separator b sep : sep ∈ ["="; ":"] -> unbegun name_start b sep = true.
Proof. rewrite !elem_of_cons. by intros [->|[->|?%elem_of_nil]]; destruct b. Qed.

Lemma assignment_lead_inert c l : assignment_lead (String c l) -> unbegun name_start (is_word c) l = true.
Proof.
  intros (w & g & sep & g' & Heq & Hw & Hg & Hsep & Hg').
  destruct w as [|d w]; [by apply no_empty_name in Hw|].
  rewrite app_String in Heq. injection Heq as -> ->. apply names_inert in Hw as [Hw _].
  rewrite !inert_app, Hw, (inert_spaces _ _ g name_start_word Hg), (inert_spaces _ _ g' name_start_word Hg').
  by rewrite inert_separator.
Qed.

(** Two ways to split a text after a name are one. *)
Lemma names_split w w' a b :
  w +:+ a = w' +:+ b -> lower w ∈ credential_names -> lower w' ∈ credential_names -> w = w' /\ a = b.
Proof.
  intros Heq Hw Hw'. apply str_app_inj; [|done]. rewrite <-(lower_length w), <-(lower_length w').
  apply (f_equal lower) in Heq. rewrite !lower_app in Heq. generalize dependent (lower w). generalize dependent (lower w').
  unfold credential_names. intros x Hx y Heq Hy. rewrite !elem_of_cons in Hx, Hy.
  repeat (destruct Hx as [->|Hx]; [repeat (destruct Hy as [->|Hy]; [first [done|by rewrite !app_String in Heq]|]); by apply elem_of_nil in Hy|]).
  by apply elem_of_nil in Hx.
Qed.

Lemma assignment_pass r s :
  (String.length s <= r)%nat -> from assignment_lead (no_secret assignment_stop) false (sub_loop credential r false s).
Proof.
  intros Hr. apply (sub_from credential name_start credential_hit _ _ name_start (fun _ _ => True)); try done.
  - exact assignment_lead_begins.
  - exact name_start_word.
  - exact assignment_lead_inert.
  - intros r' w s'. apply (sub_no_secret credential name_start);
      auto using credential_begins, name_start_word, assignment_stop_word. by intros [].
  - intros s' _ Hm l after -> (w & g & sep & g' & -> & Hw & Hg & Hsep & Hg'). left.
    destruct after as [|c t]; [by left|right]. exists c, t. split; [done|].
    destruct (assignment_stop c) eqn:Hc; [done|]. exfalso. revert Hm.
    apply (credential_found _ w g sep g' c EmptyString t). split; [|done..]. done.
  - intros s' repl matched rest out (w & g & sep & g' & c & t & [_ Hw _ _ _] & -> & _ & _)%credential_some Hout.
    destruct w as [|x w]; [by apply no_empty_name in Hw|].
    rewrite !str_app_assoc, app_String. split.
    + intros _ l after Heq (w' & h & sep' & h' & -> & Hw' & Hh & Hsep' & Hh'). right. exists out.
      rewrite <-app_String, !str_app_assoc in Heq. apply names_split in Heq as [_ Heq]; [|done..].
      destruct h as [|y h]; [|rewrite !app_String in Heq; injection Heq as <- _; done].
      rewrite app_Empty in Heq. rewrite !elem_of_cons in Hsep'.
      destruct Hsep' as [->|[->|?%elem_of_nil]]; [|by rewrite !app_String in Heq|done].
      rewrite !app_String in Heq. injection Heq as Heq. destruct h' as [|y h']; [done|].
      rewrite !app_String in Heq. injection Heq as <- _. done.
    + apply (from_inert _ _ name_start); [exact assignment_lead_begins|by apply names_inert in Hw as [? _]|].
      by apply (from_inert _ _ name_start _ "=[REDACTED]"); [exact assignment_lead_begins|destruct (ends_word _ _)|].
Qed.

(** The second substitution leaves what the first one achieved. *)
Lemma bearer_kept r s :
  (String.length s <= r)%nat -> from bearer_lead (no_secret bearer_stop) false s ->
  from bearer_lead (no_secret bearer_stop) false (sub_loop credential r false s).
Proof.
  intros Hr. apply (sub_from credential name_start credential_hit _ _ bearer_start
    (from bearer_lead (no_secret bearer_stop))); try done.
  - exact bearer_lead_begins.
  - exact bearer_start_word.
  - intros c l. apply bearer_lead_inert, name_start_word.
  - intros r' w s'. apply (sub_no_secret credential name_start);
      auto using credential_begins, name_start_word, bearer_stop_word. by intros [].
  - intros s' Hf _ l after -> Hl. by apply (proj1 (from_ok _ _ _ _) Hf EmptyString l after).
  - intros w c s' [_ Hf]. exact Hf.
  - intros s' repl matched rest Hf (-> & _)%credential_hit. by apply from_app in Hf.
  - intros s' repl matched rest out (w & g & sep & g' & c & t & [_ Hw _ _ _] & -> & _ & _)%credential_some Hout.
    destruct w as [|x w]; [by apply no_empty_name in Hw|].
    rewrite !str_app_assoc. apply (from_inert _ _ bearer_start); [exact bearer_lead_begins|by apply names_inert in Hw as [_ ?]|].
    by apply (from_inert _ _ bearer_start _ "=[REDACTED]"); [exact bearer_lead_begins|destruct (ends_word _ _)|].
Qed.

Lemma redact_text_redacted s : redacted (redact_text s).
Proof.
  split; intros before l after Heq; revert before l after Heq; apply from_ok; unfold redact_text, sub.
  - apply bearer_kept; [done|]. by apply bearer_pass.
  - by apply assignment_pass.
Qed.

Lemma redact_text_innocent s : innocent s -> redact_text s = s.
Proof.
  intros [Hb Ha]. unfold redact_text, sub.
  rewrite (sub_none bearer bearer_lead (no_value bearer_stop)); [|..|by apply from_ok].
  - apply (sub_none credential assignment_lead (no_value assignment_stop)); [|by apply from_ok].
    intros s' repl matched rest (w & g & sep & g' & c & t & [-> Hw [Hg Hg'] Hsep Hc] & _)%credential_some.
    exists (w +:+ g +:+ sep +:+ g'), (String c t +:+ rest). split_and!; [done|by exists w, g, sep, g'|].
    intros [Hn|(d & r & Hn & Hd)]; rewrite app_String in Hn; [done|]. injection Hn as <- _. congruence.
  - intros s' repl matched rest (w & g & c & t & -> & _ & _ & Hw & Hne & Hg & Hc & _)%bearer_some.
    exists (w +:+ g), (String c t +:+ rest). split_and!; [done|by exists w, g|].
    intros [Hn|(d & r & Hn & Hd)]; rewrite app_String in Hn; [done|]. injection Hn as <- _. unfold bearer_stop in Hd. congruence.
Qed.

(** What was replaced *)
Lemma sub_hides m cred r w s :
  (forall s repl matched rest, m s = Some (repl, matched, rest) ->
     s = matched +:+ rest /\ matched <> EmptyString /\ cred matched rest repl) ->
  (String.length s <= r)%nat -> hides cred w s (sub_loop m r w s).
Proof.
  intros Hm. revert w s. induction r as [|r IH]; intros w [|c s]; cbn [String.length sub_loop]; intros Hr;
    [constructor|lia|constructor|].
  destruct (if w then None else m (String c s)) as [[[repl matched] rest]|] eqn:Hc; [|constructor; apply IH; lia].
  destruct w; [done|]. apply Hm in Hc as (Heq & Hne & Hcred). rewrite Heq. constructor; [done|]. apply IH.
  apply (f_equal String.length) in Heq. rewrite str_app_length in Heq. cbn in Heq.
  destruct matched; [done|]. cbn in Heq. lia.
Qed.

Lemma bearer_whole s repl matched rest : bearer s = Some (repl, matched, rest) -> bearer_credential matched rest repl.
Proof.
  unfold bearer. intros ([w r0] & [-> Hw]%after_prefix_ci_ok & Hr)%bind_Some.
  destruct (span_ok is_space r0) as (g & r1 & Hsp & -> & Hg & _). rewrite Hsp in Hr.
  destruct (span_ok (fun c => negb (is_space c)) r1) as (v & r2 & Hsp' & -> & Hv & Hrest). rewrite Hsp' in Hr.
  destruct_eqb g EmptyString; cbn in Hr; [done|]. destruct_eqb v EmptyString; cbn in Hr; [done|]. injection Hr as <- <- <-.
  exists (w +:+ g), v. split_and!; [by rewrite str_app_assoc|by exists w, g| |done]. split_and!; [done|done|].
  destruct Hrest as [->|(d & r & -> & Hd)]; [by left|right]. exists d, r. split; [done|]. by rewrite negb_false_iff in Hd.
Qed.

Lemma partition_first c s a b : partition c s = Some (a, b) -> str_all (fun d => negb (eqb_of d c)) a = true.
Proof.
  revert a b. induction s as [|d s IH]; intros a b; cbn; [done|]. case_decide as Hc; [by intros [= <- _]|].
  intros ([a' b'] & Hp & [= <- <-])%bind_Some. cbn. destruct_eqb d c; [congruence|]. by eapply IH.
Qed.

Lemma quoted_between q s v rest :
  quoted q s = Some (v, rest) -> q = Ascii.ascii_of_nat 34 \/ q = Ascii.ascii_of_nat 39 -> between_quotes v.
Proof.
  unfold quoted. destruct s as [|c s]; [done|]. destruct_eqb c q; [|done].
  intros ([a b] & Hp%partition_first & [= <- <-])%bind_Some Hq. by exists q, a.
Qed.

Lemma secret_value_whole s v rest :
  secret_value s = Some (v, rest) -> between_quotes v \/ unquoted assignment_stop v rest.
Proof.
  unfold secret_value. destruct (quoted (Ascii.ascii_of_nat 34) s) as [[v1 r1]|] eqn:H1.
  { intros [= <- <-]. left. eapply quoted_between; [exact H1|by left]. }
  destruct (quoted (Ascii.ascii_of_nat 39) s) as [[v1 r1]|] eqn:H2.
  { intros [= <- <-]. left. eapply quoted_between; [exact H2|by right]. }
  match goal with |- context [span ?q s] => destruct (span_ok q s) as (a & b & -> & -> & Ha & Hb) end.
  destruct_eqb a EmptyString; [done|]. intros [= <- <-]. right. split_and!; [done| |].
  - revert Ha. apply str_all_impl. intros c. by destruct c as [[] [] [] [] [] [] [] []].
  - destruct Hb as [->|(d & r & -> & Hd)]; [by left|right]. exists d, r. split; [done|].
    revert Hd. by destruct d as [[] [] [] [] [] [] [] []].
Qed.

Lemma credential_whole s repl matched rest :
  credential s = Some (repl, matched, rest) -> assigned_credential matched rest repl.
Proof.
  unfold credential. intros ([w r0] & [-> Hw]%keyword_ok & Hr)%bind_Some.
  destruct (span_ok is_space r0) as (g & r1 & Hsp & -> & Hg & _). rewrite Hsp in Hr.
  destruct r1 as [|x r1]; [done|].
  destruct (eqb_of x (Ascii.ascii_of_nat 61) || eqb_of x (Ascii.ascii_of_nat 58)) eqn:Hx; [|done].
  destruct (span_ok is_space r1) as (g' & r2 & Hsp' & -> & Hg' & _). rewrite Hsp' in Hr.
  apply bind_Some in Hr as ([v r3] & Hv%secret_value_whole & [= <- <- <-]).
  exists w, (g +:+ String x EmptyString +:+ g'), v. split_and!; try done.
  - by rewrite !str_app_assoc.
  - exists w, g, (String x EmptyString), g'. split_and!; [by rewrite ?str_app_assoc|done..| |done].
    apply orb_true_iff in Hx as [->%eqb_of_true | ->%eqb_of_true]; set_solver.
Qed.

Lemma redact_text_cleaned s : cleaned s (redact_text s).
Proof.
  split; [|split; [apply redact_text_redacted|apply redact_text_innocent]].
  unfold redact_text, sub. exists (sub_loop bearer (String.length s) false s). split; (apply sub_hides; [|done]).
  - intros s' repl matched rest Hm. destruct (bearer_hit _ _ _ _ Hm) as (? & ? & _). split_and!; [done..|]. by eapply bearer_whole.
  - intros s' repl matched rest Hm. destruct (credential_hit _ _ _ _ Hm) as (? & ? & _). split_and!; [done..|].
    by eapply credential_whole.
Qed.

(** *** Names of secrets *)

(** The name contains, in any case, one of these words, or the words [api] and [key] with at most
    one character between them. *)
Definition secret_word (word : string) : Prop :=
  word ∈ ["password"; "secret"; "token"; "authorization"; "cookie"; "credential"; "apikey"] \/
  exists c, word = "api" +:+ String c "key" /\ c <> lf.
Definition names_secret (name : string) : Prop :=
  exists before word after, lower name = before +:+ word +:+ after /\ secret_word word.

Lemma prefix_ok p s : String.prefix p s = true <-> exists t, s = p +:+ t.
Proof.
  revert s. induction p as [|c p IH]; intros s; [split; [by intros _; exists s|by destruct s]|].
  destruct s as [|d s]; [split; [done|by intros [t Ht]]|]. cbn. destruct (Ascii.ascii_dec c d) as [->|Hne].
  - rewrite IH. split; intros [t Ht]; exists t; [by rewrite Ht|]. rewrite app_String in Ht. by injection Ht.
  - split; [done|]. intros [t Ht]. rewrite app_String in Ht. by injection Ht.
Qed.

Lemma after_prefix_ok p s t : after_prefix p s = Some t <-> s = p +:+ t.
Proof.
  revert s. induction p as [|c p IH]; intros s; [split; [by intros [= ->]|by intros ->]|].
  destruct s as [|d s]; [by split|]. cbn. rewrite app_String. destruct (decide (c = d)) as [->|Hne].
  - rewrite IH. split; [by intros ->|by intros [= ->]].
  - split; [done|]. intros [= -> _]. done.
Qed.

(** A text somewhere in which [q] holds of what follows *)
Lemma somewhere_ok (q : string -> bool) (f : string -> bool) :
  (forall s, f s = q s || match s with String _ s => f s | EmptyString => false end) ->
  forall s, f s = true <-> exists before t, s = before +:+ t /\ q t = true.
Proof.
  intros Hf s. induction s as [|c s IH]; rewrite Hf, orb_true_iff.
  - split; [intros [Hq|?]; [by exists EmptyString, EmptyString|done]|]. intros ([|] & [|] & Heq & Hq); try done. by left.
  - rewrite IH. split.
    + intros [Hq|(b & t & -> & Hq)]; [by exists EmptyString, (String c s)|]. by exists (String c b), t.
    + intros ([|d b] & t & Heq & Hq); [left; by rewrite Heq|right]. rewrite app_String in Heq. injection Heq as -> ->. by exists b, t.
Qed.

Lemma contains_ok w s : str_contains w s = true <-> exists before after, s = before +:+ w +:+ after.
Proof.
  rewrite (somewhere_ok (String.prefix w) (str_contains w)) by (by intros []). setoid_rewrite prefix_ok. naive_solver.
Qed.

Lemma api_key_front_ok s :
  api_key_front s = true <-> exists word after, s = word +:+ after /\
    (word = "apikey" \/ exists c, word = "api" +:+ String c "key" /\ c <> lf).
Proof.
  unfold api_key_front, starts_with. split.
  - destruct (after_prefix "api" s) as [r|] eqn:Ha; [|done]. apply after_prefix_ok in Ha as ->.
    intros [[t ->]%prefix_ok|Hr]%orb_true_iff; [by exists "apikey", t; split; [|left]|].
    destruct r as [|c r]; [done|]. apply andb_true_iff in Hr as [Hc [t ->]%prefix_ok].
    exists ("api" +:+ String c "key"), t. split; [done|]. right. exists c. split; [done|].
    intros ->. by rewrite eqb_of_refl in Hc.
  - intros (word & after & -> & [->|(c & -> & Hc)]).
    + rewrite (proj2 (after_prefix_ok "api" ("apikey" +:+ after) ("key" +:+ after))) by done. apply orb_true_iff. left.
      apply prefix_ok. by exists after.
    + rewrite (proj2 (after_prefix_ok "api" (("api" +:+ String c "key") +:+ after) (String c ("key" +:+ after)))) by done.
      apply orb_true_iff. right. apply andb_true_iff. split; [|apply prefix_ok; by exists after].
      by destruct_eqb c lf.
Qed.

Lemma sensitive_key_ok key : sensitive_key key = true <-> names_secret key.
Proof.
  unfold sensitive_key, names_secret, secret_word. rewrite orb_true_iff, List.existsb_exists.
  rewrite (somewhere_ok api_key_front has_api_key) by (by intros []). setoid_rewrite contains_ok.
  setoid_rewrite api_key_front_ok. setoid_rewrite <-list_elem_of_In. unfold sensitive_words. split.
  - intros [(w & Hw & b & a & Heq)|(b & t & Heq & w & a & -> & Hw)].
    + exists b, w, a. split; [done|]. left. set_solver.
    + exists b, w, a. split; [done|]. destruct Hw as [->|?]; [left; set_solver|by right].
  - intros (b & w & a & Heq & Hw). rewrite !elem_of_cons in Hw.
    destruct Hw as [[?|[?|[?|[?|[?|[?|[->|?%elem_of_nil]]]]]]]|Hc]; try (left; exists w; split; [set_solver|by exists b, a]); [|].
    + right. exists b, ("apikey" +:+ a). split; [done|]. exists "apikey", a. split; [done|by left].
    + right. exists b, (w +:+ a). split; [done|]. exists w, a. split; [done|by right].
Qed.

(** ** Payloads *)

(** Which members of an object are replaced: those whose key names a secret; and the value of an
    entry, like those of a container's environment, whose name does. *)
Definition hidden (o : list (string * json)) (key : string) : Prop :=
  names_secret key \/
  (exists name, dget o "name" = JStr name /\ names_secret name) /\ (key = "value" \/ key = "valueFrom").

(** A value at a depth, and what is persisted of it *)
Inductive sanitized : Z -> json -> json -> Prop :=
  | sanitized_null n : n <= 16 -> sanitized n JNull JNull
  | sanitized_bool n b : n <= 16 -> sanitized n (JBool b) (JBool b)
  | sanitized_int n z : n <= 16 -> sanitized n (JInt z) (JInt z)
  | sanitized_float n f : n <= 16 -> sanitized n (JFloat f) (JFloat f)
  | sanitized_text n s s' :
      n <= 16 -> cleaned s s' -> sanitized n (JStr s) (JStr s')
  | sanitized_list n l l' : n <= 16 -> Forall2 (sanitized (n + 1)) l l' -> sanitized n (JList l) (JList l')
  | sanitized_object n o o' :
      n <= 16 ->
      Forall2 (fun kv kv' => kv'.1 = kv.1 /\
        (hidden o kv.1 /\ kv'.2 = JStr "[REDACTED]" \/ ~ hidden o kv.1 /\ sanitized (n + 1) kv.2 kv'.2)) o o' ->
      sanitized n (JObj o) (JObj o').

(** One member of an object *)
Definition redact_member (n : Z) (sensitive : bool) (kv : string * json) : result (string * json) :=
  let! item := (if sensitive_key kv.1 || (sensitive && bool_decide (kv.1 ∈ ["value"; "valueFrom"]))
                then Ok (JStr REDACTED) else redact (n + 1) kv.2) in
  Ok (kv.1, item).
Definition is_sensitive (o : list (string * json)) : bool :=
  match dget o "name" with JStr name => sensitive_key name | _ => false end.

Lemma redact_list n l :
  redact n (JList l) = if 16 <? n then Err (ValueError "telemetry nesting exceeds budget")
                       else let! l := rmap (redact (n + 1)) l in Ok (JList l).
Proof.
  cbn [redact]. destruct (16 <? n); [done|]. f_equal.
  induction l as [|x l IH]; cbn [rmap]; [done|]. by rewrite <-IH.
Qed.

Lemma redact_object n o :
  redact n (JObj o) = if 16 <? n then Err (ValueError "telemetry nesting exceeds budget")
                      else let! o := rmap (redact_member n (is_sensitive o)) o in Ok (JObj o).
Proof.
  cbn [redact]. destruct (16 <? n); [done|]. fold (is_sensitive o). f_equal.
  generalize (is_sensitive o). intros sensitive.
  induction o as [|[k x] o IH]; cbn [rmap redact_member fst snd]; [done|]. rewrite <-IH.
  unfold redact_member. cbn [fst snd].
  destruct (if sensitive_key k || _ then _ else _); cbn; [done|]. by destruct (_ : result _).
Qed.

Lemma is_sensitive_ok o key :
  sensitive_key key || (is_sensitive o && bool_decide (key ∈ ["value"; "valueFrom"])) = true <-> hidden o key.
Proof.
  unfold hidden, is_sensitive. rewrite orb_true_iff, andb_true_iff, sensitive_key_ok, bool_decide_eq_true,
    elem_of_cons, list_elem_of_singleton.
  enough (match dget o "name" with JStr name => sensitive_key name | _ => false end = true <->
    exists name, dget o "name" = JStr name /\ names_secret name) as -> by done.
  setoid_rewrite <-sensitive_key_ok. destruct (dget o "name"); naive_solver.
Qed.

Lemma redact_sanitized v : forall n v', redact n v = inr v' -> sanitized n v v'.
Proof.
  induction v as [|b|z|f|s|l IH|o IH] using json_ind'; intros n v'; [| | | | |rewrite redact_list|rewrite redact_object];
    cbn [redact]; (destruct (16 <? n) eqn:Hn; [done|]; apply Z.ltb_ge in Hn).
  1-4: by intros [= <-]; constructor.
  - intros [= <-]. constructor; [done|apply redact_text_cleaned].
  - destruct (rmap _ l) as [|l'] eqn:Hl; cbn; [done|]. intros [= <-]. constructor; [done|].
    apply rmap_inr in Hl. induction Hl as [|x y l l' Hxy _ IHl]; [constructor|].
    apply Forall_cons in IH as [Hx Hrest]. constructor; [by apply Hx|by apply IHl].
  - destruct (rmap _ o) as [|o'] eqn:Ho; cbn; [done|]. intros [= <-]. constructor; [done|].
    apply rmap_inr in Ho. revert Ho. generalize (is_sensitive_ok o) as Hs. generalize (hidden o), (is_sensitive o).
    intros hide sensitive Hs Ho. induction Ho as [|[k x] [k' y] o o' Hxy _ IHo]; [constructor|].
    apply Forall_cons in IH as [Hx Hrest]. constructor; [|by apply IHo].
    unfold redact_member in Hxy. cbn [fst snd] in *. destruct (sensitive_key k || _) eqn:Hk.
    + injection Hxy as <- <-. split; [done|]. left. split; [by apply Hs|done].
    + destruct (redact (n + 1) x) eqn:Hr; cbn in Hxy; [done|]. injection Hxy as <- <-. split; [done|]. right.
      split; [|by apply Hx]. intros Hh%Hs. congruence.
Qed.

(** ** Python values

    Every dict in a value has distinct keys, and every float is finite. *)
Fixpoint plain_value (j : json) : bool :=
  match j with
  | JFloat f => is_finite f
  | JList l => (fix go (l : list json) := match l with [] => true | x :: l => plain_value x && go l end) l
  | JObj o => bool_decide (NoDup o.*1) &&
      (fix go (o : list (string * json)) := match o with [] => true | (_, x) :: o => plain_value x && go o end) o
  | _ => true
  end.

Lemma plain_list l : plain_value (JList l) = forallb plain_value l.
Proof. cbn. by induction l as [|x l IH]; cbn; [|rewrite IH]. Qed.
Lemma plain_object o : plain_value (JObj o) = bool_decide (NoDup o.*1) && forallb (fun kv => plain_value kv.2) o.
Proof. cbn [plain_value]. f_equal. by induction o as [|[k x] o IH]; cbn; [|rewrite IH]. Qed.

Lemma dict_find_in o k v : NoDup o.*1 -> (k, v) ∈ o -> dict_find o k = Some v.
Proof.
  induction o as [|[k' v'] o IH]; [by intros _ ?%elem_of_nil|]. cbn. intros [Hk' Hnd]%NoDup_cons Hin.
  apply elem_of_cons in Hin as [[= -> ->]|Hin]; [by rewrite decide_True|].
  rewrite decide_False; [by apply IH|]. intros ->. apply Hk'. by apply (list_elem_of_fmap_2' fst o (k, v)).
Qed.

Lemma SFeqb_refl f : is_finite f = true -> SFeqb f f = true.
Proof.
  destruct f as [s|s| |s m e]; cbn; [done|done|done|]. intros _. unfold SFeqb, SFcompare.
  destruct s; rewrite Z.compare_refl, Pos.compare_cont_refl; done.
Qed.

(** Such a value equals itself. *)
Lemma py_eq_refl v : plain_value v = true -> py_eq v v = true.
Proof.
  induction v as [|b|z|f|s|l IH|o IH] using json_ind'; cbn [py_eq].
  - done.
  - intros _. by destruct b.
  - intros _. apply Z.eqb_refl.
  - apply SFeqb_refl.
  - intros _. by apply bool_decide_eq_true.
  - rewrite plain_list. induction IH as [|x l Hx _ IHl]; cbn; [done|].
    rewrite andb_true_iff. intros [H1 H2]. by rewrite Hx, IHl.
  - rewrite plain_object, andb_true_iff, bool_decide_eq_true. intros [Hnd Hall].
    rewrite Nat.eqb_refl. cbn [andb].
    assert (forall o', o' ⊆ o -> forallb (fun kv => plain_value kv.2) o' = true ->
      Forall (fun kv => plain_value kv.2 = true -> py_eq kv.2 kv.2 = true) o' ->
      (fix go (o1 : list (string * json)) : bool :=
         match o1 with
         | [] => true
         | (k, a) :: o1 => match dict_find o k with Some b => py_eq a b | None => false end && go o1
         end) o' = true) as Hgo; [|by apply Hgo].
    intros o'. induction o' as [|[k x] o' IHo]; cbn [forallb]; [done|].
    rewrite andb_true_iff. intros Hsub [H1 H2] [Hx Hrest]%Forall_cons.
    rewrite (dict_find_in o k x Hnd) by (apply Hsub, list_elem_of_here).
    cbn [snd] in Hx, H1. rewrite Hx by done. cbn [andb]. apply IHo; [|done|done].
    intros y Hy. apply Hsub. by apply list_elem_of_further.
Qed.

(** Redaction keeps values plain. *)
Lemma redact_plain v : forall n v', plain_value v = true -> redact n v = inr v' -> plain_value v' = true.
Proof.
  induction v as [|b|z|f|s|l IH|o IH] using json_ind'; intros n v' Hv;
    [| | | | |rewrite redact_list; rewrite plain_list in Hv
     |rewrite redact_object; rewrite plain_object, andb_true_iff in Hv];
    cbn [redact]; (destruct (16 <? n); [done|]).
  1-5: by intros [= <-].
  - destruct (rmap _ l) as [|l'] eqn:Hl; cbn [rbind]; [done|]. intros [= <-]. rewrite plain_list.
    apply rmap_inr in Hl. induction Hl as [|x y l l' Hxy _ IHl]; [done|].
    apply Forall_cons in IH as [Hx Hrest]. cbn in Hv |- *. apply andb_true_iff in Hv as [Hv1 Hv2].
    rewrite (Hx _ _ Hv1 Hxy). by apply IHl.
  - destruct (rmap _ o) as [|o'] eqn:Ho; cbn [rbind]; [done|]. intros [= <-]. rewrite plain_object.
    apply rmap_inr in Ho. generalize (is_sensitive o) Ho. clear Ho. intros sensitive Ho.
    assert (o'.*1 = o.*1 /\ forallb (fun kv => plain_value kv.2) o' = true) as [-> ->]; [|by rewrite (proj1 Hv)].
    destruct Hv as [_ Hv]. induction Ho as [|[k x] [k' y] o o' Hxy _ IHo]; [done|].
    apply Forall_cons in IH as [Hx Hrest]. cbn in Hv. apply andb_true_iff in Hv as [Hv1 Hv2].
    destruct (IHo Hrest Hv2) as [IHk IHv]. cbn. rewrite IHk, IHv.
    unfold redact_member in Hxy. cbn [fst snd] in *. destruct (sensitive_key k || _).
    + cbn in Hxy. by injection Hxy as <- <-.
    + destruct (redact (n + 1) x) eqn:Hr; cbn in Hxy; [done|]. injection Hxy as <- <-.
      by rewrite (Hx _ _ Hv1 Hr).
Qed.

(** ** What [normalize] leaves behind *)

(** The text of a dict is read back as an equal dict, and a file is read by its text. *)
Class ObjectLaws `{ObjectText} : Prop := {
  object_read d : plain_value (JObj d) = true ->
    exists d', read_object (object_blob d) = inr d' /\ forall k, py_eq (dget d' k) (dget d k) = true;
  read_text b b' : blob_text b = blob_text b' -> read_object b = read_object b';
}.

Section roundtrip.
Context `{Blob, PydanticText, !ObjectText, !ObjectLaws}.

(** The store of one worker, with any clock and identities *)
Definition world (ids : gmap string blob -> result string) (clock : gmap string blob -> result datetime)
  (c : ev_call) (f : gmap string blob) : result (ev_answer c) * gmap string blob :=
  match c return result (ev_answer c) * gmap string blob with
  | VNewId => (ids f, f)
  | VNow => (clock f, f)
  | VArt c => art_exec f c
  end.

(** Files are never changed. *)
Lemma art_exec_grows f c : f ⊆ (art_exec f c).2.
Proof.
  destruct c as [d|d|b|d b|]; cbn; try done; destruct (f !! d) eqn:Hd; cbn; try done. by apply insert_subseteq.
Qed.


Lemma run_from_store ids clock {A} (m : prog art_answer A) f :
  run (world ids clock) (from_store m) f = run (fun c f => art_exec f c) m f.
Proof.
  revert f. unfold from_store. induction m as [a|e|c k IH]; intros f; cbn; [done..|].
  destruct (art_exec f c). apply IH.
Qed.

(** What a successful write leaves: a file with this text, under its digest. *)
Lemma store_write_run content f uri digest f' :
  run (fun c f => art_exec f c) (store_write content) f = (inr (uri, digest), f') ->
  digest = artifact_digest content /\ uri = "sha256://" +:+ digest /\ digest_ok digest = true /\
  oversized content = false /\ exists b, f' !! digest = Some b /\ blob_text b = blob_text content.
Proof.
  unfold store_write, path_for, publish_once. destruct (oversized content); [done|]. cbv zeta.
  destruct (digest_ok (artifact_digest content)) eqn:Hd; [|done]. cbn [negb]. cbn.
  destruct (f !! artifact_digest content) as [b|] eqn:Hf; cbn.
  - rewrite Hf. cbn. destruct (eqb_of (blob_text b) (blob_text content)) eqn:Hb; cbn; [|done].
    intros [= <- <- <-]. apply eqb_of_true_1 in Hb. split_and!; eauto.
  - intros [= <- <- <-]. split_and!; [done..|]. exists content. by rewrite lookup_insert_eq.
Qed.

(** What is stored under a digest with that text verifies. *)
Lemma store_verify_run e f content payload :
  f !! artifact_sha256 e = Some content -> artifact_uri e = "sha256://" +:+ artifact_sha256 e ->
  digest_ok (artifact_sha256 e) = true -> artifact_digest content = artifact_sha256 e ->
  oversized content = false -> read_object content = inr payload ->
  py_eq (dget payload "evidence") (JObj (without ["artifact_uri"; "artifact_sha256"] (dump_evidence e))) = true ->
  run (fun c f => art_exec f c) (store_verify e) f = (inr payload, f).
Proof.
  intros Hf Huri Hok Hd Hsize Hread Heq. unfold store_verify, store_open, path_for.
  rewrite Huri, eqb_of_refl, Hok. cbn [negb]. cbn. rewrite Hf. cbn.
  rewrite Hsize, Hd, eqb_of_refl. cbn. rewrite Hread. cbn. cbn in Heq. by rewrite Heq.
Qed.

(** Nothing is stripped from the URI of a digest. *)
Lemma rtrim_all s : str_all (fun c => negb (trim_space c)) s = true -> rtrim s = s.
Proof.
  induction s as [|c s IH]; cbn; [done|]. rewrite andb_true_iff. intros [Hc Hs]. rewrite (IH Hs).
  destruct (trim_space c); [done|]. by rewrite andb_false_r.
Qed.

Lemma trim_all s : str_all (fun c => negb (trim_space c)) s = true -> trim s = s.
Proof.
  intros Hs. unfold trim. assert (ltrim s = s) as ->; [|by apply rtrim_all].
  destruct s as [|c s]; cbn in *; [done|]. by destruct (trim_space c).
Qed.

Lemma hex_not_space c : is_lower_hex c = true -> negb (trim_space c) = true.
Proof. destruct c as [[] [] [] [] [] [] [] []]; vm_compute; congruence. Qed.

Lemma uri_kept digest : digest_ok digest = true -> trim ("sha256://" +:+ digest) = "sha256://" +:+ digest.
Proof.
  unfold digest_ok. rewrite andb_true_iff. intros [_ Hd]. apply trim_all.
  by apply (str_all_impl _ _ _ hex_not_space) in Hd.
Qed.

Lemma evidence_plain e : plain_value (JObj (without ["artifact_uri"; "artifact_sha256"] (dump_evidence e))) = true.
Proof. vm_compute. reflexivity. Qed.

Lemma envelope_plain e p : plain_value p = true -> plain_value (JObj (envelope e p)) = true.
Proof.
  intros Hp. rewrite plain_object. unfold envelope.
  replace (bool_decide _) with true by (vm_compute; reflexivity).
  cbn [forallb snd andb]. by rewrite evidence_plain, Hp.
Qed.

(** A successful [normalize], on the files of one worker *)
Lemma normalize_run ids clock o incident start stop f e f' :
  run (world ids clock) (normalize o incident start stop) f = (inr e, f') ->
  exists id now prov v,
    redact 0 (JObj (obs_payload o)) = inr v /\
    EvidenceItem_make (metadata o incident id now "pending://artifact" zeros) = Some prov /\
    EvidenceItem_make (metadata o incident id now (artifact_uri e) (artifact_sha256 e)) = Some e /\
    run (fun c f => art_exec f c) (store_write (object_blob (envelope prov v))) f =
      (inr (artifact_uri e, artifact_sha256 e), f').
Proof.
  unfold normalize. destruct (negb _); [done|]. cbn [bind call]. cbn [run world].
  destruct (ids f) as [|id]; [done|]. cbn [run world bind].
  destruct (clock f) as [|now]; [done|]. cbn [run bind]. rewrite run_bind, run_lift.
  destruct (EvidenceItem_make (metadata o incident id now "pending://artifact" zeros)) as [prov|] eqn:Hp; [|done].
  cbn [evidence_of]. rewrite run_bind, run_lift. destruct (redact 0 (JObj (obs_payload o))) as [|v] eqn:Hv; [done|].
  rewrite run_bind, run_from_store. unfold write_object. destruct (json_finite _); [|done].
  destruct (run _ (store_write _) f) as [[|[uri digest]] f1] eqn:Hw; [done|]. rewrite run_lift.
  destruct (EvidenceItem_make (metadata o incident id now uri digest)) as [e'|] eqn:He; [|done].
  cbn [evidence_of]. intros [= -> ->].
  apply store_write_run in Hw as Hs. destruct Hs as (Hd & Huri & Hok & _).
  apply EvidenceItem_make_ok in He as Hf. destruct Hf as [_ Hf].
  assert (artifact_uri e = uri /\ artifact_sha256 e = digest) as [-> ->].
  { rewrite Hf. cbn. split; [|done]. rewrite Huri. by apply uri_kept. }
  by exists id, now, prov, v.
Qed.

(** The metadata an item names in its artifact *)
Lemma dumped_alike o incident id now uri digest prov e :
  EvidenceItem_make (metadata o incident id now "pending://artifact" zeros) = Some prov ->
  EvidenceItem_make (metadata o incident id now uri digest) = Some e ->
  without ["artifact_uri"; "artifact_sha256"] (dump_evidence prov) =
  without ["artifact_uri"; "artifact_sha256"] (dump_evidence e).
Proof. intros [_ ->]%EvidenceItem_make_ok [_ ->]%EvidenceItem_make_ok. reflexivity. Qed.

Lemma normalize_verifies ids clock o incident start stop f e f' :
  plain_value (JObj (obs_payload o)) = true ->
  run (world ids clock) (normalize o incident start stop) f = (inr e, f') ->
  exists v, redact 0 (JObj (obs_payload o)) = inr v /\
    forall g, f' ⊆ g -> exists payload,
      run (fun c f => art_exec f c) (store_verify e) g = (inr payload, g) /\
      py_eq (dget payload "payload") v = true.
Proof.
  intros Hplain (id & now & prov & v & Hv & Hp & He & Hw)%normalize_run. exists v. split; [done|].
  intros g Hg. apply store_write_run in Hw as (Hd & Huri & Hok & Hsize & b & Hb & Htext).
  pose proof (redact_plain _ _ _ Hplain Hv) as Hpv.
  destruct (object_read (envelope prov v) (envelope_plain prov v Hpv)) as (d & Hread & Hget).
  exists d. split; [|exact (Hget "payload")].
  apply (store_verify_run e g b d); [by eapply lookup_weaken|done|done| | | |].
  - rewrite Hd. unfold artifact_digest. by rewrite Htext.
  - unfold oversized in *. by rewrite Htext.
  - by rewrite (read_text _ _ Htext).
  - rewrite <-(dumped_alike _ _ _ _ _ _ _ _ Hp He). exact (Hget "evidence").
Qed.
End roundtrip.

(** ** Properties *)

Section properties.

(** C32: What is persisted of a payload is, at every depth, which is at most sixteen: the
    replacement under every key that names a secret, in any case, and as the value of every entry
    whose name does; every other member, item and scalar as it was; and texts in which whole
    credentials were replaced and nothing else, and no credential is left: wherever a bearer
    word, or a name of a credential with its separator, begins a word, what follows is the
    replacement or no value at all.  A text in which there was no credential is as it was. *)
Theorem redaction_sanitizes payload v : redact 0 (JObj payload) = inr v -> sanitized 0 (JObj payload) v.
Proof. apply redact_sanitized. Qed.

Context `{Blob, PydanticText, !ObjectText, !ObjectLaws}.

(** C31: Whatever files are there already, an item that [normalize] returned verifies against the
    store as it then is, and as any later worker may extend it, and what is read back under
    [payload] equals the redacted payload of the observation. *)
Theorem evidence_round_trip ids clock o incident start stop f e f' :
  plain_value (JObj (obs_payload o)) = true ->
  run (world ids clock) (normalize o incident start stop) f = (inr e, f') ->
  exists v, redact 0 (JObj (obs_payload o)) = inr v /\
    forall g, f' ⊆ g -> exists payload,
      run (fun c f => art_exec f c) (store_verify e) g = (inr payload, g) /\
      py_eq (dget payload "payload") v = true.
Proof. apply normalize_verifies. Qed.
End properties.

(** ** Instances *)

Lemma encoded_laws : @ObjectLaws encoded_objects encoded_texts.
Proof.
  split; [|intros b b' Hb; cbn in Hb |- *; by rewrite Hb]. intros d Hd. exists d. split; [apply encoded_read|]. intros k. unfold dget.
  destruct (dict_find d k) as [v|] eqn:Hk; [|done]. cbn. apply py_eq_refl.
  rewrite plain_object, andb_true_iff in Hd. destruct Hd as [_ Hd]. clear -Hk Hd.
  induction d as [|[k' x] d IH]; cbn in *; [done|]. apply andb_true_iff in Hd as [Hx Hd].
  destruct (decide _); [by injection Hk as <-|auto].
Qed.

Definition secret_entry : list (string * json) :=
  [("name", JStr "API_TOKEN"); ("value", JStr "abc"); ("note", JStr "use bearer xyz"); ("password", JInt 1)].
Definition entry_redacted : json :=
  JObj [("name", JStr "API_TOKEN"); ("value", JStr REDACTED); ("note", JStr "use Bearer [REDACTED]");
        ("password", JStr REDACTED)].

Definition crash_payload : list (string * json) :=
  [("env", JList [JObj secret_entry; JInt 3]);
   ("message", JStr "start token: 'a b', Bearer abc.def then Secret=x; done")].
Definition crash_redacted : json :=
  JObj [("env", JList [entry_redacted; JInt 3]);
        ("message", JStr "start token=[REDACTED], Bearer [REDACTED] then Secret=[REDACTED]; done")].

Lemma redaction_sanitizes_witness : sanitized 0 (JObj crash_payload) crash_redacted.
Proof. apply redaction_sanitizes. vm_compute. reflexivity. Defined.

Definition secret_log : Observation :=
  {| obs_source := LOG; obs_resource := "payments-api"; obs_observed_at := NOON; obs_query := "logs.5m.100";
     obs_summary := "worker started with token=abc"; obs_payload := secret_entry |}.

Definition fixed_clock (f : gmap string (@blob encoded_objects)) : result datetime := inr NOON.
Definition fixed_ids (f : gmap string (@blob encoded_objects)) : result string := inr "evidence-1".
Definition stored_log :=
  run (@world encoded_objects fixed_ids fixed_clock)
    (@normalize encoded_objects shown encoded_texts secret_log "incident-1" NOON NOON) ∅.
Definition stored_item : EvidenceItem := Eval vm_compute in item_or_none stored_log.1.

Example stored_log_ok :
  run (@world encoded_objects fixed_ids fixed_clock)
    (@normalize encoded_objects shown encoded_texts secret_log "incident-1" NOON NOON) ∅ =
  (inr stored_item, stored_log.2).
Proof. vm_compute. reflexivity. Qed.

Lemma evidence_round_trip_witness :
  exists v, redact 0 (JObj (obs_payload secret_log)) = inr v /\
    forall g, stored_log.2 ⊆ g -> exists payload,
      run (fun c f => @art_exec encoded_objects f c) (@store_verify encoded_objects shown stored_item) g =
        (inr payload, g) /\
      py_eq (dget payload "payload") v = true.
Proof.
  apply (@evidence_round_trip encoded_objects shown encoded_texts encoded_laws fixed_ids fixed_clock secret_log
    "incident-1" NOON NOON ∅ stored_item stored_log.2).
  - vm_compute. reflexivity.
  - exact stored_log_ok.
Defined.
