(* ===== verification/RetrievalTheorems.v ===== *)
(** * Retrieved context is verified to its origin

    A verified retrieval is a bounded chain of citations, without a cycle, that ends in an
    original artifact of the same service; the bound on the rounds of the traversal is never
    reached; the cache returns only such evidence, in time, for the scope it was asked. *)

From S2P Require Import Prelude Text Json Digest Contracts Effects Reasoning Numbers Artifacts Normalize.
From S2P Require Import Baseline SandboxModels Windows Spans Retrieval EvidenceStory.

Open Scope string_scope.
Open Scope list_scope.
Open Scope Z_scope.
Open Scope result_scope.
Open Scope prog_scope.

Section chains.
Context `{Blob, PydanticText, !Instants}.

(** One citation: the stored lineage of an item agrees with it. *)
Definition cites (tr : list (obs art_answer)) (e : EvidenceItem) (l : RetrievalLineage) : Prop :=
  exists payload k, stored tr e payload /\ parse_lineage (dget payload "payload") = Some l /\
    source e = source_of_kind k /\ lineage_agrees e k l = true.

Definition same_place (a b : EvidenceScope) : Prop :=
  sc_namespace a = sc_namespace b /\ sc_service a = sc_service b.

(** The citations that start at an item, with the digests they pass: the last one cites an
    original artifact, whose payload names the namespace and the service. *)
Inductive chain (tr : list (obs art_answer)) : EvidenceItem -> RetrievalLineage -> list string -> Prop :=
  | chain_original e l payload raw :
      cites tr e l -> is_elastic (lin_source l) = false -> stored tr (lin_source l) payload ->
      dget payload "payload" = JObj raw -> dget raw "namespace" = JStr (sc_namespace (lin_scope l)) ->
      dget raw "service" = JStr (sc_service (lin_scope l)) ->
      chain tr e l [artifact_sha256 e]
  | chain_link e l l' digests :
      cites tr e l -> is_elastic (lin_source l) = true -> chain tr (lin_source l) l' digests ->
      same_place (lin_scope l') (lin_scope l) ->
      chain tr e l (artifact_sha256 e :: digests).

Lemma cites_weaken tr tr' e l : tr ⊆ tr' -> cites tr e l -> cites tr' e l.
Proof. intros Hs (p & k & Hp & Hl). exists p, k. split; [by eapply stored_weaken|done]. Qed.

Lemma chain_weaken tr tr' e l digests : tr ⊆ tr' -> chain tr e l digests -> chain tr' e l digests.
Proof.
  intros Hs. induction 1 as [e l p raw Hc Ho Hp|e l l' ds Hc He _ IH Hsame].
  - eapply chain_original; eauto using cites_weaken, stored_weaken.
  - eapply chain_link; eauto using cites_weaken.
Qed.

(** Every link tells the resource, the summary and the time of its source. *)
Lemma chain_facts tr e l digests :
  chain tr e l digests ->
  resource e = sc_service (lin_scope l) /\ ev_incident_id e = sc_incident_id (lin_scope l) /\
  observed_at (lin_source l) = observed_at e /\ retrieved_at l <= collected_at e.
Proof.
  intros Hc. assert (exists tr, cites tr e l) as (tr' & p & k & _ & _ & _ & Hag) by (destruct Hc; eauto).
  unfold lineage_agrees in Hag. pybool. intuition (try congruence; try lia).
Qed.

Lemma validated_ok {A} name (a : option A) x : validated name a = inr x -> a = Some x.
Proof. destruct a; cbn; congruence. Qed.

Lemma kind_source s k : kind_of_source s = Some k -> s = source_of_kind k.
Proof. destruct s; intros [= <-]; done. Qed.

Lemma scope_is_ok actual ns service :
  scope_is actual ns service = true -> actual = (JStr ns, JStr service).
Proof.
  unfold scope_is. rewrite andb_true_iff, !is_str_true. destruct actual; cbn. by intros [-> ->].
Qed.

(** What a successful traversal has established, with the digests it had seen before *)
Lemma verify_retrieval_loop_ok rounds e seen tr l :
  runs (verify_retrieval_loop rounds e seen) tr (inr l) ->
  exists digests, chain tr e l digests /\ NoDup digests /\ (forall d, d ∈ digests -> d ∉ seen) /\
    len digests + len seen <= 8.
Proof.
  revert e seen tr l. induction rounds as [|rounds IH]; cbn [verify_retrieval_loop]; intros e seen tr l Hr;
    [exfalso; exact (runs_raise_ok _ _ _ Hr)|].
  destruct (bool_decide _ || _) eqn:Hguard; [by apply runs_raise_ok in Hr|]. pybool. destruct Hguard as [Hnew Hlen].
  apply runs_bind_ok in Hr as (p & t1 & t' & -> & Hp & Hr). apply store_verify_ok in Hp.
  apply runs_bind_ok in Hr as (l0 & t2 & t3 & -> & Hl & Hr). apply runs_lift_ok in Hl as [-> Hl%validated_ok].
  destruct (kind_of_source (source e)) as [k|] eqn:Hk; [|exfalso; exact (runs_raise_ok _ _ _ Hr)].
  apply kind_source in Hk. run_ok. pybool. apply scope_is_ok in Heqb0 as ->.
  rename Hrun into Hsrc. unfold source_scope in Hsrc. run_ok.
  - (* another link *)
    apply IH in Hrun1 as (ds & Hch & Hnd & Hfresh & Hle).
    exists (artifact_sha256 e :: ds). split_and!.
    + eapply chain_link; [| |eapply chain_weaken; [|exact Hch]|by split]; [|done|within_app].
      eapply cites_weaken; [|exists p, k; split_and!; eauto]. within_app.
    + constructor; [|done]. intros Hin%Hfresh. set_solver.
    + intros d [->|Hin]%elem_of_cons; [done|]. apply Hfresh in Hin. set_solver.
    + unfold len in *. cbn in *. lia.
  - (* an original artifact *)
    apply store_verify_ok in Hrun.
    destruct (dget a "payload") eqn:Hpl; try (exfalso; exact (runs_raise_ok _ _ _ Hrun0)).
    apply runs_ret_ok in Hrun0 as [-> [= Hns Hsv]]. exists [artifact_sha256 e]. split_and!.
    + eapply chain_original; [| |eapply stored_weaken; [|exact Hrun]| | |]; try done; [|within_app].
      eapply cites_weaken; [|exists p, k; split_and!; eauto]. within_app.
    + apply NoDup_singleton.
    + by intros d ->%list_elem_of_singleton.
    + unfold len in *. cbn. lia.
Qed.
End chains.

(** ** Termination *)

Section termination.
Context `{Blob, PydanticText, !Instants}.

Definition request (c : art_call) : nat := 1.

Lemma total_request (tr : list (obs art_answer)) : total request tr = length tr.
Proof. unfold total. induction tr as [|o tr IH]; cbn in *; [done|]. by f_equal. Qed.

Lemma path_for_costs d : costs request 1 (path_for d).
Proof.
  unfold path_for. destruct (negb _); [apply costs_raise|]. apply costs_last; [costs_request|].
  intros []; [apply costs_ret|apply costs_raise].
Qed.

Lemma store_open_costs d : costs request 2 (store_open d).
Proof. apply (costs_bind _ 1 1); [apply path_for_costs|]. intros _ _ _. costs_request. Qed.

Lemma store_verify_costs e : costs request 2 (store_verify e).
Proof.
  unfold store_verify. destruct (negb _); [apply costs_raise|]. apply costs_last.
  - apply (costs_catch _ 2 0); [apply store_open_costs|]. intros. apply costs_raise.
  - intros content. destruct (_ || _); [apply costs_raise|]. apply costs_last; [apply costs_lift|].
    intros p. cbv zeta. destruct (negb _); [apply costs_raise|apply costs_ret].
Qed.

Lemma source_scope_costs again n e seen :
  (forall e, costs request n (again e seen)) -> costs request (2 + n) (source_scope again e seen).
Proof.
  intros Hag. apply costs_bind; [apply store_verify_costs|]. intros p _ _.
  destruct (is_elastic e).
  - apply costs_last; [apply Hag|]. intros. apply costs_ret.
  - destruct (dget p "payload"); first [apply costs_ret|apply costs_raise].
Qed.

(** Four requests for every link that is left *)
Lemma verify_retrieval_loop_costs rounds e seen :
  costs request (4 * (8 - length seen)) (verify_retrieval_loop rounds e seen).
Proof.
  revert e seen. induction rounds as [|rounds IH]; intros e seen; cbn [verify_retrieval_loop]; [apply costs_raise|].
  destruct (_ || _) eqn:Hguard; [apply costs_raise|]. pybool. destruct Hguard as [_ Hlen].
  apply (costs_le _ (2 + (2 + 4 * (8 - length (artifact_sha256 e :: seen))))).
  { unfold len in Hlen. cbn [length]. lia. }
  apply costs_bind; [apply store_verify_costs|]. intros p _ _.
  apply costs_then; [apply costs_lift|]. intros l _ _.
  destruct (kind_of_source _); [|apply costs_raise]. destruct (negb _); [apply costs_raise|].
  apply costs_last; [apply source_scope_costs; intros; apply IH|].
  intros actual. destruct (negb _); [apply costs_raise|apply costs_ret].
Qed.

(** More rounds than there are links left change nothing. *)
Lemma source_scope_same (again again' : EvidenceItem -> list string -> prog art_answer RetrievalLineage) e seen tr out :
  (forall e tr out, runs (again e seen) tr out -> runs (again' e seen) tr out) ->
  runs (source_scope again e seen) tr out -> runs (source_scope again' e seen) tr out.
Proof.
  intros Hag. unfold source_scope. apply runs_bind_mono; [done|]. intros p t o.
  destruct (is_elastic e); [|done]. by apply runs_bind_mono; [apply Hag|].
Qed.

Lemma verify_retrieval_loop_same rounds rounds' e seen tr out :
  (length seen <= 8)%nat -> (9 <= length seen + rounds)%nat -> (9 <= length seen + rounds')%nat ->
  runs (verify_retrieval_loop rounds e seen) tr out -> runs (verify_retrieval_loop rounds' e seen) tr out.
Proof.
  revert rounds' e seen tr out.
  induction rounds as [|rounds IH]; intros [|rounds'] e seen tr out Hlen Hle Hle'; [lia..|].
  cbn [verify_retrieval_loop]. destruct (_ || _) eqn:Hguard; [done|]. pybool. destruct Hguard as [_ Hg].
  unfold len in Hg. apply runs_bind_mono; [done|]. intros p t o. apply runs_bind_mono; [done|]. intros l t1 o1.
  destruct (kind_of_source _); [|done]. destruct (negb _); [done|].
  apply runs_bind_mono; [|done]. intros t2 o2. apply source_scope_same. intros e' t3 o3.
  apply IH; cbn [length]; lia.
Qed.
End termination.

(** ** The cache *)

Section cache.
Context `{Blob, PydanticText, !Instants}.

(** The requests to the store within a run of the cache or of a search *)
Definition within (art : list (obs art_answer)) (tr : list (obs ret_answer)) : Prop :=
  forall o, o ∈ art -> (existT (QEv (VArt (projT1 o))) (projT2 o) : obs ret_answer) ∈ tr.

Lemma within_app_l art tr tr' : within art tr -> within art (tr ++ tr').
Proof. intros Hw o Ho. apply elem_of_app. left. by apply Hw. Qed.
Lemma within_app_r art tr tr' : within art tr' -> within art (tr ++ tr').
Proof. intros Hw o Ho. apply elem_of_app. right. by apply Hw. Qed.

Lemma on_artifacts_runs {A} (m : prog art_answer A) tr out :
  runs (on_artifacts m) tr out -> exists art, runs m art out /\ within art tr.
Proof.
  unfold on_artifacts, on_evidence, from_store. intros Hr.
  apply runs_embed in Hr as (tr1 & Hr & Ht). apply runs_embed in Hr as (art & Hr & Ht').
  exists art. split; [done|]. intros [c r0] Ho.
  apply list_elem_of_lookup in Ho as [i Hi].
  destruct (Forall2_lookup_l _ _ _ _ _ Ht' Hi) as (o1 & Hi1 & r & -> & Hq).
  destruct (Forall2_lookup_l _ _ _ _ _ Ht Hi1) as (o2 & Hi2 & r' & -> & Hq'). cbn in Hi2, Hq, Hq' |- *.
  rewrite Hq. replace r with r' by (symmetry; exact Hq').
  by eapply list_elem_of_lookup_2.
Qed.

(** An item of a cached bundle that was verified again *)
Definition reverified (art : list (obs art_answer)) (s : EvidenceScope) (e : EvidenceItem) : Prop :=
  ev_incident_id e = sc_incident_id s /\ resource e = sc_service s /\
  if is_elastic e then exists l digests, chain art e l digests /\ lin_scope l = s
  else exists payload, stored art e payload.

Lemma reverified_weaken art art' s e : art ⊆ art' -> reverified art s e -> reverified art' s e.
Proof.
  intros Hs (Hi & Hr & He). split_and!; [done..|]. destruct (is_elastic e).
  - destruct He as (l & ds & Hc & Hl). exists l, ds. by split; [eapply chain_weaken|].
  - destruct He as [p Hp]. exists p. by eapply stored_weaken.
Qed.

Lemma verify_cached_ok s l art u : runs (verify_cached s l) art (inr u) -> Forall (reverified art s) l.
Proof.
  revert art. induction l as [|e l IH]; cbn [verify_cached]; intros art Hr; [constructor|].
  destruct (_ || _) eqn:Hguard; [exfalso; exact (runs_raise_ok _ _ _ Hr)|]. pybool.
  destruct Hguard as [Hinc Hres].
  apply runs_bind_ok in Hr as (v & t1 & t2 & -> & He & Hr). constructor.
  - eapply (reverified_weaken t1); [within_app|]. split_and!; [done..|].
    destruct (is_elastic e).
    + apply runs_bind_ok in He as (lin & t3 & t4 & -> & Hv & He). unfold verify_retrieval in Hv.
      destruct (verify_retrieval_loop_ok LINKS e [] t3 lin Hv) as (ds & Hc & _).
      destruct_eqb (lin_scope lin) s; [|exfalso; exact (runs_raise_ok _ _ _ He)].
      exists lin, ds. split; [|done]. eapply chain_weaken; [|done]. within_app.
    + apply runs_bind_ok in He as (p & t3 & t4 & -> & Hv%store_verify_ok & He). exists p.
      eapply stored_weaken; [|done]. within_app.
  - eapply Forall_impl; [by apply IH|]. intros x. apply reverified_weaken. within_app.
Qed.

Context `{!ObjectText, !ModelText}.

Lemma parse_entry_ok j c : parse_entry j = Some c -> CacheEntry_valid c = true.
Proof.
  unfold parse_entry. intros Hp. repeat (apply bind_Some in Hp as (? & _ & Hp)). cbv zeta in Hp.
  destruct (_ && _) eqn:Hb; [|done]. injection Hp as <-. by apply andb_true_iff in Hb as [_ Hb].
Qed.
End cache.

(** ** Properties *)

Section properties.
Context `{Blob, PydanticText, !Instants}.

(** C35: Whatever the store answers, an item that verifies as retrieved context is the start of at
    most eight citations, no artifact among them twice, each confirmed by a stored lineage that
    agrees with it, and the last one cites a stored original artifact of the same namespace and
    service. *)
Theorem retrieval_reaches_origin e tr l :
  runs (verify_retrieval e) tr (inr l) ->
  exists digests, chain tr e l digests /\ NoDup digests /\ len digests <= 8.
Proof.
  intros Hr. unfold verify_retrieval in Hr.
  destruct (verify_retrieval_loop_ok LINKS e [] tr l Hr) as (ds & Hc & Hnd & _ & Hlen). exists ds. split_and!; [done..|].
  unfold len in *. cbn in *. lia.
Qed.

(** C36: The traversal ends whatever the store holds, cycles included: it makes at most 32 requests
    to the store, and with any greater number of rounds its runs are the same, so the bound on the
    rounds is never what ends it. *)
Theorem retrieval_terminates e :
  (forall tr out, runs (verify_retrieval e) tr out -> (length tr <= 32)%nat) /\
  (forall rounds tr out, (LINKS <= rounds)%nat ->
     runs (verify_retrieval_loop rounds e []) tr out <-> runs (verify_retrieval e) tr out).
Proof.
  unfold verify_retrieval. split.
  - intros tr out Hr. pose proof (verify_retrieval_loop_costs LINKS e [] tr out Hr) as Hc.
    by rewrite total_request in Hc.
  - intros rounds tr out Hle.
    assert (length (@nil string) <= 8)%nat as Hs by exact (Nat.le_0_l 8).
    assert (9 <= length (@nil string) + rounds)%nat as Hr1 by exact Hle.
    assert (9 <= length (@nil string) + LINKS)%nat as Hr2 by exact (le_n 9).
    split; intros Hr.
    + exact (verify_retrieval_loop_same rounds LINKS e [] tr out Hs Hr1 Hr2 Hr).
    + exact (verify_retrieval_loop_same LINKS rounds e [] tr out Hs Hr2 Hr1 Hr).
Qed.

Context `{!ObjectText, !ModelText}.

(** A hit of the cache is at most sixteen items with different identities, each of the incident
    and the service asked for and verified again against the store, retrieved ones to their origin
    and within the scope; the entry lives at most 300 seconds and is alive at the time read. *)
Theorem cache_hit_verified s tr l :
  runs (cache_get s) tr (inr (Some l)) ->
  exists art created expires now,
    within art tr /\ Forall (reverified art s) l /\ NoDup (map evidence_id l) /\ len l <= 16 /\
    (existT (QEv VNow) (inr now) : obs ret_answer) ∈ tr /\ created <= now < expires /\
    expires <= created + seconds 300.
Proof.
  unfold cache_get. intros Hr.
  apply runs_bind_ok in Hr as (data & t1 & t' & -> & _ & Hr).
  destruct (eqb_of data EmptyString); [apply runs_ret_ok in Hr as [_ [=]]|].
  destruct (_ <? _); [exfalso; exact (runs_raise_ok _ _ _ Hr)|].
  apply runs_bind_ok in Hr as (c & t2 & t'' & -> & Hc & Hr). apply runs_lift_ok in Hc as [-> Hc%validated_ok].
  apply bind_Some in Hc as (j & _ & Hc%parse_entry_ok).
  apply runs_bind_ok in Hr as (u & t3 & t4 & -> & Hv & Hr). apply on_artifacts_runs in Hv as (art & Hv & Hw).
  unfold verify_entry in Hv. destruct (negb _) eqn:Hsc; [exfalso; exact (runs_raise_ok _ _ _ Hv)|].
  destruct (negb (distinct _)) eqn:Hd; [exfalso; exact (runs_raise_ok _ _ _ Hv)|].
  apply runs_bind_ok in Hr as (now & t5 & t6 & -> & Hn & Hr).
  assert (t5 = [existT (QEv VNow) (inr now)]) as -> by exact (runs_call_ok (R:=ret_answer) (QEv VNow) _ _ Hn).
  destruct (negb (_ && _)) eqn:Hlive; [apply runs_ret_ok in Hr as [_ [=]]|].
  apply runs_ret_ok in Hr as [-> [= <-]].
  unfold CacheEntry_valid, distinct in *. pybool. destruct Hc as [[Hlen Hpos] Hmax], Hlive as [Hl1 Hl2].
  exists art, (created_at c), (expires_at c), now. split_and!; [| |done|done| |lia|lia|lia].
  - by do 2 apply within_app_r; apply within_app_l.
  - by eapply verify_cached_ok.
  - do 3 (apply elem_of_app; right). apply list_elem_of_here.
Qed.
End properties.

(** ** Instances *)

Lemma retrieval_reaches_origin_witness :
  exists digests,
    chain (play files_world (verify_retrieval context_item) retrieved_run.2 []).2 context_item book_lineage digests /\
    NoDup digests /\ len digests <= 8.
Proof. apply retrieval_reaches_origin. exact (played _ _ _ _ retrieved_context). Defined.

Lemma cache_hit_verified_witness :
  exists art created expires now,
    within art cache_run.2 /\ Forall (reverified art incident_scope) [context_item] /\
    NoDup (map evidence_id [context_item]) /\ len [context_item] <= 16 /\
    (existT (QEv VNow) (inr now) : obs ret_answer) ∈ cache_run.2 /\ created <= now < expires /\
    expires <= created + seconds 300.
Proof. apply cache_hit_verified. exact (played _ _ _ _ cache_hit). Defined.
