(* ===== verification/ReadsTheorems.v ===== *)
(** * Reads stay within their scope and their plan

    What a read returns belongs to the bound incident and the requested service, was verified
    against the store and is fresh; [kubectl] is only ever asked to read; the collection of a
    window makes at most the backend reads its plan reserves. *)

From S2P Require Import Prelude Text Json Digest Contracts Effects Policy Reasoning Baseline Numbers Artifacts Normalize.
From S2P Require Import SandboxModels Wire Windows Spans Retrieval KubeReads Reads Collect.
From S2P Require Import EvidenceStory RetrievalTheorems.

Open Scope string_scope.
Open Scope list_scope.
Open Scope Z_scope.
Open Scope result_scope.
Open Scope prog_scope.

(** ** Commands *)

Section commands.
Context `{WireText, PyText, !ModelText}.
Context (executable kubeconfig : string).

(** The command lines of the three reads of a service *)
Definition read_commands (service : string) : list (list string) :=
  [["get"; "deployment"; service; "-o"; "json"];
   ["get"; "pods"; "-l"; "app.kubernetes.io/name=" +:+ service; "-o"; "json"];
   ["get"; "events"; "--field-selector"; "involvedObject.kind=Pod"; "-o"; "json"];
   ["logs"; "deployment/" +:+ service; "--container=sandbox"; "--tail=100"; "--since=5m"; "--timestamps=true";
    "--limit-bytes=32768"]].

Definition reads_only (service : string) (c : kube_call) : Prop :=
  match c with
  | KNow => True
  | KInvoke arguments =>
      service ∈ services /\
      exists command, command ∈ read_commands service /\ arguments = kube_prefix executable kubeconfig ++ command
  end.

Lemma kube_get_issues service kind arguments :
  service ∈ services -> (["get"; kind] ++ arguments ++ ["-o"; "json"]) ∈ read_commands service ->
  issues (reads_only service) (kube_get executable kubeconfig kind arguments).
Proof.
  intros Hs Hc. apply issues_bind.
  - apply (issues_call (R:=kube_answer)). split; [done|]. by eexists.
  - intros raw. destruct (_ <? _); [done|apply issues_lift].
Qed.

Lemma kube_observation_issues service raw payload src :
  issues (reads_only service) (kube_observation raw payload src).
Proof.
  apply issues_bind_lift. intros metadata _. destruct (negb _); [done|]. cbv zeta. destruct (negb _); [done|].
  apply issues_bind; [by apply (issues_call (R:=kube_answer))|]. intros now. apply issues_lift.
Qed.

Lemma collect_pods_issues service name pods : issues (reads_only service) (collect_pods name pods).
Proof.
  induction pods as [|pod pods IH]; cbn [collect_pods]; [done|].
  apply issues_bind_lift. intros m _. apply issues_bind_lift. intros labels _. destruct (negb _); [done|].
  apply issues_bind_lift. intros p _. apply issues_bind; [apply kube_observation_issues|].
  intros o. by apply issues_bind.
Qed.

Lemma kube_collect_issues service : issues (reads_only service) (kube_collect executable kubeconfig service).
Proof.
  unfold kube_collect. destruct (bool_decide _) eqn:Hs; cbn [negb]; [|done]. apply bool_decide_eq_true in Hs.
  apply issues_bind; [apply kube_get_issues; [done|apply list_elem_of_here]|]. intros d.
  apply issues_bind_lift. intros m _. destruct (negb _); [done|].
  apply issues_bind; [apply kube_get_issues; [done|apply list_elem_of_further, list_elem_of_here]|]. intros pods.
  apply issues_bind; [by apply (issues_call (R:=kube_answer))|]. intros now.
  apply issues_bind_lift. intros p _. apply issues_bind; [apply kube_observation_issues|]. intros first.
  apply issues_bind_lift. intros l _. apply issues_bind; [apply collect_pods_issues|]. intros found.
  by apply issues_bind_lift.
Qed.

Lemma kube_events_issues service : issues (reads_only service) (kube_events executable kubeconfig service).
Proof.
  unfold kube_events. destruct (bool_decide _) eqn:Hs; cbn [negb]; [|done]. apply bool_decide_eq_true in Hs.
  apply issues_bind; [apply kube_get_issues; [done|apply list_elem_of_further, list_elem_of_here]|]. intros pods.
  apply issues_bind_lift. intros l _. apply issues_bind_lift. intros uids _.
  apply issues_bind; [apply kube_get_issues; [done|do 2 apply list_elem_of_further; apply list_elem_of_here]|].
  intros raw. apply issues_bind_lift. intros events _. by apply issues_bind_lift.
Qed.

Lemma kube_logs_issues service : issues (reads_only service) (kube_logs executable kubeconfig service).
Proof.
  unfold kube_logs. destruct (bool_decide _) eqn:Hs; cbn [negb]; [|done]. apply bool_decide_eq_true in Hs.
  apply issues_bind.
  - apply (issues_call (R:=kube_answer)). split; [done|]. eexists. split; [|reflexivity].
    do 3 apply list_elem_of_further. apply list_elem_of_here.
  - intros raw. destruct (_ <? _); [done|]. apply issues_bind; [by apply (issues_call (R:=kube_answer))|].
    intros now. apply issues_lift.
Qed.
End commands.

(** ** What a read returns *)


Section reads.
Context `{WireText, PyText, !ModelText, !JsonLoads, !Instants, Blob, PydanticText, !ObjectText}.
Context (executable kubeconfig bound_incident bound_subject : string).

(** The requests to the store within a run of the bindings *)
Definition read_within (art : list (obs art_answer)) (tr : list (obs read_answer)) : Prop :=
  forall o, o ∈ art -> (existT (DRet (QEv (VArt (projT1 o)))) (projT2 o) : obs read_answer) ∈ tr.

Definition told (now : datetime) (tr : list (obs read_answer)) : Prop :=
  (existT (DRet (QEv VNow)) (inr now) : obs read_answer) ∈ tr.

Lemma read_within_weaken art tr tr' : tr ⊆ tr' -> read_within art tr -> read_within art tr'.
Proof. intros Hs Hw o Ho. by apply Hs, Hw. Qed.

Lemma from_files_runs {A} (m : prog art_answer A) tr out :
  runs (from_files m) tr out -> exists art, runs m art out /\ read_within art tr.
Proof.
  unfold from_files, on_retrieval. intros Hr. apply runs_embed in Hr as (tr1 & (art & Hr & Hw)%on_artifacts_runs & Ht).
  exists art. split; [done|]. intros [c r0] Ho. apply Hw in Ho. cbn in Ho.
  apply list_elem_of_lookup in Ho as [i Hi].
  destruct (Forall2_lookup_l _ _ _ _ _ Ht Hi) as (o & Hi' & r & -> & Hq). cbn in Hi', Hq |- *.
  replace r0 with r by (symmetry; exact Hq). by eapply list_elem_of_lookup_2.
Qed.

Lemma on_retrieval_clock tr now : runs (on_retrieval utc_now) tr (inr now) -> told now tr.
Proof.
  unfold on_retrieval. intros Hr. apply runs_embed in Hr as (tr1 & Hr & Ht).
  assert (tr1 = [existT (QEv VNow) (inr now)]) as -> by exact (runs_call_ok (R:=ret_answer) (QEv VNow) _ _ Hr).
  inversion Ht as [|o0 o l l' Ho Hl]; subst. destruct Ho as (r & -> & Hq). cbn in Hq |- *. unfold told.
  replace (inr now) with r by (symmetry; exact Hq). apply list_elem_of_here.
Qed.

(** The scope of an item, by its source, as of the instant whose freshness counts *)
Definition item_in_scope (art : list (obs art_answer)) (e : EvidenceItem) (observed : datetime) : Prop :=
  match source e with
  | RUNBOOK | MEMORY =>
      exists l digests, chain art e l digests /\ lin_scope l = own_scope bound_incident (resource e) /\
        observed = retrieved_at l
  | PROMETHEUS =>
      exists payload raw collected o, stored art e payload /\ dget payload "payload" = JObj raw /\
        snapshot_observation raw (resource e) collected = inr o /\ query e = obs_query o /\
        observed_at e = obs_observed_at o /\ observed = observed_at e
  | _ =>
      exists payload raw, stored art e payload /\ dget payload "payload" = JObj raw /\
        dget raw "namespace" = JStr NAMESPACE /\ dget raw "service" = JStr (resource e) /\
        observed = observed_at e
  end.

Lemma observed_instant_ok e tr observed :
  runs (observed_instant bound_incident e) tr (inr observed) ->
  exists art, read_within art tr /\ item_in_scope art e observed.
Proof.
  unfold observed_instant, item_in_scope. intros Hr.
  destruct (source e);
    apply runs_bind_ok in Hr as (x & t1 & t2 & -> & (art & Hx & Hw)%from_files_runs & Hr);
    (exists art; split; [eapply read_within_weaken; [|exact Hw]; within_app|]).
  all: try (destruct (dget x "payload") as [| | | | | |raw] eqn:Hp; try (exfalso; exact (runs_raise_ok _ _ _ Hr))).
  all: try (destruct (scope_is _ _ _) eqn:Hs; [|exfalso; exact (runs_raise_ok _ _ _ Hr)];
    apply runs_ret_ok in Hr as [_ <-]; apply scope_is_ok in Hs as [= Hns Hsv]; apply store_verify_ok in Hx;
    by exists x, raw).
  - destruct (negb _); [exfalso; exact (runs_raise_ok _ _ _ Hr)|].
    apply runs_bind_ok in Hr as (collected & t3 & t4 & -> & _ & Hr).
    apply runs_bind_ok in Hr as (o & t5 & t6 & -> & Ho & Hr). apply runs_lift_ok in Ho as [-> Ho].
    destruct (_ && _) eqn:Hq; [|exfalso; exact (runs_raise_ok _ _ _ Hr)]. apply runs_ret_ok in Hr as [_ <-].
    pybool. destruct Hq. apply store_verify_ok in Hx. by exists x, raw, collected, o.
  - destruct_eqb (lin_scope x) (own_scope bound_incident (resource e)); [|exfalso; exact (runs_raise_ok _ _ _ Hr)].
    apply runs_ret_ok in Hr as [_ <-]. unfold verify_retrieval in Hx.
    destruct (verify_retrieval_loop_ok LINKS e [] art x Hx) as (ds & Hc & _). by exists x, ds.
  - destruct_eqb (lin_scope x) (own_scope bound_incident (resource e)); [|exfalso; exact (runs_raise_ok _ _ _ Hr)].
    apply runs_ret_ok in Hr as [_ <-]. unfold verify_retrieval in Hx.
    destruct (verify_retrieval_loop_ok LINKS e [] art x Hx) as (ds & Hc & _). by exists x, ds.
Qed.

(** An item that passed [_verify] *)
Definition scoped_and_fresh (tr : list (obs read_answer)) (e : EvidenceItem) : Prop :=
  ev_incident_id e = bound_incident /\
  exists art now observed, read_within art tr /\ item_in_scope art e observed /\ told now tr /\
    now - seconds 300 <= observed <= now.

Lemma scoped_weaken tr tr' e : tr ⊆ tr' -> scoped_and_fresh tr e -> scoped_and_fresh tr' e.
Proof.
  intros Hs (Hi & art & now & o & Hw & Hsc & Ht & Hf). split; [done|]. exists art, now, o.
  split_and!; [by eapply read_within_weaken|done|by apply Hs|lia|lia].
Qed.

Lemma reads_verify_ok e tr u : runs (reads_verify bound_incident e) tr (inr u) -> scoped_and_fresh tr e.
Proof.
  unfold reads_verify. intros Hr. apply runs_bind_ok in Hr as (? & t1 & t2 & -> & _ & Hr).
  apply runs_bind_ok in Hr as (now & t3 & t4 & -> & Hn%on_retrieval_clock & Hr).
  destruct (negb _) eqn:Hi; [exfalso; exact (runs_raise_ok _ _ _ Hr)|].
  apply runs_bind_ok in Hr as (observed & t5 & t6 & -> & (art & Hw & Hs)%observed_instant_ok & Hr).
  destruct (fresh_at now observed) eqn:Hf; [|exfalso; exact (runs_raise_ok _ _ _ Hr)].
  unfold fresh_at, FRESH in Hf. pybool. split; [done|]. exists art, now, observed. split_and!; [|done| |lia|lia].
  - eapply read_within_weaken; [|exact Hw]. within_app.
  - unfold told in *. rewrite !elem_of_app. tauto.
Qed.

(** What a projected observation is *)
Lemma project_read_ok r o now tr o' :
  runs (project_read r o now) tr (inr o') ->
  obs_resource o' = requested r /\ obs_source o' ∈ (expected_reads (tool r) (requested r)).*1.
Proof.
  unfold project_read. cbv zeta. intros Hr.
  apply runs_bind_ok in Hr as (p & t1 & t2 & -> & _ & Hr).
  past_guard Hr Hexp. past_guard Hr Hres. past_guard Hr Hf. pybool.
  assert (obs_source p ∈ (expected_reads (tool r) (requested r)).*1) as Hin.
  { apply list_elem_of_fmap. by exists (obs_source p, obs_query p). }
  destruct (eqb_of (obs_source p) PROMETHEUS) eqn:Hprom.
  - apply runs_bind_ok in Hr as (c & t3 & t4 & -> & _ & Hr).
    apply runs_bind_ok in Hr as (q & t5 & t6 & -> & _ & Hr).
    destruct (eqb_of (obs_observed_at p) _); [|exfalso; exact (runs_raise_ok _ _ _ Hr)].
    apply runs_ret_ok in Hr as [_ <-]. split; [|done].
    destruct Hres as [?|Hpod]; [done|]. apply eqb_of_true_1 in Hprom. unfold pod_resource in Hpod.
    rewrite Hprom in Hpod. by destruct (eqb_of (tool r) workload_status).
  - past_guard Hr Hpl. apply runs_lift_ok in Hr as [_ Hr].
    apply Observation_make_ok in Hr as (Hs & Hn & _). cbn in Hs, Hn. by rewrite Hs, Hn.
Qed.

Lemma each_ok {A B} (f : A -> prog read_answer B) l tr ys :
  runs (each f l) tr (inr ys) ->
  Forall2 (fun x y => exists tr', tr' ⊆ tr /\ runs (f x) tr' (inr y)) l ys.
Proof.
  revert tr ys. induction l as [|x l IH]; cbn [each]; intros tr ys Hr.
  - apply runs_ret_ok in Hr as [-> <-]. constructor.
  - apply runs_bind_ok in Hr as (y & t1 & t2 & -> & Hx & Hr).
    apply runs_bind_ok in Hr as (zs & t3 & t4 & -> & Hl & Hr). apply runs_ret_ok in Hr as [-> <-].
    constructor; [exists t1; split; [within_app|done]|].
    eapply Forall2_impl; [by apply IH|]. cbn. intros a b (t & Hs & Ht). exists t. split; [|done].
    etrans; [exact Hs|]. within_app.
Qed.

Lemma on_retrieval_runs {A} (m : prog ret_answer A) tr (a : A) :
  runs (on_retrieval m) tr (inr a) -> exists tr', runs m tr' (inr a).
Proof. intros (tr' & Hr & _)%runs_embed. by exists tr'. Qed.

Lemma on_evidence_runs {A} (m : prog ev_answer A) tr (a : A) :
  runs (on_evidence m) tr (inr a) -> exists tr', runs m tr' (inr a).
Proof. intros (tr' & Hr & _)%runs_embed. by exists tr'. Qed.

(** The items of a search passed the checks of the binding. *)
Lemma read_search_ok r tr l :
  runs (read_search bound_incident r) tr (inr l) ->
  Forall (fun e => resource e = requested r /\ scoped_and_fresh tr e) l.
Proof.
  unfold read_search. cbv zeta. intros Hr.
  apply runs_bind_ok in Hr as (q & t1 & t2 & -> & _ & Hr).
  apply runs_bind_ok in Hr as (found & t3 & t4 & -> & _ & Hr).
  destruct (_ <? _); [exfalso; exact (runs_raise_ok _ _ _ Hr)|].
  apply runs_bind_ok in Hr as (us & t5 & t6 & -> & He%each_ok & Hr). apply runs_ret_ok in Hr as [_ <-].
  eapply Forall2_Forall_l in He; [exact He|]. apply Forall_true. intros u e (t & Hs & Hr).
  destruct (_ || _) eqn:Hg; [exfalso; exact (runs_raise_ok _ _ _ Hr)|]. pybool. split; [naive_solver|].
  eapply scoped_weaken; [|by eapply reads_verify_ok]. etrans; [exact Hs|]. within_app.
Qed.

Lemma reads_read_ok r tr l :
  runs (reads_read executable kubeconfig bound_incident r) tr (inr l) ->
  Forall (fun e => resource e = requested r /\ scoped_and_fresh tr e) l.
Proof.
  unfold reads_read. intros Hr. apply runs_bind_ok in Hr as (r' & t1 & t2 & -> & Hv & Hr).
  apply runs_lift_ok in Hv as [-> Hv].
  assert (r' = r) as ->.
  { unfold ReadRequest_validate in Hv. repeat destruct_guard; congruence. }
  destruct (is_search (tool r)).
  { eapply Forall_impl; [by eapply read_search_ok|]. cbn. intros e [He Hs]. by split. }
  apply runs_bind_ok in Hr as (os & t3 & t4 & -> & _ & Hr).
  apply runs_bind_ok in Hr as (now & t5 & t6 & -> & _ & Hr). past_guard Hr Hlen.
  apply runs_bind_ok in Hr as (projected & t7 & t8 & -> & Hp%each_ok & Hr).
  apply runs_bind_ok in Hr as (found & t9 & t10 & -> & Hn%each_ok & Hr).
  apply runs_bind_ok in Hr as (us & t11 & t12 & -> & Hc%each_ok & Hr). apply runs_ret_ok in Hr as [-> <-].
  assert (Forall (fun o => obs_resource o = requested r) projected) as Hres.
  { eapply Forall2_Forall_r; [exact Hp|]. apply Forall_true. intros o o' (t & _ & [Ho _]%project_read_ok). done. }
  assert (Forall (fun e => resource e = requested r) found) as Hfound.
  { eapply Forall2_Forall_r; [exact Hn|]. eapply Forall_impl; [exact Hres|]. cbn.
    intros o Ho e (t & _ & (t' & (t'' & He)%on_evidence_runs)%on_retrieval_runs).
    apply normalize_fields in He as (_ & _ & -> & _). done. }
  apply Forall_and. split; [exact Hfound|]. eapply Forall2_Forall_l; [exact Hc|]. apply Forall_true.
  intros u e (t & Hs & Hr). eapply scoped_weaken; [|by eapply reads_verify_ok]. etrans; [exact Hs|]. within_app.
Qed.
End reads.

(** ** The cost of a collection *)

(** Requests that reach [kubectl] or Prometheus *)
Definition backend `{Blob} (c : col_call) : nat :=
  match c with
  | CRead (DKube (KInvoke _)) | CRead (DQuery _ _) | CVector _ => 1
  | _ => 0
  end.
Definition read_backend `{Blob} (c : read_call) : nat := backend (CRead c).
Definition kube_backend (c : kube_call) : nat := match c with KInvoke _ => 1 | KNow => 0 end.

Create HintDb cost discriminated.
#[export] Hint Resolve costs_ret costs_raise costs_lift costs_attempt : cost.

Section kube_cost.
Context `{WireText, PyText, !ModelText}.
Context (executable kubeconfig : string).

Lemma kube_get_cost kind arguments : costs kube_backend 1 (kube_get executable kubeconfig kind arguments).
Proof.
  apply costs_last; [costs_request|]. intros raw. destruct (_ <? _); auto with cost.
Qed.

Lemma kube_observation_cost raw payload src : costs kube_backend 0 (kube_observation raw payload src).
Proof.
  apply costs_then; [auto with cost|]. intros m _ _. destruct (negb _); [auto with cost|]. cbv zeta.
  destruct (negb _); [auto with cost|]. apply costs_then; [costs_request|]. auto with cost.
Qed.

Lemma collect_pods_cost service pods : costs kube_backend 0 (collect_pods service pods).
Proof.
  induction pods as [|pod pods IH]; cbn [collect_pods]; [auto with cost|].
  do 2 (apply costs_then; [auto with cost|]; intros ? _ _). destruct (negb _); [auto with cost|].
  apply costs_then; [auto with cost|]. intros p _ _. apply costs_then; [apply kube_observation_cost|].
  intros o _ _. apply costs_then; [exact IH|]. auto with cost.
Qed.

Lemma kube_collect_cost service : costs kube_backend 2 (kube_collect executable kubeconfig service).
Proof.
  unfold kube_collect. destruct (negb _); [auto with cost|]. apply (costs_bind _ 1 1); [apply kube_get_cost|].
  intros d _ _. apply costs_then; [auto with cost|]. intros m _ _. destruct (negb _); [auto with cost|].
  apply costs_last; [apply kube_get_cost|]. intros pods.
  apply costs_then; [costs_request|]. intros now _ _. apply costs_then; [auto with cost|]. intros p _ _.
  apply costs_then; [apply kube_observation_cost|]. intros first _ _. apply costs_then; [auto with cost|].
  intros l _ _. apply costs_then; [apply collect_pods_cost|]. intros found _ _.
  apply costs_then; auto with cost.
Qed.

Lemma kube_events_cost service : costs kube_backend 2 (kube_events executable kubeconfig service).
Proof.
  unfold kube_events. destruct (negb _); [auto with cost|]. apply (costs_bind _ 1 1); [apply kube_get_cost|].
  intros pods _ _. do 2 (apply costs_then; [auto with cost|]; intros ? _ _).
  apply costs_last; [apply kube_get_cost|]. intros raw.
  do 2 (apply costs_then; [auto with cost|]; intros ? _ _). auto with cost.
Qed.

Lemma kube_logs_cost service : costs kube_backend 1 (kube_logs executable kubeconfig service).
Proof.
  unfold kube_logs. destruct (negb _); [auto with cost|]. apply costs_last; [costs_request|].
  intros raw. destruct (_ <? _); [auto with cost|]. apply costs_then; [costs_request|]. auto with cost.
Qed.
End kube_cost.

Section window_cost.
Context `{WireText, PyText, !ModelText, !JsonLoads, !LaxFloat, !ErrorNames, !Instants, Blob, PydanticText, !ObjectText}.
Context (executable kubeconfig : string).

(** The clocks, the store and the parts of a response cost nothing. *)
Lemma on_retrieval_cost {A} (m : prog ret_answer A) : costs read_backend 0 (on_retrieval m).
Proof. apply costs_none. apply (issues_embed _ _ (fun _ => True)); [done|apply issues_any]. Qed.

Lemma on_bindings_cost {A} n (m : prog read_answer A) : costs read_backend n m -> costs backend n (on_bindings m).
Proof. by apply costs_embed. Qed.

Lemma on_kube_cost {A} n (m : prog kube_answer A) : costs kube_backend n m -> costs read_backend n (on_kube m).
Proof. apply costs_embed. by intros []. Qed.

Lemma wall_clock_cost : costs backend 0 wall_clock.
Proof. apply on_bindings_cost, on_retrieval_cost. Qed.

Lemma monotonic_cost : costs read_backend 0 monotonic.
Proof. unfold monotonic. costs_request. Qed.

Lemma snapshot_elapsed_cost started : costs read_backend 0 (snapshot_elapsed started).
Proof. apply costs_then; [apply monotonic_cost|]. intros now _ _. destruct (SFltb _ _); auto with cost. Qed.

Lemma snapshot_chunks_cost rounds started content : costs read_backend 0 (snapshot_chunks rounds started content).
Proof.
  revert content. induction rounds as [|rounds IH]; intros content; cbn [snapshot_chunks]; [auto with cost|].
  apply costs_then; [costs_request|]. intros [[first rest]|] _ _; [|auto with cost].
  apply costs_then; [apply snapshot_elapsed_cost|]. intros u _ _. cbv zeta. destruct (_ <? _); auto with cost.
Qed.

Lemma snapshot_query_cost q at_time : costs read_backend 1 (snapshot_query q at_time).
Proof.
  apply costs_then; [apply monotonic_cost|]. intros started _ _. apply costs_last; [costs_request|]. intros head.
  apply costs_then.
  - apply costs_finally; [|costs_request]. destruct (negb _); [auto with cost|].
    destruct (negb _); [auto with cost|]. apply costs_then; [apply snapshot_chunks_cost|]. intros c _ _.
    apply costs_then; [apply snapshot_elapsed_cost|]. auto with cost.
  - intros c _ _. apply costs_then; auto with cost.
Qed.

Lemma payment_read_cost service at_time : costs read_backend 2 (payment_read service at_time).
Proof.
  apply costs_then; [auto with cost|]. intros [q mark] _ _. apply costs_then.
  { destruct at_time; [auto with cost|apply on_retrieval_cost]. }
  intros instant _ _. apply costs_then; [apply on_retrieval_cost|]. intros now _ _.
  destruct (_ <? _); [auto with cost|]. cbv zeta. apply (costs_bind _ 1 1); [apply snapshot_query_cost|].
  intros metrics _ _. apply costs_last; [apply snapshot_query_cost|]. intros w.
  apply costs_then; [apply on_retrieval_cost|]. auto with cost.
Qed.

Lemma vector_chunks_cost rounds content : costs backend 0 (vector_chunks rounds content).
Proof.
  revert content. induction rounds as [|rounds IH]; intros content; cbn [vector_chunks]; [auto with cost|].
  apply costs_then; [costs_request|]. intros [[first rest]|] _ _; [|auto with cost].
  cbv zeta. destruct (_ <? _); auto with cost.
Qed.

Lemma prometheus_query_cost signal : costs backend 1 (prometheus_query signal).
Proof.
  unfold prometheus_query. destruct (snd <$> _) as [q|]; [|auto with cost].
  apply costs_last; [costs_request|]. intros head. apply costs_then.
  { apply costs_finally; [|costs_request]. destruct (negb _); [auto with cost|apply vector_chunks_cost]. }
  intros c _ _. do 3 (apply costs_then; [auto with cost|]; intros ? _ _).
  apply costs_then; [apply wall_clock_cost|]. auto with cost.
Qed.

(** What each read of the plan costs *)
Definition read_cost (r : fixed_read) : nat :=
  match r with KubeStatus _ | KubeEvents _ | Snapshot _ => 2 | KubeLogs _ | Signal _ => 1 end.

Lemma perform_cost r : costs backend (read_cost r) (perform executable kubeconfig r).
Proof.
  destruct r as [s|s|s|s|s]; cbn [perform read_cost].
  - apply on_bindings_cost, on_kube_cost, kube_collect_cost.
  - apply on_bindings_cost, on_kube_cost, kube_events_cost.
  - apply costs_last; [apply on_bindings_cost, on_kube_cost, kube_logs_cost|auto with cost].
  - apply costs_last; [apply prometheus_query_cost|auto with cost].
  - apply costs_last; [apply on_bindings_cost, payment_read_cost|auto with cost].
Qed.

Lemma kept_item_cost o incident start now : costs backend 0 (kept_item o incident start now).
Proof.
  apply costs_then; [apply on_bindings_cost, on_retrieval_cost|]. intros e _ _.
  apply costs_then; [apply on_bindings_cost, on_retrieval_cost|]. auto with cost.
Qed.

Section batches.
Context (plan : WindowPlan) (from : datetime).

Lemma batch_keep_cost b o tool resource : costs backend 0 (batch_keep plan from b o tool resource).
Proof.
  apply costs_then.
  - apply costs_attempt. apply costs_then; [apply wall_clock_cost|]. intros now _ _. apply kept_item_cost.
  - intros [e|e] _ _; [destruct (_ || _)|]; auto with cost.
Qed.

Lemma capture_loop_cost r b kept l : costs backend 0 (capture_loop plan from r b kept l).
Proof.
  revert b kept. induction l as [|o l IH]; intros b kept; cbn [capture_loop]; [auto with cost|].
  apply costs_then; [apply costs_attempt, batch_keep_cost|].
  intros [e|[b' [e|]]] _ _; [destruct (is_collected e)| |]; auto with cost.
Qed.

Lemma capture_cost b r : costs backend (read_cost r) (capture executable kubeconfig plan from b r).
Proof.
  apply costs_last; [apply costs_attempt, perform_cost|].
  intros [e|l]; [destruct (is_collected e); auto with cost|apply capture_loop_cost].
Qed.

Lemma snapshots_cost b l : costs backend (2 * length l) (snapshots executable kubeconfig plan from b l).
Proof.
  revert b. induction l as [|s l IH]; intros b; cbn [snapshots length]; [auto with cost|].
  apply (costs_le _ (2 + 2 * length l)); [lia|].
  apply costs_bind; [apply (capture_cost b (Snapshot s))|]. intros [b' items] _ _.
  apply costs_last; [apply IH|]. intros [? ?]. auto with cost.
Qed.

Lemma workload_reads_cost b l :
  costs backend (foldr (fun r n => read_cost r + n)%nat 0%nat l) (workload_reads executable kubeconfig plan from b l).
Proof.
  revert b. induction l as [|r l IH]; intros b; cbn [workload_reads foldr]; [auto with cost|].
  apply costs_bind; [apply capture_cost|]. intros [b' _] _ _. apply IH.
Qed.

Lemma batch_derive_cost before after i b l : costs backend 0 (batch_derive before after i b l).
Proof.
  revert b. induction l as [|s l IH]; intros b; cbn [batch_derive]; [auto with cost|].
  apply costs_then.
  - apply costs_attempt. do 2 (apply costs_then; [auto with cost|]; intros ? _ _).
    apply on_bindings_cost, on_retrieval_cost.
  - intros [e|e] _ _; [destruct (_ || _); auto with cost|apply IH].
Qed.
End batches.

Lemma window_collect_cost incident : costs backend 34 (window_collect executable kubeconfig incident).
Proof.
  apply costs_then; [auto with cost|]. intros plan _ _.
  do 2 (apply costs_then; [costs_request|]; intros ? _ _).
  apply costs_then; [apply wall_clock_cost|]. intros now _ _. cbv zeta.
  apply (costs_bind _ 4 30); [apply (snapshots_cost _ _ _ (plan_pair plan))|]. intros [b before] _ _.
  apply costs_then; [apply wall_clock_cost|]. intros start _ _.
  apply costs_then; [costs_request|]. intros _ _ _.
  apply (costs_bind _ 26 4); [apply (workload_reads_cost _ _ _ workload_plan)|]. intros b' _ _.
  apply costs_then; [apply wall_clock_cost|]. intros stop _ _. apply costs_last.
  - destruct (negb _); [auto with cost|]. do 2 (apply costs_then; [costs_request|]; intros ? _ _).
    apply costs_last; [apply (snapshots_cost _ _ _ (plan_pair plan))|]. intros [b2 after]. apply batch_derive_cost.
  - intros b2. apply costs_then; [costs_request|]. auto with cost.
Qed.
End window_cost.

(** ** Properties *)

Section properties.
Context `{WireText, PyText, !ModelText, !JsonLoads, !LaxFloat, !ErrorNames, !Instants, Blob, PydanticText, !ObjectText}.
Context (executable kubeconfig : string).

(** The three reads of a service run [kubectl] only for the five services, with the fixed
    prefix that names the context and the namespace, and only as one of four commands, which get
    or print logs. *)
Theorem kubectl_only_reads service :
  issues (reads_only executable kubeconfig service) (kube_collect executable kubeconfig service) /\
  issues (reads_only executable kubeconfig service) (kube_events executable kubeconfig service) /\
  issues (reads_only executable kubeconfig service) (kube_logs executable kubeconfig service).
Proof. split_and!; [apply kube_collect_issues|apply kube_events_issues|apply kube_logs_issues]. Qed.

(** C37: Whatever the clients and the store answer, everything a read returns belongs to the
    incident the host bound and to the requested service, was verified against the store within
    this run: its artifact names the namespace and the service, its snapshot parses to its
    metadata, or its citations reach their origin, and is at most five minutes old. *)
Theorem reads_in_scope bound_incident r tr l :
  runs (reads_read executable kubeconfig bound_incident r) tr (inr l) ->
  Forall (fun e => resource e = requested r /\ scoped_and_fresh bound_incident tr e) l.
Proof. apply reads_read_ok. Qed.

(** In every run, failures included, the collection of a window makes at most the 34 backend
    reads its plan declares. *)
Theorem window_reads_reserved incident : costs backend 34 (window_collect executable kubeconfig incident).
Proof. apply window_collect_cost. Qed.
End properties.

(** ** Instances *)

Lemma reads_in_scope_witness :
  log_items <> [] /\
  Forall (fun e => resource e = requested logs_request /\ scoped_and_fresh "incident-1" logs_run.2 e) log_items.
Proof.
  split; [done|].
  apply (reads_in_scope "kubectl" "config"). exact (played _ _ _ _ (proj1 logs_read)).
Defined.
