(* ===== verification/WindowTheorems.v ===== *)
(** * Verified windows are the arithmetic of two stored snapshots

    Whatever an item claims, a window that verifies was computed again from the two raw
    snapshots it names: complete ones hold one nonnegative difference for every required
    series, all others hold none. *)

From S2P Require Import Prelude Text Json Digest Contracts Effects Reasoning Baseline Numbers Artifacts Normalize.
From S2P Require Import SandboxModels Windows BaselineTheorems EvidenceStory.

Open Scope string_scope.
Open Scope list_scope.
Open Scope Z_scope.
Open Scope result_scope.
Open Scope prog_scope.

(** ** Sorting and filtering *)

Lemma insert_item_perm {A B} (leb : A -> A -> bool) (x : A * B) l : insert_item leb x l ≡ₚ x :: l.
Proof.
  induction l as [|y l IH]; cbn; [done|]. destruct (leb x.1 y.1); [done|]. rewrite IH. apply Permutation_swap.
Qed.

Lemma sort_items_perm {A B} (leb : A -> A -> bool) (l : list (A * B)) : sort_items leb l ≡ₚ l.
Proof.
  induction l as [|x l IH]; cbn; [done|]. unfold sort_items in *. rewrite insert_item_perm. by apply perm_skip.
Qed.

Lemma filter_keys_nodup {A B} (p : A * B -> bool) (l : list (A * B)) : NoDup l.*1 -> NoDup (List.filter p l).*1.
Proof.
  induction l as [|x l IH]; cbn; [done|]. intros [Hx Hnd]%NoDup_cons.
  destruct (p x); cbn; [|by apply IH]. apply NoDup_cons. split; [|by apply IH].
  intros Hin. apply Hx. apply list_elem_of_fmap in Hin as (y & -> & Hy). apply list_elem_of_fmap.
  exists y. split; [done|]. apply list_elem_of_In in Hy. apply filter_In in Hy as [Hy _].
  by apply list_elem_of_In.
Qed.

(** ** The series of a parsed snapshot *)

Section windows.
Context `{PyText}.

Lemma metric_loop_nodup rows service at_time found out :
  NoDup found.*1 -> metric_loop rows service at_time found = inr out -> NoDup out.*1.
Proof.
  revert found. induction rows as [|row rows IH]; cbn [metric_loop]; intros found Hnd; [by intros [= <-]|].
  destruct (target_labels row service) as [|labels]; cbn [rbind]; [done|].
  set (key := (_, kept_labels labels)).
  destruct (negb _ || bool_decide _) eqn:Hb; [done|]. apply orb_false_iff in Hb as [_ Hb].
  apply bool_decide_eq_false in Hb. destruct (sample_value row at_time) as [|v]; cbn [rbind]; [done|].
  apply IH. rewrite fmap_app. cbn. apply NoDup_app. split_and!; [done| |apply NoDup_singleton].
  intros k Hk ->%list_elem_of_singleton. done.
Qed.

Lemma parse_payload_nodup payload service p : parse_payload payload service = inr p -> NoDup (values p).*1.
Proof.
  unfold parse_payload. destruct (negb _); [done|].
  destruct (snapshot_queries service) as [|[q w]]; cbn [rbind]; [done|]. destruct (_ || _); [done|].
  destruct (finite_number _) as [|t]; cbn [rbind]; [done|].
  destruct (metric_values payload service t) as [|found] eqn:Hm; cbn [rbind]; [done|].
  destruct (watermark_of _ _ _) as [|mark]; cbn [rbind]; [done|]. destruct (float_after _ _); [done|].
  intros [= <-]. cbn [values]. unfold metric_values in Hm.
  destruct (vector_rows _) as [|rows]; cbn [rbind] in Hm; [done|].
  apply metric_loop_nodup in Hm; [|constructor].
  rewrite (sort_items_perm series_leb). by do 2 apply filter_keys_nodup.
Qed.

Lemma parse_item_nodup e payload service p : parse_item e payload service = inr p -> NoDup (values p).*1.
Proof.
  unfold parse_item. destruct (parse_payload payload service) as [|q] eqn:Hp; cbn [rbind]; [done|].
  destruct (snapshot_queries service) as [|[? ?]]; cbn [rbind]; [done|].
  repeat (destruct_guard; [done|]). intros [= <-]. by eapply parse_payload_nodup.
Qed.

(** ** Differences *)

Lemma required_nodup : NoDup required.
Proof. apply (bool_decide_unpack _). vm_compute. exact I. Qed.

Lemma keys_exactly_perm (d : list (Key * spec_float)) : NoDup d.*1 -> keys_exactly d = true -> d.*1 ≡ₚ required.
Proof.
  intros Hnd. unfold keys_exactly. rewrite andb_true_iff, !forallb_forall. intros [H1 H2].
  apply NoDup_Permutation; [done|apply required_nodup|]. intros k. rewrite !list_elem_of_In. split.
  - intros Hk%H1. apply bool_decide_eq_true in Hk. by apply list_elem_of_In.
  - intros Hk%H2. apply bool_decide_eq_true in Hk. by apply list_elem_of_In.
Qed.

Lemma find_key_in (d : list (Key * spec_float)) k v : NoDup d.*1 -> (k, v) ∈ d -> find_key d k = Some v.
Proof.
  unfold find_key. induction d as [|[k' v'] d IH]; [by intros _ ?%elem_of_nil|].
  cbn. intros [Hk Hnd]%NoDup_cons Hin. destruct_eqb k' k.
  - cbn. apply elem_of_cons in Hin as [[= <- <-]|Hin]; [done|]. subst. contradict Hk.
    by apply (list_elem_of_fmap_2' fst d (k, v)).
  - apply elem_of_cons in Hin as [[= -> ->]|Hin]; [done|]. by apply IH.
Qed.

Lemma find_key_some (d : list (Key * spec_float)) k : k ∈ d.*1 -> is_Some (find_key d k).
Proof.
  unfold find_key. induction d as [|[k' v'] d IH]; [by intros ?%elem_of_nil|]. cbn.
  intros Hin. destruct_eqb k' k; [by eexists|]. apply elem_of_cons in Hin as [->|Hin]; [done|]. by apply IH.
Qed.

Definition delta_key (d : Delta) : Key := (metric d, delta_labels d).

(** One difference: nonnegative, finite, and that of the two values of its series *)
Definition difference_of (first last : Parsed) (d : Delta) : Prop :=
  is_finite (delta_value d) = true /\ SFleb float_zero (delta_value d) = true /\
  exists x y, find_key (values first) (delta_key d) = Some x /\ find_key (values last) (delta_key d) = Some y /\
    SFltb y x = false /\ delta_value d = float_sub y x.

(** The differences that were made, as points *)
Lemma points_of kvs points :
  rmap make_delta kvs = inr points ->
  map (fun d => (delta_key d, delta_value d)) points = kvs /\ Forall (fun d => Delta_valid d = true) points.
Proof.
  intros Hp%rmap_inr. induction Hp as [|[[n l] v] d kvs points Hd _ [IH1 IH2]]; cbn; [done|].
  unfold make_delta in Hd. destruct (Delta_valid _) eqn:Hv; [|done]. injection Hd as <-. cbn in *.
  split; [by rewrite IH1|by constructor].
Qed.

(** Every required series is in exactly one of the three groups. *)
Definition all_deltas (w : PaymentWindow) : list Delta := request_counts w ++ latency w ++ conflicts w.

Lemma groups_perm points :
  Forall (fun d => delta_key d ∈ required) points ->
  of_metric [REQUESTS] points ++ of_metric [COUNT; SUM] points ++ of_metric [CONFLICTS] points ≡ₚ points.
Proof.
  intros Hall.
  assert (forall k, k ∈ required ->
    (bool_decide (k.1 ∈ [REQUESTS]), bool_decide (k.1 ∈ [COUNT; SUM]), bool_decide (k.1 ∈ [CONFLICTS])) ∈
      [(true, false, false); (false, true, false); (false, false, true)]) as Hone.
  { apply Forall_forall. apply (bool_decide_unpack _). vm_compute. exact I. }
  induction Hall as [|d points Hd _ IH]; cbn; [done|].
  specialize (Hone _ Hd). cbn [fst delta_key] in Hone. unfold of_metric in *. cbn [List.filter].
  apply elem_of_cons in Hone as [Hone|Hone]; [|apply elem_of_cons in Hone as [Hone|Hone];
    [|apply list_elem_of_singleton in Hone]]; injection Hone as -> -> ->.
  - cbn. by apply perm_skip.
  - cbn. rewrite <-Permutation_middle. by apply perm_skip.
  - cbn. rewrite !app_assoc, <-Permutation_middle, <-app_assoc. by apply perm_skip.
Qed.

Lemma coverage_complete first last i :
  coverage first last i = complete ->
  keys_exactly (values first) = true /\ keys_exactly (values last) = true /\
  went_back (values first) (values last) = false.
Proof.
  unfold coverage. destruct (epoch first), (epoch last), (watermark first), (watermark last); try done.
  destruct (_ || _); [done|]. destruct (negb (SFeqb _ _)); [done|]. destruct (_ || _); [done|].
  destruct (negb (keys_exactly (values first)) || _) eqn:Hk; [done|].
  destruct (went_back _ _) eqn:Hw; [done|]. intros _. by apply orb_false_iff in Hk as [?%negb_false_iff ?%negb_false_iff].
Qed.

Lemma went_back_not before after k x y :
  went_back before after = false -> (k, x) ∈ before -> find_key after k = Some y -> SFltb y x = false.
Proof.
  intros Hw Hin Hy. destruct (SFltb y x) eqn:Hlt; [|done]. exfalso.
  apply not_true_iff_false in Hw. apply Hw. unfold went_back. apply existsb_exists. exists (k, x).
  split; [by apply list_elem_of_In|]. cbn [fst snd]. by rewrite Hy.
Qed.

Lemma find_key_elem (d : list (Key * spec_float)) k v : find_key d k = Some v -> (k, v) ∈ d.
Proof.
  unfold find_key. intros ([k' v'] & Hf & ->)%fmap_Some. apply find_some in Hf as [Hin Hk].
  cbn in Hk |- *. apply eqb_of_true_1 in Hk as <-. by apply list_elem_of_In.
Qed.

(** The points of a complete window *)
Lemma complete_points first last i points :
  NoDup (values first).*1 -> NoDup (values last).*1 -> coverage first last i = complete ->
  rmap make_delta (sort_items series_leb (differences (values first) (values last))) = inr points ->
  map delta_key points ≡ₚ required /\ Forall (difference_of first last) points.
Proof.
  intros Hn1 Hn2 (Hk1 & Hk2 & Hw)%coverage_complete [Hmap Hvalid]%points_of.
  pose proof (keys_exactly_perm _ Hn1 Hk1) as Hp1. pose proof (keys_exactly_perm _ Hn2 Hk2) as Hp2.
  assert (map (fun d => (delta_key d, delta_value d)) points ≡ₚ differences (values first) (values last)) as Hperm.
  { rewrite Hmap. apply sort_items_perm. }
  split.
  - assert (map delta_key points = (map (fun d => (delta_key d, delta_value d)) points).*1) as ->.
    { clear. induction points as [|d points IH]; cbn; [done|]. by f_equal. }
    rewrite Hperm. rewrite <-Hp2. unfold differences. clear. induction (values last) as [|kv l IH]; cbn; [done|].
    by apply perm_skip.
  - apply Forall_forall. intros d Hd. rewrite Forall_forall in Hvalid. specialize (Hvalid _ Hd).
    unfold Delta_valid in Hvalid. apply andb_true_iff in Hvalid as [Hfin Hpos]. split_and!; [done|done|].
    assert ((delta_key d, delta_value d) ∈ differences (values first) (values last)) as Hin.
    { rewrite <-Hperm. apply list_elem_of_fmap. by exists d. }
    unfold differences in Hin. apply list_elem_of_fmap in Hin as ([k y] & [= Hk Hv] & Hy). cbn in Hk, Hv.
    assert (k ∈ (values first).*1) as Hk'.
    { rewrite Hp1, <-Hp2. by apply (list_elem_of_fmap_2' fst _ (k, y)). }
    apply find_key_some in Hk' as [x Hx]. exists x, y. rewrite Hk. rewrite Hx in Hv. cbn in Hv.
    pose proof (find_key_in _ _ _ Hn2 Hy) as Hfy.
    split_and!; [done|done| |done]. eapply went_back_not; [exact Hw| |exact Hfy]. by apply find_key_elem.
Qed.

(** What the end of [_compute] promises of a window *)
Definition window_sound (first last : Parsed) (w : PaymentWindow) : Prop :=
  match window_status w with
  | complete =>
      coverage first last (interval w) = complete /\
      counts_consistent (differences (values first) (values last)) = true /\
      map delta_key (all_deltas w) ≡ₚ required /\ Forall (difference_of first last) (all_deltas w)
  | _ => all_deltas w = []
  end.

Lemma window_of_ok before after i first last w :
  NoDup (values first).*1 -> NoDup (values last).*1 -> window_of before after i first last = inr w ->
  inputs w = (before, after) /\ interval w = i /\ window_service w = resource before /\ window_sound first last w.
Proof.
  intros Hn1 Hn2. unfold window_of.
  assert (forall status delta points start stop,
    (if bool_decide (status = complete)
     then coverage first last i = complete /\ counts_consistent delta = true /\ delta = differences (values first) (values last)
     else delta = []) ->
    rmap make_delta (sort_items series_leb delta) = inr points ->
    window_sound first last
      {| window_service := resource before; interval := i; inputs := (before, after); window_status := status;
         window_start := start; window_end := stop; before_epoch := epoch first; after_epoch := epoch last;
         request_counts := of_metric [REQUESTS] points; latency := of_metric [COUNT; SUM] points;
         conflicts := of_metric [CONFLICTS] points |}) as Hsound.
  { intros status delta points start stop Hst Hp. unfold window_sound, all_deltas. cbn [window_status interval request_counts latency conflicts].
    destruct status; cbn in Hst; try (rewrite Hst in Hp; cbn in Hp; by injection Hp as <-).
    destruct Hst as (Hcov & Hcon & ->). split_and!; [done|done| |];
      destruct (complete_points first last i points Hn1 Hn2 Hcov Hp) as [Hkeys Hall].
    - rewrite <-Hkeys. apply Permutation_map, groups_perm. apply Forall_forall. intros d Hd.
      rewrite <-Hkeys. apply list_elem_of_fmap. by exists d.
    - rewrite groups_perm; [done|]. apply Forall_forall. intros d Hd.
      rewrite <-Hkeys. apply list_elem_of_fmap. by exists d. }
  assert (exists status delta,
    match match coverage first last i with complete => differences (values first) (values last) | _ => [] end with
    | delta => match coverage first last i with
               | complete => if counts_consistent delta then (complete, delta) else (missing, [])
               | _ => (coverage first last i, delta)
               end
    end = (status, delta) /\
    (if bool_decide (status = complete)
     then coverage first last i = complete /\ counts_consistent delta = true /\ delta = differences (values first) (values last)
     else delta = [])) as (status & delta & Heq & Hst).
  { destruct (coverage first last i); try (eexists _, _; split; [reflexivity|]; done).
    destruct (counts_consistent _) eqn:Hc; eexists _, _; (split; [reflexivity|]); done. }
  cbv beta iota zeta in Heq |- *. rewrite Heq.
  destruct (rmap make_delta _) as [|points] eqn:Hp; cbn [rbind]; [done|].
  destruct (date_of (watermark first)) as [|start]; cbn [rbind]; [done|].
  destruct (date_of (watermark last)) as [|stop]; cbn [rbind]; [done|].
  intros [= <-]. split_and!; [done..|]. by eapply Hsound.
Qed.
End windows.

(** ** Verification *)

Section verification.
Context `{PyText, Blob, PydanticText, !Instants}.

(** The two snapshots a window was computed from, as they were stored *)
Definition from_snapshots (tr : list (obs art_answer)) (w : PaymentWindow) (first last : Parsed) : Prop :=
  exists p1 p2 raw1 raw2,
    stored tr (inputs w).1 p1 /\ stored tr (inputs w).2 p2 /\
    dget p1 "payload" = JObj raw1 /\ dget p2 "payload" = JObj raw2 /\
    parse_item (inputs w).1 raw1 (window_service w) = inr first /\
    parse_item (inputs w).2 raw2 (window_service w) = inr last /\
    evidence_id (inputs w).1 <> evidence_id (inputs w).2 /\
    ev_incident_id (inputs w).1 = mi_incident_id (interval w) /\
    ev_incident_id (inputs w).2 = mi_incident_id (interval w).

Lemma source_object_ok j o : source_object j = inr o -> j = JObj o.
Proof. unfold source_object, invalid. destruct j; congruence. Qed.

Lemma compute_window_ok before after i tr w :
  runs (compute_window before after i) tr (inr w) ->
  inputs w = (before, after) /\ interval w = i /\ exists first last, from_snapshots tr w first last /\
    window_sound first last w.
Proof.
  unfold compute_window. intros Hr.
  apply runs_bind_ok in Hr as (p1 & t1 & t2 & -> & Hs1%store_verify_ok & Hr).
  apply runs_bind_ok in Hr as (raw1 & t3 & t4 & -> & Hp1 & Hr). apply runs_lift_ok in Hp1 as [-> Hp1%source_object_ok].
  apply runs_bind_ok in Hr as (p2 & t5 & t6 & -> & Hs2%store_verify_ok & Hr).
  apply runs_bind_ok in Hr as (raw2 & t7 & t8 & -> & Hp2 & Hr). apply runs_lift_ok in Hp2 as [-> Hp2%source_object_ok].
  past_guard Hr Hg. past_guard Hr Hserv.
  apply runs_bind_ok in Hr as (first & t9 & t10 & -> & Hf & Hr). apply runs_lift_ok in Hf as [-> Hf].
  apply runs_bind_ok in Hr as (last & t11 & t12 & -> & Hl & Hr). apply runs_lift_ok in Hl as [-> Hl].
  apply runs_lift_ok in Hr as [-> Hw].
  apply window_of_ok in Hw as (Hi & Hin & Hs & Hsound); [|by eapply parse_item_nodup..].
  pybool. destruct Hg as [[[[[Hid Hi1] Hi2] _] _] _].
  split_and!; [done|done|]. exists first, last. split; [|done].
  exists p1, p2, raw1, raw2. rewrite Hi, Hs, Hin. cbn [fst snd]. split_and!; try done.
  - eapply stored_weaken; [|exact Hs1]. within_app.
  - eapply stored_weaken; [|exact Hs2]. within_app.
Qed.
End verification.

(** ** Properties *)

Section properties.
Context `{PyText, Blob, PydanticText, !Instants}.

(** C33: Whatever the store answers, a window that verifies is computed from two different stored
    snapshots of its incident and service: a complete one holds exactly one difference for each of
    the required series, finite, nonnegative and that of the two stored values, whose request and
    latency counts agree; a window that is not complete holds no difference. *)
Theorem verified_window_recomputed e tr w :
  runs (verify_window e) tr (inr w) ->
  ev_incident_id e = mi_incident_id (interval w) /\ resource e = window_service w /\
  exists first last, from_snapshots tr w first last /\ window_sound first last w.
Proof.
  unfold verify_window. intros Hr.
  apply runs_bind_ok in Hr as (p & t1 & t2 & -> & _ & Hr).
  apply runs_bind_ok in Hr as (raw & t3 & t4 & -> & _ & Hr).
  past_guard Hr Hfin.
  destruct (parse_window (JObj raw)) as [claimed|]; [|exfalso; exact (runs_raise_ok _ _ _ Hr)].
  apply runs_bind_ok in Hr as (expected & t5 & t6 & -> & Hc & Hr).
  apply compute_window_ok in Hc as (Hin & Hi & first & last & Hs & Hsound). cbv zeta in Hr.
  past_guard Hr Hg.
  apply runs_ret_ok in Hr as [-> <-]. unfold window_same in Hg. pybool.
  destruct Hg as [[[[[[_ _] Hres] Hinc] _] _] Hsame].
  split_and!; [congruence|intuition congruence|]. exists first, last. split; [|done].
  destruct Hs as (p1 & p2 & raw1 & raw2 & Hs1 & Hs2 & Hrest). exists p1, p2, raw1, raw2.
  split; [|split; [|exact Hrest]]; (eapply stored_weaken; [|eassumption]; within_app).
Qed.
End properties.

(** ** Instances *)

Example window_played :
  exists w, (play files_world (verify_window window_item) window_files []).1.1 = inr w /\ window_status w = complete.
Proof. eexists. split; [vm_compute; reflexivity|reflexivity]. Qed.

Lemma verified_window_recomputed_witness :
  exists w, window_status w = complete /\
    ev_incident_id window_item = mi_incident_id (interval w) /\ resource window_item = window_service w /\
    exists first last,
      from_snapshots (play files_world (verify_window window_item) window_files []).2 w first last /\
      window_sound first last w.
Proof.
  destruct window_played as (w & Hw & Hc). exists w. split; [exact Hc|].
  apply verified_window_recomputed. exact (played _ _ _ _ Hw).
Defined.
