(* ===== verification/SpanTheorems.v ===== *)
(** * A span log accounts for every object in it

    Every object the log opens is kept, excluded, counted as malformed or counted as partial;
    what is kept is the projection of a block of consecutive lines, in scope. *)

From stdpp Require Import pretty.
From S2P Require Import Prelude Text Json Digest Contracts Effects Reasoning Baseline Numbers Artifacts Normalize.
From S2P Require Import SandboxModels Wire Windows Spans EvidenceStory.

Open Scope string_scope.
Open Scope list_scope.
Open Scope Z_scope.
Open Scope result_scope.

Section framing.
Context `{WireText, PyText, !Instants}.
Context (scope : TraceScope).

Definition line : Type := datetime * string.

(** How many lines open an object, and how many lie outside of any object although they look
    like part of one *)
Fixpoint opened (lines : list line) : Z :=
  match lines with
  | [] => 0
  | l :: lines => Z_of_bool (eqb_of l.2 "{") + opened lines
  end.
Fixpoint stray_lines (inside : bool) (lines : list line) : Z :=
  match lines with
  | [] => 0
  | l :: lines =>
      if eqb_of l.2 "{" then stray_lines true lines
      else if inside then stray_lines (negb (eqb_of l.2 "}")) lines
      else Z_of_bool (stray l.2) + stray_lines false lines
  end.

(** What has been counted, the object being framed included *)
Definition accounted (f : framing) : Z :=
  len (found_spans f) + n_partial f + n_malformed f + n_excluded f +
  Z_of_bool (bool_decide (is_Some (open_candidate f))).

(** A span, as a block of consecutive lines *)
Definition span_block (lines : list line) (r : CapturedSpan) : Prop :=
  exists before block after,
    lines = before ++ ((log_start r, "{") :: block ++ [(log_end r, "}")]) ++ after /\
    project_span (joined ("}" :: rev ("{" :: block.*2))) = inr (captured_span r).

(** In the interval and of the service of the scope, and emitted before it was logged *)
Definition span_in_scope (r : CapturedSpan) : Prop :=
  emitted_by (captured_span r) (ts_service scope) = true /\
  ts_start scope <= start_time (captured_span r) /\ start_time (captured_span r) <= end_time (captured_span r) /\
  end_time (captured_span r) <= ts_end scope /\
  end_time (captured_span r) <= log_start r /\ log_start r <= log_end r.

(** The lines of the object being framed are the last ones read. *)
Definition framed (lines : list line) (c : candidate) : Prop :=
  exists before block, lines = before ++ (cand_started c, "{") :: block /\
    cand_lines c = rev ("{" :: block.*2).

Record framing_ok (lines : list line) (f : framing) : Prop := {
  ok_open : forall c, open_candidate f = Some c -> framed lines c;
  ok_spans : Forall (fun r => span_block lines r /\ span_in_scope r) (found_spans f);
  ok_few : len (found_spans f) <= MAX_SPANS;
}.

Lemma span_block_later lines l r : span_block lines r -> span_block (lines ++ [l]) r.
Proof.
  intros (b & k & a & -> & Hp). exists b, k, (a ++ [l]). split; [|done]. by rewrite <-!app_assoc.
Qed.

Lemma spans_later lines l rs :
  Forall (fun r => span_block lines r /\ span_in_scope r) rs ->
  Forall (fun r => span_block (lines ++ [l]) r /\ span_in_scope r) rs.
Proof. intros Hr. eapply Forall_impl; [exact Hr|]. cbn. intros r [Hb Hs]. split; [by apply span_block_later|done]. Qed.

Lemma candidate_span_ok c emitted r inside :
  candidate_span scope c emitted = inr (r, inside) ->
  project_span (joined (cand_lines c)) = inr (captured_span r) /\ log_start r = cand_started c /\ log_end r = emitted /\
  (inside = true -> span_in_scope r).
Proof.
  unfold candidate_span. destruct (cand_invalid c); [done|].
  destruct (span_depth _ _ _ _); cbn [rbind]; [done|].
  destruct (project_span _) as [|s] eqn:Hp; cbn [rbind]; [done|].
  destruct (negb (emitted_by _ _)) eqn:He; [done|]. cbv zeta.
  destruct (negb (CapturedSpan_valid _)) eqn:Hv; [done|]. intros [= <- <-]. cbn. split_and!; [done..|].
  intros Hin. unfold CapturedSpan_valid in Hv. cbn in Hv. pybool. unfold span_in_scope. cbn. intuition.
Qed.

Lemma framed_extended lines c emitted text :
  framed lines c -> framed (lines ++ [(emitted, text)]) (extended c emitted text).
Proof.
  intros (b & k & -> & Hl). exists b, (k ++ [(emitted, text)]). cbn [extended cand_started cand_lines]. split.
  - by rewrite <-app_assoc.
  - rewrite fmap_app. cbn [fmap list_fmap]. rewrite app_comm_cons, rev_app_distr, Hl. done.
Qed.

Definition is_open (f : framing) : bool := bool_decide (is_Some (open_candidate f)).

(** The end of an object: it is kept, excluded or malformed. *)
Lemma closed_ok lines c emitted f f' :
  framing_ok lines f -> framed lines c ->
  closed_candidate scope (extended c emitted "}") emitted f = inr f' ->
  framing_ok (lines ++ [(emitted, "}")]) f' /\ is_open f' = false /\
  accounted f' = len (found_spans f) + n_partial f + n_malformed f + n_excluded f + 1.
Proof.
  intros Hok Hc. unfold closed_candidate.
  destruct (candidate_span scope _ emitted) as [e|[r inside]] eqn:Hs.
  { destruct (is_ValueError e); [|done]. intros [= <-]. unfold accounted, is_open. cbn. split_and!; [|done|lia].
    split; cbn; [done|apply spans_later, Hok|apply Hok]. }
  apply candidate_span_ok in Hs as (Hp & Hstart & Hend & Hin). destruct inside.
  - destruct (MAX_SPANS <? _) eqn:Hmax; [done|]. apply Z.ltb_ge in Hmax. intros [= <-].
    unfold accounted, is_open. cbn. split_and!; [|done|].
    + split; cbn; [done| |].
      * apply Forall_app. split; [apply spans_later, Hok|]. constructor; [|constructor]. split; [|auto].
        destruct Hc as (b & k & -> & Hl). exists b, k, []. rewrite app_nil_r. rewrite Hstart, Hend.
        cbn [extended cand_started cand_lines] in *. split; [by rewrite <-app_assoc|]. by rewrite <-Hl.
      * unfold len in *. rewrite length_app. cbn. lia.
    + unfold len. rewrite length_app. cbn. lia.
  - intros [= <-]. unfold accounted, is_open. cbn. split_and!; [|done|lia].
    split; cbn; [done|apply spans_later, Hok|apply Hok].
Qed.

(** One line *)
Lemma frame_line_ok lines f l f' :
  framing_ok lines f -> frame_line scope f l = inr f' ->
  framing_ok (lines ++ [l]) f' /\
  accounted f' + stray_lines (is_open f') [] =
    accounted f + Z_of_bool (eqb_of l.2 "{") + stray_lines (is_open f) [l] /\
  is_open f' = (if eqb_of l.2 "{" then true else if is_open f then negb (eqb_of l.2 "}") else false).
Proof.
  intros Hok. destruct l as [emitted text]. unfold frame_line. cbn [snd stray_lines].
  destruct_eqb text "{".
  - subst. intros [= <-]. cbn [Z_of_bool]. split_and!; [| |done].
    + split; cbn [with_candidate open_candidate found_spans].
      * intros c [= <-]. exists lines, []. done.
      * destruct (open_candidate f); cbn; apply spans_later, Hok.
      * destruct (open_candidate f); apply Hok.
    + unfold accounted. destruct (open_candidate f); cbn; lia.
  - destruct (open_candidate f) as [c|] eqn:Hc.
    + assert (is_open f = true) as -> by (unfold is_open; by rewrite Hc).
      destruct (8192 <? _); [done|]. destruct_eqb text "}".
      * subst. cbn [negb]. intros Hf. apply (closed_ok lines) in Hf as (Hok' & Ho & Ha); [|done|by apply Hok].
        split_and!; [done| |done]. rewrite Ha. unfold accounted. rewrite Hc. cbn. lia.
      * cbn [negb]. intros [= <-]. split_and!; [| |done].
        -- split; cbn [with_candidate open_candidate found_spans]; [|apply spans_later, Hok|apply Hok].
           intros c' [= <-]. by apply framed_extended, Hok.
        -- unfold accounted. rewrite Hc. cbn. lia.
    + assert (is_open f = false) as -> by (unfold is_open; by rewrite Hc).
      intros [= <-]. assert (open_candidate (if stray text then count_partial f else f) = None) as Hn
        by (by destruct (stray text)).
      split_and!.
      * split; [intros c; by rewrite Hn| |]; destruct (stray text); cbn; try apply spans_later; apply Hok.
      * unfold accounted. rewrite Hn, Hc. destruct (stray text); cbn; lia.
      * unfold is_open. by rewrite Hn.
Qed.

Lemma frame_lines_ok before lines f f' :
  framing_ok before f -> frame_lines scope f lines = inr f' ->
  framing_ok (before ++ lines) f' /\ accounted f' = accounted f + opened lines + stray_lines (is_open f) lines.
Proof.
  revert before f. induction lines as [|l lines IH]; intros before f Hok; cbn [frame_lines].
  - intros [= <-]. rewrite app_nil_r. cbn. split; [done|lia].
  - destruct (frame_line scope f l) as [|g] eqn:Hl; cbn [rbind]; [done|]. intros Hf.
    destruct (frame_line_ok before f l g Hok Hl) as (Hok' & Ha & Ho).
    destruct (IH (before ++ [l]) g Hok' Hf) as [Hok'' Ha']. split; [by rewrite <-app_assoc in Hok''|].
    rewrite Ha'. cbn [opened stray_lines] in *. rewrite Ho in Ha' |- *.
    destruct (eqb_of l.2 "{"), (is_open f); cbn in *; lia.
Qed.
End framing.

(** ** Property *)

Section property.
Context `{WireText, PyText, !Instants}.

(** C34: For a log that parses, every object one of its lines opens, and every line outside of any
    object that looks like part of one, is counted exactly once: as a span, as excluded, as
    malformed or as partial.  There are at most 128 spans, each the projection of a block of
    consecutive lines from its opening to its closing line, whose times are the log interval,
    emitted by the service and inside the interval of the scope. *)
Theorem log_accounted scope raw p :
  parse_console_log raw scope = inr p ->
  exists lines, stamped_lines raw = inr lines /\
    len (spans p) + partial_candidates p + malformed_candidates p + excluded_spans p =
      opened lines + stray_lines false lines /\
    len (spans p) <= 128 /\ line_count p = len lines /\
    Forall (fun r => span_block lines r /\ span_in_scope scope r) (spans p).
Proof.
  unfold parse_console_log. destruct (stamped_lines raw) as [|lines]; cbn [rbind]; [done|].
  destruct (frame_lines scope no_framing lines) as [|f] eqn:Hf; cbn [rbind]; [done|]. cbv zeta.
  destruct (ParsedLog_valid _); [|done]. intros [= <-]. cbn.
  apply (frame_lines_ok scope []) in Hf as [Hok Ha]; [|by split; cbn; [|constructor|]].
  exists lines. unfold accounted in Ha. cbn in Ha. cbn [app] in Hok. destruct Hok as [_ Hspans Hfew].
  split_and!; [done|unfold len in *; cbn in *; lia|unfold MAX_SPANS in Hfew; lia|done|done].
Qed.
End property.

(** ** Instance

    A log with one object, a line that looks like part of another, and one that is cut off *)

Definition shop_span : json :=
  JObj [("name", JStr "sandbox.payments"); ("context", JObj [("trace_id", JStr "0x0123456789abcdef0123456789abcdef");
                                                               ("span_id", JStr "0x0123456789abcdef")]);
        ("parent_id", JNull); ("kind", JStr "SpanKind.SERVER"); ("start_time", JStr (pretty NOON));
        ("end_time", JStr (pretty NOON)); ("status", JObj [("status_code", JStr "OK")]);
        ("resource", JObj [("attributes", JObj [("service.name", JStr "payops-sandbox-payments")])])].

Definition shop_wire : WireText :=
  {| wire_loads _ _ _ _ := Ok shop_span; float_of_text _ := float_zero; dumps _ := show |}.

Definition stamped (text : string) : string := "2026-01-01T00:00:00Z " +:+ text +:+ String lf EmptyString.
Definition shop_log : string := stamped "{" +:+ stamped "}" +:+ stamped "}" +:+ stamped "{".
Definition shop_scope : TraceScope :=
  {| ts_incident_id := "incident-1"; ts_service := "payments-api"; ts_start := NOON; ts_end := NOON + seconds 60 |}.

Example shop_parsed :
  exists p, @parse_console_log shop_wire iso_minute instants shop_log shop_scope = inr p /\
    len (spans p) = 1 /\ partial_candidates p = 2.
Proof. eexists. split; [vm_compute; reflexivity|done]. Qed.

Lemma log_accounted_witness :
  exists p, len (spans p) = 1 /\
    exists lines, @stamped_lines iso_minute shop_log = inr lines /\
      len (spans p) + partial_candidates p + malformed_candidates p + excluded_spans p =
        opened lines + stray_lines false lines /\
      len (spans p) <= 128 /\ line_count p = len lines /\
      Forall (fun r => @span_block shop_wire instants lines r /\ span_in_scope shop_scope r) (spans p).
Proof.
  destruct shop_parsed as (p & Hp & Hl & _). exists p. split; [exact Hl|]. exact (log_accounted shop_scope shop_log p Hp).
Defined.
