(* ===== verification/TraceTheorems.v ===== *)
(** * Trace reads are bounded and pinned to one container

    The graph of the spans is summarized exactly when they form one; a collection runs no more
    commands than it reserves; and every log kept was read from a container whose pod, with its
    controllers, was the same before and after. *)

From S2P Require Import Prelude Text Json Digest Contracts Effects Reasoning Baseline Numbers Artifacts Normalize.
From S2P Require Import SandboxModels Wire Windows Spans Retrieval KubeReads Reads Traces BaselineTheorems EvidenceStory.

Open Scope string_scope.
Open Scope list_scope.
Open Scope Z_scope.
Open Scope result_scope.

(** ** The graph *)

(** No two different records under one identity *)
Definition no_conflict (spans : list SourceSpan) : Prop :=
  forall s s', s ∈ spans -> s' ∈ spans -> span_key s = span_key s' -> s = s'.

(** [s'] is the recorded parent of [s]. *)
Definition child_of (spans : list SourceSpan) (s s' : SourceSpan) : Prop :=
  s' ∈ spans /\ parent_key s = Some (span_key s').
Definition acyclic (spans : list SourceSpan) : Prop :=
  forall s, s ∈ spans -> ~ tc (child_of spans) s s.

Definition has_parent (spans : list SourceSpan) (s : SourceSpan) : bool :=
  existsb (fun s' => eqb_of (parent_key s) (Some (span_key s'))) spans.

(** The counts, over the distinct records *)
Definition summary_of (spans : list SourceSpan) : GraphSummary :=
  let distinct := remove_dups spans in
  {| span_count := len distinct; trace_count := len (remove_dups (map trace_id spans));
     resolved_parent_edges := count_if (has_parent spans) distinct;
     unresolved_parent_edges := count_if (fun s => negb (is_root s) && negb (has_parent spans s)) distinct;
     null_parents := count_if is_root distinct; duplicate_records := len spans - len distinct |}.

Lemma node_found nodes key s : graph_node nodes key = Some s -> s ∈ nodes /\ span_key s = key.
Proof. intros [Hin Hk]%List.find_some. pybool. split; [by apply list_elem_of_In|done]. Qed.

Lemma node_missing nodes key s : graph_node nodes key = None -> s ∈ nodes -> span_key s <> key.
Proof.
  intros Hn Hin Hk. pose proof (List.find_none _ _ Hn s) as Hf. cbn in Hf.
  rewrite <-list_elem_of_In in Hf. specialize (Hf Hin). unfold eqb_of in Hf. by rewrite bool_decide_eq_false in Hf.
Qed.

(** Records with distinct keys are known by them. *)
Lemma NoDup_map_unique {A B} (f : A -> B) (l : list A) x y :
  NoDup (map f l) -> x ∈ l -> y ∈ l -> f x = f y -> x = y.
Proof.
  induction l as [|z l IH]; cbn; [by intros _ ?%elem_of_nil|]. intros [Hz Hl]%NoDup_cons.
  rewrite !elem_of_cons. intros [->|Hx] [->|Hy] Hf; [done| | |by apply IH].
  - destruct Hz. rewrite Hf. by apply list_elem_of_fmap_2.
  - destruct Hz. rewrite <-Hf. by apply list_elem_of_fmap_2.
Qed.

Lemma node_is nodes s : NoDup (map span_key nodes) -> s ∈ nodes -> graph_node nodes (span_key s) = Some s.
Proof.
  intros Hnd Hin. destruct (graph_node nodes (span_key s)) as [s'|] eqn:Hn; [|by destruct (node_missing _ _ _ Hn Hin)].
  apply node_found in Hn as [Hin' Hk]. f_equal. by apply (NoDup_map_unique span_key nodes).
Qed.

(** The first loop keeps one record of each identity, and fails only on a conflict. *)
Lemma graph_nodes_ok nodes spans nodes' :
  NoDup (map span_key nodes) -> graph_nodes nodes spans = inr nodes' ->
  NoDup (map span_key nodes') /\ forall s, s ∈ nodes' <-> s ∈ nodes \/ s ∈ spans.
Proof.
  revert nodes. induction spans as [|s spans IH]; cbn; intros nodes Hnd.
  { intros [= <-]. split; [done|]. intros s. rewrite elem_of_nil. tauto. }
  destruct (graph_node nodes (span_key s)) as [known|] eqn:Hn.
  - destruct (eqb_of known s) eqn:He; [|done]. pybool. subst known. intros [Hnd' Hin]%IH; [|done].
    apply node_found in Hn as [Hs _]. split; [done|]. intros x. rewrite Hin, elem_of_cons.
    split; [tauto|]. by intros [?|[->|?]]; auto.
  - intros [Hnd' Hin]%IH.
    + split; [done|]. intros x. rewrite Hin, elem_of_app, !elem_of_cons, elem_of_nil. tauto.
    + rewrite map_app. apply NoDup_app. split_and!; [done| |apply NoDup_singleton].
      intros k (x & -> & Hx)%list_elem_of_fmap. cbn. rewrite list_elem_of_singleton. by apply (node_missing nodes).
Qed.

Lemma graph_nodes_total nodes spans :
  NoDup (map span_key nodes) -> no_conflict (nodes ++ spans) -> exists nodes', graph_nodes nodes spans = inr nodes'.
Proof.
  revert nodes. induction spans as [|s spans IH]; cbn; intros nodes Hnd Hc; [by eexists|].
  destruct (graph_node nodes (span_key s)) as [known|] eqn:Hn.
  - apply node_found in Hn as [Hin Hk].
    assert (known = s) as -> by (apply Hc; [set_solver..|done]).
    rewrite (proj2 (eqb_of_true s s) eq_refl). apply IH; [done|]. intros x y Hx Hy. apply Hc; apply elem_of_app; apply elem_of_app in Hx, Hy;
      rewrite elem_of_cons; tauto.
  - apply IH.
    + rewrite map_app. apply NoDup_app. split_and!; [done| |apply NoDup_singleton].
      intros k (x & -> & Hx)%list_elem_of_fmap. cbn. rewrite list_elem_of_singleton. by apply (node_missing nodes).
    + by rewrite <-app_assoc.
Qed.

Lemma graph_nodes_failed nodes spans e :
  graph_nodes nodes spans = inl e ->
  e = EvidenceIntegrityError "conflicting duplicate trace span" /\ ~ no_conflict (nodes ++ spans).
Proof.
  revert nodes. induction spans as [|s spans IH]; cbn; intros nodes; [done|].
  destruct (graph_node nodes (span_key s)) as [known|] eqn:Hn.
  - apply node_found in Hn as [Hin Hk]. destruct (eqb_of known s) eqn:He.
    + intros [-> Hc]%IH. split; [done|]. intros Hno. apply Hc. intros x y Hx Hy.
      apply Hno; apply elem_of_app; apply elem_of_app in Hx, Hy; rewrite elem_of_cons; tauto.
    + intros [= <-]. split; [done|]. intros Hno. pybool. apply He, Hno; [set_solver..|done].
  - intros [-> Hc]%IH. by rewrite <-app_assoc in Hc.
Qed.

(** A path begins with an edge. *)
Lemma tc_first {A} (R : relation A) x z : tc R x z -> exists y, R x y /\ (y = z \/ tc R y z).
Proof. intros [a b Hab|a b c Hab Hbc]; [by exists b; split; [|left]|by exists b; split; [|right]]. Qed.

(** The walks find every cycle. *)
Lemma parent_walk_sound nodes rounds seen s u x :
  NoDup (map span_key nodes) -> parent_walk rounds nodes seen s = inr u -> span_key x ∈ seen ->
  ~ tc (child_of nodes) s x.
Proof.
  intros Hnd. revert seen s. induction rounds as [|rounds IH]; cbn; intros seen s; [done|].
  intros Hw Hx Ht. apply tc_first in Ht as (y & [Hy Hk] & Ht).
  rewrite Hk in Hw. destruct (bool_decide _) eqn:Hseen; [done|]. apply bool_decide_eq_false in Hseen.
  rewrite (node_is nodes y) in Hw by done.
  destruct Ht as [->|Ht]; [done|]. eapply IH; [exact Hw| |exact Ht]. by apply list_elem_of_further.
Qed.

(** The keys seen are those of different nodes, so that there are no more of them than nodes:
    a walk ends before its rounds do, at a record without a recorded parent or at a cycle. *)
Lemma parent_walk_ends nodes rounds seen s :
  NoDup (map span_key nodes) -> NoDup seen -> (length nodes < length seen + rounds)%nat ->
  seen ⊆ map span_key nodes ->
  parent_walk rounds nodes seen s = inr tt \/
  parent_walk rounds nodes seen s = inl (EvidenceIntegrityError "trace parent cycle").
Proof.
  intros Hnd. revert seen s. induction rounds as [|rounds IH]; cbn; intros seen s Hs Hlen Hseen.
  - exfalso. enough (length seen <= length (map span_key nodes))%nat by (rewrite length_map in *; lia).
    by apply submseteq_length, NoDup_submseteq.
  - destruct (parent_key s) as [k|]; [|by left]. destruct (bool_decide (k ∈ seen)) eqn:Hb; [by right|].
    apply bool_decide_eq_false in Hb. destruct (graph_node nodes k) as [y|] eqn:Hn; [|by left].
    apply node_found in Hn as [Hy <-]. apply IH; [by constructor|cbn; lia|].
    intros j [->|Hj]%elem_of_cons; [by apply list_elem_of_fmap_2|by apply Hseen].
Qed.

(** Without a cycle, the keys seen are those of descendants, and none is met again. *)
Lemma parent_walk_acyclic nodes rounds seen s :
  acyclic nodes -> (forall k, k ∈ seen -> exists x, x ∈ nodes /\ span_key x = k /\ rtc (child_of nodes) x s) ->
  parent_walk rounds nodes seen s <> inl (EvidenceIntegrityError "trace parent cycle").
Proof.
  intros Ha. revert seen s. induction rounds as [|rounds IH]; cbn; intros seen s Hseen; [done|].
  destruct (parent_key s) as [k|] eqn:Hk; [|done]. destruct (bool_decide (k ∈ seen)) eqn:Hb.
  - apply bool_decide_eq_true in Hb. apply Hseen in Hb as (x & Hx & <- & Hr). exfalso.
    apply (Ha x Hx). eapply tc_rtc_l; [exact Hr|]. apply tc_once. by split.
  - destruct (graph_node nodes k) as [y|] eqn:Hn; [|done]. apply node_found in Hn as [Hy <-].
    assert (Hedge : child_of nodes s y) by (by split). apply IH.
    intros j [->|Hj]%elem_of_cons; [by exists y; split_and!|].
    apply Hseen in Hj as (x & Hx & <- & Hr). exists x. split_and!; [done..|]. by eapply rtc_r.
Qed.

Lemma parent_walks_all nodes l u :
  parent_walks nodes l = inr u <->
  forall s, s ∈ l -> exists v, parent_walk (length nodes) nodes [span_key s] s = inr v.
Proof.
  destruct u. induction l as [|s l IH]; cbn.
  { split; [by intros _ s ?%elem_of_nil|done]. }
  split.
  - intros [v [Hw Hl]]%rbind_inr x [->|Hx]%elem_of_cons; [by exists v|by apply IH].
  - intros Hall. apply rbind_inr. destruct (Hall s (list_elem_of_here _ _)) as [v Hv]. exists v. split; [done|].
    apply IH. intros x Hx. by apply Hall, list_elem_of_further.
Qed.

(** The first walk that does not succeed *)
Lemma parent_walks_failed nodes l e :
  parent_walks nodes l = inl e -> exists s, s ∈ l /\ parent_walk (length nodes) nodes [span_key s] s = inl e.
Proof.
  induction l as [|s l IH]; cbn; [done|]. destruct (parent_walk _ _ _ s) as [e'|u] eqn:Hw; cbn.
  - intros [= ->]. exists s. split; [apply list_elem_of_here|done].
  - intros (x & Hx & He)%IH. exists x. split; [by apply list_elem_of_further|done].
Qed.

(** The second loop succeeds without a cycle, and reports one otherwise. *)
Lemma walks_outcome nodes :
  NoDup (map span_key nodes) ->
  parent_walks nodes nodes = inr tt /\ acyclic nodes \/
  parent_walks nodes nodes = inl (EvidenceIntegrityError "trace parent cycle") /\ ~ acyclic nodes.
Proof.
  intros Hnd. destruct (parent_walks nodes nodes) as [e|[]] eqn:Hw.
  - right. apply parent_walks_failed in Hw as (s & Hs & Hw).
    destruct (parent_walk_ends nodes (length nodes) [span_key s] s) as [He|He]; [done|apply NoDup_singleton|cbn; lia| | |].
    + intros k ->%list_elem_of_singleton. by apply list_elem_of_fmap_2.
    + congruence.
    + split; [congruence|]. intros Ha. revert He. apply parent_walk_acyclic; [done|].
      intros k ->%list_elem_of_singleton. by exists s.
  - left. split; [done|]. pose proof (proj1 (parent_walks_all nodes nodes tt) Hw) as Hall. intros s Hs.
    destruct (Hall s Hs) as [v Hv]. by eapply parent_walk_sound; [..|apply list_elem_of_here].
Qed.

(** Lists of the same records *)
Lemma acyclic_same l l' : (forall s, s ∈ l <-> s ∈ l') -> acyclic l <-> acyclic l'.
Proof.
  intros Hl. assert (Hc : forall s s', child_of l s s' <-> child_of l' s s').
  { intros s s'. unfold child_of. by rewrite Hl. }
  assert (Ht : forall s s', tc (child_of l) s s' <-> tc (child_of l') s s').
  { intros s s'. split; apply (tc_congruence id); intros x y; apply Hc. }
  unfold acyclic. split; intros Ha s Hs; [rewrite <-Ht|rewrite Ht]; apply Ha; by apply Hl.
Qed.

Lemma count_if_perm {A} (p q : A -> bool) (l l' : list A) :
  l ≡ₚ l' -> (forall x, x ∈ l -> p x = q x) -> count_if p l = count_if q l'.
Proof.
  intros Hp Hpq. assert (count_if p l = count_if q l) as ->.
  { unfold count_if. f_equal. clear Hp. induction l as [|x l IH]; cbn; [done|].
    rewrite Hpq by apply list_elem_of_here. rewrite IH; [done|]. intros y Hy. by apply Hpq, list_elem_of_further. }
  clear Hpq. unfold count_if, len. f_equal. induction Hp; cbn; repeat case_match; cbn; congruence.
Qed.

Lemma count_if_partition {A} (p q : A -> bool) (l : list A) :
  (forall x, p x = true -> q x = true -> False) ->
  len l - count_if p l - count_if q l = count_if (fun x => negb (q x) && negb (p x)) l.
Proof.
  intros Hpq. unfold count_if, len. induction l as [|x l IH]; cbn; [done|].
  destruct (p x) eqn:Hp, (q x) eqn:Hq; cbn; try lia. by destruct (Hpq x).
Qed.

Lemma resolved_has_parent nodes spans s :
  (forall x, x ∈ nodes <-> x ∈ spans) -> edge_resolved nodes s = has_parent spans s.
Proof.
  intros Hin. unfold edge_resolved, has_parent. apply Bool.eq_iff_eq_true. rewrite List.existsb_exists.
  split.
  - destruct (parent_key s) as [k|]; [|done]. intros [x Hx]%bool_decide_eq_true. apply node_found in Hx as [Hx <-].
    exists x. split; [by apply list_elem_of_In, Hin|by apply eqb_of_true].
  - intros (x & Hx & He). pybool. rewrite He. apply list_elem_of_In, Hin in Hx. apply bool_decide_eq_true.
    destruct (graph_node nodes (span_key x)) eqn:Hn; [by eexists|]. by destruct (node_missing _ _ _ Hn Hx).
Qed.

Lemma root_no_parent spans s : has_parent spans s = true -> is_root s = true -> False.
Proof.
  unfold has_parent, is_root. rewrite List.existsb_exists. intros (x & _ & He) Hr. pybool.
  unfold parent_key in He. by rewrite Hr in He.
Qed.

Lemma nodes_perm nodes spans :
  NoDup (map span_key nodes) -> (forall s, s ∈ nodes <-> s ∈ spans) -> nodes ≡ₚ remove_dups spans.
Proof.
  intros Hnd Hin. apply NoDup_Permutation; [by eapply NoDup_fmap_1|apply NoDup_remove_dups|].
  intros s. by rewrite elem_of_remove_dups.
Qed.

(** What the summary counts are the counts over the distinct records. *)
Lemma summary_counts nodes spans :
  NoDup (map span_key nodes) -> (forall s, s ∈ nodes <-> s ∈ spans) ->
  {| span_count := len nodes; trace_count := len (remove_dups (map trace_id nodes));
     resolved_parent_edges := count_if (edge_resolved nodes) nodes;
     unresolved_parent_edges := len nodes - count_if (edge_resolved nodes) nodes - count_if is_root nodes;
     null_parents := count_if is_root nodes; duplicate_records := len spans - len nodes |} = summary_of spans.
Proof.
  intros Hnd Hin. pose proof (nodes_perm _ _ Hnd Hin) as Hp. unfold summary_of.
  assert (Hlen : len nodes = len (remove_dups spans)) by (unfold len; by rewrite Hp).
  assert (Hr : forall s, edge_resolved nodes s = has_parent spans s) by (intros; by apply resolved_has_parent).
  f_equal; [done| |by apply count_if_perm| |by apply count_if_perm|lia].
  - unfold len. f_equal. apply Permutation_length, NoDup_Permutation; [apply NoDup_remove_dups..|]. intros t.
    rewrite !elem_of_remove_dups, !list_elem_of_fmap. split; intros (s & -> & Hs); exists s; (split; [done|by apply Hin]).
  - rewrite (count_if_partition (edge_resolved nodes) is_root).
    + apply count_if_perm; [done|]. intros s _. by rewrite Hr.
    + intros s. rewrite Hr. apply root_no_parent.
Qed.

Lemma summary_valid spans :
  len spans <= MAX_SPANS -> GraphSummary_valid (summary_of spans) = (trace_count (summary_of spans) <=? 32).
Proof.
  intros Hlen. unfold GraphSummary_valid, between, count_if, summary_of, count_if, len in *. cbn.
  assert (length (remove_dups spans) <= length spans)%nat.
  { apply submseteq_length, NoDup_submseteq; [apply NoDup_remove_dups|]. intros x. by rewrite elem_of_remove_dups. }
  apply Bool.eq_iff_eq_true. rewrite !Bool.andb_true_iff, !Z.leb_le. lia.
Qed.

(** C38: What [summarize_graph] answers on every list of records: the first of these that
    applies.  More than 128 records exceed the budget; two different records under one identity
    conflict; a record that is its own ancestor, by the parents recorded, is reported as a cycle,
    so that no walk goes round one; more than 32 traces are not a valid summary; and otherwise
    the answer is the summary, whose counts are those over the distinct records: their parents
    recorded, not recorded or absent, and the repetitions. *)
Theorem graph_exact spans :
  (128 < len spans -> summarize_graph spans = inl (ValueError "aggregate span budget exceeded")) /\
  (len spans <= 128 ->
     (~ no_conflict spans ->
        summarize_graph spans = inl (EvidenceIntegrityError "conflicting duplicate trace span")) /\
     (no_conflict spans ->
        (~ acyclic spans -> summarize_graph spans = inl (EvidenceIntegrityError "trace parent cycle")) /\
        (acyclic spans ->
           let g := summary_of spans in
           (32 < trace_count g -> summarize_graph spans = inl (ValueError "GraphSummary")) /\
           (trace_count g <= 32 -> summarize_graph spans = inr g)))).
Proof.
  unfold summarize_graph. change MAX_SPANS with 128. split.
  { intros Hlen. by rewrite (proj2 (Z.ltb_lt _ _) Hlen). }
  intros Hlen. rewrite (proj2 (Z.ltb_ge _ _) Hlen).
  destruct (graph_nodes [] spans) as [e|nodes] eqn:Hn; cbn [rbind].
  { apply graph_nodes_failed in Hn as [-> Hc]. split; [done|]. by intros ?%Hc. }
  apply graph_nodes_ok in Hn as [Hnd Hin]; [|by constructor].
  assert (Hsame : forall s, s ∈ nodes <-> s ∈ spans) by (intros s; rewrite Hin, elem_of_nil; tauto).
  split.
  { intros Hc. destruct Hc. intros s s' Hs Hs'. apply Hsame in Hs, Hs'. by apply (NoDup_map_unique span_key nodes). }
  intros _. rewrite <-(acyclic_same nodes spans Hsame).
  destruct (walks_outcome nodes Hnd) as [[-> Ha]|[-> Ha]]; cbn [rbind]; [|by split; [|intros ?%Ha]].
  split; [by intros ?%(fun H => H Ha)|]. intros _. cbv zeta. rewrite summary_counts, summary_valid by done.
  split; intros Ht; [by rewrite (proj2 (Z.leb_gt _ _) Ht)|by rewrite (proj2 (Z.leb_le _ _) Ht)].
Qed.

(** A record [id] under the parent [parent] *)
Definition linked (id parent : string) : SourceSpan :=
  {| span_name := "call"; trace_id := "0x0a"; span_id := id; parent_id := Some parent; kind := CLIENT;
     start_time := 0; end_time := 1; span_status := UNSET; service_name := "orders" |}.

Lemma graph_exact_witness :
  summarize_graph [linked "0x01" "0x02"; linked "0x02" "0x01"] =
    inl (EvidenceIntegrityError "trace parent cycle") /\
  exists g, summarize_graph [linked "0x01" "0x02"; linked "0x02" "0x03"] = inr g /\ resolved_parent_edges g = 1.
Proof.
  split; [|eexists; split; vm_compute; reflexivity].
  pose proof (graph_exact [linked "0x01" "0x02"; linked "0x02" "0x01"]) as [_ Hg].
  destruct Hg as [_ Hg]; [by vm_compute|]. destruct Hg as [Hg _].
  - intros s s' Hs Hs' Hk. rewrite !elem_of_cons, elem_of_nil in Hs, Hs'.
    destruct Hs as [->|[->|[]]], Hs' as [->|[->|[]]]; try done; by vm_compute in Hk.
  - apply Hg. intros Ha. apply (Ha (linked "0x01" "0x02")); [set_solver|].
    apply (tc_l _ _ (linked "0x02" "0x01")); [|apply tc_once]; (split; [set_solver|done]).
Defined.

(** ** The commands *)

Section commands.
Context `{WireText, PyText, !ModelText, !Instants, Blob, PydanticText, !ObjectText, !StampText}.
Context (executable kubeconfig : string).

Definition is_command (c : trace_call) : nat := match c with TCommand _ _ _ => 1 | _ => 0 end.
Abbreviation issued := (total (R:=trace_answer) is_command).

(** At most [n] commands are run from [b] on, and the budget returned has counted them. *)
Definition counts {A} (n : nat) (m : prog trace_answer (A * TraceBudget)) (b : TraceBudget) : Prop :=
  forall tr out, runs m tr out ->
    (issued tr <= n)%nat /\ forall a b', out = inr (a, b') -> tb_commands b' = tb_commands b + Z.of_nat (issued tr).

Lemma counts_le {A} n n' (m : prog trace_answer (A * TraceBudget)) b : (n <= n')%nat -> counts n m b -> counts n' m b.
Proof. intros Hn Hm tr out [Hle Hb]%Hm. split; [lia|done]. Qed.

Lemma counts_ret {A} n (a : A) b : counts n (Ret (a, b)) b.
Proof. intros tr out [-> ->]%runs_ret_inv. cbn. split; [lia|]. intros ? ? [= <- <-]. lia. Qed.

Lemma counts_raise {A} n e b : counts (A:=A) n (Raise e) b.
Proof. intros tr out [-> ->]%runs_raise_inv. cbn. split; [lia|done]. Qed.

Lemma counts_bind {A B} n n' (m : prog trace_answer (A * TraceBudget)) (f : A * TraceBudget -> prog trace_answer (B * TraceBudget)) b :
  counts n m b -> (forall a b', counts n' (f (a, b')) b') -> counts (n + n') (bind m f) b.
Proof.
  intros Hm Hf tr out [(e & Hr & ->)|([a b'] & t1 & t2 & -> & Hr1 & Hr2)]%runs_bind.
  - destruct (Hm _ _ Hr) as [Hle _]. split; [lia|done].
  - rewrite total_app. destruct (Hm _ _ Hr1) as [Hle Hb]. specialize (Hb a b' eq_refl).
    destruct (Hf a b' _ _ Hr2) as [Hle' Hb']. split; [lia|]. intros a' b'' Ho. rewrite (Hb' a' b'' Ho). lia.
Qed.

(** What runs no command *)
Lemma counts_free {A B} n (m : prog trace_answer A) (f : A -> prog trace_answer (B * TraceBudget)) b :
  costs is_command 0 m -> (forall a tr, runs m tr (inr a) -> counts n (f a) b) -> counts n (bind m f) b.
Proof.
  intros Hm Hf tr out [(e & Hr & ->)|(a & t1 & t2 & -> & Hr1 & Hr2)]%runs_bind.
  - specialize (Hm _ _ Hr). split; [lia|done].
  - rewrite total_app. specialize (Hm _ _ Hr1). destruct (Hf _ _ Hr1 _ _ Hr2) as [Hle Hb]. split; [lia|].
    intros a' b' Ho. rewrite (Hb a' b' Ho). lia.
Qed.

Lemma counts_lift {A B} n (m : result A) (f : A -> prog trace_answer (B * TraceBudget)) b :
  (forall a, m = inr a -> counts n (f a) b) -> counts n (bind (lift m) f) b.
Proof. intros Hf. apply counts_free; [apply costs_lift|]. intros a tr [_ Ha]%runs_lift_ok. auto. Qed.

Lemma retaining_free {A} (m : prog ev_answer A) : costs is_command 0 (retaining m).
Proof.
  apply costs_none. apply (issues_embed TEv _ (fun _ => True)); [done|]. apply issues_any.
Qed.

Lemma now_utc_free : costs is_command 0 now_utc.
Proof. apply retaining_free. Qed.

Lemma remaining_free b : costs is_command 0 (trace_left b).
Proof.
  apply costs_last; [apply (costs_call (R:=trace_answer)); cbn; lia|]. intros now. cbv zeta.
  destruct (SFleb _ _); [apply costs_raise|apply costs_ret].
Qed.

(** A command is counted when it is run. *)
Lemma trace_read_counts arguments b logs : counts 1 (trace_read executable kubeconfig arguments b logs) b.
Proof.
  apply counts_free; [apply remaining_free|]. intros timeout _ _. destruct (MAX_COMMANDS <=? _); [apply counts_raise|].
  cbv zeta. intros tr out Hr.
  apply runs_bind in Hr as [(e & Hr1 & ->)|(raw & t1 & t2 & -> & Hr1 & Hr2)];
    apply (runs_call_out (R:=trace_answer) (TCommand _ _ _)) in Hr1 as (r & -> & _).
  - cbn. split; [lia|done].
  - rewrite total_app. cbn [total foldr is_command projT1].
    enough (counts 0 (let* _ := trace_left (one_command b) in
      if (if logs then MAX_LOG_BYTES else 262144) <? str_len raw then Raise (ValueError "trace response exceeds byte budget")
      else if (MAX_SOURCE_BYTES <? tb_source (with_bytes (one_command b) logs (str_len raw)))
              || (MAX_METADATA_BYTES <? tb_metadata (with_bytes (one_command b) logs (str_len raw)))
      then Raise (ValueError "aggregate trace bytes exceeded")
      else Ret (raw, with_bytes (one_command b) logs (str_len raw)))%prog (one_command b)) as Hc.
    { destruct (Hc _ _ Hr2) as [Hle Hb]. split; [lia|]. intros a b' Ho. rewrite (Hb a b' Ho). cbn [tb_commands one_command]. lia. }
    clear Hr2. apply counts_free; [apply remaining_free|]. intros _ _ _.
    destruct (_ <? str_len raw); [apply counts_raise|]. destruct (_ || _); [apply counts_raise|].
    intros tr out' [-> ->]%runs_ret_inv. cbn. split; [lia|]. intros ? ? [= <- <-]. cbn. lia.
Qed.

Lemma trace_get_counts arguments b : counts 1 (trace_get executable kubeconfig arguments b) b.
Proof.
  apply (counts_bind 1 0); [apply trace_read_counts|]. intros raw b'. apply counts_lift. intros o _. apply counts_ret.
Qed.

Lemma trace_pod_counts pod scope uid b : counts 3 (trace_pod executable kubeconfig pod scope uid b) b.
Proof.
  unfold trace_pod. apply counts_lift. intros [[i replica_uid] replica_name] _.
  apply (counts_bind 1 2); [apply trace_get_counts|]. intros replica b1. apply counts_lift. intros _ _.
  apply counts_free; [apply now_utc_free|]. intros started _ _.
  apply (counts_bind 1 1); [apply trace_read_counts|]. intros raw b2.
  apply (counts_bind 1 0); [apply trace_get_counts|]. intros after b3. apply counts_lift. intros again _.
  destruct (negb _); [apply counts_raise|]. apply counts_free; [apply now_utc_free|]. intros ended _ _.
  apply counts_lift. intros p _. apply counts_lift. intros l _. apply counts_ret.
Qed.

Lemma trace_pods_counts pods scope uid b :
  counts (3 * length pods) (trace_pods executable kubeconfig pods scope uid b) b.
Proof.
  revert b. induction pods as [|pod pods IH]; intros b; cbn [trace_pods length]; [apply counts_ret|].
  apply (counts_le (3 + (3 * length pods + 0))); [lia|].
  apply counts_bind; [apply trace_pod_counts|]. intros l b1. apply counts_bind; [apply IH|]. intros ls b2. apply counts_ret.
Qed.

Lemma trace_items_few j maximum l : trace_items j maximum = inr l -> len l <= maximum.
Proof.
  unfold trace_items. destruct j as [| | | | |l0|]; try done. destruct (_ <? _) eqn:Hl; [done|]. pybool.
  intros Hm%rmap_inr%Forall2_length. unfold len in *. lia.
Qed.

Lemma trace_service_counts scope b : counts 8 (trace_service executable kubeconfig scope b) b.
Proof.
  unfold trace_service. cbv zeta. apply (counts_bind 1 7); [apply trace_get_counts|]. intros d b1.
  apply counts_lift. intros m _. apply counts_lift. intros uid _.
  apply (counts_bind 1 6); [apply trace_get_counts|]. intros p b2. apply counts_lift. intros pods Hp%trace_items_few.
  eapply counts_le; [|apply trace_pods_counts]. unfold len in Hp. lia.
Qed.

Lemma trace_services_counts scopes b :
  counts (8 * length scopes) (trace_services executable kubeconfig scopes b) b.
Proof.
  revert b. induction scopes as [|scope scopes IH]; intros b; cbn [trace_services length]; [apply counts_ret|].
  apply (counts_le (8 + (8 * length scopes + 0))); [lia|].
  apply counts_bind; [apply trace_service_counts|]. intros l b1. apply counts_bind; [apply IH|]. intros ls b2. apply counts_ret.
Qed.
Lemma retain_spans_free b item l : costs is_command 0 (retain_spans b item l).
Proof.
  induction l as [|n l IH]; cbn [retain_spans]; [apply costs_ret|].
  apply costs_then; [apply remaining_free|]. intros _ _ _. apply costs_then; [apply retaining_free|]. intros e _ _.
  apply costs_then; [done|]. intros rest _ _. apply costs_ret.
Qed.

Lemma retain_logs_free b captures : costs is_command 0 (retain_logs b captures).
Proof.
  induction captures as [|l captures IH]; cbn [retain_logs]; [apply costs_ret|].
  apply costs_then; [apply remaining_free|]. intros _ _ _. apply costs_then; [apply retaining_free|]. intros e _ _.
  apply costs_then; [apply retain_spans_free|]. intros found _ _. apply costs_then; [done|]. intros [items rest] _ _.
  apply costs_ret.
Qed.

(** What follows the reads of a collection *)
Lemma finish_collection_free scopes captures b : costs is_command 0 (finish_collection scopes captures b).
Proof.
  apply costs_then; [apply costs_lift|]. intros g _ _. apply costs_then; [apply retain_logs_free|].
  intros [items found] _ _. apply costs_then; [apply remaining_free|]. intros _ _ _. cbv zeta.
  destruct (TraceCollection_valid _); [apply costs_ret|apply costs_raise].
Qed.

Lemma finish_collection_ok scopes captures b tr c :
  runs (finish_collection scopes captures b) tr (inr c) ->
  exists g items found t1 t2, tr = t1 ++ t2 /\ summarize_graph (graph_spans captures) = inr g /\
    runs (retain_logs b captures) t1 (inr (items, found)) /\ c = collection_of scopes captures items found g b.
Proof.
  intros Hr. unfold finish_collection in Hr.
  apply runs_bind_ok in Hr as (g & t1 & t2 & -> & Hg & Hr). apply runs_lift_ok in Hg as [-> Hg].
  apply runs_bind_ok in Hr as ([items found] & t3 & t4 & -> & Hl & Hr).
  apply runs_bind_ok in Hr as (left_over & t5 & t6 & -> & _ & Hr). cbv zeta in Hr.
  destruct (TraceCollection_valid _); [|by apply runs_raise_ok in Hr]. apply runs_ret_ok in Hr as [-> <-].
  exists g, items, found, t3, (t5 ++ []). by split_and!.
Qed.

(** What a collection does: nothing, or its reads, and what follows them if they succeed *)
Lemma trace_collect_runs scopes tr out :
  runs (trace_collect executable kubeconfig scopes) tr out ->
  (issued tr = 0%nat /\ exists e, out = inl e) \/
  len scopes <= 5 /\ exists b0 t0 t1 t2, tr = t0 ++ t1 ++ t2 /\ issued t0 = 0%nat /\ tb_commands b0 = 0 /\
    ((exists e, runs (trace_services executable kubeconfig scopes b0) t1 (inl e) /\ t2 = [] /\ out = inl e) \/
     (exists captures b, runs (trace_services executable kubeconfig scopes b0) t1 (inr (captures, b)) /\
        runs (finish_collection scopes captures b) t2 out)).
Proof.
  intros Hr. unfold trace_collect in Hr. destruct scopes as [|first scopes'] eqn:Hs.
  { apply runs_raise_inv in Hr as [-> ->]. left. split; [done|by eexists]. }
  rewrite <-Hs in *. clear Hs scopes'.
  destruct (_ || _) eqn:Hfew in Hr; [apply runs_raise_inv in Hr as [-> ->]; left; split; [done|by eexists]|].
  destruct (negb _) in Hr; [apply runs_raise_inv in Hr as [-> ->]; left; split; [done|by eexists]|].
  apply runs_bind in Hr as [(e & Hr & ->)|(now & t1 & t2 & -> & Hn & Hr)].
  { left. pose proof (now_utc_free _ _ Hr). split; [lia|by eexists]. }
  pose proof (now_utc_free _ _ Hn) as Hn0. destruct (now <? _) in Hr.
  { apply runs_raise_inv in Hr as [-> ->]. left. rewrite app_nil_r. split; [lia|by eexists]. }
  apply runs_bind in Hr as [(e & Hr & ->)|(clock & t3 & t4 & -> & Hc & Hr)];
    [apply (runs_call_out (R:=trace_answer) TClock) in Hr as (r & -> & _)|
     apply (runs_call_out (R:=trace_answer) TClock) in Hc as (r & -> & _)].
  { left. rewrite total_app. cbn. split; [lia|by eexists]. }
  right. pybool. split; [lia|]. cbv zeta in Hr.
  match type of Hr with runs (bind (trace_services _ _ _ ?b) _) _ _ => set (b0 := b) in Hr end.
  assert (Hz : issued (t1 ++ [existT TClock r]) = 0%nat) by (rewrite total_app; cbn; lia).
  apply runs_bind in Hr as [(e & Hr & ->)|([captures b] & t5 & t6 & -> & Hsv & Hr)].
  - exists b0, (t1 ++ [existT TClock r]), t4, []. split_and!;
      [by rewrite app_nil_r, <-app_assoc|done| |left; by exists e]. reflexivity.
  - exists b0, (t1 ++ [existT TClock r]), t5, t6. split_and!;
      [by rewrite <-app_assoc|done| |right; by exists captures, b]. reflexivity.
Qed.

(** C40: A collection of traces runs at most eight commands for each of its at most five
    services, whatever is answered; when it succeeds, the commands it reports are those it ran,
    and those it reserved are eight for each service. *)
Theorem commands_reserved scopes tr out :
  runs (trace_collect executable kubeconfig scopes) tr out ->
  (issued tr <= 8 * length scopes)%nat /\ (issued tr <= 40)%nat /\
  forall c, out = inr c -> commands_used c = Z.of_nat (issued tr) /\ reserved_commands c = 8 * len scopes.
Proof.
  intros [[Hz [e ->]]|(Hfew & b0 & t0 & t1 & t2 & -> & Hz & Hb & Hr)]%trace_collect_runs.
  { split_and!; [lia|lia|done]. }
  rewrite !total_app, Hz. unfold len in Hfew.
  destruct Hr as [(e & Hr & -> & ->)|(captures & b & Hr & Hf)].
  - destruct (trace_services_counts _ _ _ _ Hr) as [Hle _]. cbn. split_and!; [lia|lia|done].
  - destruct (trace_services_counts _ _ _ _ Hr) as [Hle Hc]. pose proof (finish_collection_free _ _ _ _ _ Hf) as Hfree.
    split_and!; [lia|lia|]. intros c ->.
    apply finish_collection_ok in Hf as (g & items & found & _ & _ & _ & _ & _ & ->). cbn.
    rewrite (Hc captures b eq_refl), Hb. unfold MAX_COMMANDS_PER_SERVICE. split; lia.
Qed.
(** ** The container a log comes from *)

Abbreviation trace := (list (obs trace_answer)) (only parsing).

(** A command of these arguments was run, and its output was [raw]. *)
Definition answered (tr : trace) (arguments : list string) (raw : string) : Prop :=
  exists maximum timeout,
    (existT (TCommand (kube_prefix executable kubeconfig ++ arguments) maximum timeout) (inr raw) : obs trace_answer) ∈ tr.
Definition got (tr : trace) (arguments : list string) (o : kobject) : Prop :=
  exists raw, answered tr (get_command arguments) raw /\ decoded_object raw = inr o.

(** A resource of the service, in the sandbox, with this metadata *)
Definition resource_of (service : string) (raw metadata : kobject) : Prop :=
  dget raw "metadata" = JObj metadata /\ dget metadata "namespace" = JStr "payops-sandbox" /\
  exists labels, dget metadata "labels" = JObj labels /\ dget labels "app.kubernetes.io/name" = JStr service.

(** The values are objects, and [o] is the only one with the property. *)
Definition unique_among (P : kobject -> Prop) (values : list json) (o : kobject) : Prop :=
  exists objects n, values = map JObj objects /\ objects !! n = Some o /\ P o /\
    forall n' o', objects !! n' = Some o' -> P o' -> n' = n.

(** Its one controller, of this kind *)
Definition controlled_by (metadata : kobject) (kind : string) (owner : kobject) : Prop :=
  exists references, dget metadata "ownerReferences" = JList references /\ (length references <= 8)%nat /\
    unique_among (fun o => dget o "controller" = JBool true) references owner /\
    dget owner "kind" = JStr kind /\ dget owner "apiVersion" = JStr "apps/v1".

(** The object is a pod of the service, with this controller and this identity: its name and
    uid, its controller's uid, and the id and restarts of its one sandbox container. *)
Definition pod_is (service : string) (raw owner : kobject) (i : PodIdentity) : Prop :=
  exists metadata status statuses entry,
    resource_of service raw metadata /\
    dget metadata "name" = JStr (pod_name i) /\ dget metadata "uid" = JStr (ident_pod_uid i) /\
    controlled_by metadata "ReplicaSet" owner /\ dget owner "uid" = JStr (replica_set_uid i) /\
    dget raw "status" = JObj status /\ dget status "containerStatuses" = JList statuses /\
    unique_among (fun o => dget o "name" = JStr "sandbox") statuses entry /\
    dget entry "containerID" = JStr (container_id i) /\ dget entry "restartCount" = JInt (restart_count i).

(** The object is the ReplicaSet of this name and uid, controlled by the deployment of the
    service, whose uid is this one. *)
Definition replica_is (service : string) (raw : kobject) (name uid deployment : string) : Prop :=
  exists metadata owner,
    resource_of service raw metadata /\ dget metadata "name" = JStr name /\ dget metadata "uid" = JStr uid /\
    controlled_by metadata "Deployment" owner /\
    dget owner "uid" = JStr deployment /\ dget owner "name" = JStr service.

(** The deployment of the scope was read, and has this uid. *)
Definition deployment_read (tr : trace) (scope : TraceScope) (uid : string) : Prop :=
  exists deployment metadata, got tr ["deployment"; ts_service scope] deployment /\
    resource_of (ts_service scope) deployment metadata /\
    dget metadata "name" = JStr (ts_service scope) /\ dget metadata "uid" = JStr uid.

(** The pod is one of those listed for the service, which are at most two. *)
Definition pod_listed (tr : trace) (scope : TraceScope) (pod : kobject) : Prop :=
  exists listing pods, got tr ["pods"; "-l"; "app.kubernetes.io/name=" +:+ ts_service scope] listing /\
    dget listing "items" = JList (map JObj pods) /\ (length pods <= 2)%nat /\ pod ∈ pods.

(** The pod has the identity of the log, and its ReplicaSet is one of the deployment; then the
    log of that pod was read; then the pod, read again, had the same identity and controller. *)
Definition pinned_pod (tr : trace) (scope : TraceScope) (uid : string) (pod : kobject) (l : TraceLog) : Prop :=
  exists before middle after owner replica_name replica again again_owner raw,
    tr = before ++ middle ++ after /\
    pod_is (ts_service scope) pod owner (identity l) /\ deployment_uid (identity l) = uid /\
    dget owner "name" = JStr replica_name /\ starts_with (ts_service scope +:+ "-") replica_name = true /\
    got before ["replicaset"; replica_name] replica /\
    replica_is (ts_service scope) replica replica_name (replica_set_uid (identity l)) uid /\
    answered middle (logs_command (pod_name (identity l)) scope) raw /\
    got after ["pod"; pod_name (identity l)] again /\
    pod_is (ts_service scope) again again_owner (identity l) /\
    log_scope l = scope /\ parse_console_log raw scope = inr (parsed l) /\ TraceLog_valid l = true.

Definition pinned (tr : trace) (scope : TraceScope) (l : TraceLog) : Prop :=
  exists uid pod t1 t2, tr = t1 ++ t2 /\ deployment_read t1 scope uid /\ pod_listed t1 scope pod /\
    pinned_pod t2 scope uid pod l.

Lemma answered_weaken tr tr' arguments raw : tr ⊆ tr' -> answered tr arguments raw -> answered tr' arguments raw.
Proof. intros Hs (m & t & Hin). exists m, t. by apply Hs. Qed.

Lemma got_weaken tr tr' arguments o : tr ⊆ tr' -> got tr arguments o -> got tr' arguments o.
Proof. intros Hs (raw & Ha & Hd). exists raw. split; [by eapply answered_weaken|done]. Qed.

(** What the checks of the objects establish *)
Lemma trace_items_ok j maximum objects :
  trace_items j maximum = inr objects -> j = JList (map JObj objects) /\ len objects <= maximum.
Proof.
  intros Hi. pose proof (trace_items_few _ _ _ Hi) as Hl. split; [|done].
  unfold trace_items in Hi. destruct j as [| | | | |l|]; try done. destruct (_ <? _); [done|].
  apply rmap_inr in Hi. f_equal. clear Hl. induction Hi as [|x o l objects Hx _ IH]; [done|]. cbn. f_equal; [|done].
  destruct x; try done. cbn in Hx. congruence.
Qed.

Lemma filter_unique (p : kobject -> bool) (P : kobject -> Prop) objects o :
  (forall x, p x = true <-> P x) -> List.filter p objects = [o] -> unique_among P (map JObj objects) o.
Proof.
  intros Hp Hf. enough (exists n, objects !! n = Some o /\ P o /\
    forall n' o', objects !! n' = Some o' -> P o' -> n' = n) as (n & Hn) by (by exists objects, n).
  induction objects as [|x objects IH]; cbn in Hf; [done|]. destruct (p x) eqn:Hx.
  - injection Hf as -> Hnil. exists 0%nat. split_and!; [done|by apply Hp|].
    intros [|n'] o' Ho' HP; [done|]. cbn in Ho'. exfalso. apply Hp in HP. apply list_elem_of_lookup_2, list_elem_of_In in Ho'.
    pose proof (proj2 (List.filter_In p o' objects) (conj Ho' HP)) as Hin. by rewrite Hnil in Hin.
  - destruct (IH Hf) as (n & Hn & HP & Huniq). exists (S n). split_and!; [done..|].
    intros [|n'] o' Ho' HP'; cbn in Ho'; [|by f_equal; eapply Huniq].
    injection Ho' as ->. apply Hp in HP'. congruence.
Qed.

Lemma trace_object_ok j o : trace_object j = inr o -> j = JObj o.
Proof. destruct j; cbn; congruence. Qed.

Lemma trace_text_ok j s : trace_text j = inr s -> j = JStr s.
Proof. destruct j; try done. cbn. destruct (between _ _ _); congruence. Qed.

Lemma trace_metadata_ok raw scope name metadata :
  trace_metadata raw scope name = inr metadata ->
  resource_of (ts_service scope) raw metadata /\ forall n, name = Some n -> dget metadata "name" = JStr n.
Proof.
  unfold trace_metadata. intros (m & Hm%trace_object_ok & (labels & Hl%trace_object_ok & Hr)%rbind_inr)%rbind_inr.
  destruct (_ || _) eqn:Hc in Hr; [done|]. injection Hr as ->.
  apply Bool.orb_false_iff in Hc as [[Hn Hs]%Bool.orb_false_iff Hname]. rewrite Bool.negb_false_iff in Hn, Hs, Hname.
  apply is_str_true in Hn, Hs. split; [split_and!; [done..|by exists labels]|].
  intros n ->. by apply is_str_true in Hname.
Qed.

Lemma trace_owner_ok metadata kind owner : trace_owner metadata kind = inr owner -> controlled_by metadata kind owner.
Proof.
  unfold trace_owner. intros (objects & [Hrefs Hfew]%trace_items_ok & Hr)%rbind_inr.
  destruct (List.filter _ _) as [|o []] eqn:Hf in Hr; [done| |done].
  destruct (_ && _) eqn:Hk in Hr; [|done]. injection Hr as ->.
  apply andb_prop in Hk as [Hk%is_str_true Hv%is_str_true].
  exists (map JObj objects). split_and!; [done|rewrite length_map; apply Nat2Z.inj_le, Hfew| |done..].
  revert Hf. apply filter_unique. intros x. destruct (dget x "controller") as [|[]| | | | |]; cbn; split; congruence.
Qed.

Lemma parse_identity_ok name uid d r container restarts i :
  parse_identity (JObj [("pod_name", name); ("pod_uid", uid); ("deployment_uid", JStr d);
    ("replica_set_uid", JStr r); ("container_id", container); ("restart_count", restarts)]) = Some i ->
  name = JStr (pod_name i) /\ uid = JStr (ident_pod_uid i) /\ deployment_uid i = d /\ replica_set_uid i = r /\
  container = JStr (container_id i) /\ restarts = JInt (restart_count i).
Proof.
  unfold parse_identity, field_str. set (o := [("pod_name", name); _; _; _; _; _]). cbn [as_object mbind option_bind].
  change (dict_find o "pod_name") with (Some name). change (dict_find o "pod_uid") with (Some uid).
  change (dict_find o "deployment_uid") with (Some (JStr d)). change (dict_find o "replica_set_uid") with (Some (JStr r)).
  change (dict_find o "container_id") with (Some container). change (dict_find o "restart_count") with (Some restarts).
  destruct name; try done. destruct uid; try done. destruct container; try done. destruct restarts; try done.
  cbn [as_str as_int mbind option_bind]. cbv zeta. destruct (_ && _); [|done]. intros [= <-]. done.
Qed.

Lemma trace_identity_ok raw scope deployment_uid0 replica_uid i :
  trace_identity raw scope deployment_uid0 replica_uid = inr i ->
  deployment_uid i = deployment_uid0 /\ replica_set_uid i = replica_uid /\
  exists metadata owner, trace_metadata raw scope None = inr metadata /\
    trace_owner metadata "ReplicaSet" = inr owner /\ pod_is (ts_service scope) raw owner i.
Proof.
  unfold trace_identity. intros (m & Hm & (o & Ho & Hr)%rbind_inr)%rbind_inr.
  destruct (negb (is_str _ _)) eqn:Hu in Hr; [done|]. rewrite Bool.negb_false_iff in Hu. apply is_str_true in Hu.
  apply rbind_inr in Hr as (st & Hst%trace_object_ok & (objects & [Hss _]%trace_items_ok & Hr)%rbind_inr).
  destruct (List.filter _ _) as [|entry []] eqn:Hf in Hr; [done| |done].
  destruct (parse_identity _) as [i'|] eqn:Hi in Hr; [|done]. injection Hr as ->.
  apply parse_identity_ok in Hi as (Hn & Hp & Hd & Hrs & Hc & Hrc). split_and!; [done..|].
  exists m, o. split_and!; [done..|]. exists m, st, (map JObj objects), entry.
  split_and!; [by apply trace_metadata_ok in Hm as [Hm _]|done|done|by apply trace_owner_ok|congruence|done..| |done|done].
  revert Hf. apply filter_unique. intros x. apply is_str_true.
Qed.

Lemma pod_controller_ok pod scope uid i replica_uid replica_name :
  pod_controller pod scope uid = inr (i, replica_uid, replica_name) ->
  deployment_uid i = uid /\ replica_set_uid i = replica_uid /\
  starts_with (ts_service scope +:+ "-") replica_name = true /\
  exists owner, pod_is (ts_service scope) pod owner i /\ dget owner "name" = JStr replica_name.
Proof.
  unfold pod_controller. intros (m & Hm & (o & Ho & (u & Hu & (j & Hj & (n & Hn & Hr)%rbind_inr)%rbind_inr)%rbind_inr)%rbind_inr)%rbind_inr.
  destruct (_ || _) eqn:Hc in Hr; [done|]. apply Bool.orb_false_iff in Hc as [Hc _]. rewrite Bool.negb_false_iff in Hc.
  injection Hr as -> -> ->. apply trace_identity_ok in Hj as (Hd & Hrs & m' & o' & Hm' & Ho' & Hp).
  rewrite Hm in Hm'. injection Hm' as <-. rewrite Ho in Ho'. injection Ho' as <-.
  split_and!; [done..|]. exists o. split; [done|]. by apply trace_text_ok.
Qed.

Lemma replica_owned_ok replica scope uid replica_uid replica_name u :
  replica_owned replica scope uid replica_uid replica_name = inr u ->
  replica_is (ts_service scope) replica replica_name replica_uid uid.
Proof.
  unfold replica_owned. intros (m & [Hm Hname]%trace_metadata_ok & (o & Ho%trace_owner_ok & Hr)%rbind_inr)%rbind_inr.
  destruct (_ || _) eqn:Hc in Hr; [done|].
  apply Bool.orb_false_iff in Hc as [[Hn Hs]%Bool.orb_false_iff Hd]. rewrite Bool.negb_false_iff in Hn, Hs, Hd.
  apply is_str_true in Hn, Hs, Hd. exists m, o. split_and!; [done|by apply Hname|done..].
Qed.

Lemma pinned_pod_around t1 tr t2 scope uid pod l :
  pinned_pod tr scope uid pod l -> pinned_pod (t1 ++ tr ++ t2) scope uid pod l.
Proof.
  intros (b & m & a & o & rn & r & ag & ago & raw & -> & Hpod & Hd & Hn & Hst & Hr & Ho & Hl & Ha & Hrest).
  exists (t1 ++ b), m, (a ++ t2), o, rn, r, ag, ago, raw. split_and!; try done; try apply Hrest.
  - by rewrite <-!app_assoc.
  - eapply got_weaken; [|exact Hr]. within_app.
  - eapply got_weaken; [|exact Ha]. within_app.
Qed.

Lemma pinned_around t1 tr t2 scope l : pinned tr scope l -> pinned (t1 ++ tr ++ t2) scope l.
Proof.
  intros (uid & pod & t3 & t4 & -> & (d & m & Hd & Hm) & (li & ps & Hp & Hps) & Hl).
  exists uid, pod, (t1 ++ t3), (t4 ++ t2). split_and!.
  - by rewrite <-!app_assoc.
  - exists d, m. split; [|done]. eapply got_weaken; [|exact Hd]. within_app.
  - exists li, ps. split; [|done]. eapply got_weaken; [|exact Hp]. within_app.
  - apply (pinned_pod_around [] t4 t2), Hl.
Qed.

(** A command that succeeded *)
Lemma trace_read_ok arguments b logs tr raw b' :
  runs (trace_read executable kubeconfig arguments b logs) tr (inr (raw, b')) -> answered tr arguments raw.
Proof.
  intros Hr. unfold trace_read in Hr. apply runs_bind_ok in Hr as (timeout & t1 & t2 & -> & _ & Hr).
  destruct (MAX_COMMANDS <=? _); [by apply runs_raise_ok in Hr|]. cbv zeta in Hr.
  apply runs_bind_ok in Hr as (raw' & t3 & t4 & -> & Hc & Hr).
  apply (runs_call_ok (R:=trace_answer) (TCommand _ _ _)) in Hc as ->.
  apply runs_bind_ok in Hr as (left_over & t5 & t6 & -> & _ & Hr).
  destruct (_ <? str_len raw'); [by apply runs_raise_ok in Hr|].
  destruct (_ || _); [by apply runs_raise_ok in Hr|]. apply runs_ret_ok in Hr as [-> [= -> _]].
  eexists _, timeout. rewrite !elem_of_app, !elem_of_cons. right. left. by left.
Qed.

Lemma trace_get_ok arguments b tr o b' :
  runs (trace_get executable kubeconfig arguments b) tr (inr (o, b')) -> got tr arguments o.
Proof.
  intros Hr. unfold trace_get in Hr. apply runs_bind_ok in Hr as ([raw b1] & t1 & t2 & -> & Hc & Hr).
  apply trace_read_ok in Hc. apply runs_bind_ok in Hr as (o' & t3 & t4 & -> & Ho & Hr).
  apply runs_lift_ok in Ho as [-> Ho]. apply runs_ret_ok in Hr as [-> [= -> _]].
  exists raw. split; [|done]. eapply answered_weaken; [|exact Hc]. within_app.
Qed.

Lemma trace_pod_ok pod scope uid b tr l b' :
  runs (trace_pod executable kubeconfig pod scope uid b) tr (inr (l, b')) -> pinned_pod tr scope uid pod l.
Proof.
  intros Hr. unfold trace_pod in Hr. apply runs_bind_ok in Hr as ([[i ru] rn] & t1 & t2 & -> & Hc & Hr).
  apply runs_lift_ok in Hc as [-> Hc]. apply runs_bind_ok in Hr as ([r b1] & t3 & t4 & -> & Hrep & Hr).
  apply trace_get_ok in Hrep. apply runs_bind_ok in Hr as ([] & t5 & t6 & -> & Ho & Hr).
  apply runs_lift_ok in Ho as [-> Ho]. apply runs_bind_ok in Hr as (started & t7 & t8 & -> & _ & Hr).
  apply runs_bind_ok in Hr as ([raw b2] & t9 & t10 & -> & Hl & Hr). apply trace_read_ok in Hl.
  apply runs_bind_ok in Hr as ([ag b3] & t11 & t12 & -> & Ha & Hr). apply trace_get_ok in Ha.
  apply runs_bind_ok in Hr as (i' & t13 & t14 & -> & Hi & Hr). apply runs_lift_ok in Hi as [-> Hi].
  destruct (negb (eqb_of i' i)) eqn:He; [by apply runs_raise_ok in Hr|]. pybool. subst i'.
  apply runs_bind_ok in Hr as (ended & t15 & t16 & -> & _ & Hr).
  apply runs_bind_ok in Hr as (p & t17 & t18 & -> & Hp & Hr). apply runs_lift_ok in Hp as [-> Hp].
  apply runs_bind_ok in Hr as (l' & t19 & t20 & -> & Hm & Hr). apply runs_lift_ok in Hm as [-> Hm].
  apply runs_ret_ok in Hr as [-> [= -> _]].
  unfold TraceLog_make in Hm. destruct (TraceLog_valid _) eqn:Hv; [|done]. injection Hm as <-.
  apply pod_controller_ok in Hc as (Hd & <- & Hst & owner & Hpod & Hn). apply replica_owned_ok in Ho.
  apply trace_identity_ok in Hi as (_ & _ & _ & again_owner & _ & _ & Hag).
  exists (t3 ++ t7), t9, (t11 ++ t15), owner, rn, r, ag, again_owner, raw.
  cbn [identity log_scope parsed]. split_and!; try done.
  - by rewrite !app_nil_r, <-!app_assoc.
  - eapply got_weaken; [|exact Hrep]. within_app.
  - eapply got_weaken; [|exact Ha]. within_app.
Qed.

Lemma trace_pods_ok pods scope uid b tr ls b' :
  runs (trace_pods executable kubeconfig pods scope uid b) tr (inr (ls, b')) ->
  Forall (fun l => exists pod, pod ∈ pods /\ pinned_pod tr scope uid pod l) ls.
Proof.
  revert b tr ls b'. induction pods as [|pod pods IH]; cbn [trace_pods]; intros b tr ls b' Hr.
  { apply runs_ret_ok in Hr as [_ [= <- _]]. constructor. }
  apply runs_bind_ok in Hr as ([l b1] & t1 & t2 & -> & Hl & Hr). apply trace_pod_ok in Hl.
  apply runs_bind_ok in Hr as ([ls' b2] & t3 & t4 & -> & Hls & Hr). apply runs_ret_ok in Hr as [-> [= <- _]].
  apply IH in Hls. constructor.
  - exists pod. split; [apply list_elem_of_here|]. apply (pinned_pod_around [] t1), Hl.
  - eapply Forall_impl; [exact Hls|]. cbn. intros x (p & Hp & Hx). exists p.
    split; [by apply list_elem_of_further|]. by apply pinned_pod_around.
Qed.

Lemma trace_service_ok scope b tr ls b' :
  runs (trace_service executable kubeconfig scope b) tr (inr (ls, b')) -> Forall (pinned tr scope) ls.
Proof.
  intros Hr. unfold trace_service in Hr. cbv zeta in Hr.
  apply runs_bind_ok in Hr as ([d b1] & t1 & t2 & -> & Hd & Hr). apply trace_get_ok in Hd.
  apply runs_bind_ok in Hr as (m & t3 & t4 & -> & Hm & Hr). apply runs_lift_ok in Hm as [-> Hm].
  apply runs_bind_ok in Hr as (uid & t5 & t6 & -> & Hu & Hr). apply runs_lift_ok in Hu as [-> Hu].
  apply runs_bind_ok in Hr as ([li b2] & t7 & t8 & -> & Hli & Hr). apply trace_get_ok in Hli.
  apply runs_bind_ok in Hr as (ps & t9 & t10 & -> & Hps & Hr). apply runs_lift_ok in Hps as [-> Hps].
  apply trace_pods_ok in Hr. eapply Forall_impl; [exact Hr|]. cbn. intros l (pod & Hpod & Hl).
  exists uid, pod, (t1 ++ t7), t10. split_and!; [by rewrite <-app_assoc| | |done].
  - apply trace_metadata_ok in Hm as [Hm Hname]. apply trace_text_ok in Hu.
    exists d, m. split_and!; [|apply Hm..|by apply Hname|done]. eapply got_weaken; [|exact Hd]. within_app.
  - apply trace_items_ok in Hps as [Hps Hfew].
    exists li, ps. split_and!; [|done|apply Nat2Z.inj_le, Hfew|done]. eapply got_weaken; [|exact Hli]. within_app.
Qed.

Lemma trace_services_ok scopes b tr ls b' :
  runs (trace_services executable kubeconfig scopes b) tr (inr (ls, b')) ->
  Forall (fun l => exists scope, scope ∈ scopes /\ pinned tr scope l) ls.
Proof.
  revert b tr ls b'. induction scopes as [|scope scopes IH]; cbn [trace_services]; intros b tr ls b' Hr.
  { apply runs_ret_ok in Hr as [_ [= <- _]]. constructor. }
  apply runs_bind_ok in Hr as ([l b1] & t1 & t2 & -> & Hl & Hr). apply trace_service_ok in Hl.
  apply runs_bind_ok in Hr as ([ls' b2] & t3 & t4 & -> & Hls & Hr). apply runs_ret_ok in Hr as [-> [= <- _]].
  apply IH in Hls. apply Forall_app. split.
  - eapply Forall_impl; [exact Hl|]. cbn. intros x Hx. exists scope. split; [apply list_elem_of_here|].
    by apply (pinned_around [] t1).
  - eapply Forall_impl; [exact Hls|]. cbn. intros x (s & Hs & Hx). exists s.
    split; [by apply list_elem_of_further|]. by apply pinned_around.
Qed.
(** What is retained of a log and of a span *)
Definition retained_as (l : TraceLog) (e : EvidenceItem) : Prop :=
  source e = LOG /\ ev_incident_id e = ts_incident_id (log_scope l) /\ resource e = ts_service (log_scope l) /\
  observed_at e = captured_end l /\ captured_start l <= observed_at e.

Lemma publish_fields l tr e : runs (publish_trace_log l) tr (inr e) -> retained_as l e.
Proof.
  unfold publish_trace_log. intros Hr. apply runs_bind_ok in Hr as (o & t1 & t2 & -> & Ho & Hr).
  apply runs_lift_ok in Ho as [-> (Hs & Hres & Hat & _ & _)%Observation_make_ok].
  apply normalize_fields in Hr as (Hi & Hsrc & Hrs & Hobs & Hw). cbn in *.
  unfold retained_as. rewrite Hsrc, Hi, Hrs, Hobs, Hs, Hres, Hat. rewrite Hobs, Hat in Hw. split_and!; [done..|lia].
Qed.

Lemma retain_spans_ok b item l tr found :
  runs (retain_spans b item l) tr (inr found) -> length found = length l /\ Forall (fun e => source e = TRACE) found.
Proof.
  revert tr found. induction l as [|n l IH]; cbn [retain_spans]; intros tr found Hr.
  { by apply runs_ret_ok in Hr as [_ <-]. }
  apply runs_bind_ok in Hr as (left_over & t1 & t2 & -> & _ & Hr).
  apply runs_bind_ok in Hr as (e & t3 & t4 & -> & He & Hr).
  apply runs_bind_ok in Hr as (rest & t5 & t6 & -> & [Hlen Hrest]%IH & Hr). apply runs_ret_ok in Hr as [-> <-].
  split; [cbn; lia|]. constructor; [|done]. apply runs_embed in He as (tr0 & He & _).
  unfold derive_trace_span in He. apply runs_bind_ok in He as (ts & t7 & t8 & -> & _ & He).
  apply runs_bind_ok in He as (o & t9 & t10 & -> & Ho & He).
  apply runs_lift_ok in Ho as [-> (Hs & _)%Observation_make_ok].
  apply normalize_fields in He as (_ & -> & _). by rewrite Hs.
Qed.

Lemma retain_logs_ok b captures tr items found :
  runs (retain_logs b captures) tr (inr (items, found)) ->
  Forall2 retained_as captures items /\ length found = length (graph_spans captures) /\
  Forall (fun e => source e = TRACE) found.
Proof.
  revert tr items found. induction captures as [|l captures IH]; cbn [retain_logs]; intros tr items found Hr.
  { apply runs_ret_ok in Hr as [_ [= <- <-]]. by split_and!. }
  apply runs_bind_ok in Hr as (left_over & t1 & t2 & -> & _ & Hr).
  apply runs_bind_ok in Hr as (e & t3 & t4 & -> & He & Hr). apply runs_embed in He as (tr0 & He & _).
  apply runs_bind_ok in Hr as (some & t5 & t6 & -> & [Hlen Hsome]%retain_spans_ok & Hr).
  apply runs_bind_ok in Hr as ([items' found'] & t7 & t8 & -> & (Hi & Hf & Hall)%IH & Hr).
  apply runs_ret_ok in Hr as [_ [= <- <-]]. split_and!.
  - constructor; [by eapply publish_fields|done].
  - unfold graph_spans in *. cbn. rewrite !length_app, Hlen, Hf, length_map.
    unfold ordinals, len. rewrite length_seqZ. lia.
  - by apply Forall_app.
Qed.

(** C39: Every log a collection keeps was read from a container whose pod was listed for the
    service of its scope.  That pod is in the sandbox and labelled with the service, its one
    controller is a ReplicaSet, which was read: it has the uid and the name the pod gives, and
    its one controller is the deployment named as the service, of the uid read before.  After the
    log, the pod was read again, and still had the name, uid, controller uid, container and
    restart count of the log.  One item is retained for each log, of its incident, service and
    end, and one for each of its spans, whose graph is the one reported. *)
Theorem collection_pinned scopes tr c :
  runs (trace_collect executable kubeconfig scopes) tr (inr c) ->
  exists captures,
    Forall (fun l => exists scope, scope ∈ scopes /\ pinned tr scope l) captures /\
    Forall2 retained_as captures (tc_sources c) /\
    Forall (fun e => source e = TRACE) (tc_spans c) /\ length (tc_spans c) = length (graph_spans captures) /\
    summarize_graph (graph_spans captures) = inr (graph c).
Proof.
  intros [[_ [e He]]|(_ & b0 & t0 & t1 & t2 & -> & _ & _ & Hr)]%trace_collect_runs; [done|].
  destruct Hr as [(e & _ & _ & He)|(captures & b & Hr & Hf)]; [done|].
  apply finish_collection_ok in Hf as (g & items & found & t3 & t4 & -> & Hg & Hl & ->).
  apply retain_logs_ok in Hl as (Hi & Hlen & Hall). apply trace_services_ok in Hr.
  exists captures. split_and!; [|done..]. eapply Forall_impl; [exact Hr|]. cbn.
  intros l (scope & Hin & Hl). exists scope. split; [done|]. by apply pinned_around.
Qed.
End commands.

(** ** A concrete collection *)

Definition span_object : json :=
  JObj [("name", JStr "sandbox.payments"); ("parent_id", JNull); ("kind", JStr "SpanKind.SERVER");
        ("start_time", JStr "1767225590000000"); ("end_time", JStr "1767225591000000");
        ("context", JObj [("trace_id", JStr "0x0123456789abcdef0123456789abcdef"); ("span_id", JStr "0x0123456789abcdef")]);
        ("status", JObj [("status_code", JStr "OK")]);
        ("resource", JObj [("attributes", JObj [("service.name", JStr "payops-sandbox-payments")])])].
#[local] Instance one_span : WireText :=
  {| wire_loads _ _ _ _ := Ok span_object; float_of_text _ := float_zero; dumps _ := show |}.

Definition owned_by_name (kind name uid : string) : json :=
  JObj [("controller", JBool true); ("kind", JStr kind); ("apiVersion", JStr "apps/v1"); ("name", JStr name); ("uid", JStr uid)].
Definition resource_metadata (name uid : string) (owners : list json) : json :=
  JObj [("namespace", JStr "payops-sandbox"); ("name", JStr name); ("uid", JStr uid);
        ("labels", JObj [("app.kubernetes.io/name", JStr "payments-api")]); ("ownerReferences", JList owners)].
Definition the_pod : json :=
  JObj [("metadata", resource_metadata "payments-api-1-a" "pod-uid" [owned_by_name "ReplicaSet" "payments-api-1" "replica-uid"]);
        ("status", JObj [("containerStatuses",
           JList [JObj [("name", JStr "sandbox"); ("containerID", JStr "containerd-1"); ("restartCount", JInt 0)]])])].
#[local] Instance cluster_texts : ModelText := fun text =>
  snd <$> List.find (fun kv => eqb_of kv.1 text)
    [("deployment", JObj [("metadata", resource_metadata "payments-api" "deployment-uid" [])]);
     ("pods", JObj [("items", JList [the_pod])]);
     ("replicaset", JObj [("metadata", resource_metadata "payments-api-1" "replica-uid"
        [owned_by_name "Deployment" "payments-api" "deployment-uid"])]);
     ("pod", the_pod)].
#[local] Instance stamps : StampText := fun _ => "2026-01-01T00:00:00+00:00".

Definition stamp : string := "2026-01-01T00:00:00Z ".
Definition log_text : string :=
  stamp +:+ "{" +:+ String lf (stamp +:+ "fields" +:+ String lf (stamp +:+ "}")).

Definition trace_world (c : trace_call) (f : files) : result (trace_answer c) * files :=
  match c return result (trace_answer c) * files with
  | TCommand arguments _ _ =>
      (Ok (match drop 8 arguments with "get" :: kind :: _ => kind | _ => log_text end), f)
  | TClock => (Ok (float_of_Z 5), f)
  | TEv c => ev_world "item" (NOON + seconds 20) c f
  end.

Definition trace_scope : TraceScope :=
  {| ts_incident_id := "incident-1"; ts_service := "payments-api"; ts_start := NOON - seconds 60; ts_end := NOON + seconds 10 |}.
Abbreviation trace_run := (play trace_world (trace_collect "kubectl" "config" [trace_scope]) ∅ []).
Definition trace_result : result TraceCollection := Eval vm_compute in trace_run.1.1.
Definition trace_collected : TraceCollection :=
  match trace_result with
  | inr c => c
  | inl _ => collection_of [] [] [] [] (summary_of []) {| tb_deadline := float_zero; tb_commands := 0; tb_metadata := 0; tb_source := 0 |}
  end.
Example one_span_collected :
  trace_run.1.1 = inr trace_collected /\ commands_used trace_collected = 5 /\ len (tc_spans trace_collected) = 1.
Proof. vm_compute. split_and!; reflexivity. Qed.

Lemma trace_runs :
  runs (trace_collect "kubectl" "config" [trace_scope]) trace_run.2 (inr trace_collected).
Proof. apply played. apply one_span_collected. Qed.

Lemma commands_reserved_witness :
  exists tr, runs (trace_collect "kubectl" "config" [trace_scope]) tr (inr trace_collected) /\
    (total (R:=trace_answer) is_command tr <= 8)%nat /\
    commands_used trace_collected = Z.of_nat (total (R:=trace_answer) is_command tr).
Proof.
  exists trace_run.2. split; [exact trace_runs|].
  destruct (commands_reserved "kubectl" "config" [trace_scope] trace_run.2 (inr trace_collected) trace_runs) as (Hle & _ & Hc).
  split; [exact Hle|]. apply (Hc trace_collected eq_refl).
Defined.

Lemma collection_pinned_witness :
  exists tr captures, Forall (fun l => exists scope, scope ∈ [trace_scope] /\ pinned "kubectl" "config" tr scope l) captures /\
    length captures = 1%nat.
Proof.
  destruct (collection_pinned "kubectl" "config" [trace_scope] trace_run.2 trace_collected trace_runs)
    as (captures & Hp & Hr & _).
  exists trace_run.2, captures. split; [exact Hp|]. rewrite (Forall2_length _ _ _ Hr). vm_compute. reflexivity.
Defined.

(** Two spans, one the parent of the other, recorded twice *)
Definition a_span (id : string) (parent : option string) : SourceSpan :=
  {| span_name := "sandbox.payments"; trace_id := "0xa"; span_id := id; parent_id := parent; kind := SERVER;
     start_time := 0; end_time := 1; span_status := OK; service_name := "payops-sandbox-payments" |}.
Example summaries :
  summarize_graph [a_span "0x1" None; a_span "0x2" (Some "0x1"); a_span "0x2" (Some "0x1"); a_span "0x3" (Some "0x9")] =
    inr {| span_count := 3; trace_count := 1; resolved_parent_edges := 1; unresolved_parent_edges := 1;
           null_parents := 1; duplicate_records := 1 |} /\
  summarize_graph [a_span "0x1" (Some "0x2"); a_span "0x2" (Some "0x1")] =
    inl (EvidenceIntegrityError "trace parent cycle").
Proof. vm_compute. split; reflexivity. Qed.
